(* ===== verification/_CoqProject ===== *)
-Q . S2P
Prelude.v
Text.v
Platform.v
Process.v
Database.v
Schema.v
Identity.v
InstanceKeys.v
InstanceRegistry.v
ServiceRequests.v
ReplayProtection.v
Admission.v
RequestGate.v
RequestNames.v
Authority.v
PostgresAuthority.v
Subscriptions.v
Requests.v
WorkClaims.v
Handshakes.v
Enrollment.v
TokenReviewer.v
HttpText.v
HttpParsing.v
HttpWire.v
HttpDto.v
PolicyClient.v
Wiring.v
Http.v
HttpHistory.v
HttpSafety.v
HttpServices.v
HttpResponses.v
HttpLiveness.v
Administration.v
SchemaStatus.v
Startup.v
Registrar.v
Constraints.v
Reconciliation.v
Deployment.v
Serving.v
StatusBlind.v
Consistency.v
Programs.v
Witnesses.v
BoundaryWitnesses.v
RegistrarWitnesses.v
DeploymentWitnesses.v
ServingWitnesses.v
ConsistencyWitnesses.v
