(* ===== verification/Prelude.v ===== *)
(** * infernal-law: a verification development for the governance kernel

    infernal-law is a Rust service, the governance kernel, through which services
    exchange requests. A caller signs its HTTP request with the key of a leased
    service instance; the kernel authenticates it, refuses replays, checks that
    the source may communicate, stores the request, materializes a route per
    matching subscription, and lets workers claim routes under a fencing token.
    Schemas, grants and recorded decisions say what may be asked for. All durable
    state is in PostgreSQL.

    ** How the model corresponds to the source

    - Each file models one source module of [src/kernel/] together with its
      adapter in [src/infrastructure/] and the statements, constraints and
      triggers of [src/migrations/] that the adapter meets:
      - [Identity]: [identity.rs], [postgres_identity_repository.rs];
      - [InstanceKeys]: [instance_keys.rs];
      - [InstanceRegistry]: [instance_registry.rs], [postgres_instance_registry.rs];
      - [ServiceRequests]: [service_requests.rs];
      - [ReplayProtection]: [replay_protection.rs],
        [postgres_replay_protection_repository.rs];
      - [Admission]: [admission.rs], [postgres_admission_repository.rs];
      - [RequestGate]: [request_gate.rs];
      - [RequestNames], [Requests]: [requests.rs], [postgres_request_repository.rs],
        [postgres_route_repository.rs];
      - [Authority]: [authority.rs]; [PostgresAuthority]:
        [postgres_authority_repository.rs];
      - [Subscriptions]: [subscriptions.rs], [postgres_subscription_repository.rs];
      - [WorkClaims]: [work_claims.rs], [postgres_work_claim_repository.rs];
      - [Handshakes]: [handshakes.rs], [postgres_handshake_repository.rs],
        [postgres_subscribed_instance_discovery.rs];
      - [Enrollment]: [enrollment.rs], [postgres_enrollment_binding_repository.rs]
        and the reading of a token review; [TokenReviewer]: the configuration and the
        request of [kubernetes_token_reviewer.rs];
      - [PolicyClient]: [http_policy_evaluator.rs]; [Wiring]: [wiring.rs].
    - The other programs and the life of a deployment: [Administration] has the
      statements of administrators (the upserts of [bin/registrar.rs], the procedures
      of migrations 0007, 0012 and 0019, the privileges of [registrar/role.sql]),
      [Registrar] the tool [bin/registrar.rs] and [Reconciliation] its theorems;
      [Startup] has [database.rs], the rows the migrations insert,
      [Application::from_env] of [wiring.rs] and the start of [main.rs]; [Deployment]
      composes startup, registrar and kernel; [Serving] has [serve] of [http.rs] and
      the whole of [main.rs].
    - The database as the migrations declare it: [SchemaStatus] has the procedure of
      migration 0010 that changes the status of a schema version, with its trigger and
      its audit; [Constraints] has the CHECK, UNIQUE and REFERENCES rules table by
      table and shows that every statement of the kernel keeps them; [Consistency] has
      everything that writes to the database as one step relation, [database_step],
      and what holds of every database that it reaches from an empty one;
      [Programs] has whole runs of the programs and the procedures of administrators as
      [deployment_step];
      [StatusBlind] compares what two databases are answered with.
    - [http.rs] and [src/http/] take several files: [HttpText] ([str] operations),
      [HttpParsing] (from the bytes of a connection to a signed request), [HttpDto]
      (the data transfer objects), [Http] (errors to responses, one definition per
      handler, [dispatch], [handle_connection]); [HttpHistory] walks through all of them
      once, for any relation between tables that the operations of the repositories
      respect (the class [CallerOperations]); theorems about their composition
      with the kernel are in [HttpWire], [HttpSafety], [HttpServices],
      [HttpResponses] and [HttpLiveness]. A handler is a [Db] computation whose
      errors are the responses the code returns early with, so that an early
      return ends the handler as it does in the source.
    - [Schema] has the tables, [Database] the computations over them, [Text] the
      [str] operations of Rust, [Platform] the third-party crates, [Process] the
      environment, the files and the HTTP client. [Witnesses], [BoundaryWitnesses],
      [RegistrarWitnesses], [DeploymentWitnesses], [ServingWitnesses] and
      [ConsistencyWitnesses] have the theorems at concrete inputs.
    - A Rust method [T::f] is the definition [T_f], a variant [E::V] the
      constructor [E_V], a field [x] of a struct a projection with the name of
      the struct or its table as prefix, an SQL statement a definition that ends
      in [_sql] from the tables to the answer and the new tables, or to the error
      PostgreSQL would raise. A trait with several implementations is a [Record]
      of operations ([InstanceRegistryRepository], [WorkClaimRepository], ...) or
      a [Class] where another component is generic over it
      ([EligibleInstanceResolver], [SignatureVerification], [ReplayReserver],
      [CommunicationAdmissionCheck]).
    - [Result] is Rust's. A 64-bit integer is a [Z] with its range and its
      wrap-around or checked operations written out ([in_i64], [wrapping_add],
      [checked_add]); a [&str] and a byte array are the string of their bytes.

    ** State, transactions and faults

    [Db S E A] ([Database]) runs over the durable tables, the tables of the open
    transaction, a schedule of faults and a supply of outside values (random
    identifiers, readings of the server's clock). A fault is a refused
    connection, a failing statement, a failing commit, or a commit whose
    acknowledgement is lost. Every theorem that speaks of all runs quantifies
    over the schedule and the supply: nothing assumes that random identifiers
    are new or that the clock advances. A transaction
    is one step with respect to those of other threads: the row locks
    ([FOR UPDATE]), unique indexes and advisory locks of the source are what orders
    competing transactions. A statement that runs outside a transaction, as all of
    the registrar's do, commits by itself. [serve_incoming] takes the accepted
    connections one by one; what other threads do between two transactions of one of
    them is covered by [serving], one guarded operation of some thread, whose
    reflexive and transitive closure has every alternation.

    [history R m] says that all tables a run of [m] ever makes durable are
    related by [R] to the tables it started from; [atomic ok m] that a run
    makes at most one change, all of it. These two carry the invariants under
    faults; sequences of operations are lists or reachability relations
    ([replay_run], [claim_op], ...).

    ** What the theorems show

    - Who is let in ([ServiceRequests], [RequestGate]): verification accepts
      exactly the requests that an eligible key signed, the signature base and
      the fingerprint determine the request up to a digest collision, and the
      gate admits only fresh, authentic requests of enabled sources.
    - No replay ([ReplayProtection]): a nonce is accepted once and a request id
      is bound to one content, in any sequence of reservations; the reservation
      refines a specification over the stored nonces and bindings.
    - Requests and routes ([Requests]): acceptance on every branch, safe retries
      after a lost acknowledgement, permanence, at most one route per match.
    - Work claims ([WorkClaims]): the tables implement a lock per route with
      increasing tokens ([claim_refines]); exclusion, fencing of stale holders
      and permanence of completion over all histories.
    - Authority ([PostgresAuthority]): authorization fails closed, the SQL grant
      filter is [Grant::permits], schema publication keeps ownership and chains.
    - Identities, instances, subscriptions ([Identity], [InstanceRegistry],
      [Subscriptions]): forward-only histories, compare-and-swap of leases,
      isolation between services.
    - Trust in instances ([Enrollment], [Handshakes], [PolicyClient]): an instance
      is registered only for an enabled binding of its workload and with a proof
      of its key, a challenge is used once, an honest workload succeeds;
      a handshake is recorded only with the signature of the challenged key and
      completes once; an evaluation is only an answer to the question asked.
    - The boundary as a whole: a request deletes nothing, adds only rows of its
      authenticated caller, and changes only those, the claims it presents the tokens
      of, and expired claims of routes to the caller ([HttpSafety]); submission, routing, listing and lookup keep the
      promises of the components they compose ([HttpServices]); every connection
      gets one of a fixed list of responses ([HttpResponses]); what an enrolled
      client signs and sends arrives unchanged and is served ([HttpWire],
      [HttpLiveness]). A renewal, release or completion names its claim by claim
      id and fencing token alone, whoever calls; the theorem on callers says so, and
      [token_completes_claim] that it is enough.
    - Reading ([HttpParsing]): the loop over portions of a stream is a parser of
      the bytes, it ends on every stream, and it reads a bounded number of bytes.
    - The registrar ([Reconciliation]): what a successful run establishes, that the
      next run changes nothing of it, what pruning withdraws, that no run leaves the
      registrar's role; and two ways in which it does not do what it means to.
    - Startup ([Startup]): the migrations run as a whole or not at all, an application
      is built only on a migrated database, a restart changes nothing.
    - The deployment ([Deployment], [Serving]): what a manifest grants is allowed
      and recorded, unless a grant of another kind was there before, a listed workload is challenged, an enrollment over HTTP is confirmed
      by Kubernetes; whatever the alternation of threads, administration is untouched,
      nothing accepted is lost, claimed work was allowed; the process answers every
      connection it accepts.
    - The database ([Consistency], [Programs], [StatusBlind]): whatever the programs do is
      a sequence of the steps of the database; the rules of the migrations hold of
      every database that can be reached, no read of the kernel trips over what is
      stored, the
      status of every schema version is explained by its audit; and no answer of the
      kernel depends on that status.

    ** Bounds and fuel

    Every operation is structurally recursive or iterates over a list, but for the
    two reading loops of [read_request]. Those take fuel: every iteration reads at
    least one byte, [header_fuel] is one more than the 8193 bytes with which the
    header loop stops, [body_fuel] one more than the largest body;
    [read_request_terminates] shows that the result is there and that more fuel
    does not change it. Lengths, lease bounds and clock skews are the constants of
    the source. Theorems that need an instant or a revision in the range of [i64]
    say so.

    ** What is taken from elsewhere

    SHA-256, Ed25519, base64 and UUID parsing are the fields of the class
    [Platform]; [PlatformLaws] has their documented behaviour (lengths, round
    trips, a signature by a key verifies). Nothing assumes that digests are
    injective or signatures unforgeable: the theorems that would need it name
    the collision or the signature instead. [Platform.Reference] is a concrete
    instance that satisfies the laws. The policy evaluator,
    the Kubernetes API and the JSON codec are any functions. PostgreSQL may evaluate
    the volatile uuid argument of the registrar's grant statement more often than
    once; how often is the parameter [extra_evaluations].

    ** Not modelled

    In the threads of the listener: timeouts, panics and the recovery from them, and a
    write that fails. The JSON codec, which the class [Serde] and the parameters of
    [Registrar], [TokenReviewer] and [PolicyClient] stand for; TLS and the inside of
    the HTTP client; the inside of the connection pool, which is where a connection
    comes from. The statements of the migrations that create tables, indexes,
    functions and triggers, and the states of a database between two migrations: every
    table is there from the start, and its rules are written out in the operations that
    meet them and in [Constraints]. Transactions that overlap in time, below the step of one
    transaction. The byte 0 in a text column, which PostgreSQL refuses and the model stores.
    Variables and files of the kernel process that change while it runs; what
    the policy evaluator and Kubernetes answer does change, from connection to connection
    ([Surroundings]). The requirement descriptors, which have no behaviour. *)

From Stdlib Require Export ZArith Lia.

From stdpp Require Export base numbers list strings gmap fin_maps.

(** ** Results: Rust's [Result<A, E>] *)

Inductive Result (E A : Type) : Type :=
| Ok (a : A)
| Err (e : E).
Arguments Ok {E A} a.
Arguments Err {E A} e.

#[export] Instance result_ret {E} : MRet (Result E) := fun A a => Ok a.
#[export] Instance result_bind {E} : MBind (Result E) :=
  fun A B k r => match r with Ok a => k a | Err e => Err e end.

#[export] Instance result_fmap {E} : FMap (Result E) :=
  fun A B f r => match r with Ok a => Ok (f a) | Err e => Err e end.

#[export] Instance result_eq_dec {E A} `{EqDecision E, EqDecision A} : EqDecision (Result E A).
Proof. solve_decision. Defined.

(** [Option::ok_or] *)
Definition ok_or {E A} (e : E) (o : option A) : Result E A :=
  match o with Some a => Ok a | None => Err e end.

(** [Result::map_err] on a value *)
Definition result_map_err {E E' A} (f : E -> E') (r : Result E A) : Result E' A :=
  match r with Ok a => Ok a | Err e => Err (f e) end.

Definition is_ok {E A} (r : Result E A) : bool :=
  match r with Ok _ => true | Err _ => false end.

(** [iter().map(f).collect::<Result<Vec<_>, _>>()]: the first error wins *)
Fixpoint collect {E A B} (f : A -> Result E B) (rows : list A) : Result E (list B) :=
  match rows with
  | [] => Ok []
  | row :: rows => x ← f row; xs ← collect f rows; Ok (x :: xs)
  end.

Lemma result_bind_Ok {E A B} (r : Result E A) (k : A -> Result E B) b :
  r ≫= k = Ok b <-> exists a, r = Ok a /\ k a = Ok b.
Proof. destruct r as [a|e]; simpl; unfold mbind, result_bind; naive_solver. Qed.

Lemma result_bind_run {E A B} (a : A) (k : A -> Result E B) : Ok a ≫= k = k a.
Proof. done. Qed.

Lemma ok_or_Ok {E A} (e : E) (o : option A) a : ok_or e o = Ok a <-> o = Some a.
Proof. destruct o; naive_solver. Qed.

Lemma result_map_err_Ok {E E' A} (f : E -> E') (r : Result E A) a :
  result_map_err f r = Ok a <-> r = Ok a.
Proof. destruct r; naive_solver. Qed.

Lemma option_bind_Some {A B} (o : option A) (k : A -> option B) b :
  o ≫= k = Some b <-> exists a, o = Some a /\ k a = Some b.
Proof. apply bind_Some. Qed.

(** Inverts a successful computation into the facts about its steps. *)
Ltac result_step :=
  match goal with
  | H : mbind _ _ = Ok _ |- _ => apply result_bind_Ok in H as (? & ? & H)
  | H : mbind _ _ = Some _ |- _ => apply option_bind_Some in H as (? & ? & H)
  | H : ok_or _ _ = Ok _ |- _ => apply ok_or_Ok in H
  | H : result_map_err _ _ = Ok _ |- _ => apply result_map_err_Ok in H
  | H : Ok _ = Ok _ |- _ => injection H as H; subst
  | H : Some _ = Some _ |- _ => injection H as H; subst
  | H : Err _ = Ok _ |- _ => discriminate H
  | H : None = Some _ |- _ => discriminate H
  | H : (if ?b then Err _ else _) = Ok _ |- _ => destruct b eqn:?; [discriminate H|]
  | H : (if ?b then _ else Err _) = Ok _ |- _ => destruct b eqn:?; [|discriminate H]
  | H : (let '(_, _) := ?p in _) = Ok _ |- _ => destruct p eqn:?; simpl in H
  | H : (let '(_, _) := ?p in _) = Some _ |- _ => destruct p eqn:?; simpl in H
  end.
Ltac result_inv := repeat result_step.

Lemma collect_Ok {E A B} (f : A -> Result E B) rows xs :
  collect f rows = Ok xs -> Forall2 (fun row x => f row = Ok x) rows xs.
Proof.
  revert xs; induction rows as [|row rows IH]; intros xs; simpl.
  - intros [= <-]. constructor.
  - intros H. result_inv. constructor; auto.
Qed.

(** The elements of a collected list *)
Lemma collect_elem_of {E A B} (f : A -> Result E B) rows xs x :
  collect f rows = Ok xs -> x ∈ xs <-> exists row, row ∈ rows /\ f row = Ok x.
Proof.
  intros Hall%collect_Ok. rewrite list_elem_of_lookup. split.
  - intros [i Hi]. destruct (Forall2_lookup_r _ _ _ _ _ Hall Hi) as (row & Hrow & Hx).
    eauto using list_elem_of_lookup_2.
  - intros (row & Hin & Hx). apply list_elem_of_lookup in Hin as [i Hi].
    destruct (Forall2_lookup_l _ _ _ _ _ Hall Hi) as (x' & Hi' & Hx'). exists i. congruence.
Qed.

(** Nothing fails: one result for each row *)
Lemma collect_total {E A B} (f : A -> Result E B) rows :
  (forall row, row ∈ rows -> is_ok (f row) = true) ->
  exists xs, collect f rows = Ok xs /\ length xs = length rows.
Proof.
  induction rows as [|row rows IH]; intros H; [by exists []|]. cbn [collect].
  destruct (f row) as [x|] eqn:Hx; [|specialize (H row); rewrite Hx in H; by discriminate H; left].
  destruct IH as (xs & -> & Hl); [intros r Hr; apply H; by right|]. exists (x :: xs). simpl. auto.
Qed.

(** ** Signed 64-bit integers

    Timestamps, revisions and fencing tokens are [i64] in the source. They are
    modelled as [Z]; the three ways the source adds them are written out. *)

Definition i64_min : Z := (- 2 ^ 63)%Z.
Definition i64_max : Z := (2 ^ 63 - 1)%Z.
Definition in_i64 (z : Z) : Prop := (i64_min <= z <= i64_max)%Z.
Definition i64_fits (z : Z) : bool := ((i64_min <=? z) && (z <=? i64_max))%Z.

(** [i64::checked_add] *)
Definition checked_add (a b : Z) : option Z :=
  if i64_fits (a + b) then Some (a + b)%Z else None.

(** [i64::saturating_add] *)
Definition saturating_add (a b : Z) : Z := Z.max i64_min (Z.min i64_max (a + b)).

(** The two's complement wrap of [+] in a release build. *)
Definition wrapping_add (a b : Z) : Z := ((a + b + 2 ^ 63) mod 2 ^ 64 - 2 ^ 63)%Z.

Lemma i64_fits_spec z : i64_fits z = true <-> in_i64 z.
Proof. unfold i64_fits, in_i64. rewrite andb_true_iff, !Z.leb_le. done. Qed.

Lemma checked_add_Some a b c : checked_add a b = Some c <-> c = (a + b)%Z /\ in_i64 c.
Proof.
  unfold checked_add. rewrite <-i64_fits_spec.
  destruct (i64_fits (a + b)) eqn:Hf; naive_solver congruence.
Qed.

Lemma checked_add_None a b : checked_add a b = None <-> ~ in_i64 (a + b)%Z.
Proof.
  unfold checked_add. rewrite <-i64_fits_spec. destruct (i64_fits (a + b)); naive_solver.
Qed.

Lemma saturating_add_le a b c :
  in_i64 a -> in_i64 c -> (saturating_add a b <= c <-> a + b <= c \/ c = i64_max)%Z.
Proof. unfold saturating_add, in_i64, i64_min, i64_max. lia. Qed.

Lemma saturating_add_exact a b : in_i64 (a + b)%Z -> saturating_add a b = (a + b)%Z.
Proof. unfold saturating_add, in_i64, i64_min, i64_max. lia. Qed.

Lemma saturating_add_in_i64 a b : in_i64 (saturating_add a b).
Proof. unfold saturating_add, in_i64, i64_min, i64_max. lia. Qed.

Lemma wrapping_add_exact a b : in_i64 (a + b)%Z -> wrapping_add a b = (a + b)%Z.
Proof.
  unfold wrapping_add, in_i64, i64_min, i64_max. intros H.
  rewrite Z.mod_small; lia.
Qed.

(** ** Automation *)

Create HintDb kernel.
#[export] Hint Unfold in_i64 i64_min i64_max : kernel.

(** Turns boolean guards of the source into arithmetic facts. *)
Ltac bool_facts :=
  repeat match goal with
  | H : context [(?x <? ?y)%Z] |- _ => destruct (Z.ltb_spec x y)
  | H : context [(?x <=? ?y)%Z] |- _ => destruct (Z.leb_spec x y)
  | H : (_ && _)%bool = true |- _ => apply andb_true_iff in H as [? ?]
  | H : (_ || _)%bool = false |- _ => apply orb_false_iff in H as [? ?]
  | H : negb _ = true |- _ => apply negb_true_iff in H
  | H : negb _ = false |- _ => apply negb_false_iff in H
  | H : true = false |- _ => discriminate H
  | H : false = false |- _ => clear H
  | H : true = true |- _ => clear H
  | H : false = true |- _ => discriminate H
  end.

(** Splits the next guard of an operation that returned a known result. *)
Ltac split_guard H :=
  match type of H with
  | context [if ?b then _ else _] => destruct b eqn:?; simplify_eq/=
  | context [match ?x with _ => _ end] => destruct x eqn:?; simplify_eq/=
  end.

Ltac split_guards H := repeat split_guard H.
