(* ===== verification/Text.v ===== *)
(** * Text: the [str] operations of the source

    A Rust [&str] (and a [&[u8]]) is the Rocq [string] of its bytes: a
    character of the [string] is one byte. The operations below are the ones of
    Rust's standard library that the kernel calls, with the lemmas the parsers
    and the signed formats need. *)

From S2P Require Import Prelude.
From Stdlib Require Import Ascii DecimalString DecimalZ.

(** Bytes are bytes: [Vec<u8>] and [[u8; N]] are strings too. *)
Notation bytes := string (only parsing).

Definition byte_of (c : ascii) : N := N_of_ascii c.

(** The two characters that cannot be written directly in a literal here. *)
Definition quote_char : ascii := "034"%char.
Definition newline_char : ascii := "010"%char.
Definition dq : string := String quote_char EmptyString.
Definition nl : string := String newline_char EmptyString.
Definition crlf : string := String "013"%char nl.

(** ** Characters *)

Definition in_range (lo hi : N) (c : ascii) : bool :=
  ((lo <=? byte_of c) && (byte_of c <=? hi))%N.

Definition is_ascii_digit : ascii -> bool := in_range 48 57.
Definition is_ascii_uppercase : ascii -> bool := in_range 65 90.
Definition is_ascii_lowercase : ascii -> bool := in_range 97 122.
Definition is_ascii_alphabetic (c : ascii) : bool :=
  is_ascii_uppercase c || is_ascii_lowercase c.
Definition is_ascii_alphanumeric (c : ascii) : bool :=
  is_ascii_alphabetic c || is_ascii_digit c.
Definition is_char (c d : ascii) : bool := Ascii.eqb c d.

(** ** Strings *)

(** [value.bytes().all(f)] *)
Fixpoint all_bytes (f : ascii -> bool) (s : string) : bool :=
  match s with EmptyString => true | String c s => f c && all_bytes f s end.

(** [value.bytes().any(f)] *)
Fixpoint any_byte (f : ascii -> bool) (s : string) : bool :=
  match s with EmptyString => false | String c s => f c || any_byte f s end.

Definition is_empty (s : string) : bool :=
  match s with EmptyString => true | _ => false end.

(** [str::len], in bytes *)
Definition len (s : string) : Z := Z.of_nat (String.length s).

Definition byte_eqb (a b : ascii) : bool := Ascii.eqb a b.

(** [str::strip_prefix] *)
Fixpoint strip_prefix (p s : string) : option string :=
  match p, s with
  | EmptyString, _ => Some s
  | String a p, String b s => if Ascii.eqb a b then strip_prefix p s else None
  | String _ _, EmptyString => None
  end.

Definition starts_with (p s : string) : bool :=
  match strip_prefix p s with Some _ => true | None => false end.

Fixpoint reverse (s : string) : string :=
  match s with EmptyString => EmptyString | String c s => reverse s +:+ String c EmptyString end.

(** [str::strip_suffix] *)
Definition strip_suffix (p s : string) : option string :=
  reverse <$> strip_prefix (reverse p) (reverse s).

Definition ends_with (p s : string) : bool :=
  match strip_suffix p s with Some _ => true | None => false end.

(** [str::split_once]: the first occurrence of the delimiter *)
Fixpoint split_once (d s : string) : option (string * string) :=
  match strip_prefix d s with
  | Some r => Some (EmptyString, r)
  | None =>
      match s with
      | EmptyString => None
      | String c s => '(l, r) ← split_once d s; Some (String c l, r)
      end
  end.

Definition contains (d s : string) : bool :=
  match split_once d s with Some _ => true | None => false end.

(** [str::split] on a character: always at least one piece *)
Fixpoint split_char (d : ascii) (s : string) : list string :=
  match s with
  | EmptyString => [EmptyString]
  | String c s =>
      if Ascii.eqb c d then EmptyString :: split_char d s
      else match split_char d s with
           | p :: ps => String c p :: ps
           | [] => [String c EmptyString]
           end
  end.

(** [char::is_whitespace] on the UTF-8 encodings: the prefix of [s] that is one
    whitespace character, removed. *)
Definition strip_white_space (s : string) : option string :=
  match s with
  | String a s1 =>
      if in_range 9 13 a || in_range 32 32 a then Some s1
      else match s1 with
           | String b s2 =>
               if in_range 194 194 a && (in_range 133 133 b || in_range 160 160 b) then Some s2
               else match s2 with
                    | String c s3 =>
                        if (in_range 225 225 a && in_range 154 154 b && in_range 128 128 c)
                           || (in_range 226 226 a && in_range 128 128 b
                               && (in_range 128 138 c || in_range 168 169 c || in_range 175 175 c))
                           || (in_range 226 226 a && in_range 129 129 b && in_range 159 159 c)
                           || (in_range 227 227 a && in_range 128 128 b && in_range 128 128 c)
                        then Some s3 else None
                    | EmptyString => None
                    end
           | EmptyString => None
           end
  | EmptyString => None
  end.

Fixpoint trim_start_fuel (fuel : nat) (s : string) : string :=
  match fuel with
  | O => s
  | S fuel => match strip_white_space s with Some r => trim_start_fuel fuel r | None => s end
  end.

(** [str::trim_start]: every character is at least one byte, so the length is fuel enough. *)
Definition trim_start (s : string) : string := trim_start_fuel (String.length s) s.

(** Whether every character of the valid UTF-8 text [s] is whitespace. *)
Definition all_white_space (s : string) : bool := is_empty (trim_start s).

(** [str::trim_end]: cut at the first position from which only whitespace is
    left. Continuation bytes never start a whitespace encoding, so the cut is at
    a character boundary. *)
Fixpoint trim_end (s : string) : string :=
  if all_white_space s then EmptyString
  else match s with EmptyString => EmptyString | String c s => String c (trim_end s) end.

(** [str::trim] *)
Definition trim (s : string) : string := trim_end (trim_start s).

(** [str::chars().count()]: the bytes that are not UTF-8 continuation bytes *)
Fixpoint chars_count (s : string) : Z :=
  match s with
  | EmptyString => 0
  | String c s => (if in_range 128 191 c then 0 else 1) + chars_count s
  end%Z.

(** [str::to_ascii_lowercase] *)
Definition ascii_lowercase (c : ascii) : ascii :=
  if is_ascii_uppercase c then ascii_of_N (byte_of c + 32) else c.
Fixpoint to_ascii_lowercase (s : string) : string :=
  match s with
  | EmptyString => EmptyString
  | String c s => String (ascii_lowercase c) (to_ascii_lowercase s)
  end.

Definition eq_ignore_ascii_case (a b : string) : bool :=
  bool_decide (to_ascii_lowercase a = to_ascii_lowercase b).

(** ** Decimal integers *)

(** [Display] of an [i64] *)
Definition show_i64 (z : Z) : string := NilZero.string_of_int (Z.to_int z).

(** [str::parse::<i64>]: an optional sign, at least one digit, no overflow *)
Definition parse_i64 (s : string) : option Z :=
  let digits s := (fun d => Z.of_uint d) <$> NilZero.uint_of_string s in
  z ← match s with
      | String c r =>
          if is_char "+" c then digits r
          else if is_char "-" c then Z.opp <$> digits r
          else digits s
      | EmptyString => None
      end;
  if i64_fits z then Some z else None.

(** [str::parse::<usize>] on a 64-bit target *)
Definition usize_max : Z := (2 ^ 64 - 1)%Z.
Definition parse_usize (s : string) : option Z :=
  let digits s := (fun d => Z.of_uint d) <$> NilZero.uint_of_string s in
  z ← match s with
      | String c r => if is_char "+" c then digits r else digits s
      | EmptyString => None
      end;
  if (z <=? usize_max)%Z then Some z else None.

(** ** Lemmas *)

Lemma ascii_eqb_spec a b : Ascii.eqb a b = bool_decide (a = b).
Proof. case_bool_decide; [by apply Ascii.eqb_eq | by apply Ascii.eqb_neq]. Qed.

Lemma app_cons c s t : String c s +:+ t = String c (s +:+ t).
Proof. done. Qed.

Lemma app_empty_l s : EmptyString +:+ s = s.
Proof. done. Qed.

Lemma app_empty_r s : s +:+ EmptyString = s.
Proof. induction s as [|c s IH]; [done | by rewrite app_cons, IH]. Qed.

Lemma string_app_assoc a b c : (a +:+ b) +:+ c = a +:+ (b +:+ c).
Proof. induction a as [|x a IH]; [done | by rewrite !app_cons, IH]. Qed.

Lemma length_string_app a b : String.length (a +:+ b) = String.length a + String.length b.
Proof. induction a as [|x a IH]; [done | rewrite app_cons; simpl; by rewrite IH]. Qed.

Lemma string_app_inj_l a x y : a +:+ x = a +:+ y -> x = y.
Proof. induction a as [|c a IH]; [done | rewrite !app_cons; intros [=]; auto]. Qed.

Lemma string_app_inj_length a a' x y :
  String.length a = String.length a' -> a +:+ x = a' +:+ y -> a = a' /\ x = y.
Proof.
  revert a'; induction a as [|c a IH]; intros [|c' a'] Hl; try discriminate Hl; [done|].
  rewrite !app_cons. intros [= -> H]. destruct (IH a') as [-> ->]; auto.
Qed.

Lemma string_app_inj_r a b x : a +:+ x = b +:+ x -> a = b.
Proof.
  intros H. assert (String.length a = String.length b) as Hl.
  { apply (f_equal String.length) in H. rewrite !length_string_app in H. lia. }
  by destruct (string_app_inj_length _ _ _ _ Hl H).
Qed.

Lemma reverse_app a b : reverse (a +:+ b) = reverse b +:+ reverse a.
Proof.
  induction a as [|c a IH]; [by rewrite app_empty_r|].
  rewrite app_cons. simpl. by rewrite IH, string_app_assoc.
Qed.

Lemma reverse_involutive s : reverse (reverse s) = s.
Proof. induction s as [|c s IH]; [done|]. simpl. by rewrite reverse_app, IH. Qed.

Lemma strip_prefix_Some p s r : strip_prefix p s = Some r <-> s = p +:+ r.
Proof.
  revert s; induction p as [|a p IH]; intros s; simpl.
  - rewrite app_empty_l. naive_solver.
  - destruct s as [|b s]; [split; [done | discriminate]|].
    rewrite app_cons, ascii_eqb_spec. case_bool_decide as Hab.
    + rewrite IH. naive_solver.
    + split; [done | congruence].
Qed.

Lemma strip_prefix_app p r : strip_prefix p (p +:+ r) = Some r.
Proof. by apply strip_prefix_Some. Qed.

Lemma strip_suffix_Some p s r : strip_suffix p s = Some r <-> s = r +:+ p.
Proof.
  unfold strip_suffix. rewrite fmap_Some. setoid_rewrite strip_prefix_Some. split.
  - intros (x & Hx & ->). by rewrite <-(reverse_involutive s), Hx, reverse_app, !reverse_involutive.
  - intros ->. exists (reverse r). by rewrite reverse_app, reverse_involutive.
Qed.

Lemma strip_suffix_app p r : strip_suffix p (r +:+ p) = Some r.
Proof. by apply strip_suffix_Some. Qed.

Lemma starts_with_spec p s : starts_with p s = true <-> exists r, s = p +:+ r.
Proof.
  unfold starts_with. destruct (strip_prefix p s) as [r|] eqn:H.
  - apply strip_prefix_Some in H. naive_solver.
  - split; [done|]. intros [r Hr]. apply strip_prefix_Some in Hr. congruence.
Qed.

Lemma split_once_Some d s l r : split_once d s = Some (l, r) -> s = l +:+ d +:+ r.
Proof.
  revert l; induction s as [|c s IH]; intros l; cbn [split_once].
  - destruct (strip_prefix d EmptyString) eqn:H; [|done].
    apply strip_prefix_Some in H. intros [= <- <-]. by rewrite app_empty_l.
  - destruct (strip_prefix d (String c s)) eqn:H.
    + apply strip_prefix_Some in H. intros [= <- <-]. by rewrite app_empty_l.
    + destruct (split_once d s) as [[l' r']|]; [|done].
      simpl. intros [= <- <-]. rewrite app_cons. by rewrite (IH l').
Qed.

Lemma all_bytes_app f a b : all_bytes f (a +:+ b) = all_bytes f a && all_bytes f b.
Proof. induction a as [|c a IH]; [done|]. rewrite app_cons. simpl. by rewrite IH, andb_assoc. Qed.

Lemma all_bytes_mono (f g : ascii -> bool) s :
  (forall c, f c = true -> g c = true) -> all_bytes f s = true -> all_bytes g s = true.
Proof.
  intros Hfg. induction s as [|c s IH]; [done|]. simpl. rewrite !andb_true_iff. intuition.
Qed.

Lemma any_byte_negb f s : any_byte f s = negb (all_bytes (fun c => negb (f c)) s).
Proof. induction s as [|c s IH]; [done|]. simpl. rewrite IH. by destruct (f c). Qed.

(** [s] does not contain the byte [c]. *)
Definition free_of (c : ascii) (s : string) : Prop :=
  all_bytes (fun x => negb (Ascii.eqb x c)) s = true.

Lemma free_of_app c a b : free_of c (a +:+ b) <-> free_of c a /\ free_of c b.
Proof. unfold free_of. by rewrite all_bytes_app, andb_true_iff. Qed.

Lemma free_of_class (f : ascii -> bool) c s :
  f c = false -> all_bytes f s = true -> free_of c s.
Proof.
  intros Hc. apply all_bytes_mono. intros x Hx. rewrite ascii_eqb_spec.
  case_bool_decide; [congruence | done].
Qed.

Lemma split_once_first c d l r :
  free_of c l -> split_once (String c d) (l +:+ String c d +:+ r) = Some (l, r).
Proof.
  unfold free_of. induction l as [|x l IH]; intros H.
  - rewrite app_empty_l. rewrite app_cons. cbn [split_once].
    by rewrite <-app_cons, strip_prefix_app.
  - simpl in H. apply andb_true_iff in H as [Hx Hl]. rewrite app_cons. cbn [split_once].
    cbn [strip_prefix]. rewrite ascii_eqb_spec in Hx |- *.
    rewrite bool_decide_eq_false_2 by (intros ->; by rewrite bool_decide_true in Hx).
    by rewrite IH.
Qed.

Lemma split_once_free c s l r : split_once (String c EmptyString) s = Some (l, r) -> free_of c l.
Proof.
  unfold free_of. revert l. induction s as [|x s IH]; intros l; cbn [split_once strip_prefix]; [done|].
  rewrite ascii_eqb_spec. case_bool_decide as Hx; [by intros [= <- <-]|].
  destruct (split_once _ s) as [[l' r']|]; [|done]. simpl. intros [= <- <-].
  cbn [all_bytes]. rewrite ascii_eqb_spec, bool_decide_false by congruence. by rewrite (IH l').
Qed.

(** Fields that do not contain the separator can be read back. *)
Lemma separator_inj c a a' x y :
  free_of c a -> free_of c a' -> a +:+ String c x = a' +:+ String c y -> a = a' /\ x = y.
Proof.
  intros Ha Ha' H.
  pose proof (split_once_first c EmptyString a x Ha) as H1.
  pose proof (split_once_first c EmptyString a' y Ha') as H2.
  rewrite !app_cons, !app_empty_l in H1, H2. rewrite H in H1. naive_solver.
Qed.

Lemma uint_not_nil z : (0 <= z)%Z -> exists d, Z.to_int z = Decimal.Pos d /\ d <> Decimal.Nil.
Proof.
  destruct z as [|p|p]; simpl; [eauto 3 | | lia]. intros _.
  eexists; split; [done|]. intros H. by apply (DecimalPos.Unsigned.to_uint_nonnil p).
Qed.


Lemma show_i64_nonneg z :
  (0 <= z)%Z -> exists d, d <> Decimal.Nil /\ show_i64 z = NilZero.string_of_uint d /\ Z.of_uint d = z.
Proof.
  intros Hz. destruct (uint_not_nil z Hz) as (d & Hd & Hn). exists d.
  unfold show_i64. rewrite Hd. split_and!; [done..|].
  rewrite <-(of_to z), Hd. done.
Qed.

Lemma digits_nil_empty d : all_bytes is_ascii_digit (NilEmpty.string_of_uint d) = true.
Proof. by induction d. Qed.

Lemma digits_nil_zero d : all_bytes is_ascii_digit (NilZero.string_of_uint d) = true.
Proof. destruct d; [done|..]; apply digits_nil_empty. Qed.

Lemma show_i64_digits z : (0 <= z)%Z -> all_bytes is_ascii_digit (show_i64 z) = true.
Proof. intros Hz. destruct (show_i64_nonneg z Hz) as (d & _ & -> & _). apply digits_nil_zero. Qed.

Lemma uint_of_show z :
  (0 <= z)%Z -> exists d, NilZero.uint_of_string (show_i64 z) = Some d /\ Z.of_uint d = z.
Proof.
  intros Hz. destruct (show_i64_nonneg z Hz) as (d & Hn & -> & Hd). exists d. split; [|done].
  by apply NilZero.usu.
Qed.

Lemma show_i64_not_empty z : show_i64 z <> EmptyString.
Proof.
  unfold show_i64. intros H. pose proof (NilZero.sis EmptyString) as _.
  destruct (Z.to_int z) as [d|d]; simpl in H; [|done].
  destruct d; discriminate H.
Qed.

Lemma digit_not_sign c : is_ascii_digit c = true -> is_char "+" c = false /\ is_char "-" c = false.
Proof.
  unfold is_char. intros H. rewrite !ascii_eqb_spec.
  split; apply bool_decide_eq_false; intros <-; by vm_compute in H.
Qed.

(** Printing a timestamp and parsing it back. *)
Lemma parse_show_i64 z : (0 <= z)%Z -> in_i64 z -> parse_i64 (show_i64 z) = Some z.
Proof.
  intros Hz Hi. destruct (uint_of_show z Hz) as (d & Hd & Hv).
  pose proof (show_i64_digits z Hz) as Hdig. pose proof (show_i64_not_empty z) as Hne.
  unfold parse_i64. destruct (show_i64 z) as [|c r]; [done|].
  simpl in Hdig. apply andb_true_iff in Hdig as [Hc _].
  destruct (digit_not_sign c Hc) as [-> ->]. rewrite Hd. simpl. rewrite Hv.
  by rewrite (proj2 (i64_fits_spec z) Hi).
Qed.

Lemma parse_i64_in s z : parse_i64 s = Some z -> in_i64 z.
Proof.
  unfold parse_i64. rewrite bind_Some. intros (x & _ & H). rewrite <-i64_fits_spec.
  destruct (i64_fits x) eqn:?; naive_solver.
Qed.

Lemma show_i64_inj a b : show_i64 a = show_i64 b -> a = b.
Proof.
  unfold show_i64. intros H. apply to_int_inj.
  assert (forall d, NilZero.int_of_string (NilZero.string_of_int (Z.to_int d)) = Some (Z.to_int d)) as Hr.
  { intros z. apply NilZero.isi; destruct z as [|p|p]; try discriminate;
      intros [= Hp]; by apply DecimalPos.Unsigned.to_uint_nonnil in Hp. }
  pose proof (Hr a) as Ha. rewrite H, Hr in Ha. by injection Ha.
Qed.

(** *** Trimming *)

Lemma trim_end_app s : exists w, s = trim_end s +:+ w /\ (w = EmptyString \/ all_white_space w = true).
Proof.
  induction s as [|c s IH].
  - exists EmptyString. auto.
  - cbn [trim_end]. destruct (all_white_space (String c s)) eqn:H.
    + exists (String c s). auto.
    + destruct IH as (w & Hs & Hw). exists w. rewrite app_cons, <-Hs. auto.
Qed.


(** *** Delimiters *)

Lemma split_once_app c d' d l r :
  d = String c d' -> free_of c l -> split_once d (l +:+ d +:+ r) = Some (l, r).
Proof. intros ->. apply split_once_first. Qed.

(** A field ended by a newline *)
Lemma line_inj a a' x y :
  free_of newline_char a -> free_of newline_char a' ->
  a +:+ nl +:+ x = a' +:+ nl +:+ y -> a = a' /\ x = y.
Proof. apply separator_inj. Qed.

Lemma strip_prefix_app2 p q r : strip_prefix (p +:+ q) (p +:+ q +:+ r) = Some r.
Proof. rewrite <-string_app_assoc. apply strip_prefix_app. Qed.

(** *** Plain text: what trimming and counting do to printable ASCII *)

Definition is_graphic : ascii -> bool := in_range 33 126.

Lemma in_range_spec lo hi c : in_range lo hi c = true <-> (lo <= byte_of c <= hi)%N.
Proof. unfold in_range. rewrite andb_true_iff, !N.leb_le. done. Qed.

Lemma in_range_false lo hi c : in_range lo hi c = false <-> ~ (lo <= byte_of c <= hi)%N.
Proof. rewrite <-in_range_spec. by destruct (in_range lo hi c). Qed.

Lemma strip_white_space_graphic c s : is_graphic c = true -> strip_white_space (String c s) = None.
Proof.
  unfold is_graphic. intros H%in_range_spec. unfold strip_white_space.
  rewrite (proj2 (in_range_false 9 13 c)), (proj2 (in_range_false 32 32 c)) by lia. simpl.
  rewrite (proj2 (in_range_false 194 194 c)), (proj2 (in_range_false 225 225 c)),
    (proj2 (in_range_false 226 226 c)), (proj2 (in_range_false 227 227 c)) by lia. simpl.
  by destruct s as [|? [|? ?]].
Qed.

Lemma all_white_space_graphic c s : is_graphic c = true -> all_white_space (String c s) = false.
Proof.
  intros H. unfold all_white_space, trim_start. cbn [String.length trim_start_fuel].
  by rewrite strip_white_space_graphic.
Qed.

Lemma trim_end_graphic s : all_bytes is_graphic s = true -> trim_end s = s.
Proof.
  induction s as [|c s IH]; [done|]. cbn [all_bytes trim_end]. intros [Hc Hs]%andb_true_iff.
  rewrite all_white_space_graphic by done. by rewrite IH.
Qed.

Lemma trim_graphic s : all_bytes is_graphic s = true -> trim s = s.
Proof.
  intros H. unfold trim. destruct s as [|c s]; [done|].
  replace (trim_start (String c s)) with (String c s); [by apply trim_end_graphic|].
  simpl in H. apply andb_true_iff in H as [Hc _].
  unfold trim_start. cbn [String.length trim_start_fuel]. by rewrite strip_white_space_graphic.
Qed.

Lemma chars_count_graphic s : all_bytes is_graphic s = true -> chars_count s = len s.
Proof.
  unfold len. induction s as [|c s IH]; [done|]. cbn [all_bytes chars_count String.length].
  intros [Hc%in_range_spec Hs]%andb_true_iff.
  rewrite (proj2 (in_range_false 128 191 c)) by lia. rewrite IH by done. lia.
Qed.

Lemma split_char_all f d s :
  forallb (all_bytes f) (split_char d s) = true ->
  all_bytes (fun c => f c || Ascii.eqb c d) s = true.
Proof.
  induction s as [|c s IH]; [done|]. cbn [split_char all_bytes].
  destruct (Ascii.eqb c d); simpl; [rewrite orb_true_r; auto|].
  destruct (split_char d s) as [|p ps]; simpl in *; rewrite !andb_true_iff.
  - intros [[-> _] _]. by rewrite IH.
  - rewrite andb_true_iff in IH. intros [[-> ?] ?]. by rewrite IH.
Qed.

(** Two pieces of a split leave room for the separator between them. *)
Lemma split_char_head_length d s a rest :
  split_char d s = a :: rest -> String.length a <= String.length s.
Proof.
  revert a rest; induction s as [|c s IH]; intros a rest; simpl; [by intros [= <- _]|].
  destruct (Ascii.eqb c d); [intros [= <- _]; simpl; lia|].
  destruct (split_char d s) as [|p ps] eqn:Hs; [intros [= <- _]; simpl; lia|].
  intros [= <- <-]. specialize (IH _ _ eq_refl). simpl. lia.
Qed.

Lemma split_char_two_length d s a b rest :
  split_char d s = a :: b :: rest -> String.length a + 1 + String.length b <= String.length s.
Proof.
  revert a b rest; induction s as [|c s IH]; intros a b rest; simpl; [done|].
  destruct (Ascii.eqb c d).
  - intros [= <- Hs]. apply split_char_head_length in Hs. simpl. lia.
  - destruct (split_char d s) as [|p [|q ps]] eqn:Hs; try done.
    intros [= <- <- <-]. specialize (IH _ _ _ eq_refl). simpl. lia.
Qed.
