(* ===== verification/Platform.v ===== *)
(** * Platform: what the kernel takes from third-party crates

    The operations of [uuid], [sha2], [base64] and [ed25519_dalek] that the
    source calls are the fields of the class [Platform]; what the kernel relies
    on is the class [PlatformLaws], the documented behaviour of those crates.
    Nothing assumes that SHA-256 is injective or that a signature cannot be
    forged. [Reference] at the end is a concrete instance with the laws proved. *)

From S2P Require Import Prelude Text.
From stdpp Require Import countable.
From Stdlib Require Import Ascii.

(** ** Big-endian byte strings *)

Fixpoint be_bytes (n : nat) (z : N) : bytes :=
  match n with
  | O => EmptyString
  | S n => be_bytes n (z / 256) +:+ String (ascii_of_N (z mod 256)) EmptyString
  end.

Lemma length_be_bytes n z : String.length (be_bytes n z) = n.
Proof.
  revert z; induction n as [|n IH]; intros z; [done|]. cbn [be_bytes].
  rewrite length_string_app, IH. simpl. lia.
Qed.

Lemma be_bytes_inj n a b :
  (a < 256 ^ N.of_nat n)%N -> (b < 256 ^ N.of_nat n)%N -> be_bytes n a = be_bytes n b -> a = b.
Proof.
  revert a b; induction n as [|n IH]; intros a b Ha Hb H; [simpl in *; lia|].
  cbn [be_bytes] in H.
  rewrite Nat2N.inj_succ, N.pow_succ_r' in Ha, Hb.
  destruct (string_app_inj_length (be_bytes n (a / 256)) (be_bytes n (b / 256)) _ _
    ltac:(by rewrite !length_be_bytes) H) as [Hq Hr].
  injection Hr as Hr.
  apply (f_equal N_of_ascii) in Hr. rewrite !N_ascii_embedding in Hr by (apply N.mod_lt; lia).
  apply IH in Hq; [|apply N.Div0.div_lt_upper_bound; lia..].
  rewrite (N.div_mod a 256), (N.div_mod b 256) by lia. lia.
Qed.

(** [i64::to_be_bytes] *)
Definition i64_to_be_bytes (z : Z) : bytes := be_bytes 8 (Z.to_N (z mod 2 ^ 64)).

Lemma i64_to_be_bytes_inj a b :
  in_i64 a -> in_i64 b -> i64_to_be_bytes a = i64_to_be_bytes b -> a = b.
Proof.
  unfold in_i64, i64_min, i64_max, i64_to_be_bytes. intros Ha Hb H.
  pose proof (Z.mod_pos_bound a (2 ^ 64) ltac:(lia)).
  pose proof (Z.mod_pos_bound b (2 ^ 64) ltac:(lia)).
  apply be_bytes_inj in H; [|change (256 ^ N.of_nat 8)%N with (2 ^ 64)%N; lia..].
  apply Z2N.inj in H; [|lia..].
  pose proof (Z.div_mod a (2 ^ 64) ltac:(lia)). pose proof (Z.div_mod b (2 ^ 64) ltac:(lia)). lia.
Qed.

(** ** Length-prefixed fields

    The signed messages of enrollment and of handshakes: every field after its
    length as a [u32], which the cast reduces modulo 2^32. *)
Definition encode_field (field : bytes) : bytes :=
  be_bytes 4 (N.of_nat (String.length field)) +:+ field.

Fixpoint encode_fields (fields : list bytes) : bytes :=
  match fields with
  | [] => EmptyString
  | field :: fields => encode_field field +:+ encode_fields fields
  end.

Definition fits_u32 (field : bytes) : Prop := (len field < 2 ^ 32)%Z.

Lemma encode_field_inj a b s t :
  fits_u32 a -> fits_u32 b ->
  encode_field a +:+ s = encode_field b +:+ t -> a = b /\ s = t.
Proof.
  unfold fits_u32, encode_field, len. intros Ha Hb. rewrite !string_app_assoc.
  intros (Hl & Hs)%string_app_inj_length; [|by rewrite !length_be_bytes].
  apply be_bytes_inj in Hl; [|change (256 ^ N.of_nat 4)%N with (2 ^ 32)%N; lia..].
  apply string_app_inj_length in Hs; [done|lia].
Qed.

(** Messages of the same number of fields, followed by anything *)
Lemma encode_fields_inj fs gs s t :
  length fs = length gs -> Forall fits_u32 fs -> Forall fits_u32 gs ->
  encode_fields fs +:+ s = encode_fields gs +:+ t -> fs = gs /\ s = t.
Proof.
  revert gs; induction fs as [|f fs IH]; intros [|g gs] Hl Hf Hg H; try done.
  cbn [encode_fields] in H. apply Forall_cons_1 in Hf as [? ?], Hg as [? ?].
  rewrite !string_app_assoc in H.
  apply encode_field_inj in H as [-> H]; [|done..].
  simpl in Hl. apply IH in H as [-> ->]; [done | congruence | done..].
Qed.

(** ** UUIDs: 128-bit values *)

Definition uuid_bits : N := 2 ^ 128.

Record Uuid := MkUuid { uuid_value : N; uuid_bound : Is_true (uuid_value <? uuid_bits)%N }.

Lemma uuid_eq u v : uuid_value u = uuid_value v -> u = v.
Proof.
  destruct u as [n Hn], v as [m Hm]; simpl; intros ->. f_equal. apply proof_irrel.
Qed.

#[export] Instance Uuid_eq_dec : EqDecision Uuid.
Proof.
  refine (fun u v => cast_if (decide (uuid_value u = uuid_value v))); [by apply uuid_eq | congruence].
Defined.

Lemma uuid_of_N_bound n : Is_true (n mod uuid_bits <? uuid_bits)%N.
Proof. apply Is_true_true, N.ltb_lt, N.mod_lt. done. Qed.

Definition uuid_of_N (n : N) : Uuid := MkUuid (n mod uuid_bits) (uuid_of_N_bound n).

Lemma uuid_of_value u : uuid_of_N (uuid_value u) = u.
Proof.
  apply uuid_eq. simpl. apply N.mod_small, N.ltb_lt, Is_true_true, uuid_bound.
Qed.

#[export] Instance Uuid_countable : Countable Uuid := inj_countable' uuid_value uuid_of_N uuid_of_value.

(** [Uuid::as_bytes] *)
Definition uuid_as_bytes (u : Uuid) : bytes := be_bytes 16 (uuid_value u).

Lemma uuid_as_bytes_inj u v : uuid_as_bytes u = uuid_as_bytes v -> u = v.
Proof.
  intros H. apply uuid_eq, (be_bytes_inj 16); [..|done];
    change (256 ^ N.of_nat 16)%N with uuid_bits; apply N.ltb_lt, Is_true_true, uuid_bound.
Qed.

(** ** Errors of the PostgreSQL driver

    The two shapes the adapters tell apart: an error the server reports, with
    its SQLSTATE and the violated constraint (or the raised message), and any
    other failure (a lost connection, a timeout). *)

Inductive SqlState :=
| UniqueViolation | ForeignKeyViolation | CheckViolation | RaiseException
| InvalidTextRepresentation | InsufficientPrivilege.

Inductive PostgresError :=
| DbError (state : SqlState) (detail : string)
| IoError (message : string).

#[export] Instance SqlState_eq_dec : EqDecision SqlState.
Proof. solve_decision. Defined.
#[export] Instance PostgresError_eq_dec : EqDecision PostgresError.
Proof. solve_decision. Defined.

(** [error.as_db_error().is_some_and(|e| e.code() == state)] *)
Definition has_sql_state (error : PostgresError) (state : SqlState) : bool :=
  match error with DbError s _ => bool_decide (s = state) | IoError _ => false end.
Definition is_unique_violation (error : PostgresError) : bool := has_sql_state error UniqueViolation.
Definition is_foreign_key_violation (error : PostgresError) : bool :=
  has_sql_state error ForeignKeyViolation.

(** ** The crates *)

Class Platform := {
  uuid_print : Uuid -> string;            (* [Display for Uuid] *)
  uuid_parse : string -> option Uuid;     (* [Uuid::parse_str] *)
  sha256 : bytes -> bytes;                (* [Sha256::digest] *)
  base64_encode : bytes -> string;        (* [STANDARD.encode] *)
  base64_decode : string -> option bytes; (* [STANDARD.decode] *)
  base64url_encode : bytes -> string;     (* [URL_SAFE_NO_PAD.encode] *)
  base64url_decode : string -> option bytes;
  ed25519_key_ok : bytes -> bool;         (* [VerifyingKey::from_bytes(..).is_ok()] *)
  ed25519_public : bytes -> bytes;        (* [SigningKey::verifying_key().to_bytes()] *)
  ed25519_sign : bytes -> bytes -> bytes; (* [SigningKey::sign(message).to_bytes()] *)
  ed25519_verify : bytes -> bytes -> bytes -> bool; (* [VerifyingKey::verify_strict] *)
  postgres_error_text : PostgresError -> string;    (* [Display for postgres::Error] *)
}.

(** The alphabet of a printed UUID: lower-case hexadecimal and hyphens. *)
Definition uuid_char (c : ascii) : bool :=
  is_ascii_digit c || in_range 97 102 c || is_char "-" c.
Definition base64_char (c : ascii) : bool :=
  is_ascii_alphanumeric c || is_char "+" c || is_char "/" c || is_char "=" c.
Definition base64url_char (c : ascii) : bool :=
  is_ascii_alphanumeric c || is_char "-" c || is_char "_" c.

Class PlatformLaws {P : Platform} : Prop := {
  uuid_parse_print u : uuid_parse (uuid_print u) = Some u;
  uuid_print_chars u : all_bytes uuid_char (uuid_print u) = true;
  uuid_print_length u : String.length (uuid_print u) = 36;
  sha256_length b : String.length (sha256 b) = 32;
  base64_decode_encode b : base64_decode (base64_encode b) = Some b;
  base64_encode_chars b : all_bytes base64_char (base64_encode b) = true;
  base64url_decode_encode b : base64url_decode (base64url_encode b) = Some b;
  base64url_encode_chars b : all_bytes base64url_char (base64url_encode b) = true;
  ed25519_public_length sk : String.length (ed25519_public sk) = 32;
  ed25519_public_ok sk : ed25519_key_ok (ed25519_public sk) = true;
  ed25519_sign_length sk m : String.length (ed25519_sign sk m) = 64;
  ed25519_verify_sign sk m : ed25519_verify (ed25519_public sk) m (ed25519_sign sk m) = true;
}.
#[global] Arguments PlatformLaws : clear implicits.

(** A printed UUID read back, with the error of the identifier that is parsed. *)
Section platform.
Context {P : Platform} {HP : PlatformLaws P}.

Lemma uuid_print_inj u v : uuid_print u = uuid_print v -> u = v.
Proof. intros H. pose proof (uuid_parse_print u) as Hu. rewrite H, uuid_parse_print in Hu. by injection Hu. Qed.

Lemma base64_encode_inj a b : base64_encode a = base64_encode b -> a = b.
Proof.
  intros H. pose proof (base64_decode_encode a) as Hu.
  rewrite H, base64_decode_encode in Hu. by injection Hu.
Qed.

(** Two different inputs with one SHA-256 digest: what a statement about
    fingerprints has to leave open. *)
Definition sha256_collision (a b : bytes) : Prop := a <> b /\ sha256 a = sha256 b.

Lemma sha256_eq a b : sha256 a = sha256 b -> a = b \/ sha256_collision a b.
Proof. intros H. destruct (decide (a = b)); [by left | right; done]. Qed.
End platform.

(** The identifiers of the kernel are UUIDs of different types. *)
Ltac solve_id_countable mk out := refine (inj_countable' out mk _); by intros [].

(** ** A concrete platform *)

Module Reference.
Definition hex_digit (n : N) : ascii :=
  if (n <? 10)%N then ascii_of_N (48 + n) else ascii_of_N (87 + n).
Definition hex_value (c : ascii) : option N :=
  if in_range 48 57 c then Some (byte_of c - 48)%N
  else if in_range 97 102 c then Some (byte_of c - 87)%N else None.

Fixpoint print_hex (k : nat) (n : N) : string :=
  match k with
  | O => EmptyString
  | S k => String (hex_digit ((n / 16 ^ N.of_nat k) mod 16)) (print_hex k n)
  end.
Fixpoint parse_hex (acc : N) (s : string) : option N :=
  match s with
  | EmptyString => Some acc
  | String c s => v ← hex_value c; parse_hex (acc * 16 + v) s
  end.

Fixpoint hyphenate (k : nat) (s : string) : string :=
  match s with
  | EmptyString => EmptyString
  | String c s =>
      String c (if bool_decide (k ∈ [7; 11; 15; 19])
                then String "-" (hyphenate (S k) s) else hyphenate (S k) s)
  end.
Fixpoint unhyphenate (s : string) : string :=
  match s with
  | EmptyString => EmptyString
  | String c s => if is_char "-" c then unhyphenate s else String c (unhyphenate s)
  end.

Definition print_uuid (u : Uuid) : string := hyphenate 0 (print_hex 32 (uuid_value u)).
Definition parse_uuid (s : string) : option Uuid :=
  let digits := unhyphenate s in
  if bool_decide (String.length digits = 32%nat) then uuid_of_N <$> parse_hex 0 digits else None.

Fixpoint encode_hex (b : bytes) : string :=
  match b with
  | EmptyString => EmptyString
  | String c b =>
      String (hex_digit (byte_of c / 16)) (String (hex_digit (byte_of c mod 16)) (encode_hex b))
  end.
Fixpoint decode_hex (s : string) : option bytes :=
  match s with
  | EmptyString => Some EmptyString
  | String a (String b s) =>
      x ← hex_value a; y ← hex_value b; r ← decode_hex s;
      Some (String (ascii_of_N (16 * x + y)) r)
  | String _ EmptyString => None
  end.

Fixpoint digest_value (acc : N) (b : bytes) : N :=
  match b with
  | EmptyString => acc
  | String c b => digest_value ((acc * 257 + byte_of c + 1) mod 2 ^ 256) b
  end.
Definition digest (b : bytes) : bytes := be_bytes 32 (digest_value 0 b).

#[export] Instance platform : Platform := {
  uuid_print := print_uuid;
  uuid_parse := parse_uuid;
  sha256 := digest;
  base64_encode := encode_hex;
  base64_decode := decode_hex;
  base64url_encode := encode_hex;
  base64url_decode := decode_hex;
  ed25519_key_ok k := bool_decide (String.length k = 32%nat);
  ed25519_public := digest;
  ed25519_sign sk m := digest m +:+ digest sk;
  ed25519_verify pk m s := bool_decide (s = digest m +:+ pk);
  postgres_error_text e :=
    match e with DbError _ detail => "db error: " +:+ detail | IoError m => m end;
}.

Lemma hex_cases n : (n < 16)%N -> In n (map N.of_nat (seq 0 16)).
Proof. intros H. apply in_map_iff. exists (N.to_nat n). split; [lia|]. apply in_seq. lia. Qed.

Lemma hex_digit_facts n :
  (n < 16)%N -> hex_value (hex_digit n) = Some n /\
    (is_ascii_digit (hex_digit n) || in_range 97 102 (hex_digit n)) = true /\
    is_char "-" (hex_digit n) = false /\ is_ascii_alphanumeric (hex_digit n) = true.
Proof.
  intros H. apply hex_cases in H. simpl in H.
  repeat destruct H as [<-|H]; (by split_and!) || done.
Qed.

Lemma parse_print_hex k acc n :
  parse_hex acc (print_hex k n) = Some (acc * 16 ^ N.of_nat k + n mod 16 ^ N.of_nat k)%N.
Proof.
  revert acc; induction k as [|k IH]; intros acc.
  - simpl. rewrite N.mod_1_r. f_equal. lia.
  - cbn [print_hex parse_hex].
    destruct (hex_digit_facts ((n / 16 ^ N.of_nat k) mod 16)) as [-> _]; [by apply N.mod_lt|].
    simpl. rewrite IH. f_equal. rewrite Nat2N.inj_succ, N.pow_succ_r', (N.mul_comm 16).
    rewrite (N.Div0.mod_mul_r n). lia.
Qed.

Lemma length_print_hex k n : String.length (print_hex k n) = k.
Proof. induction k as [|k IH]; [done|]. simpl. by rewrite IH. Qed.

Lemma print_hex_chars k n :
  all_bytes (fun c => (is_ascii_digit c || in_range 97 102 c) && negb (is_char "-" c)) (print_hex k n) = true.
Proof.
  induction k as [|k IH]; [done|]. cbn [print_hex all_bytes].
  destruct (hex_digit_facts ((n / 16 ^ N.of_nat k) mod 16)) as (_ & -> & -> & _);
    [by apply N.mod_lt|]. done.
Qed.

Lemma unhyphenate_hyphenate k s :
  all_bytes (fun c => negb (is_char "-" c)) s = true -> unhyphenate (hyphenate k s) = s.
Proof.
  revert k; induction s as [|c s IH]; intros k; [done|].
  cbn [all_bytes hyphenate unhyphenate]. intros H. apply andb_true_iff in H as [H1 H2].
  apply negb_true_iff in H1. rewrite H1. case_bool_decide; simpl; by rewrite IH.
Qed.

Lemma hyphenate_chars (f : ascii -> bool) k s :
  f "-"%char = true -> all_bytes f s = true -> all_bytes f (hyphenate k s) = true.
Proof.
  intros Hf. revert k; induction s as [|c s IH]; intros k; [done|].
  cbn [all_bytes hyphenate]. intros H. apply andb_true_iff in H as [-> H2].
  case_bool_decide; simpl; rewrite ?Hf; simpl; by apply IH.
Qed.

Lemma length_hyphenate s : String.length s = 32 -> String.length (hyphenate 0 s) = 36.
Proof.
  intros H. do 32 (destruct s as [|? s]; [discriminate H|]). destruct s; [reflexivity | discriminate H].
Qed.

Lemma decode_encode_hex b : decode_hex (encode_hex b) = Some b.
Proof.
  induction b as [|c b IH]; [done|]. cbn [encode_hex decode_hex].
  assert (byte_of c < 256)%N as Hc by apply N_ascii_bounded.
  destruct (hex_digit_facts (byte_of c / 16)) as [-> _]; [apply N.Div0.div_lt_upper_bound; lia|].
  destruct (hex_digit_facts (byte_of c mod 16)) as [-> _]; [by apply N.mod_lt|].
  simpl. rewrite IH. simpl. rewrite <-N.div_mod by lia.
  unfold byte_of. by rewrite ascii_N_embedding.
Qed.

Lemma encode_hex_chars b : all_bytes is_ascii_alphanumeric (encode_hex b) = true.
Proof.
  induction b as [|c b IH]; [done|]. cbn [encode_hex all_bytes].
  assert (byte_of c < 256)%N as Hc by apply N_ascii_bounded.
  destruct (hex_digit_facts (byte_of c / 16)) as (_ & _ & _ & ->); [apply N.Div0.div_lt_upper_bound; lia|].
  destruct (hex_digit_facts (byte_of c mod 16)) as (_ & _ & _ & ->); [by apply N.mod_lt|].
  done.
Qed.

#[export] Instance laws : PlatformLaws platform.
Proof.
  constructor; cbn [uuid_print uuid_parse sha256 base64_encode base64_decode base64url_encode base64url_decode ed25519_key_ok ed25519_public ed25519_sign ed25519_verify platform]; intros.
  - unfold parse_uuid, print_uuid. rewrite unhyphenate_hyphenate.
    + rewrite length_print_hex, bool_decide_true by done. rewrite parse_print_hex.
      change (16 ^ N.of_nat 32)%N with uuid_bits. cbn [fmap option_fmap option_map].
      rewrite N.mul_0_l, N.add_0_l. f_equal. apply uuid_eq. simpl.
      rewrite N.Div0.mod_mod. apply N.mod_small, N.ltb_lt, Is_true_true, uuid_bound.
    + eapply all_bytes_mono; [|apply print_hex_chars]. intros c. rewrite andb_true_iff. by intros [_ ?].
  - apply hyphenate_chars; [done|]. eapply all_bytes_mono; [|apply print_hex_chars].
    intros c. unfold uuid_char. rewrite andb_true_iff, (orb_true_iff _ (is_char "-" c)). intuition.
  - apply length_hyphenate, length_print_hex.
  - apply length_be_bytes.
  - apply decode_encode_hex.
  - eapply all_bytes_mono; [|apply encode_hex_chars]. unfold base64_char. by intros c ->.
  - apply decode_encode_hex.
  - eapply all_bytes_mono; [|apply encode_hex_chars]. unfold base64url_char. by intros c ->.
  - apply length_be_bytes.
  - apply bool_decide_true, length_be_bytes.
  - rewrite length_string_app. unfold digest. by rewrite !length_be_bytes.
  - by apply bool_decide_true.
Qed.
End Reference.
