(* ===== verification/Process.v ===== *)
(** * Process: what a process reads of its surroundings

    The environment variables and files that [src/bin/registrar.rs],
    [src/infrastructure/kubernetes_token_reviewer.rs], [database.rs] and
    [src/wiring.rs] read, and the HTTP client of the reqwest crate, as parameters. *)

From S2P Require Import Prelude Text Platform.
From Stdlib Require Import Ascii.

(** [std::env], [std::fs] and the constructors of the reqwest crate. [Client] is the
    client type; an error is what its [Display] shows. *)
Record Process (Client : Type) := MkProcess {
  process_env_var : string -> option string;
  process_read_to_string : string -> Result string string;
  process_read : string -> Result string bytes;
  process_certificate_from_pem : bytes -> Result string bytes;
  process_build_client : bytes -> Result string Client;  (* trusting one root *)
}.
Arguments MkProcess {Client}.
Arguments process_env_var {Client}.
Arguments process_read_to_string {Client}.
Arguments process_read {Client}.
Arguments process_certificate_from_pem {Client}.
Arguments process_build_client {Client}.

(** [env::var(name).unwrap_or_else(|_| default.to_owned())] *)
Definition var_or {Client} (env : Process Client) (name default : string) : string :=
  match process_env_var env name with Some value => value | None => default end.

(** [str::trim_end_matches('/')] *)
Definition trim_end_slashes (s : string) : string :=
  reverse ((fix strip r := match r with
            | String c r' => if is_char "/" c then strip r' else r
            | EmptyString => EmptyString
            end) (reverse s)).

(** A response of the Kubernetes API, its body decoded as [Body] when asked *)
Record ApiResponse (Body : Type) := MkApiResponse {
  response_status : Z;
  response_status_text : string;
  response_json : Result string Body;
}.
Arguments MkApiResponse {Body}.
Arguments response_status {Body}.
Arguments response_status_text {Body}.
Arguments response_json {Body}.

(** [StatusCode::is_success] *)
Definition is_success (status : Z) : bool := ((200 <=? status) && (status <? 300))%Z.

Lemma is_success_range status : is_success status = true <-> (200 <= status < 300)%Z.
Proof. unfold is_success. rewrite andb_true_iff. lia. Qed.
