(* ===== verification/Database.v ===== *)
(** * Database: connections, transactions and their failures

    The adapters in [src/infrastructure/] check out a connection, open a
    transaction, run fixed statements and commit. [Db S E A] is such a
    computation over tables of type [S]: [durable] is what a later connection
    sees, [working] what the open transaction sees. A schedule of faults decides
    which interaction with the server fails; a lost acknowledgement of a commit
    is the hard case, where the tables have changed although the caller gets an
    error. Random values, and readings of the server's clock, are taken from a
    supply; nothing assumes that they are new or ordered. *)

From S2P Require Import Prelude Text Platform.

Inductive Fault :=
| Proceed
| Broken (message : string)    (* the request is lost *)
| AckLost (message : string).  (* the request is served, its answer is lost *)

Record Conn (S : Type) := MkConn {
  durable : S;
  working : S;
  faults : list Fault;
  entropy : list N;
}.
Arguments MkConn {S} _ _ _ _.
Arguments durable {S} _.
Arguments working {S} _.
Arguments faults {S} _.
Arguments entropy {S} _.

Definition Db (S E A : Type) : Type := Conn S -> Result E A * Conn S.

#[export] Instance db_ret {S E} : MRet (Db S E) := fun A a c => (Ok a, c).
#[export] Instance db_bind {S E} : MBind (Db S E) := fun A B k m c =>
  match m c with (Ok a, c) => k a c | (Err e, c) => (Err e, c) end.

Section operations.
Context {S E : Type}.

Definition next_fault (c : Conn S) : Fault * Conn S :=
  match faults c with
  | [] => (Proceed, c)
  | f :: fs => (f, MkConn (durable c) (working c) fs (entropy c))
  end.

Definition throw {A} (e : E) : Db S E A := fun c => (Err e, c).
Definition lift {A} (r : Result E A) : Db S E A := fun c => (r, c).

(** [self.database.connection()]: the message of the pool, as [DatabaseError::Pool] shows it *)
Definition connection (h : string -> E) : Db S E unit := fun c =>
  match next_fault c with
  | (Proceed, c) => (Ok tt, MkConn (durable c) (durable c) (faults c) (entropy c))
  | (Broken m, c) | (AckLost m, c) => (Err (h ("database pool error: " +:+ m)), c)
  end.

(** [connection.transaction()] *)
Definition transaction (h : PostgresError -> E) : Db S E unit := fun c =>
  match next_fault c with
  | (Proceed, c) => (Ok tt, MkConn (durable c) (durable c) (faults c) (entropy c))
  | (Broken m, c) | (AckLost m, c) => (Err (h (IoError m)), c)
  end.

(** A statement of an open transaction. Every adapter leaves the transaction
    at the first statement that fails, so the aborted state is never used. *)
Definition execute {A} (h : PostgresError -> E) (f : S -> Result PostgresError (A * S)) : Db S E A :=
  fun c => match next_fault c with
  | (Proceed, c) =>
      match f (working c) with
      | Ok (a, w) => (Ok a, MkConn (durable c) w (faults c) (entropy c))
      | Err e => (Err (h e), c)
      end
  | (Broken m, c) | (AckLost m, c) => (Err (h (IoError m)), c)
  end.

(** A statement that only reads *)
Definition query {A} (h : PostgresError -> E) (f : S -> A) : Db S E A :=
  execute h (fun s => Ok (f s, s)).

(** A statement outside a transaction *)
Definition autocommit {A} (h : PostgresError -> E) (f : S -> Result PostgresError (A * S)) : Db S E A :=
  fun c => match next_fault c with
  | (Proceed, c) =>
      match f (durable c) with
      | Ok (a, w) => (Ok a, MkConn w w (faults c) (entropy c))
      | Err e => (Err (h e), c)
      end
  | (Broken m, c) => (Err (h (IoError m)), c)
  | (AckLost m, c) =>
      match f (durable c) with
      | Ok (_, w) => (Err (h (IoError m)), MkConn w w (faults c) (entropy c))
      | Err _ => (Err (h (IoError m)), c)
      end
  end.

(** [transaction.commit()] *)
Definition commit (h : PostgresError -> E) : Db S E unit := fun c =>
  match next_fault c with
  | (Proceed, c) => (Ok tt, MkConn (working c) (working c) (faults c) (entropy c))
  | (Broken m, c) => (Err (h (IoError m)), c)
  | (AckLost m, c) => (Err (h (IoError m)), MkConn (working c) (working c) (faults c) (entropy c))
  end.

(** The next random value of the supply, reduced by the caller to its width *)
Definition random : Db S E N := fun c =>
  match entropy c with
  | [] => (Ok 0%N, c)
  | n :: ns => (Ok n, MkConn (durable c) (working c) (faults c) ns)
  end.

(** [transaction_timestamp()] in seconds since the epoch *)
Definition server_clock : Db S E Z := fun c =>
  match random c with (Ok n, c) => (Ok (Z.of_N (n mod 2 ^ 63)), c) | (Err e, c) => (Err e, c) end.

(** [Uuid::new_v4()] *)
Definition new_uuid : Db S E Uuid := fun c =>
  match random c with (Ok n, c) => (Ok (uuid_of_N n), c) | (Err e, c) => (Err e, c) end.
(** [getrandom::fill] on an array of [n] bytes *)
Definition getrandom (n : nat) (e : E) : Db S E bytes := fun c =>
  match next_fault c with
  | (Proceed, c) =>
      match random c with (Ok v, c) => (Ok (be_bytes n v), c) | (Err e, c) => (Err e, c) end
  | (_, c) => (Err e, c)
  end.

(** [match m { Ok(..) => .., Err(..) => .. }]: an error that does not end the caller *)
Definition attempt {E' A} (m : Db S E' A) : Db S E (Result E' A) := fun c =>
  let '(r, c) := m c in (Ok r, c).
End operations.

(** [Result::map_err] on a computation *)
Definition map_err {S E E' A} (f : E -> E') (m : Db S E A) : Db S E' A := fun c =>
  let '(r, c) := m c in (result_map_err f r, c).

(** A computation run on its own: on committed tables, with a fault schedule. *)
Definition start {S} (T : S) (fs : list Fault) (ns : list N) : Conn S := MkConn T T fs ns.

(** The same connection without faults *)
Definition calm {S} (c : Conn S) : Conn S := MkConn (durable c) (working c) [] (entropy c).

(** ** Faults: what can be observed *)

Section reasoning.
Context {S E : Type}.
Implicit Types (P : E -> Prop) (c : Conn S).

(** The computation does not look at the connection at all. *)
Definition pure {A} (m : Db S E A) : Prop := exists r, forall c, m c = (r, c).

(** Reads and uncommitted writes: whatever fails, the durable tables stay, and
    what is not a transport error is the answer of the faultless run. *)
Definition quiet {A} P (m : Db S E A) : Prop := forall c,
  durable (m c).2 = durable c /\ durable (m (calm c)).2 = durable c /\
  (((m c).1 = (m (calm c)).1 /\ calm (m c).2 = (m (calm c)).2) \/
   exists e, (m c).1 = Err e /\ P e).

(** All or nothing: under any faults the result and the tables are those of
    the faultless run, or the caller gets a transport error and the durable
    tables are the old ones or exactly those of the faultless run. *)
Definition atomic {A} P (m : Db S E A) : Prop := forall c,
  ((m c).1 = (m (calm c)).1 /\ calm (m c).2 = (m (calm c)).2) \/
  (exists e, (m c).1 = Err e /\ P e /\
     (durable (m c).2 = durable c \/ durable (m c).2 = durable (m (calm c)).2)).

Lemma calm_calm c : calm (calm c) = calm c.
Proof. done. Qed.

Lemma pure_ret {A} (a : A) : pure (mret a).
Proof. by exists (Ok a). Qed.
Lemma pure_throw {A} (e : E) : pure (throw (A:=A) e).
Proof. by exists (Err e). Qed.
Lemma pure_lift {A} (r : Result E A) : pure (lift r).
Proof. by exists r. Qed.

Lemma pure_quiet {A} P (m : Db S E A) : pure m -> quiet P m.
Proof. intros [r Hr] c. rewrite !Hr. auto. Qed.

Lemma quiet_bind {A B} P (m : Db S E A) (k : A -> Db S E B) :
  quiet P m -> (forall a, quiet P (k a)) -> quiet P (m ≫= k).
Proof.
  intros Hm Hk c. unfold mbind, db_bind. specialize (Hm c).
  destruct (m c) as [[a|e] c1]; destruct (m (calm c)) as [[a0|e0] c0]; simpl in *;
    destruct Hm as (H1 & H2 & [[H3 H4]|(e' & H3 & H4)]); simplify_eq/=;
    try (destruct (Hk a0 c1) as (K1 & K2 & K3); rewrite <-?H1);
    try (destruct (Hk a0 (calm c1)) as (L1 & L2 & L3); simpl in *);
    split_and!; try congruence; eauto.
  destruct (Hk a0 c0) as (J1 & J2 & J3); congruence.
Qed.

Lemma atomic_bind {A B} P (m : Db S E A) (k : A -> Db S E B) :
  quiet P m -> (forall a, atomic P (k a)) -> atomic P (m ≫= k).
Proof.
  intros Hm Hk c. unfold mbind, db_bind. specialize (Hm c).
  destruct (m c) as [[a|e] c1]; destruct (m (calm c)) as [[a0|e0] c0]; simpl in *;
    destruct Hm as (H1 & H2 & [[H3 H4]|(e' & H3 & H4)]); simplify_eq/=; eauto 8.
  rewrite <-H1. apply (Hk a0 c1).
Qed.

Lemma quiet_atomic {A} P (m : Db S E A) : quiet P m -> atomic P m.
Proof. intros Hm c. destruct (Hm c) as (H1 & H2 & [H|(e & H3 & H4)]); eauto 8. Qed.

Lemma atomic_then_pure {A B} P (m : Db S E A) (k : A -> Db S E B) :
  atomic P m -> (forall a, pure (k a)) -> atomic P (m ≫= k).
Proof.
  intros Hm Hk c. unfold mbind, db_bind. specialize (Hm c).
  destruct (m c) as [[a|e] c1]; destruct (m (calm c)) as [[a0|e0] c0]; simpl in *;
    destruct Hm as [[H3 H4]|(e' & H3 & H4 & H5)]; simplify_eq/=; eauto 8.
  - destruct (Hk a0) as [r Hr]. rewrite !Hr. eauto.
  - destruct (Hk a0) as [r Hr]. rewrite !Hr. simpl. eauto 8.
Qed.

Lemma quiet_connection P h : (forall m, P (h m)) -> quiet P (connection (S:=S) h).
Proof.
  intros HP c. unfold connection, next_fault. simpl.
  destruct (faults c) as [|[] fs]; simpl; eauto 8.
Qed.
Lemma quiet_transaction P h : (forall m, P (h (IoError m))) -> quiet P (transaction (S:=S) h).
Proof.
  intros HP c. unfold transaction, next_fault. simpl.
  destruct (faults c) as [|[] fs]; simpl; eauto 8.
Qed.
Lemma quiet_execute {A} P h (f : S -> Result PostgresError (A * S)) :
  (forall m, P (h (IoError m))) -> quiet P (execute h f).
Proof.
  intros HP c. unfold execute, next_fault. simpl.
  destruct (faults c) as [|[] fs]; simpl; destruct (f (working c)) as [[]|]; simpl; eauto 8.
Qed.
Lemma quiet_query {A} P h (f : S -> A) :
  (forall m, P (h (IoError m))) -> quiet P (query h f).
Proof. apply quiet_execute. Qed.
Lemma quiet_random P : quiet P (random (S:=S) (E:=E)).
Proof. intros c. unfold random. simpl. destruct (entropy c); simpl; eauto 8. Qed.
Lemma quiet_new_uuid P : quiet P (new_uuid (S:=S) (E:=E)).
Proof. intros c. unfold new_uuid, random. simpl. destruct (entropy c); simpl; eauto 8. Qed.

Lemma quiet_server_clock P : quiet P (server_clock (S:=S) (E:=E)).
Proof. intros c. unfold server_clock, random. simpl. destruct (entropy c); simpl; eauto 8. Qed.

Lemma quiet_getrandom P n e : P e -> quiet P (getrandom (S:=S) n e).
Proof.
  intros HP c. unfold getrandom, random, next_fault. simpl.
  destruct c as [d w fs ns]; simpl.
  destruct fs as [|[] fs]; simpl; destruct ns; simpl; eauto 10.
Qed.

Lemma atomic_commit P h : (forall m, P (h (IoError m))) -> atomic P (commit (S:=S) h).
Proof.
  intros HP c. unfold commit, next_fault. simpl.
  destruct (faults c) as [|[] fs]; simpl; eauto 8.
Qed.
Lemma atomic_autocommit {A} P h (f : S -> Result PostgresError (A * S)) :
  (forall m, P (h (IoError m))) -> atomic P (autocommit h f).
Proof.
  intros HP c. unfold autocommit, next_fault. simpl.
  destruct (faults c) as [|[] fs]; simpl; destruct (f (durable c)) as [[]|]; simpl; eauto 8.
Qed.
End reasoning.

Lemma quiet_map_err {S E E' A} (P : E' -> Prop) (f : E -> E') (m : Db S E A) :
  quiet (fun e => P (f e)) m -> quiet P (map_err f m).
Proof.
  intros Hm c. unfold map_err. destruct (Hm c) as (H1 & H2 & H3).
  destruct (m c) as [r c1], (m (calm c)) as [r0 c0]. simpl in *. split_and!; [done..|].
  destruct H3 as [[-> ->]|(e & -> & He)]; [by left | right]. simpl. eauto.
Qed.

Lemma atomic_map_err {S E E' A} (P : E' -> Prop) (f : E -> E') (m : Db S E A) :
  atomic (fun e => P (f e)) m -> atomic P (map_err f m).
Proof.
  intros Hm c. unfold map_err. pose proof (Hm c) as H3.
  destruct (m c) as [r c1], (m (calm c)) as [r0 c0]. simpl in *.
  destruct H3 as [[-> ->]|(e & -> & He & H5)]; [by left | right]. simpl. eauto.
Qed.

(** ** Table invariants and histories *)

Section evolution.
Context {S E : Type}.

(** [R] relates the tables before and after every step that can be committed.
    With a preorder [R] this is a property of histories; with
    [R T T' := I T -> I T'] it is an invariant. *)
Definition evolves {A} (R : relation S) (m : Db S E A) : Prop := forall c,
  R (durable c) (working c) ->
  R (durable c) (durable (m c).2) /\ R (durable (m c).2) (working (m c).2).

Context (R : relation S) `{!PreOrder R}.

Lemma evolves_pure {A} (m : Db S E A) : pure m -> evolves R m.
Proof. intros [r Hr] c H. rewrite Hr. simpl. by split. Qed.
Lemma evolves_bind {A B} (m : Db S E A) (k : A -> Db S E B) :
  evolves R m -> (forall a, evolves R (k a)) -> evolves R (m ≫= k).
Proof.
  intros Hm Hk c Hc. unfold mbind, db_bind. destruct (Hm c Hc) as [H1 H2].
  destruct (m c) as [[a|e] c1]; simpl in *; [|done].
  destruct (Hk a c1 H2) as [H3 H4]. split; [by etrans | done].
Qed.
Lemma evolves_connection h : evolves R (connection h (E:=E)).
Proof. intros c H. unfold connection, next_fault. by destruct (faults c) as [|[] fs]. Qed.
Lemma evolves_transaction h : evolves R (transaction h (E:=E)).
Proof. intros c H. unfold transaction, next_fault. by destruct (faults c) as [|[] fs]. Qed.
Lemma evolves_execute {A} (h : PostgresError -> E) (f : S -> Result PostgresError (A * S)) :
  (forall T a T', f T = Ok (a, T') -> R T T') -> evolves R (execute h f).
Proof.
  intros Hf c H. unfold execute, next_fault.
  destruct (faults c) as [|[] fs]; simpl; try done;
    (destruct (f (working c)) as [[a w]|] eqn:Hw; simpl; [|done]);
    split; [done | etrans; [exact H | by eapply Hf] | done | etrans; [exact H | by eapply Hf]].
Qed.
Lemma evolves_query {A} (h : PostgresError -> E) (f : S -> A) : evolves R (query h f).
Proof. apply evolves_execute. intros T a T' [= _ ->]. done. Qed.
Lemma evolves_autocommit {A} (h : PostgresError -> E) (f : S -> Result PostgresError (A * S)) :
  (forall T a T', f T = Ok (a, T') -> R T T') -> evolves R (autocommit h f).
Proof.
  intros Hf c H. unfold autocommit, next_fault.
  destruct (faults c) as [|[] fs]; simpl; try done;
    (destruct (f (durable c)) as [[a w]|] eqn:Hw; simpl; [|done]);
    split; [by eapply Hf | done | by eapply Hf | done | by eapply Hf | done].
Qed.
Lemma evolves_commit (h : PostgresError -> E) : evolves R (commit h).
Proof. intros c H. unfold commit, next_fault. by destruct (faults c) as [|[] fs]. Qed.
Lemma evolves_random : evolves R (random (E:=E)).
Proof. intros c H. unfold random. by destruct (entropy c). Qed.
Lemma evolves_new_uuid : evolves R (new_uuid (E:=E)).
Proof. intros c H. unfold new_uuid, random. by destruct (entropy c). Qed.
Lemma evolves_server_clock : evolves R (server_clock (E:=E)).
Proof. intros c H. unfold server_clock, random. by destruct (entropy c). Qed.
Lemma evolves_getrandom n (e : E) : evolves R (getrandom n e).
Proof.
  intros c H. unfold getrandom, random, next_fault.
  destruct (faults c) as [|[] fs]; simpl; try done; by destruct (entropy c).
Qed.
End evolution.

(** An invariant as a relation between tables *)
Definition preserves {S} (I : S -> Prop) (T T' : S) : Prop := I T -> I T'.

#[export] Instance preserves_preorder {S} (I : S -> Prop) : PreOrder (preserves I).
Proof. unfold preserves. split; [by intros T | intros T1 T2 T3; tauto]. Qed.

(** What a whole operation, from check-out to return, may do to the durable
    tables: unlike [evolves] this says nothing about a transaction that is open,
    so it composes for operations that open their own. *)
Section histories.
Context {S E : Type}.

Definition history {A} (R : relation S) (m : Db S E A) : Prop := forall c,
  R (durable c) (durable (m c).2).

Context (R : relation S) `{!PreOrder R}.

Lemma history_connection {A} (h : string -> E) (k : unit -> Db S E A) :
  (forall u, evolves R (k u)) -> history R (connection h ≫= k).
Proof.
  intros Hk c. unfold mbind, db_bind, connection, next_fault.
  destruct (faults c) as [|[] fs]; simpl; try done;
    match goal with |- R _ (durable (k tt ?c').2) =>
      destruct (Hk tt c') as [H _]; [done | exact H] end.
Qed.
Lemma history_bind {A B} (m : Db S E A) (k : A -> Db S E B) :
  history R m -> (forall a, history R (k a)) -> history R (m ≫= k).
Proof.
  intros Hm Hk c. unfold mbind, db_bind. specialize (Hm c).
  destruct (m c) as [[a|e] c1]; simpl in *; [|done]. etrans; [exact Hm | apply Hk].
Qed.
Lemma history_quiet {A} P (m : Db S E A) : quiet P m -> history R m.
Proof. intros Hm c. by destruct (Hm c) as [-> _]. Qed.
Lemma history_autocommit {A} (h : PostgresError -> E) (f : S -> Result PostgresError (A * S)) :
  (forall T a T', f T = Ok (a, T') -> R T T') -> history R (autocommit h f).
Proof.
  intros Hf c. unfold autocommit, next_fault.
  destruct (faults c) as [|[] fs]; simpl; try done;
    destruct (f (durable c)) as [[a w]|] eqn:Hw; simpl; try done; by eapply Hf.
Qed.
End histories.

Lemma history_mono {S E A} (R R' : relation S) (m : Db S E A) :
  (forall T T', R T T' -> R' T T') -> history R m -> history R' m.
Proof. intros HR Hm c. apply HR, Hm. Qed.

(** [evolves] from one state of the connection, of which more may be known *)
Definition evolves_at {S E A} (R : relation S) (m : Db S E A) (c : Conn S) : Prop :=
  R (durable c) (working c) ->
  R (durable c) (durable (m c).2) /\ R (durable (m c).2) (working (m c).2).

Section evolution_at.
Context {S E : Type} (R : relation S) `{!PreOrder R}.

Lemma evolves_at_any {A} (m : Db S E A) c : evolves R m -> evolves_at R m c.
Proof. intros Hm. exact (Hm c). Qed.
Lemma evolves_at_bind {A B} (m : Db S E A) (k : A -> Db S E B) c :
  evolves_at R m c -> (forall a c1, m c = (Ok a, c1) -> evolves_at R (k a) c1) ->
  evolves_at R (m ≫= k) c.
Proof.
  intros Hm Hk Hc. unfold mbind, db_bind. destruct (Hm Hc) as [H1 H2].
  destruct (m c) as [[a|e] c1]; simpl in *; [|done].
  destruct (Hk a c1 eq_refl H2) as [H3 H4]. split; [by etrans | done].
Qed.
Lemma evolves_at_execute {A} (h : PostgresError -> E) (f : S -> Result PostgresError (A * S)) c :
  (forall a T', f (working c) = Ok (a, T') -> R (working c) T') -> evolves_at R (execute h f) c.
Proof.
  intros Hf H. unfold execute, next_fault.
  destruct (faults c) as [|[] fs]; simpl; try done;
    (destruct (f (working c)) as [[a w]|] eqn:Hw; simpl; [|done]);
    split; [done | etrans; [exact H | by eapply Hf] | done | etrans; [exact H | by eapply Hf]].
Qed.
Lemma history_connection_at {A} (h : string -> E) (k : unit -> Db S E A) :
  (forall c, evolves_at R (k tt) c) -> history R (connection h ≫= k).
Proof. intros Hk. apply history_connection; [apply _|]. intros [] c. apply Hk. Qed.
End evolution_at.

(** What an all-or-nothing computation does under faults is decided by its
    faultless runs. *)
Lemma atomic_history {S E A} P (R : relation S) `{!Reflexive R} (m : Db S E A) :
  atomic P m -> (forall c, faults c = [] -> R (durable c) (durable (m c).2)) -> history R m.
Proof.
  intros Hm Hcalm c. specialize (Hcalm (calm c) eq_refl). simpl in Hcalm.
  destruct (Hm c) as [[_ H]|(e & _ & _ & [-> | ->])]; [|done..].
  by rewrite <-H in Hcalm.
Qed.

Lemma atomic_Ok {S E A} P (m : Db S E A) c a c' :
  atomic P m -> m c = (Ok a, c') -> exists c0, m (calm c) = (Ok a, c0) /\ durable c0 = durable c'.
Proof.
  intros Hm Hc. specialize (Hm c). rewrite Hc in Hm. simpl in Hm.
  destruct (m (calm c)) as [r c0]. simpl in Hm.
  destruct Hm as [[<- <-]|(e & ? & _)]; [by eexists | done].
Qed.

(** An operation that fails and changes nothing *)
Definition refused {S E A} (m : Db S E A) (c : Conn S) : Prop :=
  is_ok (m c).1 = false /\ durable (m c).2 = durable c.

(** A refusal of the faultless run is a refusal under any faults. *)
Lemma atomic_refused {S E A} P (m : Db S E A) c :
  atomic P m -> refused m (calm c) -> refused m c.
Proof.
  intros Hm [Hr Hd]. simpl in Hd. unfold refused.
  destruct (Hm c) as [[-> H2]|(e' & -> & _ & H3)].
  - split; [done|]. rewrite <-Hd, <-H2. done.
  - split; [done|]. destruct H3 as [-> | ->]; [done | exact Hd].
Qed.

Lemma pure_history_eq {S E A} (m : Db S E A) : pure m -> history eq m.
Proof. intros [r Hr] c. by rewrite Hr. Qed.

Lemma quiet_history_eq {S E A} P (m : Db S E A) : quiet P m -> history eq m.
Proof. intros Hm c. by destruct (Hm c) as [-> _]. Qed.

Lemma throw_refused {S E A} (e : E) (c : Conn S) : refused (throw (A:=A) e) c.
Proof. done. Qed.

(** The next guard refuses, or the rest runs. *)
Ltac refuse_guard :=
  match goal with
  | |- refused (if ?b then throw _ else _) _ => destruct b; [apply throw_refused|]
  end.

Lemma refused_bind {S E A B} (m : Db S E A) (k : A -> Db S E B) c :
  refused m c -> refused (m ≫= k) c.
Proof.
  unfold refused, mbind, db_bind. destruct (m c) as [[a|e] c1]; simpl; [by intros [] | done].
Qed.

(** A refusal after steps that left the durable tables alone *)
Lemma refused_after {S E A B} (m : Db S E A) (k : A -> Db S E B) c :
  history eq m -> (forall a c1, durable c1 = durable c -> refused (k a) c1) -> refused (m ≫= k) c.
Proof.
  intros Hm Hk. unfold refused, mbind, db_bind. specialize (Hm c).
  destruct (m c) as [[a|e] c1]; simpl in *; [|by rewrite Hm].
  rewrite Hm. by apply Hk.
Qed.

Lemma map_err_refused {S E E' A} (f : E -> E') (m : Db S E A) c : refused m c -> refused (map_err f m) c.
Proof. unfold refused, map_err. by destruct (m c) as [[a|e] c1]. Qed.

Lemma history_map_err {S E E' A} (R : relation S) (f : E -> E') (m : Db S E A) :
  history R m -> history R (map_err f m).
Proof. intros Hm c. unfold map_err. specialize (Hm c). by destruct (m c). Qed.

Lemma history_attempt {S E E' A} (R : relation S) (m : Db S E' A) :
  history R m -> history R (attempt (E:=E) m).
Proof. intros Hm c. unfold attempt. specialize (Hm c). by destruct (m c). Qed.

Lemma evolves_map_err {S E E' A} (R : relation S) (f : E -> E') (m : Db S E A) :
  evolves R m -> evolves R (map_err f m).
Proof. intros Hm c H. unfold map_err. specialize (Hm c H). by destruct (m c). Qed.

(** ** Successful runs *)

Lemma db_bind_Ok {S E A B} (m : Db S E A) (k : A -> Db S E B) c b c' :
  (m ≫= k) c = (Ok b, c') <-> exists a c1, m c = (Ok a, c1) /\ k a c1 = (Ok b, c').
Proof.
  unfold mbind, db_bind. destruct (m c) as [[a|e] c1]; naive_solver.
Qed.

Lemma lift_Ok {S E A} (r : Result E A) (c : Conn S) a c' :
  lift r c = (Ok a, c') <-> r = Ok a /\ c' = c.
Proof. unfold lift. naive_solver. Qed.

Lemma mret_Ok {S E A} (x : A) (c : Conn S) a c' :
  (mret x : Db S E A) c = (Ok a, c') <-> a = x /\ c' = c.
Proof. unfold mret, db_ret. naive_solver. Qed.

Lemma throw_Ok {S E A} (e : E) (c : Conn S) (a : A) c' : throw e c = (Ok a, c') <-> False.
Proof. unfold throw. naive_solver. Qed.

Lemma map_err_Ok {S E E' A} (f : E -> E') (m : Db S E A) c a c' :
  map_err f m c = (Ok a, c') <-> m c = (Ok a, c').
Proof. unfold map_err. destruct (m c) as [[|] ?]; naive_solver. Qed.

(** The tables a connection sees, without its schedule and supply *)
Definition sees {S} (c : Conn S) (d w : S) : Prop := durable c = d /\ working c = w.

Lemma connection_Ok {S E} (h : string -> E) (c : Conn S) u c' :
  connection h c = (Ok u, c') -> sees c' (durable c) (durable c).
Proof.
  unfold connection, next_fault. destruct (faults c) as [|[] fs]; intros [=]; subst; done.
Qed.

Lemma transaction_Ok {S E} (h : PostgresError -> E) (c : Conn S) u c' :
  transaction h c = (Ok u, c') -> sees c' (durable c) (durable c).
Proof.
  unfold transaction, next_fault. destruct (faults c) as [|[] fs]; intros [=]; subst; done.
Qed.

Lemma execute_Ok {S E A} (h : PostgresError -> E) (f : S -> Result PostgresError (A * S)) c a c' :
  execute h f c = (Ok a, c') ->
  exists w, f (working c) = Ok (a, w) /\ sees c' (durable c) w.
Proof.
  unfold execute, next_fault. destruct (faults c) as [|[] fs]; simpl;
    destruct (f (working c)) as [[a' w]|]; intros [=]; subst; by exists w.
Qed.

Lemma query_Ok {S E A} (h : PostgresError -> E) (f : S -> A) c a c' :
  query h f c = (Ok a, c') -> a = f (working c) /\ sees c' (durable c) (working c).
Proof. unfold query. intros (w & [= -> ->] & H)%execute_Ok. done. Qed.

Lemma autocommit_Ok {S E A} (h : PostgresError -> E) (f : S -> Result PostgresError (A * S)) c a c' :
  autocommit h f c = (Ok a, c') ->
  exists w, f (durable c) = Ok (a, w) /\ sees c' w w.
Proof.
  unfold autocommit, next_fault. destruct (faults c) as [|[] fs]; simpl;
    destruct (f (durable c)) as [[a' w]|]; intros [=]; subst; by exists w.
Qed.

Lemma commit_Ok {S E} (h : PostgresError -> E) (c : Conn S) u c' :
  commit h c = (Ok u, c') -> sees c' (working c) (working c).
Proof.
  unfold commit, next_fault. destruct (faults c) as [|[] fs]; intros [=]; subst; done.
Qed.

Lemma random_Ok {S E} (c : Conn S) n c' :
  random (E:=E) c = (Ok n, c') -> sees c' (durable c) (working c).
Proof. unfold random. destruct (entropy c); intros [=]; subst; done. Qed.

Lemma new_uuid_Ok {S E} (c : Conn S) u c' :
  new_uuid (E:=E) c = (Ok u, c') -> sees c' (durable c) (working c).
Proof. unfold new_uuid, random. destruct (entropy c); intros [=]; subst; done. Qed.

Lemma server_clock_Ok {S E} (c : Conn S) z c' :
  server_clock (E:=E) c = (Ok z, c') -> sees c' (durable c) (working c).
Proof. unfold server_clock, random. destruct (entropy c); intros [=]; subst; done. Qed.

Lemma getrandom_Ok {S E} n (e : E) (c : Conn S) b c' :
  getrandom n e c = (Ok b, c') -> String.length b = n /\ sees c' (durable c) (working c).
Proof.
  unfold getrandom, random, next_fault.
  destruct (faults c) as [|[] fs]; simpl; destruct (entropy c); intros [=]; subst;
    (split; [apply length_be_bytes | done]).
Qed.

Lemma attempt_Ok {S E E' A} (m : Db S E' A) (c : Conn S) r c' :
  attempt (E:=E) m c = (Ok r, c') <-> m c = (r, c').
Proof. unfold attempt. destruct (m c). naive_solver. Qed.

(** Inverts a successful run into the facts about its steps. *)
Ltac db_step :=
  match goal with
  | H : sees _ _ _ |- _ => destruct H as [?Hd ?Hw]
  | H : connection _ _ = (Ok _, _) |- _ => apply connection_Ok in H
  | H : transaction _ _ = (Ok _, _) |- _ => apply transaction_Ok in H
  | H : execute _ _ _ = (Ok _, _) |- _ => apply execute_Ok in H as (? & H & ?)
  | H : query _ _ _ = (Ok _, _) |- _ => apply query_Ok in H as [H ?]
  | H : autocommit _ _ _ = (Ok _, _) |- _ => apply autocommit_Ok in H as (? & H & ?)
  | H : commit _ _ = (Ok _, _) |- _ => apply commit_Ok in H
  | H : random _ = (Ok _, _) |- _ => apply random_Ok in H
  | H : new_uuid _ = (Ok _, _) |- _ => apply new_uuid_Ok in H
  | H : server_clock _ = (Ok _, _) |- _ => apply server_clock_Ok in H
  | H : getrandom _ _ _ = (Ok _, _) |- _ => apply getrandom_Ok in H as [? H]
  | H : attempt _ _ = (Ok _, _) |- _ => apply attempt_Ok in H
  | H : mbind _ _ _ = (Ok _, _) |- _ => apply db_bind_Ok in H as (? & ? & ? & H)
  | H : lift _ _ = (Ok _, _) |- _ => apply lift_Ok in H as [H ?]; subst
  | H : mret _ _ = (Ok _, _) |- _ => apply mret_Ok in H as [? ?]; subst
  | H : throw _ _ = (Ok _, _) |- _ => by apply throw_Ok in H
  | H : map_err _ _ _ = (Ok _, _) |- _ => apply map_err_Ok in H
  | H : (if ?b then throw _ else _) _ = (Ok _, _) |- _ =>
      destruct b eqn:?; [by apply throw_Ok in H|]
  | H : (match ?o with Some _ => throw _ | None => _ end) _ = (Ok _, _) |- _ =>
      destruct o eqn:?; [by apply throw_Ok in H|]
  | H : (if ?b then _ else _) _ = (Ok _, _) |- _ => destruct b eqn:?
  end.
Ltac resolve_tables :=
  repeat match goal with
  | H : durable ?c = _ |- _ => rewrite H in *; clear H
  | H : working ?c = _ |- _ => rewrite H in *; clear H
  end.
Ltac db_inv := repeat (db_step || result_step); resolve_tables.

(** ** Faultless runs *)

Section calm.
Context {S E : Type} (d w : S) (ns : list N).

Lemma bind_run {A B} (m : Db S E A) (k : A -> Db S E B) c :
  (m ≫= k) c = match m c with (Ok a, c) => k a c | (Err e, c) => (Err e, c) end.
Proof. done. Qed.
Lemma connection_run (h : string -> E) :
  connection h (MkConn d w [] ns) = (Ok tt, MkConn d d [] ns).
Proof. done. Qed.
Lemma transaction_run (h : PostgresError -> E) :
  transaction h (MkConn d w [] ns) = (Ok tt, MkConn d d [] ns).
Proof. done. Qed.
Lemma execute_run {A} (h : PostgresError -> E) (f : S -> Result PostgresError (A * S)) a w' :
  f w = Ok (a, w') -> execute h f (MkConn d w [] ns) = (Ok a, MkConn d w' [] ns).
Proof. unfold execute, next_fault. simpl. by intros ->. Qed.
Lemma query_run {A} (h : PostgresError -> E) (f : S -> A) :
  query h f (MkConn d w [] ns) = (Ok (f w), MkConn d w [] ns).
Proof. done. Qed.
Lemma autocommit_run {A} (h : PostgresError -> E) (f : S -> Result PostgresError (A * S)) a w' :
  f d = Ok (a, w') -> autocommit h f (MkConn d w [] ns) = (Ok a, MkConn w' w' [] ns).
Proof. unfold autocommit, next_fault. simpl. by intros ->. Qed.
Lemma execute_fail_run {A} (h : PostgresError -> E) (f : S -> Result PostgresError (A * S)) e :
  f w = Err e -> execute h f (MkConn d w [] ns) = (Err (h e), MkConn d w [] ns).
Proof. unfold execute, next_fault. simpl. by intros ->. Qed.
Lemma execute_cases {A} (h : PostgresError -> E) (f : S -> Result PostgresError (A * S)) :
  (exists a w', f w = Ok (a, w') /\
     execute h f (MkConn d w [] ns) = (Ok a, MkConn d w' [] ns)) \/
  (exists e, f w = Err e /\ execute h f (MkConn d w [] ns) = (Err (h e), MkConn d w [] ns)).
Proof.
  destruct (f w) as [[a w']|e] eqn:Hf; [left | right].
  - exists a, w'. by rewrite (execute_run h f a w').
  - exists e. by rewrite (execute_fail_run h f e).
Qed.
Lemma autocommit_cases {A} (h : PostgresError -> E) (f : S -> Result PostgresError (A * S)) :
  (exists a w', f d = Ok (a, w') /\
     autocommit h f (MkConn d w [] ns) = (Ok a, MkConn w' w' [] ns)) \/
  (exists e, f d = Err e /\ autocommit h f (MkConn d w [] ns) = (Err (h e), MkConn d w [] ns)).
Proof.
  unfold autocommit, next_fault. simpl.
  destruct (f d) as [[a w']|e] eqn:Hf; [left | right]; eauto.
Qed.
Lemma autocommit_fail_run {A} (h : PostgresError -> E) (f : S -> Result PostgresError (A * S)) e :
  f d = Err e -> autocommit h f (MkConn d w [] ns) = (Err (h e), MkConn d w [] ns).
Proof. unfold autocommit, next_fault. simpl. by intros ->. Qed.
Lemma new_uuid_run :
  exists u ns', new_uuid (S:=S) (E:=E) (MkConn d w [] ns) = (Ok u, MkConn d w [] ns').
Proof. unfold new_uuid, random. destruct ns; eauto. Qed.
Lemma new_uuid_draw_bind {A} (k : Uuid -> Db S E A) :
  (new_uuid ≫= k) (MkConn d w [] ns) = k (uuid_of_N (hd 0%N ns)) (MkConn d w [] (tl ns)).
Proof. unfold new_uuid, random, mbind, db_bind. by destruct ns. Qed.
Lemma server_clock_run :
  exists z ns', server_clock (S:=S) (E:=E) (MkConn d w [] ns) = (Ok z, MkConn d w [] ns').
Proof. unfold server_clock, random. destruct ns; eauto. Qed.
Lemma getrandom_run n (e : E) :
  getrandom (S:=S) n e (MkConn d w [] ns) =
  (Ok (be_bytes n (hd 0%N ns)), MkConn d w [] (tl ns)).
Proof. unfold getrandom, random, next_fault. simpl. by destruct ns. Qed.
Lemma commit_run (h : PostgresError -> E) :
  commit h (MkConn d w [] ns) = (Ok tt, MkConn w w [] ns).
Proof. done. Qed.
Lemma lift_run {A} (r : Result E A) c : lift (S:=S) r c = (r, c).
Proof. done. Qed.
Lemma throw_run {A} (e : E) c : throw (S:=S) (A:=A) e c = (Err e, c).
Proof. done. Qed.
Lemma mret_run {A} (a : A) c : (mret a : Db S E A) c = (Ok a, c).
Proof. done. Qed.
End calm.

(** Steps through a faultless run; statements need their [execute_run] fact. *)
Ltac db_run :=
  repeat (rewrite bind_run || rewrite connection_run || rewrite transaction_run
          || rewrite query_run || rewrite commit_run || rewrite lift_run || rewrite throw_run
          || rewrite mret_run || rewrite getrandom_run || (erewrite execute_run by eassumption)
          || (erewrite autocommit_run by eassumption)); cbv beta iota.

(** The next statement of a faultless run succeeds ([Hf] says how) or fails. *)
Ltac db_case Hf :=
  db_run;
  match goal with
  | |- context [execute ?h ?f (MkConn ?d ?w [] ?ns)] =>
      destruct (execute_cases d w ns h f) as [(? & ? & Hf & ->)|(? & Hf & ->)]
  | |- context [autocommit ?h ?f (MkConn ?d ?w [] ?ns)] =>
      destruct (autocommit_cases d w ns h f) as [(? & ? & Hf & ->)|(? & Hf & ->)]
  end; cbv beta iota.

(** A run that ends as [Q] says, or with an error and the old durable tables *)
Definition outcome {S E A} (Q : A -> Conn S -> Prop) (T : S) (rc : Result E A * Conn S) : Prop :=
  match rc with (Ok a, c') => Q a c' | (Err _, c') => durable c' = T end.

Lemma outcome_bind {S E A B} (Q : A -> Conn S -> Prop) (Q' : B -> Conn S -> Prop) T
  (m : Db S E A) (k : A -> Db S E B) c :
  outcome Q T (m c) -> (forall a c1, Q a c1 -> outcome Q' T (k a c1)) ->
  outcome Q' T ((m ≫= k) c).
Proof. rewrite bind_run. destruct (m c) as [[a|e] c1]; simpl; auto. Qed.

Lemma outcome_mono {S E A} (Q Q' : A -> Conn S -> Prop) T (rc : Result E A * Conn S) :
  outcome Q T rc -> (forall a c, Q a c -> Q' a c) -> outcome Q' T rc.
Proof. destruct rc as [[a|e] c]; simpl; auto. Qed.

Create HintDb db.
#[export] Hint Resolve pure_ret pure_throw pure_lift : db.
#[export] Hint Resolve quiet_connection quiet_transaction quiet_execute quiet_query
  quiet_random quiet_new_uuid quiet_server_clock quiet_getrandom : db.
#[export] Hint Resolve atomic_commit atomic_autocommit : db.

(** Walks through a computation, leaving what the hints do not prove. *)
Ltac db_walk :=
  repeat (cbv beta zeta; match goal with
  | |- forall _, _ => intros ?
  | |- context [match ?x with _ => _ end] =>
      match goal with
      | |- pure (match x with _ => _ end) => destruct x
      | |- quiet _ (match x with _ => _ end) => destruct x
      | |- atomic _ (match x with _ => _ end) => destruct x
      | |- evolves _ (match x with _ => _ end) => destruct x
      | |- history _ (match x with _ => _ end) => destruct x
      end
  | |- quiet _ (mbind _ _) => apply quiet_bind
  | |- quiet _ (connection _) => apply quiet_connection
  | |- quiet _ (transaction _) => apply quiet_transaction
  | |- quiet _ (execute _ _) => apply quiet_execute
  | |- quiet _ (query _ _) => apply quiet_query
  | |- atomic _ (commit _) => apply atomic_commit
  | |- atomic _ (autocommit _ _) => apply atomic_autocommit
  | |- quiet _ (map_err _ _) => apply quiet_map_err
  | |- quiet _ (mret _) => apply pure_quiet, pure_ret
  | |- quiet _ (throw _) => apply pure_quiet, pure_throw
  | |- quiet _ (lift _) => apply pure_quiet, pure_lift
  | |- atomic _ (mbind _ _) =>
      first [ apply atomic_bind; [solve [db_quiet] |]
            | apply atomic_then_pure; [| solve [db_pure]] ]
  | |- atomic _ (map_err _ _) => apply atomic_map_err
  | |- atomic _ (mret _) => apply quiet_atomic, pure_quiet, pure_ret
  | |- atomic _ (throw _) => apply quiet_atomic, pure_quiet, pure_throw
  | |- atomic _ (lift _) => apply quiet_atomic, pure_quiet, pure_lift
  | |- history _ (mbind _ (connection _)) => apply history_connection; [apply _|]
  | |- history _ (mbind _ _) => apply history_bind; [apply _| |]
  | |- history _ (map_err _ _) => apply history_map_err
  | |- history _ (mret _) => apply (history_quiet _ (fun _ => True)), pure_quiet, pure_ret
  | |- history _ (throw _) => apply (history_quiet _ (fun _ => True)), pure_quiet, pure_throw
  | |- history _ (lift _) => apply (history_quiet _ (fun _ => True)), pure_quiet, pure_lift
  | |- history _ random => apply (history_quiet _ (fun _ => True)), quiet_random
  | |- history _ new_uuid => apply (history_quiet _ (fun _ => True)), quiet_new_uuid
  | |- history _ server_clock => apply (history_quiet _ (fun _ => True)), quiet_server_clock
  | |- history _ (getrandom _ _) => apply (history_quiet _ (fun _ => True)), quiet_getrandom
  | |- history _ (attempt _) => apply history_attempt
  | |- history _ (autocommit _ _) => apply history_autocommit; [apply _|]
  | |- evolves _ (mbind _ _) => apply evolves_bind; [apply _| |]
  | |- evolves _ (map_err _ _) => apply evolves_map_err
  | |- evolves _ (mret _) => apply evolves_pure, pure_ret; apply _
  | |- evolves _ (throw _) => apply evolves_pure, pure_throw; apply _
  | |- evolves _ (lift _) => apply evolves_pure, pure_lift; apply _
  | |- evolves _ (connection _) => apply evolves_connection; apply _
  | |- evolves _ (transaction _) => apply evolves_transaction; apply _
  | |- evolves _ (query _ _) => apply evolves_query; apply _
  | |- evolves _ (commit _) => apply evolves_commit; apply _
  | |- evolves _ random => apply evolves_random; try apply _
  | |- evolves _ new_uuid => apply evolves_new_uuid; try apply _
  | |- evolves _ server_clock => apply evolves_server_clock; try apply _
  | |- evolves _ (getrandom _ _) => apply evolves_getrandom; try apply _
  | |- evolves _ (execute _ _) => apply evolves_execute; [apply _|]
  | |- evolves _ (autocommit _ _) => apply evolves_autocommit; [apply _|]
  | |- _ => solve [exact Logic.I | eauto with db]
  end)
with db_quiet := db_walk; eauto with db
with db_pure := db_walk; eauto with db.

(** ** Steps that are passed *)

Lemma random_reading {S E} (d w : S) ns : exists n ns',
  random (E:=E) (MkConn d w [] ns) = (Ok n, MkConn d w [] ns').
Proof. destruct ns as [|n ns]; by do 2 eexists. Qed.

Lemma new_uuid_reading {S E} (d w : S) ns : exists u ns',
  new_uuid (E:=E) (MkConn d w [] ns) = (Ok u, MkConn d w [] ns').
Proof. unfold new_uuid. destruct (random_reading (E:=E) d w ns) as (n & ns' & ->). by do 2 eexists. Qed.

Lemma server_clock_reading {S E} (d w : S) ns : exists z ns',
  server_clock (E:=E) (MkConn d w [] ns) = (Ok z, MkConn d w [] ns') /\ (0 <= z)%Z.
Proof.
  unfold server_clock. destruct (random_reading (E:=E) d w ns) as (n & ns' & ->).
  do 2 eexists. split; [reflexivity | apply N2Z.is_nonneg].
Qed.

Lemma map_err_Ok_run {S E E' A} (f : E -> E') (m : Db S E A) c a c' :
  m c = (Ok a, c') -> map_err f m c = (Ok a, c').
Proof. unfold map_err. by intros ->. Qed.

(** A run gets past a step that stores nothing, or keeps what the step keeps. *)
Lemma past_quiet {S E A B} P' (R : relation S) `{!PreOrder R} (m : Db S E A) (k : A -> Db S E B) c (Q : Prop) :
  quiet P' m ->
  (forall a c1, m c = (Ok a, c1) -> durable c1 = durable c ->
     R (durable c1) (durable (k a c1).2) \/ Q) ->
  R (durable c) (durable ((m ≫= k) c).2) \/ Q.
Proof.
  intros Hm Hk. unfold mbind, db_bind. destruct (Hm c) as [Hd _].
  destruct (m c) as [[a|e] c1]; simpl in *; [|left; by rewrite Hd]. rewrite <-Hd. by apply Hk.
Qed.

Lemma past_step {S E A B} (R : relation S) `{!PreOrder R} (m : Db S E A) (k : A -> Db S E B) c (Q : Prop) :
  history R m -> (forall a c1, m c = (Ok a, c1) -> Q) ->
  R (durable c) (durable ((m ≫= k) c).2) \/ Q.
Proof.
  intros Hm Hk. unfold mbind, db_bind. specialize (Hm c).
  destruct (m c) as [[a|e] c1]; simpl in *; [right; by eapply Hk | by left].
Qed.

Ltac past_guard H :=
  match goal with
  | |- _ _ (durable ((if ?b then _ else _) _).2) \/ _ => destruct b eqn:H; [by left|]
  end.
