(* ===== verification/Schema.v ===== *)
(** * Schema: the tables of [src/migrations/]

    One record per table; a table is a map from its primary key to the other
    columns, an audit table the list of its rows, oldest first. The columns the
    program never reads back (default timestamps, audit numbers) are left out.
    The statements, with the constraints and triggers they run into, are in the
    files of the components. A [uuid] column is a [Uuid]; the casts
    [$1::text::uuid] and [id::text] of the statements are [uuid_parse] and
    [uuid_print]. *)

From S2P Require Import Prelude Text Platform Database.
From Stdlib Require Import Ascii.

(** [0001] identities *)
Record IdentityRow := MkIdentityRow {
  id_kind : string;
  id_display_name : string;
  id_status : string;
}.

(** [0002] service_instances *)
Record InstanceRow := MkInstanceRow {
  si_service_id : Uuid;
  si_endpoint : string;
  si_registered_at : Z;
  si_lease_expires_at : Z;
  si_lease_revision : Z;
  si_revoked_at : option Z;
}.

(** [0002] service_instance_keys *)
Record InstanceKeyRow := MkInstanceKeyRow {
  sik_instance_id : Uuid;
  sik_algorithm : string;
  sik_public_key : bytes;
  sik_fingerprint : bytes;
  sik_valid_from : Z;
  sik_revoked_at : option Z;
}.

(** [0002] service_instance_registry_audit *)
Record RegistryAuditRow := MkRegistryAuditRow {
  sira_service_id : Uuid;
  sira_instance_id : Uuid;
  sira_key_id : Uuid;
  sira_action : string;
  sira_lease_revision : Z;
  sira_recorded_at : Z;
}.

(** [0003] service_enrollment_bindings *)
Record BindingRow := MkBindingRow {
  seb_namespace : string;
  seb_service_account : string;
  seb_service_account_uid : string;
  seb_enabled : bool;
}.

(** [0003] service_enrollment_challenges *)
Record EnrollmentChallengeRow := MkEnrollmentChallengeRow {
  sec_service_id : Uuid;
  sec_expires_at : Z;
  sec_consumed_at : option Z;
}.

(** [0004], [0015] subscriptions *)
Record SubscriptionRow := MkSubscriptionRow {
  sub_service_id : Uuid;
  sub_event_type : string;
  sub_delivery_mode : string;
  sub_created_at : Z;
  sub_disabled_at : option Z;
}.

(** [0004], [0015] subscription_audit *)
Record SubscriptionAuditRow := MkSubscriptionAuditRow {
  suba_subscription_id : Uuid;
  suba_service_id : Uuid;
  suba_event_type : string;
  suba_delivery_mode : string;
  suba_action : string;
  suba_recorded_at : Z;
}.

(** [0005] service_instance_handshake_challenges *)
Record HandshakeChallengeRow := MkHandshakeChallengeRow {
  hc_kernel_instance_id : Uuid;
  hc_target_instance_id : Uuid;
  hc_target_key_id : Uuid;
  hc_issued_at : Z;
  hc_expires_at : Z;
  hc_consumed_at : option Z;
}.

(** [0005] service_instance_handshakes *)
Record HandshakeRow := MkHandshakeRow {
  hs_kernel_instance_id : Uuid;
  hs_target_instance_id : Uuid;
  hs_target_key_id : Uuid;
  hs_verified_at : Z;
  hs_expires_at : Z;
}.

(** [0005] service_instance_handshake_audit *)
Record HandshakeAuditRow := MkHandshakeAuditRow {
  hsa_challenge_digest : bytes;
  hsa_kernel_instance_id : Uuid;
  hsa_target_instance_id : Uuid;
  hsa_action : string;
  hsa_recorded_at : Z;
}.

(** [0006] service_request_ids *)
Record RequestIdRow := MkRequestIdRow {
  ri_request_fingerprint : bytes;
  ri_first_seen_at : Z;
}.

(** [0006] service_request_nonces *)
Record NonceRow := MkNonceRow {
  rn_service_id : Uuid;
  rn_instance_id : Uuid;
  rn_request_id : Uuid;
  rn_request_fingerprint : bytes;
  rn_signature_created : Z;
  rn_signature_expires : Z;
  rn_reserved_at : Z;
}.

(** [0006] service_request_replay_audit *)
Record ReplayAuditRow := MkReplayAuditRow {
  ra_service_id : Uuid;
  ra_instance_id : Uuid;
  ra_key_id : Uuid;
  ra_request_id : Uuid;
  ra_nonce_digest : bytes;
  ra_request_fingerprint : bytes;
  ra_outcome : string;
  ra_recorded_at : Z;
}.

(** [0007] service_communication_admission *)
Record AdmissionRow := MkAdmissionRow {
  adm_communication_enabled : bool;
  adm_revision : Z;
  adm_updated_at : Z;
}.

(** [0008], [0014] accepted_requests *)
Record AcceptedRequestRow := MkAcceptedRequestRow {
  ar_action : string;
  ar_scope : string;
  ar_artifact_schema_version_id : Uuid;
  ar_permission_policy_schema_version_id : Uuid;
  ar_semantic_fingerprint : bytes;
  ar_accepted_at : Z;
}.

(** [0008], [0014] request_acceptance_audit *)
Record AcceptanceAuditRow := MkAcceptanceAuditRow {
  aa_source_service_id : Uuid;
  aa_request_id : Uuid;
  aa_attempted_action : string;
  aa_attempted_scope : string;
  aa_attempted_artifact : Uuid;
  aa_attempted_permission_policy : Uuid;
  aa_attempted_fingerprint : bytes;
  aa_outcome : string;
}.

(** [0009], [0012], [0019] authority_grants *)
Record GrantRow := MkGrantRow {
  gr_source_service_id : Uuid;
  gr_action : string;
  gr_scope : string;
  gr_artifact_schema_version_id : Uuid;
  gr_permission_policy_schema_version_id : Uuid;
  gr_destination_service_id : option Uuid;
  gr_valid_from : Z;
  gr_valid_until : option Z;
  gr_revoked_at : option Z;
}.

(** [0010] authority_schema_versions *)
Record SchemaVersionRow := MkSchemaVersionRow {
  sv_kind : string;
  sv_name : string;
  sv_version : Z;
  sv_owner_service_id : Uuid;
  sv_content_digest : bytes;
  sv_predecessor_id : option Uuid;
  sv_published_at : Z;
  sv_status : string;
}.

(** [0011], [0013] authority_decisions *)
Record DecisionRow := MkDecisionRow {
  dec_source_service_id : Uuid;
  dec_action : string;
  dec_scope : string;
  dec_artifact_schema_version_id : Uuid;
  dec_permission_policy_schema_version_id : Uuid;
  dec_destination_service_id : option Uuid;
  dec_verdict : string;
  dec_evaluator_service_id : Uuid;
  dec_policy_bundle_version : option string;
  dec_decided_at : Z;
}.

(** [0016] request_routes *)
Record RouteRow := MkRouteRow {
  rr_source_service_id : Uuid;
  rr_request_id : Uuid;
  rr_subscription_id : Uuid;
  rr_destination_service_id : Uuid;
  rr_created_at : Z;
}.

(** [0017] work_claims *)
Record WorkClaimRow := MkWorkClaimRow {
  wc_route_id : Uuid;
  wc_worker_service_id : Uuid;
  wc_worker_instance_id : Uuid;
  wc_fencing_token : Z;
  wc_status : string;
  wc_claimed_at : Z;
  wc_lease_expires_at : Z;
}.

Record Tables := MkTables {
  identities : gmap Uuid IdentityRow;
  service_instances : gmap Uuid InstanceRow;
  service_instance_keys : gmap Uuid InstanceKeyRow;
  registry_audit : list RegistryAuditRow;
  enrollment_bindings : gmap Uuid BindingRow;
  enrollment_challenges : gmap bytes EnrollmentChallengeRow;
  subscriptions : gmap Uuid SubscriptionRow;
  subscription_audit : list SubscriptionAuditRow;
  handshake_challenges : gmap bytes HandshakeChallengeRow;
  handshakes : gmap bytes HandshakeRow;
  handshake_audit : list HandshakeAuditRow;
  request_ids : gmap (Uuid * Uuid) RequestIdRow;
  request_nonces : gmap (Uuid * bytes) NonceRow;
  replay_audit : list ReplayAuditRow;
  admission : gmap Uuid AdmissionRow;
  accepted_requests : gmap (Uuid * Uuid) AcceptedRequestRow;
  acceptance_audit : list AcceptanceAuditRow;
  authority_grants : gmap Uuid GrantRow;
  schema_versions : gmap Uuid SchemaVersionRow;
  authority_decisions : gmap Uuid DecisionRow;
  request_routes : gmap Uuid RouteRow;
  work_claims : gmap Uuid WorkClaimRow;
}.

Definition with_identities (t : gmap Uuid IdentityRow) (T : Tables) : Tables := {|
  identities := t; service_instances := service_instances T;
  service_instance_keys := service_instance_keys T; registry_audit := registry_audit T;
  enrollment_bindings := enrollment_bindings T; enrollment_challenges := enrollment_challenges T;
  subscriptions := subscriptions T; subscription_audit := subscription_audit T;
  handshake_challenges := handshake_challenges T; handshakes := handshakes T;
  handshake_audit := handshake_audit T; request_ids := request_ids T;
  request_nonces := request_nonces T; replay_audit := replay_audit T; admission := admission T;
  accepted_requests := accepted_requests T; acceptance_audit := acceptance_audit T;
  authority_grants := authority_grants T; schema_versions := schema_versions T;
  authority_decisions := authority_decisions T; request_routes := request_routes T;
  work_claims := work_claims T |}.
Definition with_service_instances (t : gmap Uuid InstanceRow) (T : Tables) : Tables := {|
  identities := identities T; service_instances := t;
  service_instance_keys := service_instance_keys T; registry_audit := registry_audit T;
  enrollment_bindings := enrollment_bindings T; enrollment_challenges := enrollment_challenges T;
  subscriptions := subscriptions T; subscription_audit := subscription_audit T;
  handshake_challenges := handshake_challenges T; handshakes := handshakes T;
  handshake_audit := handshake_audit T; request_ids := request_ids T;
  request_nonces := request_nonces T; replay_audit := replay_audit T; admission := admission T;
  accepted_requests := accepted_requests T; acceptance_audit := acceptance_audit T;
  authority_grants := authority_grants T; schema_versions := schema_versions T;
  authority_decisions := authority_decisions T; request_routes := request_routes T;
  work_claims := work_claims T |}.
Definition with_service_instance_keys (t : gmap Uuid InstanceKeyRow) (T : Tables) : Tables := {|
  identities := identities T; service_instances := service_instances T;
  service_instance_keys := t; registry_audit := registry_audit T;
  enrollment_bindings := enrollment_bindings T; enrollment_challenges := enrollment_challenges T;
  subscriptions := subscriptions T; subscription_audit := subscription_audit T;
  handshake_challenges := handshake_challenges T; handshakes := handshakes T;
  handshake_audit := handshake_audit T; request_ids := request_ids T;
  request_nonces := request_nonces T; replay_audit := replay_audit T; admission := admission T;
  accepted_requests := accepted_requests T; acceptance_audit := acceptance_audit T;
  authority_grants := authority_grants T; schema_versions := schema_versions T;
  authority_decisions := authority_decisions T; request_routes := request_routes T;
  work_claims := work_claims T |}.
Definition with_registry_audit (t : list RegistryAuditRow) (T : Tables) : Tables := {|
  identities := identities T; service_instances := service_instances T;
  service_instance_keys := service_instance_keys T; registry_audit := t;
  enrollment_bindings := enrollment_bindings T; enrollment_challenges := enrollment_challenges T;
  subscriptions := subscriptions T; subscription_audit := subscription_audit T;
  handshake_challenges := handshake_challenges T; handshakes := handshakes T;
  handshake_audit := handshake_audit T; request_ids := request_ids T;
  request_nonces := request_nonces T; replay_audit := replay_audit T; admission := admission T;
  accepted_requests := accepted_requests T; acceptance_audit := acceptance_audit T;
  authority_grants := authority_grants T; schema_versions := schema_versions T;
  authority_decisions := authority_decisions T; request_routes := request_routes T;
  work_claims := work_claims T |}.
Definition with_enrollment_bindings (t : gmap Uuid BindingRow) (T : Tables) : Tables := {|
  identities := identities T; service_instances := service_instances T;
  service_instance_keys := service_instance_keys T; registry_audit := registry_audit T;
  enrollment_bindings := t; enrollment_challenges := enrollment_challenges T;
  subscriptions := subscriptions T; subscription_audit := subscription_audit T;
  handshake_challenges := handshake_challenges T; handshakes := handshakes T;
  handshake_audit := handshake_audit T; request_ids := request_ids T;
  request_nonces := request_nonces T; replay_audit := replay_audit T; admission := admission T;
  accepted_requests := accepted_requests T; acceptance_audit := acceptance_audit T;
  authority_grants := authority_grants T; schema_versions := schema_versions T;
  authority_decisions := authority_decisions T; request_routes := request_routes T;
  work_claims := work_claims T |}.
Definition with_enrollment_challenges (t : gmap bytes EnrollmentChallengeRow) (T : Tables) : Tables := {|
  identities := identities T; service_instances := service_instances T;
  service_instance_keys := service_instance_keys T; registry_audit := registry_audit T;
  enrollment_bindings := enrollment_bindings T; enrollment_challenges := t;
  subscriptions := subscriptions T; subscription_audit := subscription_audit T;
  handshake_challenges := handshake_challenges T; handshakes := handshakes T;
  handshake_audit := handshake_audit T; request_ids := request_ids T;
  request_nonces := request_nonces T; replay_audit := replay_audit T; admission := admission T;
  accepted_requests := accepted_requests T; acceptance_audit := acceptance_audit T;
  authority_grants := authority_grants T; schema_versions := schema_versions T;
  authority_decisions := authority_decisions T; request_routes := request_routes T;
  work_claims := work_claims T |}.
Definition with_subscriptions (t : gmap Uuid SubscriptionRow) (T : Tables) : Tables := {|
  identities := identities T; service_instances := service_instances T;
  service_instance_keys := service_instance_keys T; registry_audit := registry_audit T;
  enrollment_bindings := enrollment_bindings T; enrollment_challenges := enrollment_challenges T;
  subscriptions := t; subscription_audit := subscription_audit T;
  handshake_challenges := handshake_challenges T; handshakes := handshakes T;
  handshake_audit := handshake_audit T; request_ids := request_ids T;
  request_nonces := request_nonces T; replay_audit := replay_audit T; admission := admission T;
  accepted_requests := accepted_requests T; acceptance_audit := acceptance_audit T;
  authority_grants := authority_grants T; schema_versions := schema_versions T;
  authority_decisions := authority_decisions T; request_routes := request_routes T;
  work_claims := work_claims T |}.
Definition with_subscription_audit (t : list SubscriptionAuditRow) (T : Tables) : Tables := {|
  identities := identities T; service_instances := service_instances T;
  service_instance_keys := service_instance_keys T; registry_audit := registry_audit T;
  enrollment_bindings := enrollment_bindings T; enrollment_challenges := enrollment_challenges T;
  subscriptions := subscriptions T; subscription_audit := t;
  handshake_challenges := handshake_challenges T; handshakes := handshakes T;
  handshake_audit := handshake_audit T; request_ids := request_ids T;
  request_nonces := request_nonces T; replay_audit := replay_audit T; admission := admission T;
  accepted_requests := accepted_requests T; acceptance_audit := acceptance_audit T;
  authority_grants := authority_grants T; schema_versions := schema_versions T;
  authority_decisions := authority_decisions T; request_routes := request_routes T;
  work_claims := work_claims T |}.
Definition with_handshake_challenges (t : gmap bytes HandshakeChallengeRow) (T : Tables) : Tables := {|
  identities := identities T; service_instances := service_instances T;
  service_instance_keys := service_instance_keys T; registry_audit := registry_audit T;
  enrollment_bindings := enrollment_bindings T; enrollment_challenges := enrollment_challenges T;
  subscriptions := subscriptions T; subscription_audit := subscription_audit T;
  handshake_challenges := t; handshakes := handshakes T; handshake_audit := handshake_audit T;
  request_ids := request_ids T; request_nonces := request_nonces T;
  replay_audit := replay_audit T; admission := admission T;
  accepted_requests := accepted_requests T; acceptance_audit := acceptance_audit T;
  authority_grants := authority_grants T; schema_versions := schema_versions T;
  authority_decisions := authority_decisions T; request_routes := request_routes T;
  work_claims := work_claims T |}.
Definition with_handshakes (t : gmap bytes HandshakeRow) (T : Tables) : Tables := {|
  identities := identities T; service_instances := service_instances T;
  service_instance_keys := service_instance_keys T; registry_audit := registry_audit T;
  enrollment_bindings := enrollment_bindings T; enrollment_challenges := enrollment_challenges T;
  subscriptions := subscriptions T; subscription_audit := subscription_audit T;
  handshake_challenges := handshake_challenges T; handshakes := t;
  handshake_audit := handshake_audit T; request_ids := request_ids T;
  request_nonces := request_nonces T; replay_audit := replay_audit T; admission := admission T;
  accepted_requests := accepted_requests T; acceptance_audit := acceptance_audit T;
  authority_grants := authority_grants T; schema_versions := schema_versions T;
  authority_decisions := authority_decisions T; request_routes := request_routes T;
  work_claims := work_claims T |}.
Definition with_handshake_audit (t : list HandshakeAuditRow) (T : Tables) : Tables := {|
  identities := identities T; service_instances := service_instances T;
  service_instance_keys := service_instance_keys T; registry_audit := registry_audit T;
  enrollment_bindings := enrollment_bindings T; enrollment_challenges := enrollment_challenges T;
  subscriptions := subscriptions T; subscription_audit := subscription_audit T;
  handshake_challenges := handshake_challenges T; handshakes := handshakes T;
  handshake_audit := t; request_ids := request_ids T; request_nonces := request_nonces T;
  replay_audit := replay_audit T; admission := admission T;
  accepted_requests := accepted_requests T; acceptance_audit := acceptance_audit T;
  authority_grants := authority_grants T; schema_versions := schema_versions T;
  authority_decisions := authority_decisions T; request_routes := request_routes T;
  work_claims := work_claims T |}.
Definition with_request_ids (t : gmap (Uuid * Uuid) RequestIdRow) (T : Tables) : Tables := {|
  identities := identities T; service_instances := service_instances T;
  service_instance_keys := service_instance_keys T; registry_audit := registry_audit T;
  enrollment_bindings := enrollment_bindings T; enrollment_challenges := enrollment_challenges T;
  subscriptions := subscriptions T; subscription_audit := subscription_audit T;
  handshake_challenges := handshake_challenges T; handshakes := handshakes T;
  handshake_audit := handshake_audit T; request_ids := t; request_nonces := request_nonces T;
  replay_audit := replay_audit T; admission := admission T;
  accepted_requests := accepted_requests T; acceptance_audit := acceptance_audit T;
  authority_grants := authority_grants T; schema_versions := schema_versions T;
  authority_decisions := authority_decisions T; request_routes := request_routes T;
  work_claims := work_claims T |}.
Definition with_request_nonces (t : gmap (Uuid * bytes) NonceRow) (T : Tables) : Tables := {|
  identities := identities T; service_instances := service_instances T;
  service_instance_keys := service_instance_keys T; registry_audit := registry_audit T;
  enrollment_bindings := enrollment_bindings T; enrollment_challenges := enrollment_challenges T;
  subscriptions := subscriptions T; subscription_audit := subscription_audit T;
  handshake_challenges := handshake_challenges T; handshakes := handshakes T;
  handshake_audit := handshake_audit T; request_ids := request_ids T; request_nonces := t;
  replay_audit := replay_audit T; admission := admission T;
  accepted_requests := accepted_requests T; acceptance_audit := acceptance_audit T;
  authority_grants := authority_grants T; schema_versions := schema_versions T;
  authority_decisions := authority_decisions T; request_routes := request_routes T;
  work_claims := work_claims T |}.
Definition with_replay_audit (t : list ReplayAuditRow) (T : Tables) : Tables := {|
  identities := identities T; service_instances := service_instances T;
  service_instance_keys := service_instance_keys T; registry_audit := registry_audit T;
  enrollment_bindings := enrollment_bindings T; enrollment_challenges := enrollment_challenges T;
  subscriptions := subscriptions T; subscription_audit := subscription_audit T;
  handshake_challenges := handshake_challenges T; handshakes := handshakes T;
  handshake_audit := handshake_audit T; request_ids := request_ids T;
  request_nonces := request_nonces T; replay_audit := t; admission := admission T;
  accepted_requests := accepted_requests T; acceptance_audit := acceptance_audit T;
  authority_grants := authority_grants T; schema_versions := schema_versions T;
  authority_decisions := authority_decisions T; request_routes := request_routes T;
  work_claims := work_claims T |}.
Definition with_admission (t : gmap Uuid AdmissionRow) (T : Tables) : Tables := {|
  identities := identities T; service_instances := service_instances T;
  service_instance_keys := service_instance_keys T; registry_audit := registry_audit T;
  enrollment_bindings := enrollment_bindings T; enrollment_challenges := enrollment_challenges T;
  subscriptions := subscriptions T; subscription_audit := subscription_audit T;
  handshake_challenges := handshake_challenges T; handshakes := handshakes T;
  handshake_audit := handshake_audit T; request_ids := request_ids T;
  request_nonces := request_nonces T; replay_audit := replay_audit T; admission := t;
  accepted_requests := accepted_requests T; acceptance_audit := acceptance_audit T;
  authority_grants := authority_grants T; schema_versions := schema_versions T;
  authority_decisions := authority_decisions T; request_routes := request_routes T;
  work_claims := work_claims T |}.
Definition with_accepted_requests (t : gmap (Uuid * Uuid) AcceptedRequestRow) (T : Tables) : Tables := {|
  identities := identities T; service_instances := service_instances T;
  service_instance_keys := service_instance_keys T; registry_audit := registry_audit T;
  enrollment_bindings := enrollment_bindings T; enrollment_challenges := enrollment_challenges T;
  subscriptions := subscriptions T; subscription_audit := subscription_audit T;
  handshake_challenges := handshake_challenges T; handshakes := handshakes T;
  handshake_audit := handshake_audit T; request_ids := request_ids T;
  request_nonces := request_nonces T; replay_audit := replay_audit T; admission := admission T;
  accepted_requests := t; acceptance_audit := acceptance_audit T;
  authority_grants := authority_grants T; schema_versions := schema_versions T;
  authority_decisions := authority_decisions T; request_routes := request_routes T;
  work_claims := work_claims T |}.
Definition with_acceptance_audit (t : list AcceptanceAuditRow) (T : Tables) : Tables := {|
  identities := identities T; service_instances := service_instances T;
  service_instance_keys := service_instance_keys T; registry_audit := registry_audit T;
  enrollment_bindings := enrollment_bindings T; enrollment_challenges := enrollment_challenges T;
  subscriptions := subscriptions T; subscription_audit := subscription_audit T;
  handshake_challenges := handshake_challenges T; handshakes := handshakes T;
  handshake_audit := handshake_audit T; request_ids := request_ids T;
  request_nonces := request_nonces T; replay_audit := replay_audit T; admission := admission T;
  accepted_requests := accepted_requests T; acceptance_audit := t;
  authority_grants := authority_grants T; schema_versions := schema_versions T;
  authority_decisions := authority_decisions T; request_routes := request_routes T;
  work_claims := work_claims T |}.
Definition with_authority_grants (t : gmap Uuid GrantRow) (T : Tables) : Tables := {|
  identities := identities T; service_instances := service_instances T;
  service_instance_keys := service_instance_keys T; registry_audit := registry_audit T;
  enrollment_bindings := enrollment_bindings T; enrollment_challenges := enrollment_challenges T;
  subscriptions := subscriptions T; subscription_audit := subscription_audit T;
  handshake_challenges := handshake_challenges T; handshakes := handshakes T;
  handshake_audit := handshake_audit T; request_ids := request_ids T;
  request_nonces := request_nonces T; replay_audit := replay_audit T; admission := admission T;
  accepted_requests := accepted_requests T; acceptance_audit := acceptance_audit T;
  authority_grants := t; schema_versions := schema_versions T;
  authority_decisions := authority_decisions T; request_routes := request_routes T;
  work_claims := work_claims T |}.
Definition with_schema_versions (t : gmap Uuid SchemaVersionRow) (T : Tables) : Tables := {|
  identities := identities T; service_instances := service_instances T;
  service_instance_keys := service_instance_keys T; registry_audit := registry_audit T;
  enrollment_bindings := enrollment_bindings T; enrollment_challenges := enrollment_challenges T;
  subscriptions := subscriptions T; subscription_audit := subscription_audit T;
  handshake_challenges := handshake_challenges T; handshakes := handshakes T;
  handshake_audit := handshake_audit T; request_ids := request_ids T;
  request_nonces := request_nonces T; replay_audit := replay_audit T; admission := admission T;
  accepted_requests := accepted_requests T; acceptance_audit := acceptance_audit T;
  authority_grants := authority_grants T; schema_versions := t;
  authority_decisions := authority_decisions T; request_routes := request_routes T;
  work_claims := work_claims T |}.
Definition with_authority_decisions (t : gmap Uuid DecisionRow) (T : Tables) : Tables := {|
  identities := identities T; service_instances := service_instances T;
  service_instance_keys := service_instance_keys T; registry_audit := registry_audit T;
  enrollment_bindings := enrollment_bindings T; enrollment_challenges := enrollment_challenges T;
  subscriptions := subscriptions T; subscription_audit := subscription_audit T;
  handshake_challenges := handshake_challenges T; handshakes := handshakes T;
  handshake_audit := handshake_audit T; request_ids := request_ids T;
  request_nonces := request_nonces T; replay_audit := replay_audit T; admission := admission T;
  accepted_requests := accepted_requests T; acceptance_audit := acceptance_audit T;
  authority_grants := authority_grants T; schema_versions := schema_versions T;
  authority_decisions := t; request_routes := request_routes T; work_claims := work_claims T |}.
Definition with_request_routes (t : gmap Uuid RouteRow) (T : Tables) : Tables := {|
  identities := identities T; service_instances := service_instances T;
  service_instance_keys := service_instance_keys T; registry_audit := registry_audit T;
  enrollment_bindings := enrollment_bindings T; enrollment_challenges := enrollment_challenges T;
  subscriptions := subscriptions T; subscription_audit := subscription_audit T;
  handshake_challenges := handshake_challenges T; handshakes := handshakes T;
  handshake_audit := handshake_audit T; request_ids := request_ids T;
  request_nonces := request_nonces T; replay_audit := replay_audit T; admission := admission T;
  accepted_requests := accepted_requests T; acceptance_audit := acceptance_audit T;
  authority_grants := authority_grants T; schema_versions := schema_versions T;
  authority_decisions := authority_decisions T; request_routes := t;
  work_claims := work_claims T |}.
Definition with_work_claims (t : gmap Uuid WorkClaimRow) (T : Tables) : Tables := {|
  identities := identities T; service_instances := service_instances T;
  service_instance_keys := service_instance_keys T; registry_audit := registry_audit T;
  enrollment_bindings := enrollment_bindings T; enrollment_challenges := enrollment_challenges T;
  subscriptions := subscriptions T; subscription_audit := subscription_audit T;
  handshake_challenges := handshake_challenges T; handshakes := handshakes T;
  handshake_audit := handshake_audit T; request_ids := request_ids T;
  request_nonces := request_nonces T; replay_audit := replay_audit T; admission := admission T;
  accepted_requests := accepted_requests T; acceptance_audit := acceptance_audit T;
  authority_grants := authority_grants T; schema_versions := schema_versions T;
  authority_decisions := authority_decisions T; request_routes := request_routes T;
  work_claims := t |}.

Definition no_tables : Tables := MkTables ∅ ∅ ∅ [] ∅ ∅ ∅ [] ∅ ∅ [] ∅ ∅ [] ∅ ∅ [] ∅ ∅ ∅ ∅ ∅.

(** ** Shared pieces of the statements *)

Definition unique_violation (constraint : string) : PostgresError := DbError UniqueViolation constraint.
Definition foreign_key_violation (constraint : string) : PostgresError := DbError ForeignKeyViolation constraint.
Definition check_violation (constraint : string) : PostgresError := DbError CheckViolation constraint.
Definition raise_exception (message : string) : PostgresError := DbError RaiseException message.

(** [db_error.constraint()] *)
Definition error_constraint (error : PostgresError) : option string :=
  match error with
  | DbError RaiseException _ | IoError _ => None
  | DbError _ constraint => Some constraint
  end.

(** A constraint that must hold, with the error of its violation *)
Definition require (b : bool) (e : PostgresError) : Result PostgresError unit :=
  if b then Ok tt else Err e.

Definition references {K V} `{Countable K} (table : gmap K V) (k : K) (constraint : string) :
  Result PostgresError unit :=
  require (bool_decide (is_Some (table !! k))) (foreign_key_violation constraint).

(** The rows of a table that satisfy a WHERE clause, in key order *)
Definition select {K V} `{Countable K} (where_ : K -> V -> bool) (table : gmap K V) : list (K * V) :=
  filter (fun kv => Is_true (where_ kv.1 kv.2)) (map_to_list table).

(** [ORDER BY ... DESC LIMIT 1] on an integer column *)
Definition latest {A} (key : A -> Z) (rows : list A) : option A :=
  fold_right (fun a best =>
    match best with
    | None => Some a
    | Some b => if (key b <? key a)%Z then Some a else Some b
    end) None rows.

(** [ORDER BY]: a stable insertion sort by a boolean order *)
Fixpoint insert_by {A} (le : A -> A -> bool) (a : A) (rows : list A) : list A :=
  match rows with
  | [] => [a]
  | b :: rows => if le a b then a :: b :: rows else b :: insert_by le a rows
  end.
Definition order_by {A} (le : A -> A -> bool) (rows : list A) : list A :=
  fold_right (insert_by le) [] rows.

(** [ORDER BY created_at, id] *)
Definition created_order {V} (created_at : V -> Z) (a b : Uuid * V) : bool :=
  if (created_at a.2 <? created_at b.2)%Z then true
  else (created_at a.2 =? created_at b.2)%Z && (uuid_value a.1 <=? uuid_value b.1)%N.

(** [btrim(text)]: spaces only *)
Fixpoint ltrim_spaces (s : string) : string :=
  match s with
  | String c r => if Ascii.eqb c " " then ltrim_spaces r else s
  | EmptyString => EmptyString
  end.
Definition btrim (s : string) : string := reverse (ltrim_spaces (reverse (ltrim_spaces s))).

(** [octet_length] *)
Definition octet_length (b : bytes) : Z := len b.

(** ** Lemmas *)

Lemma require_Ok b e u : require b e = Ok u <-> b = true.
Proof. destruct u. unfold require. destruct b; naive_solver. Qed.

Lemma references_Ok {K V} `{Countable K} (table : gmap K V) k c u :
  references table k c = Ok u <-> is_Some (table !! k).
Proof. unfold references. by rewrite require_Ok, bool_decide_eq_true. Qed.

Lemma octet_length_32 b : String.length b = 32%nat -> (octet_length b =? 32)%Z = true.
Proof. unfold octet_length, len. intros ->. done. Qed.

Lemma select_In {K V} `{Countable K} (f : K -> V -> bool) (table : gmap K V) k v :
  (k, v) ∈ select f table <-> table !! k = Some v /\ f k v = true.
Proof.
  unfold select. rewrite list_elem_of_filter, elem_of_map_to_list. simpl.
  rewrite Is_true_true. naive_solver.
Qed.

(** The only row that satisfies the clause *)
Lemma select_unique {K V} `{Countable K} (f : K -> V -> bool) (table : gmap K V) k v :
  table !! k = Some v -> f k v = true ->
  (forall k' v', table !! k' = Some v' -> f k' v' = true -> k' = k) -> select f table = [(k, v)].
Proof.
  intros Hk Hf Hu. assert (NoDup (select f table)) as Hnd by (apply NoDup_filter, NoDup_map_to_list).
  assert (forall kv, kv ∈ select f table <-> kv = (k, v)) as Hin.
  { intros [k' v']. rewrite select_In. split; [|naive_solver].
    intros [Hk' Hf']. pose proof (Hu k' v' Hk' Hf'). subst k'. congruence. }
  destruct (select f table) as [|x [|y l]].
  - destruct (not_elem_of_nil (k, v)). by apply Hin.
  - f_equal. apply Hin. left.
  - apply NoDup_cons in Hnd as [Hx _]. destruct Hx.
    rewrite (proj1 (Hin x)) by left. rewrite (proj1 (Hin y)) by (right; left). left.
Qed.

Lemma insert_by_perm {A} (le : A -> A -> bool) a rows : insert_by le a rows ≡ₚ a :: rows.
Proof.
  induction rows as [|b rows IH]; [done|]. simpl. destruct (le a b); [done|].
  rewrite IH. apply Permutation_swap.
Qed.

Lemma order_by_perm {A} (le : A -> A -> bool) rows : order_by le rows ≡ₚ rows.
Proof. induction rows as [|a rows IH]; [done|]. simpl. by rewrite insert_by_perm, IH. Qed.

Lemma order_by_In {A} (le : A -> A -> bool) rows a : a ∈ order_by le rows <-> a ∈ rows.
Proof. by rewrite order_by_perm. Qed.

Lemma latest_None {A} (key : A -> Z) rows : latest key rows = None <-> rows = [].
Proof.
  destruct rows as [|a rows]; [done|]. simpl. destruct (latest key rows) as [b|]; [|done].
  destruct (key b <? key a)%Z; done.
Qed.

Lemma latest_Some {A} (key : A -> Z) rows a :
  latest key rows = Some a -> a ∈ rows /\ forall b, b ∈ rows -> (key b <= key a)%Z.
Proof.
  revert a; induction rows as [|x rows IH]; intros a; simpl; [done|].
  destruct (latest key rows) as [b|] eqn:Hb.
  - destruct (IH b eq_refl) as [Hin Hmax]. destruct (Z.ltb_spec (key b) (key x)); intros [= <-].
    + split; [left|]. intros c [->|Hc]%elem_of_cons; [done|]. specialize (Hmax c Hc). lia.
    + split; [by right|]. intros c [->|Hc]%elem_of_cons; [done|]. auto.
  - apply latest_None in Hb as ->. intros [= <-]. split; [left|].
    intros c [->|Hc]%elem_of_cons; [done|]. by apply elem_of_nil in Hc.
Qed.
