(* ===== verification/Identity.v ===== *)
(** * Identity: stable service and worker identities

    [src/kernel/identity.rs] and [src/infrastructure/postgres_identity_repository.rs]:
    the identifier, the validated record, the service over a repository trait and
    the PostgreSQL adapter with the statements of migrations 0001 and 0007. *)

From S2P Require Import Prelude Text Platform Database Schema.
From stdpp Require Import countable.

(** ** Identifiers and enumerations *)

Definition MAX_DISPLAY_NAME_LENGTH : Z := 200.

Record ActorId := MkActorId { ActorId_as_uuid : Uuid }.

#[export] Instance ActorId_eq_dec : EqDecision ActorId.
Proof. solve_decision. Defined.
#[export] Instance ActorId_countable : Countable ActorId.
Proof. solve_id_countable MkActorId ActorId_as_uuid. Defined.

Inductive ActorKind := ActorKind_Service | ActorKind_Worker.

Inductive IdentityStatus := IdentityStatus_Active | IdentityStatus_Disabled.

Inductive IdentityError :=
| IdentityError_AlreadyExists (id : ActorId)
| IdentityError_Disabled (id : ActorId)
| IdentityError_InvalidActorId
| IdentityError_InvalidActorKind (value : string)
| IdentityError_InvalidDisplayName
| IdentityError_InvalidIdentityStatus (value : string)
| IdentityError_NotFound (id : ActorId)
| IdentityError_Repository (message : string).

#[export] Instance ActorKind_eq_dec : EqDecision ActorKind.
Proof. solve_decision. Defined.
#[export] Instance IdentityStatus_eq_dec : EqDecision IdentityStatus.
Proof. solve_decision. Defined.
#[export] Instance IdentityError_eq_dec : EqDecision IdentityError.
Proof. solve_decision. Defined.

Definition ActorKind_as_str (k : ActorKind) : string :=
  match k with ActorKind_Service => "service" | ActorKind_Worker => "worker" end.

Definition ActorKind_from_str (value : string) : Result IdentityError ActorKind :=
  if String.eqb value "service" then Ok ActorKind_Service
  else if String.eqb value "worker" then Ok ActorKind_Worker
  else Err (IdentityError_InvalidActorKind value).

Definition IdentityStatus_as_str (s : IdentityStatus) : string :=
  match s with IdentityStatus_Active => "active" | IdentityStatus_Disabled => "disabled" end.

Definition IdentityStatus_from_str (value : string) : Result IdentityError IdentityStatus :=
  if String.eqb value "active" then Ok IdentityStatus_Active
  else if String.eqb value "disabled" then Ok IdentityStatus_Disabled
  else Err (IdentityError_InvalidIdentityStatus value).

(** ** The identity record *)

Record Identity := MkIdentity {
  identity_id : ActorId;
  identity_kind : ActorKind;
  identity_display_name : string;
  identity_status : IdentityStatus;
}.

#[export] Instance Identity_eq_dec : EqDecision Identity.
Proof. solve_decision. Defined.

Definition validate_display_name (display_name : string) : Result IdentityError string :=
  let display_name := trim display_name in
  if is_empty display_name || (MAX_DISPLAY_NAME_LENGTH <? chars_count display_name)%Z
  then Err IdentityError_InvalidDisplayName
  else Ok display_name.

Definition Identity_create (id : ActorId) (kind : ActorKind) (display_name : string) :
  Result IdentityError Identity :=
  name ← validate_display_name display_name;
  Ok (MkIdentity id kind name IdentityStatus_Active).

Definition Identity_restore (id : ActorId) (kind : ActorKind) (display_name : string)
  (status : IdentityStatus) : Result IdentityError Identity :=
  name ← validate_display_name display_name;
  Ok (MkIdentity id kind name status).

Definition Identity_is_active (identity : Identity) : bool :=
  match identity_status identity with IdentityStatus_Active => true | _ => false end.

Definition Identity_rename (identity : Identity) (display_name : string) :
  Result IdentityError Identity :=
  name ← validate_display_name display_name;
  Ok (MkIdentity (identity_id identity) (identity_kind identity) name (identity_status identity)).

Definition Identity_disable (identity : Identity) : Identity :=
  MkIdentity (identity_id identity) (identity_kind identity) (identity_display_name identity)
    IdentityStatus_Disabled.

Section identity.
  Context {P : Platform}.

Definition ActorId_to_string (id : ActorId) : string := uuid_print (ActorId_as_uuid id).

Definition ActorId_from_str (value : string) : Result IdentityError ActorId :=
  match uuid_parse value with
  | Some u => Ok (MkActorId u)
  | None => Err IdentityError_InvalidActorId
  end.

Definition IdentityError_to_string (e : IdentityError) : string :=
  match e with
  | IdentityError_AlreadyExists id => "identity " +:+ ActorId_to_string id +:+ " already exists"
  | IdentityError_Disabled id => "identity " +:+ ActorId_to_string id +:+ " is disabled"
  | IdentityError_InvalidActorId => "service ID must be a valid UUID"
  | IdentityError_InvalidActorKind value => "invalid service kind '" +:+ value +:+ "'"
  | IdentityError_InvalidDisplayName =>
      "display name must contain 1 to " +:+ show_i64 MAX_DISPLAY_NAME_LENGTH +:+ " characters"
  | IdentityError_InvalidIdentityStatus value => "invalid identity status '" +:+ value +:+ "'"
  | IdentityError_NotFound id => "identity " +:+ ActorId_to_string id +:+ " was not found"
  | IdentityError_Repository message => "identity repository failed: " +:+ message
  end.

(** ** The service over its repository *)

Record IdentityRepository (S : Type) := MkIdentityRepository {
  identity_repository_insert : Identity -> Db S IdentityError unit;
  identity_repository_find : ActorId -> Db S IdentityError (option Identity);
  identity_repository_save : Identity -> Db S IdentityError unit;
}.
Arguments identity_repository_insert {S}.
Arguments identity_repository_find {S}.
Arguments identity_repository_save {S}.

Definition IdentityService_create {S} (R : IdentityRepository S) (kind : ActorKind)
  (display_name : string) : Db S IdentityError Identity :=
  id ← new_uuid;
  identity ← lift (Identity_create (MkActorId id) kind display_name);
  identity_repository_insert R identity;;
  mret identity.

Definition IdentityService_find {S} (R : IdentityRepository S) (id : ActorId) :
  Db S IdentityError (option Identity) := identity_repository_find R id.

Definition IdentityService_find_required {S} (R : IdentityRepository S) (id : ActorId) :
  Db S IdentityError Identity :=
  found ← identity_repository_find R id;
  lift (ok_or (IdentityError_NotFound id) found).

Definition IdentityService_resolve_active {S} (R : IdentityRepository S) (id : ActorId) :
  Db S IdentityError Identity :=
  identity ← IdentityService_find_required R id;
  if negb (Identity_is_active identity) then throw (IdentityError_Disabled id)
  else mret identity.

Definition IdentityService_rename {S} (R : IdentityRepository S) (id : ActorId)
  (display_name : string) : Db S IdentityError Identity :=
  identity ← IdentityService_find_required R id;
  identity ← lift (Identity_rename identity display_name);
  identity_repository_save R identity;;
  mret identity.

Definition IdentityService_disable {S} (R : IdentityRepository S) (id : ActorId) :
  Db S IdentityError Identity :=
  identity ← IdentityService_find_required R id;
  let identity := Identity_disable identity in
  identity_repository_save R identity;;
  mret identity.

(** ** The PostgreSQL adapter *)

(** INSERT INTO identities, with the trigger of migration 0007 that opens the
    service's admission record in the disabled state. *)
Definition insert_identity_sql (id : Uuid) (kind display_name status : string) (clock : Z) (T : Tables) :
  Result PostgresError (Z * Tables) :=
  require (bool_decide (kind ∈ ["service"; "worker"])) (check_violation "identities_kind_check");;
  require (bool_decide (1 <= chars_count (btrim display_name) <= 200)%Z)
    (check_violation "identities_display_name_check");;
  require (bool_decide (status ∈ ["active"; "disabled"])) (check_violation "identities_status_check");;
  require (bool_decide (identities T !! id = None)) (unique_violation "identities_pkey");;
  require (bool_decide (0 <= clock)%Z)
    (check_violation "service_communication_admission_updated_at_check");;
  require (bool_decide (admission T !! id = None))
    (unique_violation "service_communication_admission_pkey");;
  let T := with_identities (<[id := MkIdentityRow kind display_name status]> (identities T)) T in
  let T := with_admission (<[id := MkAdmissionRow false 0 clock]> (admission T)) T in
  Ok (1%Z, T).

Definition update_identity_sql (id : Uuid) (kind display_name status : string) (T : Tables) :
  Result PostgresError (Z * Tables) :=
  match identities T !! id with
  | None => Ok (0%Z, T)
  | Some _ =>
      require (bool_decide (kind ∈ ["service"; "worker"])) (check_violation "identities_kind_check");;
      require (bool_decide (1 <= chars_count (btrim display_name) <= 200)%Z)
        (check_violation "identities_display_name_check");;
      require (bool_decide (status ∈ ["active"; "disabled"]))
        (check_violation "identities_status_check");;
      Ok (1%Z, with_identities (<[id := MkIdentityRow kind display_name status]> (identities T)) T)
  end.

Definition find_identity_sql (id : Uuid) (T : Tables) : option (string * IdentityRow) :=
  row ← identities T !! id; Some (uuid_print id, row).

Definition identity_repository_error (message : string) : IdentityError :=
  IdentityError_Repository message.

Definition identity_query_error (e : PostgresError) : IdentityError :=
  identity_repository_error (postgres_error_text e).

Definition identity_from_row (row : string * IdentityRow) : Result IdentityError Identity :=
  let '(id, row) := row in
  id ← ActorId_from_str id;
  kind ← ActorKind_from_str (id_kind row);
  status ← IdentityStatus_from_str (id_status row);
  Identity_restore id kind (id_display_name row) status.

Definition PostgresIdentityRepository_insert (identity : Identity) : Db Tables IdentityError unit :=
  connection identity_repository_error;;
  clock ← server_clock;
  rows ← autocommit
    (fun error => if is_unique_violation error
                  then IdentityError_AlreadyExists (identity_id identity)
                  else identity_query_error error)
    (insert_identity_sql (ActorId_as_uuid (identity_id identity))
      (ActorKind_as_str (identity_kind identity)) (identity_display_name identity)
      (IdentityStatus_as_str (identity_status identity)) clock);
  if (rows =? 1)%Z then mret tt
  else throw (IdentityError_Repository ("identity insert changed " +:+ show_i64 rows +:+ " rows")).

Definition PostgresIdentityRepository_find (id : ActorId) :
  Db Tables IdentityError (option Identity) :=
  connection identity_repository_error;;
  row ← query identity_query_error (find_identity_sql (ActorId_as_uuid id));
  match row with
  | None => mret None
  | Some row => identity ← lift (identity_from_row row); mret (Some identity)
  end.

Definition PostgresIdentityRepository_save (identity : Identity) : Db Tables IdentityError unit :=
  connection identity_repository_error;;
  rows ← autocommit identity_query_error
    (update_identity_sql (ActorId_as_uuid (identity_id identity))
      (ActorKind_as_str (identity_kind identity)) (identity_display_name identity)
      (IdentityStatus_as_str (identity_status identity)));
  if (rows =? 1)%Z then mret tt
  else if (rows =? 0)%Z then throw (IdentityError_NotFound (identity_id identity))
  else throw (IdentityError_Repository ("identity update changed " +:+ show_i64 rows +:+ " rows")).

Definition PostgresIdentityRepository : IdentityRepository Tables := {|
  identity_repository_insert := PostgresIdentityRepository_insert;
  identity_repository_find := PostgresIdentityRepository_find;
  identity_repository_save := PostgresIdentityRepository_save |}.
End identity.
