(* ===== verification/InstanceKeys.v ===== *)
(** * InstanceKeys: ephemeral signing keys of service instances

    [src/kernel/instance_keys.rs]: instance and key identifiers, the validated
    public key, signatures, and the credential that holds the signing key. *)

From S2P Require Import Prelude Text Platform Database Identity.
From stdpp Require Import countable.

Definition ALGORITHM : string := "ed25519".
Definition PUBLIC_KEY_LENGTH : nat := 32.
Definition SIGNATURE_LENGTH : nat := 64.

Record InstanceId := MkInstanceId { InstanceId_as_uuid : Uuid }.
Record KeyId := MkKeyId { KeyId_as_uuid : Uuid }.

#[export] Instance InstanceId_eq_dec : EqDecision InstanceId.
Proof. solve_decision. Defined.
#[export] Instance InstanceId_countable : Countable InstanceId.
Proof. solve_id_countable MkInstanceId InstanceId_as_uuid. Defined.
#[export] Instance KeyId_eq_dec : EqDecision KeyId.
Proof. solve_decision. Defined.
#[export] Instance KeyId_countable : Countable KeyId.
Proof. solve_id_countable MkKeyId KeyId_as_uuid. Defined.

Inductive InstanceKeyError :=
| InstanceKeyError_InvalidInstanceId
| InstanceKeyError_InvalidKeyId
| InstanceKeyError_InvalidPublicKey
| InstanceKeyError_InvalidSignature.

#[export] Instance InstanceKeyError_eq_dec : EqDecision InstanceKeyError.
Proof. solve_decision. Defined.

Definition InstanceKeyError_to_string (e : InstanceKeyError) : string :=
  match e with
  | InstanceKeyError_InvalidInstanceId => "instance ID must be a valid UUID"
  | InstanceKeyError_InvalidKeyId => "key ID must be a valid UUID"
  | InstanceKeyError_InvalidPublicKey => "public key is not valid Ed25519"
  | InstanceKeyError_InvalidSignature => "signature verification failed"
  end.

(** The fixed-size arrays [[u8; 32]] and [[u8; 64]] of the source: a byte string
    that [try_into] accepts. *)
Definition to_array (n : nat) (b : bytes) : option bytes :=
  if bool_decide (String.length b = n) then Some b else None.

Record InstancePublicKey := MkInstancePublicKey {
  public_service_id : ActorId;
  public_instance_id : InstanceId;
  public_key_id : KeyId;
  public_key_bytes : bytes;
}.

#[export] Instance InstancePublicKey_eq_dec : EqDecision InstancePublicKey.
Proof. solve_decision. Defined.

Record InstanceSignature := MkInstanceSignature { InstanceSignature_as_bytes : bytes }.

Record InstanceCredential := MkInstanceCredential {
  credential_public_key : InstancePublicKey;
  credential_signing_key : bytes;
}.

Section instance_keys.
  Context {P : Platform}.

Definition InstanceId_to_string (id : InstanceId) : string := uuid_print (InstanceId_as_uuid id).
Definition InstanceId_from_str (value : string) : Result InstanceKeyError InstanceId :=
  match uuid_parse value with
  | Some u => Ok (MkInstanceId u)
  | None => Err InstanceKeyError_InvalidInstanceId
  end.

Definition KeyId_to_string (id : KeyId) : string := uuid_print (KeyId_as_uuid id).
Definition KeyId_from_str (value : string) : Result InstanceKeyError KeyId :=
  match uuid_parse value with
  | Some u => Ok (MkKeyId u)
  | None => Err InstanceKeyError_InvalidKeyId
  end.

Definition InstancePublicKey_restore (service_id : ActorId) (instance_id : InstanceId)
  (key_id : KeyId) (public_key : bytes) : Result InstanceKeyError InstancePublicKey :=
  if ed25519_key_ok public_key
  then Ok (MkInstancePublicKey service_id instance_id key_id public_key)
  else Err InstanceKeyError_InvalidPublicKey.

Definition InstancePublicKey_fingerprint (k : InstancePublicKey) : bytes :=
  sha256 (public_key_bytes k).

Definition InstancePublicKey_verify (k : InstancePublicKey) (message : bytes)
  (signature : InstanceSignature) : Result InstanceKeyError unit :=
  if negb (ed25519_key_ok (public_key_bytes k)) then Err InstanceKeyError_InvalidPublicKey
  else if ed25519_verify (public_key_bytes k) message (InstanceSignature_as_bytes signature)
  then Ok tt
  else Err InstanceKeyError_InvalidSignature.

(** [InstanceCredential::generate], with the signing key drawn from the system's
    random source passed as [seed]. *)
Definition InstanceCredential_generate (service_id : ActorId) (seed : bytes)
  (instance_id : InstanceId) (key_id : KeyId) : InstanceCredential :=
  MkInstanceCredential
    (MkInstancePublicKey service_id instance_id key_id (ed25519_public seed)) seed.

Definition InstanceCredential_sign (c : InstanceCredential) (message : bytes) : InstanceSignature :=
  MkInstanceSignature (ed25519_sign (credential_signing_key c) message).

(** What [generate] establishes and every later use relies on. *)
Definition credential_wf (c : InstanceCredential) : Prop :=
  public_key_bytes (credential_public_key c) = ed25519_public (credential_signing_key c).

Context {HP : PlatformLaws P}.

Lemma InstanceId_from_to_string id : InstanceId_from_str (InstanceId_to_string id) = Ok id.
Proof. destruct id. unfold InstanceId_from_str, InstanceId_to_string. by rewrite uuid_parse_print. Qed.

Lemma KeyId_from_to_string id : KeyId_from_str (KeyId_to_string id) = Ok id.
Proof. destruct id. unfold KeyId_from_str, KeyId_to_string. by rewrite uuid_parse_print. Qed.

Lemma generate_wf service_id seed instance_id key_id :
  credential_wf (InstanceCredential_generate service_id seed instance_id key_id).
Proof. done. Qed.

(** A credential verifies its own signatures. *)
Lemma credential_sign_verify c message :
  credential_wf c ->
  InstancePublicKey_verify (credential_public_key c) message (InstanceCredential_sign c message) = Ok tt.
Proof.
  unfold credential_wf, InstancePublicKey_verify, InstanceCredential_sign. simpl. intros ->.
  by rewrite ed25519_public_ok, ed25519_verify_sign.
Qed.
End instance_keys.
