(* ===== verification/InstanceRegistry.v ===== *)
(** * InstanceRegistry: registered instances and their bounded leases

    [src/kernel/instance_registry.rs] and
    [src/infrastructure/postgres_instance_registry.rs]: the validated record, the
    service that opens, renews and revokes leases, and the adapter with the
    statements of migration 0002. *)

From S2P Require Import Prelude Text Platform Database Schema Identity InstanceKeys.

Definition DEFAULT_LEASE_SECONDS : Z := 60.
Definition MAX_LEASE_SECONDS : Z := 300.
Definition MAX_ENDPOINT_LENGTH : Z := 2048.

Inductive InstanceRegistryError :=
| InstanceRegistryError_AlreadyExists (id : InstanceId)
| InstanceRegistryError_Expired (id : InstanceId)
| InstanceRegistryError_InvalidEndpoint
| InstanceRegistryError_InvalidLeaseDuration
| InstanceRegistryError_InvalidStoredRecord
| InstanceRegistryError_InvalidTimestamp
| InstanceRegistryError_Key (error : InstanceKeyError)
| InstanceRegistryError_NotFound (id : InstanceId)
| InstanceRegistryError_Repository (message : string)
| InstanceRegistryError_RevisionConflict (id : InstanceId)
| InstanceRegistryError_Revoked (id : InstanceId)
| InstanceRegistryError_UnknownService (id : ActorId).

#[export] Instance InstanceRegistryError_eq_dec : EqDecision InstanceRegistryError.
Proof. solve_decision. Defined.

Record LeasePolicy := MkLeasePolicy { lease_duration_seconds : Z }.

Definition LeasePolicy_new (duration_seconds : Z) : Result InstanceRegistryError LeasePolicy :=
  if negb ((1 <=? duration_seconds) && (duration_seconds <=? MAX_LEASE_SECONDS))%Z
  then Err InstanceRegistryError_InvalidLeaseDuration
  else Ok (MkLeasePolicy duration_seconds).

Definition LeasePolicy_default : LeasePolicy := MkLeasePolicy DEFAULT_LEASE_SECONDS.

Record RegisteredInstance := MkRegisteredInstance {
  instance_public_key : InstancePublicKey;
  instance_endpoint : string;
  instance_registered_at : Z;
  instance_lease_expires_at : Z;
  instance_lease_revision : Z;
  instance_revoked_at : option Z;
}.

#[export] Instance RegisteredInstance_eq_dec : EqDecision RegisteredInstance.
Proof. solve_decision. Defined.

Definition validate_endpoint (endpoint : string) : Result InstanceRegistryError string :=
  let endpoint := trim endpoint in
  if negb (starts_with "https://" endpoint) || (MAX_ENDPOINT_LENGTH <? len endpoint)%Z
     || (len endpoint =? len "https://")%Z
  then Err InstanceRegistryError_InvalidEndpoint
  else Ok endpoint.

Definition RegisteredInstance_restore (public_key : InstancePublicKey) (endpoint : string)
  (registered_at lease_expires_at lease_revision : Z) (revoked_at : option Z) :
  Result InstanceRegistryError RegisteredInstance :=
  endpoint ← validate_endpoint endpoint;
  if (registered_at <? 0)%Z || (lease_expires_at <=? registered_at)%Z || (lease_revision <=? 0)%Z
     || match revoked_at with Some value => (value <? registered_at)%Z | None => false end
  then Err InstanceRegistryError_InvalidStoredRecord
  else Ok (MkRegisteredInstance public_key endpoint registered_at lease_expires_at lease_revision
             revoked_at).

Definition RegisteredInstance_create (public_key : InstancePublicKey) (endpoint : string)
  (registered_at lease_expires_at : Z) : Result InstanceRegistryError RegisteredInstance :=
  RegisteredInstance_restore public_key endpoint registered_at lease_expires_at 1 None.

Definition RegisteredInstance_is_eligible_at (i : RegisteredInstance) (now : Z) : bool :=
  match instance_revoked_at i with None => true | Some _ => false end
  && (instance_registered_at i <=? now)%Z && (now <? instance_lease_expires_at i)%Z.

Definition validate_timestamp (timestamp : Z) : Result InstanceRegistryError unit :=
  if (timestamp <? 0)%Z then Err InstanceRegistryError_InvalidTimestamp else Ok tt.

(** ** The service over its repository *)

Record InstanceRegistryRepository (S : Type) := MkInstanceRegistryRepository {
  registry_insert : RegisteredInstance -> Db S InstanceRegistryError unit;
  registry_find : InstanceId -> Db S InstanceRegistryError (option RegisteredInstance);
  registry_renew : InstanceId -> Z -> Z -> Z -> Db S InstanceRegistryError RegisteredInstance;
  registry_revoke : InstanceId -> Z -> Db S InstanceRegistryError RegisteredInstance;
}.
Arguments registry_insert {S}.
Arguments registry_find {S}.
Arguments registry_renew {S}.
Arguments registry_revoke {S}.

Definition InstanceRegistryService_register_verified {S} (R : InstanceRegistryRepository S)
  (policy : LeasePolicy) (public_key : InstancePublicKey) (endpoint : string) (now : Z) :
  Db S InstanceRegistryError RegisteredInstance :=
  lift (validate_timestamp now);;
  expires_at ← lift (ok_or InstanceRegistryError_InvalidTimestamp
                       (checked_add now (lease_duration_seconds policy)));
  instance ← lift (RegisteredInstance_create public_key endpoint now expires_at);
  registry_insert R instance;;
  mret instance.

Definition InstanceRegistryService_find_eligible {S} (R : InstanceRegistryRepository S)
  (instance_id : InstanceId) (now : Z) : Db S InstanceRegistryError RegisteredInstance :=
  lift (validate_timestamp now);;
  found ← registry_find R instance_id;
  instance ← lift (ok_or (InstanceRegistryError_NotFound instance_id) found);
  match instance_revoked_at instance with
  | Some _ => throw (InstanceRegistryError_Revoked instance_id)
  | None =>
      if negb (RegisteredInstance_is_eligible_at instance now)
      then throw (InstanceRegistryError_Expired instance_id)
      else mret instance
  end.

Definition InstanceRegistryService_renew {S} (R : InstanceRegistryRepository S)
  (policy : LeasePolicy) (instance_id : InstanceId) (expected_revision now : Z) :
  Db S InstanceRegistryError RegisteredInstance :=
  lift (validate_timestamp now);;
  if (expected_revision <=? 0)%Z then throw (InstanceRegistryError_RevisionConflict instance_id)
  else
    expires_at ← lift (ok_or InstanceRegistryError_InvalidTimestamp
                         (checked_add now (lease_duration_seconds policy)));
    registry_renew R instance_id expected_revision now expires_at.

Definition InstanceRegistryService_revoke {S} (R : InstanceRegistryRepository S)
  (instance_id : InstanceId) (now : Z) : Db S InstanceRegistryError RegisteredInstance :=
  lift (validate_timestamp now);;
  registry_revoke R instance_id now.

Section registry.
  Context {P : Platform}.

Definition InstanceRegistryError_to_string (e : InstanceRegistryError) : string :=
  match e with
  | InstanceRegistryError_AlreadyExists id =>
      "service instance " +:+ InstanceId_to_string id +:+ " already exists"
  | InstanceRegistryError_Expired id =>
      "service instance " +:+ InstanceId_to_string id +:+ " lease has expired"
  | InstanceRegistryError_InvalidEndpoint =>
      "instance endpoint must use HTTPS and contain at most 2048 bytes"
  | InstanceRegistryError_InvalidLeaseDuration =>
      "lease duration must be between 1 and " +:+ show_i64 MAX_LEASE_SECONDS +:+ " seconds"
  | InstanceRegistryError_InvalidStoredRecord => "stored service instance record is invalid"
  | InstanceRegistryError_InvalidTimestamp => "instance timestamp is invalid"
  | InstanceRegistryError_Key error => InstanceKeyError_to_string error
  | InstanceRegistryError_NotFound id =>
      "service instance " +:+ InstanceId_to_string id +:+ " was not found"
  | InstanceRegistryError_Repository message => "instance registry failed: " +:+ message
  | InstanceRegistryError_RevisionConflict id =>
      "service instance " +:+ InstanceId_to_string id +:+ " lease revision conflicts"
  | InstanceRegistryError_Revoked id =>
      "service instance " +:+ InstanceId_to_string id +:+ " is revoked"
  | InstanceRegistryError_UnknownService id =>
      "service identity " +:+ ActorId_to_string id +:+ " was not found"
  end.

(** ** The PostgreSQL adapter *)

(** The key row of an instance: UNIQUE (instance_id) allows at most one. *)
Definition key_of_instance (instance_id : Uuid) (T : Tables) : option (Uuid * InstanceKeyRow) :=
  head (select (fun _ row => bool_decide (sik_instance_id row = instance_id)) (service_instance_keys T)).

(** FIND_INSTANCE_SQL, the columns in the order of the statement *)
Record InstanceDetails := MkInstanceDetails {
  details_service_id : string;
  details_instance_id : string;
  details_endpoint : string;
  details_registered_at : Z;
  details_lease_expires_at : Z;
  details_lease_revision : Z;
  details_revoked_at : option Z;
  details_key_id : string;
  details_public_key : bytes;
}.

Definition find_instance_sql (instance_id : Uuid) (T : Tables) : option InstanceDetails :=
  si ← service_instances T !! instance_id;
  '(key_id, sik) ← key_of_instance instance_id T;
  Some (MkInstanceDetails (uuid_print (si_service_id si)) (uuid_print instance_id)
    (si_endpoint si) (si_registered_at si) (si_lease_expires_at si) (si_lease_revision si)
    (si_revoked_at si) (uuid_print key_id) (sik_public_key sik)).

Definition insert_instance_sql (instance_id service_id : Uuid) (endpoint : string)
  (registered_at lease_expires_at lease_revision : Z) (T : Tables) :
  Result PostgresError (Z * Tables) :=
  require (bool_decide (1 <= chars_count endpoint <= 2048)%Z && starts_with "https://" endpoint)
    (check_violation "service_instances_endpoint_check");;
  require (0 <=? registered_at)%Z (check_violation "service_instances_registered_at_check");;
  require (0 <? lease_revision)%Z (check_violation "service_instances_lease_revision_check");;
  require (registered_at <? lease_expires_at)%Z (check_violation "service_instances_check");;
  require (bool_decide (service_instances T !! instance_id = None))
    (unique_violation "service_instances_pkey");;
  references (identities T) service_id "service_instances_service_id_fkey";;
  Ok (1%Z, with_service_instances
    (<[instance_id := MkInstanceRow service_id endpoint registered_at lease_expires_at
         lease_revision None]> (service_instances T)) T).

Definition insert_instance_key_sql (key_id instance_id : Uuid) (algorithm : string)
  (public_key fingerprint : bytes) (valid_from : Z) (T : Tables) :
  Result PostgresError (Z * Tables) :=
  require (String.eqb algorithm "ed25519") (check_violation "service_instance_keys_algorithm_check");;
  require (octet_length public_key =? 32)%Z (check_violation "service_instance_keys_public_key_check");;
  require (octet_length fingerprint =? 32)%Z (check_violation "service_instance_keys_fingerprint_check");;
  require (0 <=? valid_from)%Z (check_violation "service_instance_keys_valid_from_check");;
  require (bool_decide (service_instance_keys T !! key_id = None))
    (unique_violation "service_instance_keys_pkey");;
  require (bool_decide (key_of_instance instance_id T = None))
    (unique_violation "service_instance_keys_instance_id_key");;
  require (bool_decide (select (fun _ row => bool_decide (sik_fingerprint row = fingerprint))
                          (service_instance_keys T) = []))
    (unique_violation "service_instance_keys_fingerprint_idx");;
  references (service_instances T) instance_id "service_instance_keys_instance_id_fkey";;
  Ok (1%Z, with_service_instance_keys
    (<[key_id := MkInstanceKeyRow instance_id algorithm public_key fingerprint valid_from None]>
       (service_instance_keys T)) T).

Definition insert_registry_audit_sql (service_id instance_id key_id : Uuid) (action : string)
  (lease_revision recorded_at : Z) (T : Tables) : Result PostgresError (Z * Tables) :=
  require (bool_decide (action ∈ ["registered"; "renewed"; "revoked"]))
    (check_violation "service_instance_registry_audit_action_check");;
  require (0 <? lease_revision)%Z
    (check_violation "service_instance_registry_audit_lease_revision_check");;
  require (0 <=? recorded_at)%Z (check_violation "service_instance_registry_audit_recorded_at_check");;
  Ok (1%Z, with_registry_audit
    (registry_audit T ++
       [MkRegistryAuditRow service_id instance_id key_id action lease_revision recorded_at]) T).

Definition renew_instance_sql (instance_id : Uuid)
  (expected_revision renewed_at lease_expires_at : Z) (T : Tables) :
  Result PostgresError (Z * Tables) :=
  match service_instances T !! instance_id with
  | Some si =>
      if (si_lease_revision si =? expected_revision)%Z && (renewed_at <? si_lease_expires_at si)%Z
         && (si_registered_at si <=? renewed_at)%Z && bool_decide (si_revoked_at si = None)
      then
        require (i64_fits (si_lease_revision si + 1)) (raise_exception "bigint out of range");;
        require (si_registered_at si <? lease_expires_at)%Z (check_violation "service_instances_check");;
        Ok (1%Z, with_service_instances
          (<[instance_id := MkInstanceRow (si_service_id si) (si_endpoint si) (si_registered_at si)
               lease_expires_at (si_lease_revision si + 1) (si_revoked_at si)]>
             (service_instances T)) T)
      else Ok (0%Z, T)
  | None => Ok (0%Z, T)
  end.

Definition revoke_instance_sql (instance_id : Uuid) (revoked_at : Z) (T : Tables) :
  Result PostgresError (Z * Tables) :=
  match service_instances T !! instance_id with
  | Some si =>
      if (si_registered_at si <=? revoked_at)%Z && bool_decide (si_revoked_at si = None)
      then Ok (1%Z, with_service_instances
        (<[instance_id := MkInstanceRow (si_service_id si) (si_endpoint si) (si_registered_at si)
             (si_lease_expires_at si) (si_lease_revision si) (Some revoked_at)]>
           (service_instances T)) T)
      else Ok (0%Z, T)
  | None => Ok (0%Z, T)
  end.

Definition revoke_instance_key_sql (instance_id : Uuid) (revoked_at : Z) (T : Tables) :
  Result PostgresError (Z * Tables) :=
  match key_of_instance instance_id T with
  | Some (key_id, sik) =>
      if bool_decide (sik_revoked_at sik = None)
      then
        require (sik_valid_from sik <=? revoked_at)%Z (check_violation "service_instance_keys_check");;
        Ok (1%Z, with_service_instance_keys
          (<[key_id := MkInstanceKeyRow (sik_instance_id sik) (sik_algorithm sik)
               (sik_public_key sik) (sik_fingerprint sik) (sik_valid_from sik) (Some revoked_at)]>
             (service_instance_keys T)) T)
      else Ok (0%Z, T)
  | None => Ok (0%Z, T)
  end.

Definition registry_repository_error (message : string) : InstanceRegistryError :=
  InstanceRegistryError_Repository message.
Definition registry_query_error (e : PostgresError) : InstanceRegistryError :=
  registry_repository_error (postgres_error_text e).

Definition instance_from_row (row : InstanceDetails) : Result InstanceRegistryError RegisteredInstance :=
  service_id ← result_map_err
    (fun error => InstanceRegistryError_Repository
       ("invalid stored service ID: " +:+ IdentityError_to_string error))
    (ActorId_from_str (details_service_id row));
  instance_id ← result_map_err InstanceRegistryError_Key (InstanceId_from_str (details_instance_id row));
  key_id ← result_map_err InstanceRegistryError_Key (KeyId_from_str (details_key_id row));
  public_key ← ok_or InstanceRegistryError_InvalidStoredRecord
    (to_array PUBLIC_KEY_LENGTH (details_public_key row));
  public_key ← result_map_err InstanceRegistryError_Key
    (InstancePublicKey_restore service_id instance_id key_id public_key);
  RegisteredInstance_restore public_key (details_endpoint row) (details_registered_at row)
    (details_lease_expires_at row) (details_lease_revision row) (details_revoked_at row).

Definition append_registry_audit (instance : RegisteredInstance) (action : string)
  (recorded_at : Z) : Db Tables InstanceRegistryError unit :=
  let public := instance_public_key instance in
  execute registry_query_error
    (insert_registry_audit_sql (ActorId_as_uuid (public_service_id public))
      (InstanceId_as_uuid (public_instance_id public)) (KeyId_as_uuid (public_key_id public))
      action (instance_lease_revision instance) recorded_at);;
  mret tt.

Definition PostgresInstanceRegistry_insert (instance : RegisteredInstance) :
  Db Tables InstanceRegistryError unit :=
  connection registry_repository_error;;
  transaction registry_query_error;;
  let public := instance_public_key instance in
  rows ← execute
    (fun error =>
       if is_unique_violation error
       then InstanceRegistryError_AlreadyExists (public_instance_id public)
       else if is_foreign_key_violation error
       then InstanceRegistryError_UnknownService (public_service_id public)
       else registry_query_error error)
    (insert_instance_sql (InstanceId_as_uuid (public_instance_id public))
      (ActorId_as_uuid (public_service_id public)) (instance_endpoint instance)
      (instance_registered_at instance) (instance_lease_expires_at instance)
      (instance_lease_revision instance));
  if negb (rows =? 1)%Z
  then throw (InstanceRegistryError_Repository
                ("instance insert changed " +:+ show_i64 rows +:+ " rows"))
  else
    execute
      (fun error =>
         if is_unique_violation error
         then InstanceRegistryError_AlreadyExists (public_instance_id public)
         else registry_query_error error)
      (insert_instance_key_sql (KeyId_as_uuid (public_key_id public))
        (InstanceId_as_uuid (public_instance_id public)) ALGORITHM (public_key_bytes public)
        (InstancePublicKey_fingerprint public) (instance_registered_at instance));;
    append_registry_audit instance "registered" (instance_registered_at instance);;
    commit registry_query_error.

Definition PostgresInstanceRegistry_find (instance_id : InstanceId) :
  Db Tables InstanceRegistryError (option RegisteredInstance) :=
  connection registry_repository_error;;
  row ← query registry_query_error (find_instance_sql (InstanceId_as_uuid instance_id));
  match row with
  | None => mret None
  | Some row => instance ← lift (instance_from_row row); mret (Some instance)
  end.

(** [query_one]: an error when there is no row *)
Definition query_one_instance (instance_id : InstanceId) (T : Tables) :
  Result PostgresError (InstanceDetails * Tables) :=
  match find_instance_sql (InstanceId_as_uuid instance_id) T with
  | Some row => Ok (row, T)
  | None => Err (IoError "query returned an unexpected number of rows")
  end.

Definition classify_failed_renewal (instance_id : InstanceId) (expected_revision renewed_at : Z) :
  Db Tables InstanceRegistryError InstanceRegistryError :=
  row ← query registry_query_error (fun T => service_instances T !! InstanceId_as_uuid instance_id);
  mret (match row with
  | None => InstanceRegistryError_NotFound instance_id
  | Some row =>
      if bool_decide (is_Some (si_revoked_at row)) then InstanceRegistryError_Revoked instance_id
      else if (renewed_at <? si_registered_at row)%Z then InstanceRegistryError_InvalidTimestamp
      else if (si_lease_expires_at row <=? renewed_at)%Z then InstanceRegistryError_Expired instance_id
      else if negb (si_lease_revision row =? expected_revision)%Z
      then InstanceRegistryError_RevisionConflict instance_id
      else InstanceRegistryError_Repository "lease renewal was not applied"
  end).

Definition PostgresInstanceRegistry_renew (instance_id : InstanceId)
  (expected_revision renewed_at lease_expires_at : Z) :
  Db Tables InstanceRegistryError RegisteredInstance :=
  if (renewed_at <? 0)%Z || (lease_expires_at <=? renewed_at)%Z || (expected_revision <=? 0)%Z
  then throw InstanceRegistryError_InvalidTimestamp
  else
    connection registry_repository_error;;
    transaction registry_query_error;;
    rows ← execute registry_query_error
      (renew_instance_sql (InstanceId_as_uuid instance_id) expected_revision renewed_at
        lease_expires_at);
    if (rows =? 0)%Z
    then error ← classify_failed_renewal instance_id expected_revision renewed_at; throw error
    else if negb (rows =? 1)%Z
    then throw (InstanceRegistryError_Repository
                  ("lease renewal changed " +:+ show_i64 rows +:+ " rows"))
    else
      row ← execute registry_query_error (query_one_instance instance_id);
      renewed ← lift (instance_from_row row);
      append_registry_audit renewed "renewed" renewed_at;;
      commit registry_query_error;;
      mret renewed.

Definition PostgresInstanceRegistry_revoke (instance_id : InstanceId) (revoked_at : Z) :
  Db Tables InstanceRegistryError RegisteredInstance :=
  if (revoked_at <? 0)%Z then throw InstanceRegistryError_InvalidTimestamp
  else
    connection registry_repository_error;;
    transaction registry_query_error;;
    rows ← execute registry_query_error
      (revoke_instance_sql (InstanceId_as_uuid instance_id) revoked_at);
    if (rows =? 0)%Z
    then
      existing ← query registry_query_error
        (fun T => service_instances T !! InstanceId_as_uuid instance_id);
      throw (match existing with
      | None => InstanceRegistryError_NotFound instance_id
      | Some row =>
          if (revoked_at <? si_registered_at row)%Z then InstanceRegistryError_InvalidTimestamp
          else InstanceRegistryError_Revoked instance_id
      end)
    else if negb (rows =? 1)%Z
    then throw (InstanceRegistryError_Repository
                  ("instance revocation changed " +:+ show_i64 rows +:+ " rows"))
    else
      key_rows ← execute registry_query_error
        (revoke_instance_key_sql (InstanceId_as_uuid instance_id) revoked_at);
      if negb (key_rows =? 1)%Z
      then throw (InstanceRegistryError_Repository
                    ("instance key revocation changed " +:+ show_i64 key_rows +:+ " rows"))
      else
        row ← execute registry_query_error (query_one_instance instance_id);
        revoked ← lift (instance_from_row row);
        append_registry_audit revoked "revoked" revoked_at;;
        commit registry_query_error;;
        mret revoked.

Definition PostgresInstanceRegistry : InstanceRegistryRepository Tables := {|
  registry_insert := PostgresInstanceRegistry_insert;
  registry_find := PostgresInstanceRegistry_find;
  registry_renew := PostgresInstanceRegistry_renew;
  registry_revoke := PostgresInstanceRegistry_revoke |}.
End registry.

(** ** Histories of registrations *)

(** What may happen to a row between two committed states: identity, endpoint and
    registration time never change, the revision only grows, and a revoked
    registration does not change at all. *)
Definition instance_succeeds (row row' : InstanceRow) : Prop :=
  si_service_id row' = si_service_id row /\ si_endpoint row' = si_endpoint row /\
  si_registered_at row' = si_registered_at row /\
  (si_lease_revision row <= si_lease_revision row')%Z /\
  (si_lease_revision row = si_lease_revision row' ->
     si_lease_expires_at row = si_lease_expires_at row') /\
  (is_Some (si_revoked_at row) -> row' = row).

Definition registry_history (T T' : Tables) : Prop :=
  forall id row, service_instances T !! id = Some row ->
    exists row', service_instances T' !! id = Some row' /\ instance_succeeds row row'.

Lemma instance_succeeds_refl row : instance_succeeds row row.
Proof. by repeat split. Qed.

Lemma instance_succeeds_trans row1 row2 row3 :
  instance_succeeds row1 row2 -> instance_succeeds row2 row3 -> instance_succeeds row1 row3.
Proof.
  intros (A1 & A2 & A3 & A4 & A5 & A6) (B1 & B2 & B3 & B4 & B5 & B6).
  split_and!; try congruence; try lia. intros Hr. rewrite (A6 Hr) in *. auto.
Qed.

#[export] Instance registry_history_preorder : PreOrder registry_history.
Proof.
  split.
  - intros T id row Hrow. exists row. split; [done | apply instance_succeeds_refl].
  - intros T1 T2 T3 H12 H23 id row Hrow.
    destruct (H12 id row Hrow) as (row2 & Hrow2 & H1).
    destruct (H23 id row2 Hrow2) as (row3 & Hrow3 & H2).
    exists row3. split; [done | by eapply instance_succeeds_trans].
Qed.

(** Replacing a row by a successor *)
Lemma registry_history_update T id row row' :
  service_instances T !! id = Some row -> instance_succeeds row row' ->
  registry_history T (with_service_instances (<[id := row']> (service_instances T)) T).
Proof.
  intros Hrow Hs id2 row2 Hrow2. simpl. destruct (decide (id = id2)) as [<-|Hne].
  - simplify_eq. exists row'. by rewrite lookup_insert_eq.
  - exists row2. rewrite lookup_insert_ne by done. split; [done | apply instance_succeeds_refl].
Qed.

(** Statements that leave the registrations alone *)
Lemma registry_history_same T T' :
  service_instances T' = service_instances T -> registry_history T T'.
Proof. intros H id row Hrow. exists row. rewrite H. split; [done | apply instance_succeeds_refl]. Qed.

Section theory.
Context {P : Platform}.

Lemma insert_instance_history i s e r l v T a T' :
  insert_instance_sql i s e r l v T = Ok (a, T') -> registry_history T T'.
Proof.
  unfold insert_instance_sql. intros H. result_inv.
  repeat match goal with H : require _ _ = Ok _ |- _ => apply require_Ok in H end.
  intros id row Hrow. exists row. simpl. rewrite lookup_insert_ne; [|intros <-].
  - split; [done | apply instance_succeeds_refl].
  - repeat match goal with H : bool_decide _ = true |- _ => apply bool_decide_eq_true in H end.
    congruence.
Qed.

Lemma insert_instance_key_history k i g p f v T a T' :
  insert_instance_key_sql k i g p f v T = Ok (a, T') -> registry_history T T'.
Proof. unfold insert_instance_key_sql. intros H. result_inv. by apply registry_history_same. Qed.

Lemma insert_registry_audit_history s i k a l t T n T' :
  insert_registry_audit_sql s i k a l t T = Ok (n, T') -> registry_history T T'.
Proof. unfold insert_registry_audit_sql. intros H. result_inv. by apply registry_history_same. Qed.

Lemma renew_instance_Ok i e n l T a T' :
  renew_instance_sql i e n l T = Ok (a, T') ->
  (a = 0%Z /\ T' = T) \/
  (a = 1%Z /\ exists row, service_instances T !! i = Some row /\
     si_lease_revision row = e /\ (si_registered_at row <= n < si_lease_expires_at row)%Z /\
     si_revoked_at row = None /\
     T' = with_service_instances
       (<[i := MkInstanceRow (si_service_id row) (si_endpoint row) (si_registered_at row) l
                 (e + 1) None]> (service_instances T)) T).
Proof.
  unfold renew_instance_sql. destruct (_ !! _) as [row|] eqn:Hrow; intros H; [|result_inv; auto].
  destruct (_ && _) eqn:Hc; result_inv; [right | auto]. split; [done|]. exists row.
  rewrite !andb_true_iff, Z.eqb_eq, Z.ltb_lt, Z.leb_le, bool_decide_eq_true in Hc.
  destruct Hc as [[[<- ?] ?] ->]. done.
Qed.

Lemma revoke_instance_Ok i t T a T' :
  revoke_instance_sql i t T = Ok (a, T') ->
  (a = 0%Z /\ T' = T) \/
  (a = 1%Z /\ exists row, service_instances T !! i = Some row /\
     (si_registered_at row <= t)%Z /\ si_revoked_at row = None /\
     T' = with_service_instances
       (<[i := MkInstanceRow (si_service_id row) (si_endpoint row) (si_registered_at row)
                 (si_lease_expires_at row) (si_lease_revision row) (Some t)]>
          (service_instances T)) T).
Proof.
  unfold revoke_instance_sql. destruct (_ !! _) as [row|] eqn:Hrow; intros H; [|result_inv; auto].
  destruct (_ && _) eqn:Hc; result_inv; [right | auto]. split; [done|]. exists row.
  rewrite !andb_true_iff, Z.leb_le, bool_decide_eq_true in Hc. naive_solver.
Qed.

Lemma renew_instance_history i e n l T a T' :
  renew_instance_sql i e n l T = Ok (a, T') -> registry_history T T'.
Proof.
  intros [[_ ->]|(_ & row & Hrow & He & Hw & Hr & ->)]%renew_instance_Ok; [done|].
  eapply registry_history_update; [done|]. unfold instance_succeeds; simpl.
  split_and!; try done; [lia | lia | rewrite Hr; by intros []].
Qed.

Lemma revoke_instance_history i t T a T' :
  revoke_instance_sql i t T = Ok (a, T') -> registry_history T T'.
Proof.
  intros [[_ ->]|(_ & row & Hrow & He & Hr & ->)]%revoke_instance_Ok; [done|].
  eapply registry_history_update; [done|]. unfold instance_succeeds; simpl.
  split_and!; try done. rewrite Hr. by intros [].
Qed.

Lemma revoke_instance_key_history i t T a T' :
  revoke_instance_key_sql i t T = Ok (a, T') -> registry_history T T'.
Proof.
  unfold revoke_instance_key_sql. intros H. destruct (key_of_instance i T) as [[k row]|];
    [destruct (bool_decide _)|]; result_inv; by apply registry_history_same.
Qed.

Lemma query_one_instance_Ok i T row T' :
  query_one_instance i T = Ok (row, T') ->
  T' = T /\ find_instance_sql (InstanceId_as_uuid i) T = Some row.
Proof. unfold query_one_instance. destruct (find_instance_sql _ _); intros H; by result_inv. Qed.

Lemma query_one_instance_history i T row T' :
  query_one_instance i T = Ok (row, T') -> registry_history T T'.
Proof. by intros [-> _]%query_one_instance_Ok. Qed.

Hint Resolve insert_instance_history insert_instance_key_history insert_registry_audit_history
  renew_instance_history revoke_instance_history revoke_instance_key_history
  query_one_instance_history : db.

(** Registrations only move forward: inserting, renewing or revoking any
    instance, under any faults, keeps every existing row's service, endpoint and
    registration time, never lowers a revision, and never changes a revoked row. *)
Theorem registry_forward_only (i : RegisteredInstance) (id : InstanceId) e n l t :
  history registry_history (PostgresInstanceRegistry_insert i) /\
  history registry_history (PostgresInstanceRegistry_renew id e n l) /\
  history registry_history (PostgresInstanceRegistry_revoke id t).
Proof.
  unfold PostgresInstanceRegistry_insert, PostgresInstanceRegistry_renew,
    PostgresInstanceRegistry_revoke, append_registry_audit, classify_failed_renewal.
  split_and!; db_walk.
Qed.

(** A restored record carries the columns of its row. *)
Lemma instance_from_row_Ok row i :
  instance_from_row row = Ok i ->
  ActorId_from_str (details_service_id row) = Ok (public_service_id (instance_public_key i)) /\
  InstanceId_from_str (details_instance_id row) = Ok (public_instance_id (instance_public_key i)) /\
  KeyId_from_str (details_key_id row) = Ok (public_key_id (instance_public_key i)) /\
  details_public_key row = public_key_bytes (instance_public_key i) /\
  instance_registered_at i = details_registered_at row /\
  instance_lease_expires_at i = details_lease_expires_at row /\
  instance_lease_revision i = details_lease_revision row /\
  instance_revoked_at i = details_revoked_at row.
Proof.
  unfold instance_from_row, InstancePublicKey_restore, RegisteredInstance_restore, to_array.
  intros H. result_inv. simpl. repeat match goal with
  | H : result_map_err _ _ = Ok _ |- _ => apply result_map_err_Ok in H
  | H : (if bool_decide _ then _ else _) = Some _ |- _ => case_bool_decide; [|done]
  end. simplify_eq. done.
Qed.

Lemma append_registry_audit_Ok i action t c u c' :
  append_registry_audit i action t c = (Ok u, c') ->
  exists audit, sees c' (durable c) (with_registry_audit audit (working c)).
Proof.
  unfold append_registry_audit. intros H. db_inv. unfold insert_registry_audit_sql in *.
  result_inv. by eexists.
Qed.

(** Lease renewal is a compare-and-swap: it succeeds only on a current,
    unrevoked instance whose stored revision is the expected one, and then
    stores exactly the next revision and a lease of the policy's length. *)
Theorem renew_compare_and_swap policy id e now c i c' :
  InstanceRegistryService_renew PostgresInstanceRegistry policy id e now c = (Ok i, c') ->
  exists row, service_instances (durable c) !! InstanceId_as_uuid id = Some row /\
    si_lease_revision row = e /\ si_revoked_at row = None /\
    (si_registered_at row <= now < si_lease_expires_at row)%Z /\
    service_instances (durable c') =
      <[InstanceId_as_uuid id :=
          MkInstanceRow (si_service_id row) (si_endpoint row) (si_registered_at row)
            (now + lease_duration_seconds policy) (e + 1) None]> (service_instances (durable c)) /\
    instance_lease_revision i = (e + 1)%Z /\
    instance_lease_expires_at i = (now + lease_duration_seconds policy)%Z.
Proof.
  unfold InstanceRegistryService_renew. simpl. unfold PostgresInstanceRegistry_renew.
  intros H. db_inv.
  repeat match goal with
  | H : renew_instance_sql _ _ _ _ _ = Ok _ |- _ => apply renew_instance_Ok in H
  | H : query_one_instance _ _ = Ok _ |- _ => apply query_one_instance_Ok in H
  | H : append_registry_audit _ _ _ _ = (Ok _, _) |- _ =>
      apply append_registry_audit_Ok in H as (? & ? & ?)
  | H : instance_from_row _ = Ok _ |- _ => apply instance_from_row_Ok in H
  | H : checked_add _ _ = Some _ |- _ => apply checked_add_Some in H
  end; destruct_or?; destruct_and?; subst; try done.
  match goal with H : ex _ |- _ => destruct H as (row & Hrow & He & Hwin & Hr & HT) end.
  resolve_tables. simpl in *.
  exists row. split; [done|]. split; [done|]. split; [done|]. split; [done|].
  split; [by subst|].
  match goal with H : find_instance_sql _ _ = Some _ |- _ => unfold find_instance_sql in H end.
  simpl in *. rewrite lookup_insert_eq in *. simpl in *. result_inv. simpl in *. naive_solver.
Qed.

(** What a registry lookup that lets an instance through has read *)
Record eligible_stored (T : Tables) (id : InstanceId) (now : Z) (i : RegisteredInstance)
  (row : InstanceRow) (key_id : Uuid) (key : InstanceKeyRow) : Prop := {
  eligible_row : service_instances T !! InstanceId_as_uuid id = Some row;
  eligible_not_revoked : si_revoked_at row = None;
  eligible_window : (si_registered_at row <= now < si_lease_expires_at row)%Z;
  eligible_key : key_of_instance (InstanceId_as_uuid id) T = Some (key_id, key);
  eligible_public :
    instance_public_key i = MkInstancePublicKey (MkActorId (si_service_id row)) id
                              (MkKeyId key_id) (sik_public_key key);
}.

Lemma find_eligible_stored {HP : PlatformLaws P} id now c i c' :
  InstanceRegistryService_find_eligible PostgresInstanceRegistry id now c = (Ok i, c') ->
  durable c' = durable c /\
  exists row key_id key, eligible_stored (durable c) id now i row key_id key.
Proof.
  unfold InstanceRegistryService_find_eligible. simpl. unfold PostgresInstanceRegistry_find.
  intros H. db_inv.
  match goal with H : context [find_instance_sql ?k ?T] |- _ =>
    destruct (find_instance_sql k T) as [d|] eqn:Hd; db_inv end.
  simplify_eq. split; [done|].
  match goal with H : instance_from_row _ = Ok _ |- _ => apply instance_from_row_Ok in H end.
  destruct_and?. unfold find_instance_sql in Hd. result_inv. simpl in *.
  match goal with H : service_instances _ !! _ = Some ?r |- _ => exists r end.
  do 2 eexists. 
  match goal with H : negb _ = false |- _ =>
    apply negb_false_iff in H; unfold RegisteredInstance_is_eligible_at in H end.
  unfold ActorId_from_str, InstanceId_from_str, KeyId_from_str in *.
  rewrite uuid_parse_print in *. simplify_eq.
  bool_facts. constructor; try done; try congruence; try lia.
  match goal with |- instance_public_key ?r = _ =>
    destruct (instance_public_key r) as [[s] [j] [k] b] end.
  destruct id. simpl in *. congruence.
Qed.

(** ** Registering *)

Definition is_registry_repository (e : InstanceRegistryError) : Prop :=
  match e with
  | InstanceRegistryError_Repository _ => True
  | _ => False
  end.

Lemma registry_insert_atomic i :
  atomic is_registry_repository (PostgresInstanceRegistry_insert i).
Proof. unfold PostgresInstanceRegistry_insert, append_registry_audit. db_walk. Qed.

(** The one way to register an instance *)
Definition registers (i : RegisteredInstance) (T T' : Tables) : Prop :=
  let public := instance_public_key i in
  let id := InstanceId_as_uuid (public_instance_id public) in
  let key_id := KeyId_as_uuid (public_key_id public) in
  service_instances T !! id = None /\ service_instance_keys T !! key_id = None /\
  is_Some (identities T !! ActorId_as_uuid (public_service_id public)) /\
  exists audit, T' = with_registry_audit audit
    (with_service_instance_keys
       (<[key_id := MkInstanceKeyRow id ALGORITHM (public_key_bytes public)
                      (InstancePublicKey_fingerprint public) (instance_registered_at i) None]>
          (service_instance_keys T))
       (with_service_instances
          (<[id := MkInstanceRow (ActorId_as_uuid (public_service_id public)) (instance_endpoint i)
                     (instance_registered_at i) (instance_lease_expires_at i)
                     (instance_lease_revision i) None]> (service_instances T)) T)).

Lemma registry_insert_run i T w ns :
  outcome (fun _ c' => exists T', registers i T T' /\ c' = MkConn T' T' [] ns) T
    (PostgresInstanceRegistry_insert i (MkConn T w [] ns)).
Proof.
  unfold PostgresInstanceRegistry_insert, append_registry_audit. db_case Hi; [|done].
  unfold insert_instance_sql, references in Hi. result_inv. cbn [negb Z.eqb Pos.eqb].
  db_case Hk; [|done]. unfold insert_instance_key_sql, references in Hk. result_inv.
  db_case Ha; [|done]. unfold insert_registry_audit_sql in Ha. result_inv. db_run. simpl.
  eexists. split; [|reflexivity].
  repeat match goal with H : require (bool_decide _) _ = Ok _ |- _ =>
    apply require_Ok, bool_decide_eq_true in H end.
  split; [done|]. split; [done|]. split; [done|]. by eexists.
Qed.

Lemma registry_insert_Ok i c u c' :
  PostgresInstanceRegistry_insert i c = (Ok u, c') -> registers i (durable c) (durable c').
Proof.
  intros (c0 & Hc & <-)%(atomic_Ok _ _ _ _ _ (registry_insert_atomic i)).
  destruct c as [d w fs ns]. unfold calm in Hc. simpl in Hc.
  pose proof (registry_insert_run i d w ns) as Hrun. rewrite Hc in Hrun.
  by destruct Hrun as (T' & Hr & ->).
Qed.

Lemma register_verified_Ok policy key endpoint now c i c' :
  InstanceRegistryService_register_verified PostgresInstanceRegistry policy key endpoint now c =
    (Ok i, c') ->
  (0 <= now)%Z /\ registers i (durable c) (durable c') /\
  exists e, validate_endpoint endpoint = Ok e /\
    i = MkRegisteredInstance key e now (now + lease_duration_seconds policy) 1 None.
Proof.
  unfold InstanceRegistryService_register_verified, validate_timestamp, RegisteredInstance_create,
    RegisteredInstance_restore. simpl. intros H. db_inv.
  match goal with H : checked_add _ _ = Some _ |- _ => apply checked_add_Some in H as [-> _] end.
  match goal with H : PostgresInstanceRegistry_insert _ _ = _ |- _ => apply registry_insert_Ok in H end.
  bool_facts; try done. split; [done|]. split; [done|]. by eexists.
Qed.

(** An endpoint that both checks accept *)
Definition plain_endpoint (endpoint : string) : Prop :=
  all_bytes is_graphic endpoint = true /\ starts_with "https://" endpoint = true /\
  (len "https://" < len endpoint <= MAX_ENDPOINT_LENGTH)%Z.

Lemma validate_plain_endpoint e : plain_endpoint e -> validate_endpoint e = Ok e.
Proof.
  intros (Hg & Hs & Hl). unfold validate_endpoint. rewrite trim_graphic, Hs by done. cbn [negb orb].
  rewrite (proj2 (Z.ltb_ge _ _)), (proj2 (Z.eqb_neq _ _)) by lia. done.
Qed.

(** A new instance of a known service is registered. *)
Lemma register_verified_succeeds {HP : PlatformLaws P} policy key endpoint now T ns :
  plain_endpoint endpoint -> (0 <= now)%Z -> (0 < lease_duration_seconds policy)%Z ->
  in_i64 (now + lease_duration_seconds policy) -> String.length (public_key_bytes key) = 32%nat ->
  is_Some (identities T !! ActorId_as_uuid (public_service_id key)) ->
  service_instances T !! InstanceId_as_uuid (public_instance_id key) = None ->
  service_instance_keys T !! KeyId_as_uuid (public_key_id key) = None ->
  key_of_instance (InstanceId_as_uuid (public_instance_id key)) T = None ->
  select (fun _ row => bool_decide (sik_fingerprint row = InstancePublicKey_fingerprint key))
    (service_instance_keys T) = [] ->
  let i := MkRegisteredInstance key endpoint now (now + lease_duration_seconds policy) 1 None in
  exists T', registers i T T' /\
    InstanceRegistryService_register_verified PostgresInstanceRegistry policy key endpoint now
      (MkConn T T [] ns) = (Ok i, MkConn T' T' [] ns).
Proof.
  intros He Hnow Hp Hin Hkey Hid Hi Hk Hki Hf i.
  pose proof (registry_insert_run i T T ns) as Hrun.
  unfold InstanceRegistryService_register_verified, validate_timestamp, RegisteredInstance_create,
    RegisteredInstance_restore.
  rewrite (proj2 (Z.ltb_ge now 0)) by lia. db_run.
  rewrite (proj2 (checked_add_Some _ _ _) (conj eq_refl Hin)). cbn [ok_or]. db_run.
  rewrite validate_plain_endpoint by done. rewrite result_bind_run.
  rewrite (proj2 (Z.leb_gt _ now)), (proj2 (Z.leb_gt 1 0)) by lia.
  cbn [orb]. db_run. change (MkRegisteredInstance _ _ _ _ _ _) with i.
  cbn [registry_insert PostgresInstanceRegistry]. revert Hrun.
  unfold PostgresInstanceRegistry_insert at 1 2, append_registry_audit. db_run.
  assert (1 <= len endpoint)%Z by (destruct He as (_ & _ & ?); unfold len in *; simpl in *; lia).
  erewrite execute_run; cycle 1.
  { unfold insert_instance_sql, references, require. simpl.
    destruct He as (Hg & Hs & Hl). rewrite chars_count_graphic, Hs by done.
    rewrite !bool_decide_true by (done || (unfold MAX_ENDPOINT_LENGTH in *; lia)). simpl.
    rewrite (proj2 (Z.leb_le 0 now)), (proj2 (Z.ltb_lt now _)) by lia. reflexivity. }
  cbn [negb Z.eqb Pos.eqb]. db_run. erewrite execute_run; cycle 1.
  { unfold insert_instance_key_sql, references, require, ALGORITHM.
    cbn [instance_public_key i instance_registered_at]. rewrite String.eqb_refl.
    rewrite !octet_length_32 by (done || apply sha256_length).
    rewrite (proj2 (Z.leb_le 0 now)) by lia. unfold key_of_instance in *. simpl.
    rewrite Hki, Hf, lookup_insert_eq, !bool_decide_true by done. reflexivity. }
  db_run. erewrite execute_run; cycle 1.
  { unfold insert_registry_audit_sql, require. simpl. rewrite (proj2 (Z.leb_le 0 now)) by lia.
    reflexivity. }
  db_run. simpl. intros (T' & Hr & [= <-]). eexists. by split.
Qed.
End theory.
