(* ===== verification/ServiceRequests.v ===== *)
(** * ServiceRequests: the signed-HTTP profile

    [src/kernel/service_requests.rs]: the parts of a request, the signature base
    and its metadata, signing, and the verification that turns caller-controlled
    fields into an authenticated request. *)

From S2P Require Import Prelude Text Platform Database Identity InstanceKeys InstanceRegistry.
From Stdlib Require Import Ascii.

Definition SIGNATURE_LABEL : string := "sig1".
Definition SIGNATURE_VALIDITY_SECONDS : Z := 30.
Definition CLOCK_SKEW_SECONDS : Z := 5.
Definition MIN_NONCE_LENGTH : Z := 16.
Definition MAX_NONCE_LENGTH : Z := 128.

Definition quoted (s : string) : string := dq +:+ s +:+ dq.

Definition COVERED_COMPONENTS : string :=
  "(" +:+ quoted "@method" +:+ " " +:+ quoted "@target-uri" +:+ " " +:+ quoted "content-digest"
  +:+ " " +:+ quoted "content-type" +:+ " " +:+ quoted "infernal-service-id"
  +:+ " " +:+ quoted "infernal-instance-id" +:+ " " +:+ quoted "infernal-request-id" +:+ ")".

Inductive ServiceRequestAuthenticationError :=
| Authentication_CredentialMismatch
| Authentication_InvalidContentDigest
| Authentication_InvalidSignature
| Authentication_Malformed
| Authentication_NotFresh
| Authentication_Registry (error : InstanceRegistryError).

#[export] Instance ServiceRequestAuthenticationError_eq_dec :
  EqDecision ServiceRequestAuthenticationError.
Proof. solve_decision. Defined.

Record ServiceRequestParts := MkServiceRequestParts {
  parts_method : string;
  parts_authority : string;
  parts_path_and_query : string;
  parts_content_type : string;
  parts_body : bytes;
  parts_request_id : Uuid;
}.

Record SignedServiceRequest := MkSignedServiceRequest {
  signed_parts : ServiceRequestParts;
  signed_service_id : ActorId;
  signed_instance_id : InstanceId;
  signed_content_digest : string;
  signed_signature_input : string;
  signed_signature : string;
}.

Record VerifiedServiceRequest := MkVerifiedServiceRequest {
  verified_service_id : ActorId;
  verified_instance_id : InstanceId;
  verified_key_id : KeyId;
  verified_request_id : Uuid;
  verified_created : Z;
  verified_expires : Z;
  verified_nonce_digest : bytes;
  verified_request_fingerprint : bytes;
}.

Record SignatureMetadata := MkSignatureMetadata {
  metadata_parameters : string;
  metadata_created : Z;
  metadata_expires : Z;
  metadata_nonce : string;
  metadata_key_id : KeyId;
}.

Definition valid_header_value (value : string) : bool :=
  negb (is_empty value) && bool_decide (trim value = value) && all_bytes (in_range 32 126) value.

Definition valid_uri_value (value : string) : bool :=
  negb (is_empty value) && all_bytes (in_range 33 126) value.

Definition authority_delimiter (c : ascii) : bool :=
  is_char "/" c || is_char "@" c || is_char "?" c || is_char "#" c.

Definition ServiceRequestParts_new (method authority path_and_query content_type : string)
  (body : bytes) (request_id : Uuid) :
  Result ServiceRequestAuthenticationError ServiceRequestParts :=
  if is_empty method || negb (all_bytes is_ascii_uppercase method)
     || negb (valid_uri_value authority)
     || any_byte authority_delimiter authority
     || negb (starts_with "/" path_and_query)
     || contains "#" path_and_query
     || negb (valid_uri_value path_and_query)
     || negb (valid_header_value content_type)
  then Err Authentication_Malformed
  else Ok (MkServiceRequestParts method authority path_and_query content_type body request_id).

Definition target_uri (parts : ServiceRequestParts) : string :=
  "https://" +:+ parts_authority parts +:+ parts_path_and_query parts.

Definition nonce_char (c : ascii) : bool :=
  is_ascii_alphanumeric c || is_char "-" c || is_char "_" c.

Definition validate_signature_metadata (created expires : Z) (nonce : string) :
  Result ServiceRequestAuthenticationError unit :=
  if (created <? 0)%Z || (expires <=? created)%Z
     || (SIGNATURE_VALIDITY_SECONDS <? expires - created)%Z
     || negb ((MIN_NONCE_LENGTH <=? len nonce) && (len nonce <=? MAX_NONCE_LENGTH))%Z
     || negb (all_bytes nonce_char nonce)
  then Err Authentication_Malformed
  else Ok tt.

Definition validate_signature_time (created expires now : Z) :
  Result ServiceRequestAuthenticationError unit :=
  if (now <? 0)%Z || (saturating_add now CLOCK_SKEW_SECONDS <? created)%Z
     || (saturating_add expires CLOCK_SKEW_SECONDS <? now)%Z
  then Err Authentication_NotFresh
  else Ok tt.

Definition parse_timestamp (value : string) : Result ServiceRequestAuthenticationError Z :=
  if is_empty value || negb (all_bytes is_ascii_digit value) then Err Authentication_Malformed
  else ok_or Authentication_Malformed (parse_i64 value).

Section service_requests.
  Context {P : Platform}.

Definition Authentication_to_string (e : ServiceRequestAuthenticationError) : string :=
  match e with
  | Authentication_CredentialMismatch => "request credential does not match"
  | Authentication_InvalidContentDigest => "request content digest is invalid"
  | Authentication_InvalidSignature => "request signature is invalid"
  | Authentication_Malformed => "signed request is malformed"
  | Authentication_NotFresh => "request signature is not fresh"
  | Authentication_Registry error =>
      "request key lookup failed: " +:+ InstanceRegistryError_to_string error
  end.

Definition signature_parameters (created expires : Z) (nonce : string) (key_id : KeyId) : string :=
  COVERED_COMPONENTS +:+ ";created=" +:+ show_i64 created +:+ ";expires=" +:+ show_i64 expires
  +:+ (";nonce=" +:+ dq) +:+ nonce +:+ (dq +:+ ";keyid=" +:+ dq) +:+ KeyId_to_string key_id
  +:+ (dq +:+ ";alg=" +:+ dq) +:+ ("ed25519" +:+ dq).

Definition parse_signature_input (value : string) :
  Result ServiceRequestAuthenticationError SignatureMetadata :=
  parameters ← ok_or Authentication_Malformed (strip_prefix (SIGNATURE_LABEL +:+ "=") value);
  remainder ← ok_or Authentication_Malformed
    (strip_prefix COVERED_COMPONENTS parameters ≫= strip_prefix ";created=");
  '(created, remainder) ← ok_or Authentication_Malformed (split_once ";expires=" remainder);
  '(expires, remainder) ← ok_or Authentication_Malformed (split_once (";nonce=" +:+ dq) remainder);
  '(nonce, remainder) ← ok_or Authentication_Malformed
    (split_once (dq +:+ ";keyid=" +:+ dq) remainder);
  '(key_id, algorithm) ← ok_or Authentication_Malformed
    (split_once (dq +:+ ";alg=" +:+ dq) remainder);
  if negb (String.eqb algorithm ("ed25519" +:+ dq)) then Err Authentication_Malformed
  else
    created ← parse_timestamp created;
    expires ← parse_timestamp expires;
    validate_signature_metadata created expires nonce;;
    key_id ← result_map_err (fun _ => Authentication_Malformed) (KeyId_from_str key_id);
    Ok (MkSignatureMetadata parameters created expires nonce key_id).

Definition parse_signature (value : string) :
  Result ServiceRequestAuthenticationError InstanceSignature :=
  encoded ← ok_or Authentication_Malformed
    (strip_prefix (SIGNATURE_LABEL +:+ "=:") value ≫= strip_suffix ":");
  decoded ← ok_or Authentication_Malformed (base64_decode encoded);
  decoded ← ok_or Authentication_Malformed (to_array SIGNATURE_LENGTH decoded);
  if negb (String.eqb (base64_encode decoded) encoded) then Err Authentication_Malformed
  else Ok (MkInstanceSignature decoded).

Definition signature_base (parts : ServiceRequestParts) (service_id : ActorId)
  (instance_id : InstanceId) (digest parameters : string) : string :=
  (quoted "@method" +:+ ": ") +:+ parts_method parts +:+ nl
  +:+ (quoted "@target-uri" +:+ ": ") +:+ target_uri parts +:+ nl
  +:+ (quoted "content-digest" +:+ ": ") +:+ digest +:+ nl
  +:+ (quoted "content-type" +:+ ": ") +:+ parts_content_type parts +:+ nl
  +:+ (quoted "infernal-service-id" +:+ ": ") +:+ ActorId_to_string service_id +:+ nl
  +:+ (quoted "infernal-instance-id" +:+ ": ") +:+ InstanceId_to_string instance_id +:+ nl
  +:+ (quoted "infernal-request-id" +:+ ": ") +:+ uuid_print (parts_request_id parts) +:+ nl
  +:+ (quoted "@signature-params" +:+ ": ") +:+ parameters.

Definition content_digest (body : bytes) : string :=
  "sha-256=:" +:+ base64_encode (sha256 body) +:+ ":".

Definition fingerprint_text (request : SignedServiceRequest) : string :=
  (quoted "@method" +:+ ": ") +:+ parts_method (signed_parts request) +:+ nl
  +:+ (quoted "@target-uri" +:+ ": ") +:+ target_uri (signed_parts request) +:+ nl
  +:+ (quoted "content-digest" +:+ ": ") +:+ signed_content_digest request +:+ nl
  +:+ (quoted "content-type" +:+ ": ") +:+ parts_content_type (signed_parts request) +:+ nl
  +:+ (quoted "infernal-service-id" +:+ ": ") +:+ ActorId_to_string (signed_service_id request).

Definition request_fingerprint (request : SignedServiceRequest) : bytes :=
  sha256 (fingerprint_text request).

Definition verify_content_digest (body : bytes) (supplied : string) :
  Result ServiceRequestAuthenticationError unit :=
  if String.eqb (content_digest body) supplied then Ok tt
  else Err Authentication_InvalidContentDigest.

Definition SignedServiceRequest_sign (parts : ServiceRequestParts) (credential : InstanceCredential)
  (created expires : Z) (nonce : string) :
  Result ServiceRequestAuthenticationError SignedServiceRequest :=
  validate_signature_metadata created expires nonce;;
  let public_key := credential_public_key credential in
  let content_digest := content_digest (parts_body parts) in
  let signature_parameters := signature_parameters created expires nonce (public_key_id public_key) in
  let base := signature_base parts (public_service_id public_key) (public_instance_id public_key)
                content_digest signature_parameters in
  let signature := InstanceCredential_sign credential base in
  Ok (MkSignedServiceRequest parts (public_service_id public_key) (public_instance_id public_key)
        content_digest (SIGNATURE_LABEL +:+ "=" +:+ signature_parameters)
        (SIGNATURE_LABEL +:+ "=:" +:+ base64_encode (InstanceSignature_as_bytes signature) +:+ ":")).

Definition SignedServiceRequest_from_wire (parts : ServiceRequestParts)
  (service_id instance_id content_digest signature_input signature : string) :
  Result ServiceRequestAuthenticationError SignedServiceRequest :=
  service_id ← result_map_err (fun _ => Authentication_Malformed) (ActorId_from_str service_id);
  instance_id ← result_map_err (fun _ => Authentication_Malformed) (InstanceId_from_str instance_id);
  Ok (MkSignedServiceRequest parts service_id instance_id content_digest signature_input signature).

(** ** The verifier over a resolver of eligible instances *)

(** [trait EligibleInstanceResolver]: what the verifier is given *)
Class EligibleInstanceResolver (S R : Type) :=
  find_eligible : R -> InstanceId -> Z -> Db S InstanceRegistryError RegisteredInstance.

(** What an implementation promises: only instances that may be used now *)
Class EligibleInstanceResolverLaws (S R : Type) {I : EligibleInstanceResolver S R} : Prop :=
  find_eligible_eligible r id now c i c' :
    find_eligible r id now c = (Ok i, c') -> RegisteredInstance_is_eligible_at i now = true.

Definition ServiceRequestVerifier_verify {S R} `{EligibleInstanceResolver S R} (instances : R)
  (request : SignedServiceRequest) (now : Z) :
  Db S ServiceRequestAuthenticationError VerifiedServiceRequest :=
  metadata ← lift (parse_signature_input (signed_signature_input request));
  lift (validate_signature_time (metadata_created metadata) (metadata_expires metadata) now);;
  instance ← map_err Authentication_Registry
    (find_eligible instances (signed_instance_id request) now);
  let public_key := instance_public_key instance in
  if negb (bool_decide (public_service_id public_key = signed_service_id request))
     || negb (bool_decide (public_instance_id public_key = signed_instance_id request))
     || negb (bool_decide (public_key_id public_key = metadata_key_id metadata))
  then throw Authentication_CredentialMismatch
  else
    lift (verify_content_digest (parts_body (signed_parts request)) (signed_content_digest request));;
    signature ← lift (parse_signature (signed_signature request));
    let base := signature_base (signed_parts request) (signed_service_id request)
                  (signed_instance_id request) (signed_content_digest request)
                  (metadata_parameters metadata) in
    lift (result_map_err (fun _ => Authentication_InvalidSignature)
            (InstancePublicKey_verify public_key base signature));;
    mret (MkVerifiedServiceRequest (signed_service_id request) (signed_instance_id request)
            (metadata_key_id metadata) (parts_request_id (signed_parts request))
            (metadata_created metadata) (metadata_expires metadata)
            (sha256 (metadata_nonce metadata)) (request_fingerprint request)).
End service_requests.

(** [impl EligibleInstanceResolver for InstanceRegistryService<R>] *)
Record InstanceRegistryService (S : Type) := MkInstanceRegistryService {
  registry_service_repository : InstanceRegistryRepository S;
  registry_service_lease_policy : LeasePolicy;
}.
Arguments registry_service_repository {S}.
Arguments registry_service_lease_policy {S}.

#[export] Instance InstanceRegistryService_resolver {S} :
  EligibleInstanceResolver S (InstanceRegistryService S) :=
  fun service id now =>
    InstanceRegistryService_find_eligible (registry_service_repository service) id now.

(** ** Lemmas *)

#[export] Instance InstanceRegistryService_resolver_laws {S} :
  EligibleInstanceResolverLaws S (InstanceRegistryService S).
Proof.
  intros r id now c i c'. unfold find_eligible, InstanceRegistryService_resolver.
  unfold InstanceRegistryService_find_eligible. intros H. db_inv.
  by apply negb_false_iff.
Qed.

Lemma signature_metadata_spec created expires nonce u :
  validate_signature_metadata created expires nonce = Ok u <->
  (0 <= created < expires /\ expires - created <= SIGNATURE_VALIDITY_SECONDS /\
   MIN_NONCE_LENGTH <= len nonce <= MAX_NONCE_LENGTH)%Z /\ all_bytes nonce_char nonce = true.
Proof.
  unfold validate_signature_metadata. destruct u.
  destruct (all_bytes nonce_char nonce); simpl;
    rewrite ?orb_true_r, ?orb_false_r; [|naive_solver].
  split.
  - intros H. result_inv. bool_facts. split; [lia | done].
  - intros [H _]. destruct (_ || _) eqn:Hb; [|done]. exfalso.
    rewrite !orb_true_iff, negb_true_iff, andb_false_iff in Hb. lia.
Qed.

(** Reduces the monadic plumbing only. *)
Ltac reduce := cbn [ok_or mbind result_bind option_bind result_map_err].

Section theory.
Context {P : Platform} {HP : PlatformLaws P}.

Lemma nonce_free c nonce :
  all_bytes nonce_char nonce = true -> nonce_char c = false -> free_of c nonce.
Proof. intros Hn Hc. by apply (free_of_class nonce_char). Qed.

Lemma uuid_free c u : uuid_char c = false -> free_of c (uuid_print u).
Proof. intros Hc. apply (free_of_class uuid_char); [done | apply uuid_print_chars]. Qed.

Lemma show_free c z : (0 <= z)%Z -> is_ascii_digit c = false -> free_of c (show_i64 z).
Proof. intros Hz Hc. apply (free_of_class is_ascii_digit); [done | by apply show_i64_digits]. Qed.

Lemma parse_timestamp_show z : (0 <= z)%Z -> in_i64 z -> parse_timestamp (show_i64 z) = Ok z.
Proof.
  intros Hz Hi. unfold parse_timestamp.
  rewrite show_i64_digits, parse_show_i64 by done. simpl. rewrite orb_false_r.
  pose proof (show_i64_not_empty z). by destruct (show_i64 z).
Qed.

Lemma parse_timestamp_Ok value z : parse_timestamp value = Ok z -> parse_i64 value = Some z.
Proof. unfold parse_timestamp. intros H. by result_inv. Qed.

Lemma parse_signature_input_show created expires nonce key_id :
  validate_signature_metadata created expires nonce = Ok tt -> in_i64 created -> in_i64 expires ->
  parse_signature_input
    (SIGNATURE_LABEL +:+ "=" +:+ signature_parameters created expires nonce key_id) =
  Ok (MkSignatureMetadata (signature_parameters created expires nonce key_id)
        created expires nonce key_id).
Proof.
  intros Hm Hc He. pose proof (proj1 (signature_metadata_spec _ _ _ _) Hm) as [Hr Hn].
  unfold parse_signature_input. rewrite strip_prefix_app2. reduce.
  set (parameters := signature_parameters created expires nonce key_id).
  eassert (strip_prefix COVERED_COMPONENTS parameters = Some _) as -> by apply strip_prefix_app.
  reduce. rewrite strip_prefix_app. reduce.
  rewrite (split_once_app ";" "expires=") by (done || (apply show_free; [lia|done])). reduce.
  rewrite (split_once_app ";" ("nonce=" +:+ dq)) by (done || (apply show_free; [lia|done])). reduce.
  rewrite (split_once_app quote_char (";keyid=" +:+ dq)) by (done || (by apply nonce_free)). reduce.
  rewrite (split_once_app quote_char (";alg=" +:+ dq)) by (done || (by apply uuid_free)). reduce.
  rewrite !parse_timestamp_show by (done || lia). simpl. rewrite Hm. reduce.
  by rewrite KeyId_from_to_string.
Qed.
Lemma parse_signature_show signature :
  String.length signature = SIGNATURE_LENGTH ->
  parse_signature (SIGNATURE_LABEL +:+ "=:" +:+ base64_encode signature +:+ ":") =
  Ok (MkInstanceSignature signature).
Proof.
  intros Hl. unfold parse_signature. rewrite strip_prefix_app2. reduce.
  rewrite strip_suffix_app. reduce. rewrite base64_decode_encode. reduce.
  unfold to_array. rewrite bool_decide_true by done. reduce.
  by rewrite String.eqb_refl.
Qed.

Lemma parse_signature_input_Ok value m :
  parse_signature_input value = Ok m ->
  value = (SIGNATURE_LABEL +:+ "=") +:+ metadata_parameters m /\
  validate_signature_metadata (metadata_created m) (metadata_expires m) (metadata_nonce m) = Ok tt /\
  in_i64 (metadata_created m) /\ in_i64 (metadata_expires m).
Proof.
  unfold parse_signature_input. intros H. result_inv.
  match goal with H : strip_prefix (SIGNATURE_LABEL +:+ "=") _ = Some _ |- _ =>
    apply strip_prefix_Some in H end.
  repeat match goal with
  | H : parse_timestamp _ = Ok _ |- _ => apply parse_timestamp_Ok, parse_i64_in in H
  | u : unit |- _ => destruct u
  end. simpl. auto.
Qed.

(** The parts [ServiceRequestParts::new] lets through *)
Definition parts_wf (p : ServiceRequestParts) : Prop :=
  exists method authority path content_type body id,
    ServiceRequestParts_new method authority path content_type body id = Ok p.

Lemma parts_wf_fields p :
  parts_wf p ->
  free_of newline_char (parts_method p) /\ free_of newline_char (target_uri p) /\
  free_of newline_char (parts_content_type p) /\ free_of "/" (parts_authority p) /\
  exists rest, parts_path_and_query p = String "/" rest.
Proof.
  intros (method & authority & path & content_type & body & id & H).
  unfold ServiceRequestParts_new in H. result_inv. unfold target_uri. simpl.
  repeat match goal with
  | H : (_ || _)%bool = false |- _ => apply orb_false_iff in H as [? ?]
  | H : negb _ = false |- _ => apply negb_false_iff in H
  end.
  unfold valid_uri_value, valid_header_value in *.
  repeat match goal with H : (_ && _)%bool = true |- _ => apply andb_true_iff in H as [? ?] end.
  assert (forall s, all_bytes (in_range 33 126) s = true -> free_of newline_char s) as Huri
    by (intros s; by apply free_of_class).
  split_and!.
  - by apply (free_of_class is_ascii_uppercase).
  - rewrite !free_of_app. auto.
  - by apply (free_of_class (in_range 32 126)).
  - rewrite any_byte_negb in *. 
    match goal with H : negb (all_bytes _ _) = false |- _ => apply negb_false_iff in H end.
    eapply (free_of_class (fun c => negb (authority_delimiter c))); [|eassumption]. done.
  - match goal with H : starts_with _ _ = true |- _ => apply starts_with_spec in H as [r ->] end.
    by exists r.
Qed.

Lemma target_uri_inj p p' :
  parts_wf p -> parts_wf p' -> target_uri p = target_uri p' ->
  parts_authority p = parts_authority p' /\ parts_path_and_query p = parts_path_and_query p'.
Proof.
  intros (_ & _ & _ & Ha & r & Hr)%parts_wf_fields (_ & _ & _ & Ha' & r' & Hr')%parts_wf_fields.
  unfold target_uri. intros H%string_app_inj_l. rewrite Hr, Hr' in *.
  apply separator_inj in H as [-> ->]; auto.
Qed.

Lemma content_digest_free body : free_of newline_char (content_digest body).
Proof.
  unfold content_digest. rewrite !free_of_app. split_and!; [done| |done].
  apply (free_of_class base64_char); [done | apply base64_encode_chars].
Qed.

Lemma content_digest_inj body body' :
  content_digest body = content_digest body' -> body = body' \/ sha256_collision body body'.
Proof.
  unfold content_digest. intros H%string_app_inj_l%string_app_inj_r%base64_encode_inj.
  by apply sha256_eq.
Qed.

Lemma verify_content_digest_Ok body supplied u :
  verify_content_digest body supplied = Ok u -> supplied = content_digest body.
Proof. unfold verify_content_digest. destruct (String.eqb_spec (content_digest body) supplied); [by intros _ | done]. Qed.

(** Every line of the base can be read back. *)
Lemma signature_base_inj p p' s s' i i' d d' q q' :
  parts_wf p -> parts_wf p' -> free_of newline_char d -> free_of newline_char d' ->
  signature_base p s i d q = signature_base p' s' i' d' q' ->
  parts_method p = parts_method p' /\ target_uri p = target_uri p' /\ d = d' /\
  parts_content_type p = parts_content_type p' /\ s = s' /\ i = i' /\
  parts_request_id p = parts_request_id p' /\ q = q'.
Proof.
  intros (Hm & Hu & Hc & _)%parts_wf_fields (Hm' & Hu' & Hc' & _)%parts_wf_fields Hd Hd'.
  unfold signature_base. intros H.
  assert (forall u, free_of newline_char (uuid_print u)) as Hid by (intros u; by apply uuid_free).
  repeat match goal with
  | H : ?a +:+ _ = ?a +:+ _ |- _ => apply string_app_inj_l in H
  | H : _ +:+ nl +:+ _ = _ +:+ nl +:+ _ |- _ =>
      apply line_inj in H as [? H]; try solve [done | apply Hid]; [idtac]
  end.
  destruct s as [s], s' as [s'], i as [i], i' as [i'].
  unfold ActorId_to_string, InstanceId_to_string in *. simpl in *.
  repeat match goal with H : uuid_print _ = uuid_print _ |- _ => apply uuid_print_inj in H end.
  subst. split_and!; congruence.
Qed.

Lemma fingerprint_text_inj r r' :
  parts_wf (signed_parts r) -> parts_wf (signed_parts r') ->
  free_of newline_char (signed_content_digest r) -> free_of newline_char (signed_content_digest r') ->
  fingerprint_text r = fingerprint_text r' ->
  parts_method (signed_parts r) = parts_method (signed_parts r') /\
  target_uri (signed_parts r) = target_uri (signed_parts r') /\
  signed_content_digest r = signed_content_digest r' /\
  parts_content_type (signed_parts r) = parts_content_type (signed_parts r') /\
  signed_service_id r = signed_service_id r'.
Proof.
  intros (Hm & Hu & Hc & _)%parts_wf_fields (Hm' & Hu' & Hc' & _)%parts_wf_fields Hd Hd'.
  unfold fingerprint_text. intros H.
  repeat match goal with
  | H : ?a +:+ _ = ?a +:+ _ |- _ => apply string_app_inj_l in H
  | H : _ +:+ nl +:+ _ = _ +:+ nl +:+ _ |- _ => apply line_inj in H as [? H]; try done; [idtac]
  end.
  destruct (signed_service_id r), (signed_service_id r').
  unfold ActorId_to_string in H. apply uuid_print_inj in H. simpl in H. subst. auto.
Qed.
End theory.

(** ** What verification promises *)

(** A request is authentic for a key at a time: the identifiers are those of the
    key, the metadata is fresh, the digest is that of the body, and the signature
    covers every component. *)
Record authentic {P : Platform} (key : InstancePublicKey) (request : SignedServiceRequest)
  (now : Z) (v : VerifiedServiceRequest) : Prop := {
  authentic_service : verified_service_id v = public_service_id key /\
    signed_service_id request = public_service_id key;
  authentic_instance : verified_instance_id v = public_instance_id key /\
    signed_instance_id request = public_instance_id key;
  authentic_key : verified_key_id v = public_key_id key;
  authentic_request_id : verified_request_id v = parts_request_id (signed_parts request);
  authentic_window :
    (0 <= verified_created v < verified_expires v /\
     verified_expires v <= verified_created v + SIGNATURE_VALIDITY_SECONDS)%Z;
  authentic_fresh :
    (0 <= now /\ verified_created v <= now + CLOCK_SKEW_SECONDS /\
     now <= verified_expires v + CLOCK_SKEW_SECONDS)%Z;
  authentic_digest :
    signed_content_digest request = content_digest (parts_body (signed_parts request));
  authentic_signature : exists parameters signature,
    signed_signature_input request = (SIGNATURE_LABEL +:+ "=") +:+ parameters /\
    ed25519_verify (public_key_bytes key)
      (signature_base (signed_parts request) (public_service_id key) (public_instance_id key)
         (signed_content_digest request) parameters) signature = true;
  authentic_fingerprint : verified_request_fingerprint v = request_fingerprint request;
}.

Section verification.
Context {P : Platform} {HP : PlatformLaws P}.
Context {S R : Type} {I : EligibleInstanceResolver S R}.

Lemma verify_authentic {L : EligibleInstanceResolverLaws S R}
  (instances : R) request now (c : Conn S) v c' :
  in_i64 now ->
  ServiceRequestVerifier_verify instances request now c = (Ok v, c') ->
  exists i, find_eligible instances (signed_instance_id request) now c = (Ok i, c') /\
    RegisteredInstance_is_eligible_at i now = true /\
    authentic (instance_public_key i) request now v.
Proof.
  intros Hnow. unfold ServiceRequestVerifier_verify. intros H. db_inv.
  match goal with H : find_eligible _ _ _ _ = (Ok ?i, _) |- _ => exists i; rename H into Hf end.
  split; [done|]. split; [by eapply find_eligible_eligible|].
  match goal with H : parse_signature_input _ = Ok _ |- _ =>
    apply parse_signature_input_Ok in H as (Hin & Hm & Hci & Hei) end.
  apply signature_metadata_spec in Hm as [Hr _].
  match goal with H : verify_content_digest _ _ = Ok _ |- _ =>
    apply verify_content_digest_Ok in H end.
  match goal with H : validate_signature_time _ _ _ = Ok _ |- _ =>
    unfold validate_signature_time in H; result_inv end.
  bool_facts.
  repeat match goal with H : bool_decide _ = true |- _ => apply bool_decide_eq_true in H end.
  match goal with H : InstancePublicKey_verify _ _ _ = Ok _ |- _ =>
    unfold InstancePublicKey_verify in H; result_inv end.
  split; simpl; try (by split_and!); try done.
  - lia.
  - unfold saturating_add, in_i64, i64_min, i64_max, CLOCK_SKEW_SECONDS in *. lia.
  - eexists _, _. split; [done|].
    repeat match goal with
    | H : public_service_id _ = _ |- _ => rewrite H
    | H : public_instance_id _ = _ |- _ => rewrite H
    end. eassumption.
Qed.

(** A request is accepted only when the resolver returned an instance that
    is eligible now and the request is authentic for that instance's key: ids,
    freshness window, body digest and signature over every covered component. *)
Theorem verify_only_authentic {L : EligibleInstanceResolverLaws S R}
  (instances : R) request now (c : Conn S) v c' :
  in_i64 now ->
  ServiceRequestVerifier_verify instances request now c = (Ok v, c') ->
  exists i, find_eligible instances (signed_instance_id request) now c = (Ok i, c') /\
    RegisteredInstance_is_eligible_at i now = true /\
    authentic (instance_public_key i) request now v.
Proof. apply verify_authentic. Qed.

(** What [SignedServiceRequest::sign] produces is accepted inside its
    window by any verifier that resolves the signing instance, with exactly the
    signed fields. *)
Theorem verify_accepts_signed (instances : R) credential parts created expires nonce request
  now (c : Conn S) i c' :
  credential_wf credential -> in_i64 created -> in_i64 expires ->
  SignedServiceRequest_sign parts credential created expires nonce = Ok request ->
  validate_signature_time created expires now = Ok tt ->
  find_eligible instances (public_instance_id (credential_public_key credential)) now c = (Ok i, c') ->
  instance_public_key i = credential_public_key credential ->
  ServiceRequestVerifier_verify instances request now c =
    (Ok (MkVerifiedServiceRequest (public_service_id (credential_public_key credential))
           (public_instance_id (credential_public_key credential))
           (public_key_id (credential_public_key credential)) (parts_request_id parts)
           created expires (sha256 nonce) (request_fingerprint request)), c').
Proof.
  intros Hwf Hc He Hs Ht Hf Hk. unfold SignedServiceRequest_sign in Hs. result_inv.
  match goal with H : validate_signature_metadata _ _ _ = Ok ?u |- _ =>
    destruct u; rename H into Hm end.
  unfold ServiceRequestVerifier_verify. simpl.
  unfold mbind, db_bind, lift.
  rewrite parse_signature_input_show by done. simpl. rewrite Ht.
  unfold map_err. rewrite Hf. simpl. rewrite Hk.
  rewrite !bool_decide_true by done. simpl.
  unfold verify_content_digest. rewrite String.eqb_refl.
  rewrite parse_signature_show by apply ed25519_sign_length. simpl.
  pose proof (credential_sign_verify credential) as Hv. unfold InstanceCredential_sign in Hv.
  by rewrite Hv.
Qed.
End verification.

Section binding.
Context {P : Platform} {HP : PlatformLaws P}.

(** C37: A signature authenticates one request: two well-formed requests with
    verified body digests and the same signature base have the same method,
    authority, path, content type, body, request id and identities, unless the
    two bodies are a SHA-256 collision. *)
Theorem signature_base_binds_request r r' parameters parameters' :
  parts_wf (signed_parts r) -> parts_wf (signed_parts r') ->
  signed_content_digest r = content_digest (parts_body (signed_parts r)) ->
  signed_content_digest r' = content_digest (parts_body (signed_parts r')) ->
  signature_base (signed_parts r) (signed_service_id r) (signed_instance_id r)
    (signed_content_digest r) parameters =
  signature_base (signed_parts r') (signed_service_id r') (signed_instance_id r')
    (signed_content_digest r') parameters' ->
  (signed_parts r = signed_parts r' /\ signed_service_id r = signed_service_id r' /\
   signed_instance_id r = signed_instance_id r' /\ parameters = parameters') \/
  sha256_collision (parts_body (signed_parts r)) (parts_body (signed_parts r')).
Proof.
  intros Hw Hw' Hd Hd' H. rewrite Hd, Hd' in H.
  apply signature_base_inj in H as (Hm & Hu & Hcd & Hct & Hs & Hi & Hr & Hq);
    [|done|done|apply content_digest_free..].
  destruct (target_uri_inj _ _ Hw Hw' Hu) as [Ha Hp].
  destruct (content_digest_inj _ _ Hcd) as [Hb|Hb]; [left|by right].
  destruct (signed_parts r), (signed_parts r'); simpl in *. by subst.
Qed.

(** The fingerprint that replay protection stores identifies the content:
    equal fingerprints of verified requests mean the same source service,
    method, target, content type and body, or an explicit SHA-256 collision. *)
Theorem request_fingerprint_binds_content r r' :
  parts_wf (signed_parts r) -> parts_wf (signed_parts r') ->
  signed_content_digest r = content_digest (parts_body (signed_parts r)) ->
  signed_content_digest r' = content_digest (parts_body (signed_parts r')) ->
  request_fingerprint r = request_fingerprint r' ->
  (signed_service_id r = signed_service_id r' /\
   parts_method (signed_parts r) = parts_method (signed_parts r') /\
   parts_authority (signed_parts r) = parts_authority (signed_parts r') /\
   parts_path_and_query (signed_parts r) = parts_path_and_query (signed_parts r') /\
   parts_content_type (signed_parts r) = parts_content_type (signed_parts r') /\
   parts_body (signed_parts r) = parts_body (signed_parts r')) \/
  sha256_collision (fingerprint_text r) (fingerprint_text r') \/
  sha256_collision (parts_body (signed_parts r)) (parts_body (signed_parts r')).
Proof.
  intros Hw Hw' Hd Hd' H. destruct (sha256_eq _ _ H) as [Ht|Ht]; [|auto].
  apply fingerprint_text_inj in Ht as (Hm & Hu & Hcd & Hct & Hs);
    [|done|done|rewrite ?Hd, ?Hd'; apply content_digest_free..].
  rewrite Hd, Hd' in Hcd. destruct (target_uri_inj _ _ Hw Hw' Hu) as [Ha Hp].
  destruct (content_digest_inj _ _ Hcd) as [Hb|Hb]; auto 10.
Qed.
End binding.
