(* ===== verification/ReplayProtection.v ===== *)
(** * ReplayProtection: nonces are consumed once, request ids are bound once

    [src/kernel/replay_protection.rs] and
    [src/infrastructure/postgres_replay_protection_repository.rs], with the
    statements of migration 0006. *)

From S2P Require Import Prelude Text Platform Database Schema Identity InstanceKeys.
From S2P Require Import InstanceRegistry ServiceRequests.

Record ReplayReservation := MkReplayReservation {
  reservation_service_id : ActorId;
  reservation_instance_id : InstanceId;
  reservation_key_id : KeyId;
  reservation_request_id : Uuid;
  reservation_nonce_digest : bytes;
  reservation_request_fingerprint : bytes;
  reservation_signature_created : Z;
  reservation_signature_expires : Z;
  reservation_reserved_at : Z;
}.

Inductive ReplayDisposition := ReplayDisposition_Fresh | ReplayDisposition_SafeRetry.

Inductive ReplayProtectionError :=
| ReplayProtectionError_InvalidTimestamp
| ReplayProtectionError_ReplayDetected
| ReplayProtectionError_RequestIdConflict
| ReplayProtectionError_Repository (message : string).

#[export] Instance ReplayDisposition_eq_dec : EqDecision ReplayDisposition.
Proof. solve_decision. Defined.
#[export] Instance ReplayProtectionError_eq_dec : EqDecision ReplayProtectionError.
Proof. solve_decision. Defined.

Definition ReplayReservation_from_verified (request : VerifiedServiceRequest) (reserved_at : Z) :
  Result ReplayProtectionError ReplayReservation :=
  if (reserved_at <? 0)%Z
     || (saturating_add reserved_at CLOCK_SKEW_SECONDS <? verified_created request)%Z
     || (saturating_add (verified_expires request) CLOCK_SKEW_SECONDS <? reserved_at)%Z
  then Err ReplayProtectionError_InvalidTimestamp
  else Ok (MkReplayReservation (verified_service_id request) (verified_instance_id request)
             (verified_key_id request) (verified_request_id request)
             (verified_nonce_digest request) (verified_request_fingerprint request)
             (verified_created request) (verified_expires request) reserved_at).

Record ReplayProtectionRepository (S : Type) := MkReplayProtectionRepository {
  replay_reserve : ReplayReservation -> Db S ReplayProtectionError ReplayDisposition;
}.
Arguments replay_reserve {S}.

Definition ReplayProtectionService_protect {S} (R : ReplayProtectionRepository S)
  (request : VerifiedServiceRequest) (now : Z) : Db S ReplayProtectionError ReplayDisposition :=
  reservation ← lift (ReplayReservation_from_verified request now);
  replay_reserve R reservation.

Definition ReplayProtectionError_to_string (e : ReplayProtectionError) : string :=
  match e with
  | ReplayProtectionError_InvalidTimestamp => "replay reservation time is invalid"
  | ReplayProtectionError_ReplayDetected => "request nonce was already consumed"
  | ReplayProtectionError_RequestIdConflict => "request ID was already bound to different content"
  | ReplayProtectionError_Repository message => "replay protection failed: " +:+ message
  end.

(** ** The PostgreSQL adapter *)

Section replay.
  Context {P : Platform}.

(** INSERT ... ON CONFLICT (key_id, nonce_digest) DO NOTHING: the checks come
    before the conflict, the foreign keys only when a row is inserted. *)
Definition insert_nonce_sql (key_id : Uuid) (nonce_digest : bytes) (row : NonceRow) (T : Tables) :
  Result PostgresError (Z * Tables) :=
  require (octet_length nonce_digest =? 32)%Z (check_violation "service_request_nonces_nonce_digest_check");;
  require (octet_length (rn_request_fingerprint row) =? 32)%Z
    (check_violation "service_request_nonces_request_fingerprint_check");;
  require (0 <=? rn_signature_created row)%Z
    (check_violation "service_request_nonces_signature_created_check");;
  require (0 <=? rn_reserved_at row)%Z (check_violation "service_request_nonces_reserved_at_check");;
  require (rn_signature_created row <? rn_signature_expires row)%Z
    (check_violation "service_request_nonces_check");;
  match request_nonces T !! (key_id, nonce_digest) with
  | Some _ => Ok (0%Z, T)
  | None =>
      references (service_instance_keys T) key_id "service_request_nonces_key_id_fkey";;
      references (identities T) (rn_service_id row) "service_request_nonces_service_id_fkey";;
      references (service_instances T) (rn_instance_id row) "service_request_nonces_instance_id_fkey";;
      Ok (1%Z, with_request_nonces (<[(key_id, nonce_digest) := row]> (request_nonces T)) T)
  end.

Definition insert_request_id_sql (service_id request_id : Uuid) (fingerprint : bytes)
  (first_seen_at : Z) (T : Tables) : Result PostgresError (Z * Tables) :=
  require (octet_length fingerprint =? 32)%Z
    (check_violation "service_request_ids_request_fingerprint_check");;
  require (0 <=? first_seen_at)%Z (check_violation "service_request_ids_first_seen_at_check");;
  match request_ids T !! (service_id, request_id) with
  | Some _ => Ok (0%Z, T)
  | None =>
      references (identities T) service_id "service_request_ids_service_id_fkey";;
      Ok (1%Z, with_request_ids
        (<[(service_id, request_id) := MkRequestIdRow fingerprint first_seen_at]> (request_ids T)) T)
  end.

Definition select_fingerprint_sql (service_id request_id : Uuid) (T : Tables) :
  Result PostgresError (bytes * Tables) :=
  match request_ids T !! (service_id, request_id) with
  | Some row => Ok (ri_request_fingerprint row, T)
  | None => Err (IoError "query returned an unexpected number of rows")
  end.

Definition insert_replay_audit_sql (row : ReplayAuditRow) (T : Tables) :
  Result PostgresError (Z * Tables) :=
  require (octet_length (ra_nonce_digest row) =? 32)%Z
    (check_violation "service_request_replay_audit_nonce_digest_check");;
  require (octet_length (ra_request_fingerprint row) =? 32)%Z
    (check_violation "service_request_replay_audit_request_fingerprint_check");;
  require (bool_decide (ra_outcome row ∈ ["fresh"; "safe_retry"; "replay_rejected"; "request_conflict_rejected"]))
    (check_violation "service_request_replay_audit_outcome_check");;
  require (0 <=? ra_recorded_at row)%Z (check_violation "service_request_replay_audit_recorded_at_check");;
  Ok (1%Z, with_replay_audit (replay_audit T ++ [row]) T).

Definition replay_repository_error (message : string) : ReplayProtectionError :=
  ReplayProtectionError_Repository message.
Definition replay_query_error (e : PostgresError) : ReplayProtectionError :=
  replay_repository_error (postgres_error_text e).

Definition nonce_row (r : ReplayReservation) : NonceRow :=
  MkNonceRow (ActorId_as_uuid (reservation_service_id r))
    (InstanceId_as_uuid (reservation_instance_id r)) (reservation_request_id r)
    (reservation_request_fingerprint r) (reservation_signature_created r)
    (reservation_signature_expires r) (reservation_reserved_at r).

Definition replay_audit_row (r : ReplayReservation) (outcome : string) : ReplayAuditRow :=
  MkReplayAuditRow (ActorId_as_uuid (reservation_service_id r))
    (InstanceId_as_uuid (reservation_instance_id r)) (KeyId_as_uuid (reservation_key_id r))
    (reservation_request_id r) (reservation_nonce_digest r) (reservation_request_fingerprint r)
    outcome (reservation_reserved_at r).

Definition append_replay_audit (r : ReplayReservation) (outcome : string) :
  Db Tables ReplayProtectionError unit :=
  execute replay_query_error (insert_replay_audit_sql (replay_audit_row r outcome));;
  mret tt.

Definition PostgresReplayProtection_reserve (r : ReplayReservation) :
  Db Tables ReplayProtectionError ReplayDisposition :=
  connection replay_repository_error;;
  transaction replay_query_error;;
  nonce_rows ← execute replay_query_error
    (insert_nonce_sql (KeyId_as_uuid (reservation_key_id r)) (reservation_nonce_digest r) (nonce_row r));
  if (nonce_rows =? 0)%Z
  then
    append_replay_audit r "replay_rejected";;
    commit replay_query_error;;
    throw ReplayProtectionError_ReplayDetected
  else if negb (nonce_rows =? 1)%Z
  then throw (ReplayProtectionError_Repository
                ("nonce reservation changed " +:+ show_i64 nonce_rows +:+ " rows"))
  else
    request_rows ← execute replay_query_error
      (insert_request_id_sql (ActorId_as_uuid (reservation_service_id r)) (reservation_request_id r)
        (reservation_request_fingerprint r) (reservation_reserved_at r));
    stored_fingerprint ← execute replay_query_error
      (select_fingerprint_sql (ActorId_as_uuid (reservation_service_id r)) (reservation_request_id r));
    if negb (String.eqb stored_fingerprint (reservation_request_fingerprint r))
    then
      append_replay_audit r "request_conflict_rejected";;
      commit replay_query_error;;
      throw ReplayProtectionError_RequestIdConflict
    else
      disposition ← (if (request_rows =? 1)%Z then mret ReplayDisposition_Fresh
                     else if (request_rows =? 0)%Z then mret ReplayDisposition_SafeRetry
                     else throw (ReplayProtectionError_Repository
                                   ("request ID reservation changed " +:+ show_i64 request_rows
                                    +:+ " rows")));
      let outcome := match disposition with
                     | ReplayDisposition_Fresh => "fresh"
                     | ReplayDisposition_SafeRetry => "safe_retry"
                     end in
      append_replay_audit r outcome;;
      commit replay_query_error;;
      mret disposition.

Definition PostgresReplayProtection : ReplayProtectionRepository Tables := {|
  replay_reserve := PostgresReplayProtection_reserve |}.
End replay.

(** ** What a reservation means

    The outcome and the effect of a reservation as a function of the tables; the
    adapter refines it. *)

Definition nonce_key (r : ReplayReservation) : Uuid * bytes :=
  (KeyId_as_uuid (reservation_key_id r), reservation_nonce_digest r).
Definition request_key (r : ReplayReservation) : Uuid * Uuid :=
  (ActorId_as_uuid (reservation_service_id r), reservation_request_id r).

Definition replay_outcome (T : Tables) (r : ReplayReservation) :
  Result ReplayProtectionError ReplayDisposition :=
  match request_nonces T !! nonce_key r, request_ids T !! request_key r with
  | Some _, _ => Err ReplayProtectionError_ReplayDetected
  | None, None => Ok ReplayDisposition_Fresh
  | None, Some row =>
      if bool_decide (ri_request_fingerprint row = reservation_request_fingerprint r)
      then Ok ReplayDisposition_SafeRetry
      else Err ReplayProtectionError_RequestIdConflict
  end.

Definition outcome_name (o : Result ReplayProtectionError ReplayDisposition) : string :=
  match o with
  | Ok ReplayDisposition_Fresh => "fresh"
  | Ok ReplayDisposition_SafeRetry => "safe_retry"
  | Err ReplayProtectionError_ReplayDetected => "replay_rejected"
  | Err _ => "request_conflict_rejected"
  end.

Definition replay_effect (T : Tables) (r : ReplayReservation) : Tables :=
  let o := replay_outcome T r in
  with_replay_audit (replay_audit T ++ [replay_audit_row r (outcome_name o)])
    match o with
    | Err ReplayProtectionError_ReplayDetected => T
    | _ =>
        let T := with_request_nonces (<[nonce_key r := nonce_row r]> (request_nonces T)) T in
        match o with
        | Ok ReplayDisposition_Fresh =>
            with_request_ids
              (<[request_key r := MkRequestIdRow (reservation_request_fingerprint r)
                                    (reservation_reserved_at r)]> (request_ids T)) T
        | _ => T
        end
    end.

(** What verification has established about a reservation *)
Record reservation_wf (T : Tables) (r : ReplayReservation) : Prop := {
  wf_nonce : String.length (reservation_nonce_digest r) = 32;
  wf_fingerprint : String.length (reservation_request_fingerprint r) = 32;
  wf_created : (0 <= reservation_signature_created r < reservation_signature_expires r)%Z;
  wf_reserved : (0 <= reservation_reserved_at r)%Z;
  wf_key : is_Some (service_instance_keys T !! KeyId_as_uuid (reservation_key_id r));
  wf_service : is_Some (identities T !! ActorId_as_uuid (reservation_service_id r));
  wf_instance : is_Some (service_instances T !! InstanceId_as_uuid (reservation_instance_id r));
}.

(** The append-only part of the tables *)
Definition replay_history (T T' : Tables) : Prop :=
  request_nonces T ⊆ request_nonces T' /\ request_ids T ⊆ request_ids T'.

#[export] Instance replay_history_preorder : PreOrder replay_history.
Proof.
  split; [done|]. intros T1 T2 T3 [? ?] [? ?]. split; by etrans.
Qed.

Definition is_replay_repository (e : ReplayProtectionError) : Prop :=
  match e with ReplayProtectionError_Repository _ => True | _ => False end.

(** Reservations one after another, each under its own faults, with any other
    operations of the system in between: those cannot remove a row, which the
    triggers of migration 0006 reject. *)
Inductive replay_run {P : Platform} : Tables ->
  list (ReplayReservation * Result ReplayProtectionError ReplayDisposition) -> Tables -> Prop :=
| replay_run_nil T : replay_run T [] T
| replay_run_other T T' l T'' :
    replay_history T T' -> replay_run T' l T'' -> replay_run T l T''
| replay_run_reserve T fs ns r o c l T'' :
    PostgresReplayProtection_reserve r (start T fs ns) = (o, c) ->
    replay_run (durable c) l T'' -> replay_run T ((r, o) :: l) T''.

(** The nonces for which a reservation reported success *)
Definition accepted_nonces
  (l : list (ReplayReservation * Result ReplayProtectionError ReplayDisposition)) :
  list (Uuid * bytes) :=
  omap (fun ro => match ro.2 with Ok _ => Some (nonce_key ro.1) | Err _ => None end) l.

Section theory.
Context {P : Platform}.

Lemma insert_nonce_history k n row T a T' :
  insert_nonce_sql k n row T = Ok (a, T') -> replay_history T T'.
Proof.
  unfold insert_nonce_sql. intros H. result_inv.
  destruct (request_nonces T !! (k, n)) eqn:Hn; result_inv; [done|].
  split; [by apply insert_subseteq | done].
Qed.

Lemma insert_request_id_history s i f t T a T' :
  insert_request_id_sql s i f t T = Ok (a, T') -> replay_history T T'.
Proof.
  unfold insert_request_id_sql. intros H. result_inv.
  destruct (request_ids T !! (s, i)) eqn:Hn; result_inv; [done|].
  split; [done | by apply insert_subseteq].
Qed.

Lemma insert_replay_audit_history row T a T' :
  insert_replay_audit_sql row T = Ok (a, T') -> replay_history T T'.
Proof. unfold insert_replay_audit_sql. intros H. by result_inv. Qed.

Lemma select_fingerprint_history s i T a T' :
  select_fingerprint_sql s i T = Ok (a, T') -> replay_history T T'.
Proof. unfold select_fingerprint_sql. intros H. destruct (_ !! _); by result_inv. Qed.

Lemma reserve_history r : history replay_history (PostgresReplayProtection_reserve r).
Proof.
  unfold PostgresReplayProtection_reserve, append_replay_audit.
  db_walk; eauto using insert_nonce_history, insert_request_id_history,
    insert_replay_audit_history, select_fingerprint_history.
Qed.

Lemma insert_nonce_Ok k n row T a T' :
  insert_nonce_sql k n row T = Ok (a, T') ->
  (a = 0%Z /\ T' = T /\ is_Some (request_nonces T !! (k, n))) \/
  (a = 1%Z /\ request_nonces T !! (k, n) = None /\
   T' = with_request_nonces (<[(k, n) := row]> (request_nonces T)) T).
Proof.
  unfold insert_nonce_sql. intros H. result_inv.
  destruct (request_nonces T !! (k, n)) eqn:Hn; result_inv; [left | right]; by rewrite ?Hn.
Qed.

Lemma insert_request_id_Ok s i f t T a T' :
  insert_request_id_sql s i f t T = Ok (a, T') ->
  (a = 0%Z /\ T' = T /\ is_Some (request_ids T !! (s, i))) \/
  (a = 1%Z /\ request_ids T !! (s, i) = None /\
   T' = with_request_ids (<[(s, i) := MkRequestIdRow f t]> (request_ids T)) T).
Proof.
  unfold insert_request_id_sql. intros H. result_inv.
  destruct (request_ids T !! (s, i)) eqn:Hn; result_inv; [left | right]; by rewrite ?Hn.
Qed.

Lemma select_fingerprint_Ok s i T f T' :
  select_fingerprint_sql s i T = Ok (f, T') ->
  T' = T /\ exists row, request_ids T !! (s, i) = Some row /\ f = ri_request_fingerprint row.
Proof.
  unfold select_fingerprint_sql. intros H. destruct (request_ids T !! (s, i)) eqn:Hr; result_inv.
  eauto.
Qed.

Lemma insert_replay_audit_Ok row T a T' :
  insert_replay_audit_sql row T = Ok (a, T') -> T' = with_replay_audit (replay_audit T ++ [row]) T.
Proof. unfold insert_replay_audit_sql. intros H. by result_inv. Qed.

Lemma reserve_success r c d c' :
  PostgresReplayProtection_reserve r c = (Ok d, c') ->
  request_nonces (durable c) !! nonce_key r = None /\
  is_Some (request_nonces (durable c') !! nonce_key r) /\
  (exists row, request_ids (durable c') !! request_key r = Some row /\
     ri_request_fingerprint row = reservation_request_fingerprint r) /\
  (d = ReplayDisposition_Fresh <-> request_ids (durable c) !! request_key r = None).
Proof.
  unfold PostgresReplayProtection_reserve, append_replay_audit. intros H.
  unfold nonce_key, request_key. db_inv; repeat match goal with
  | H : insert_nonce_sql _ _ _ _ = Ok _ |- _ => apply insert_nonce_Ok in H
  | H : insert_request_id_sql _ _ _ _ _ = Ok _ |- _ => apply insert_request_id_Ok in H
  | H : select_fingerprint_sql _ _ _ = Ok _ |- _ => apply select_fingerprint_Ok in H
  | H : insert_replay_audit_sql _ _ = Ok _ |- _ => apply insert_replay_audit_Ok in H
  | H : negb (String.eqb _ _) = false |- _ => apply negb_false_iff, String.eqb_eq in H
  end; destruct_or?; destruct_and?; simplify_eq/=;
    try match goal with H : exists _, _ |- _ => destruct H as (row & ? & ?) end;
    destruct_and?; simplify_eq/=; try done; resolve_tables; simpl in *;
    (split_and!; [done | by rewrite lookup_insert_eq | eauto | ]).
  - done.
  - split; [done|]. intros Hn. simplify_map_eq.
Qed.

Lemma replay_run_history T l T' : replay_run T l T' -> replay_history T T'.
Proof.
  induction 1 as [| |T fs ns r o c l T'' Hr _ IH]; [done | by etrans|].
  etrans; [|exact IH]. pose proof (reserve_history r (start T fs ns)) as H.
  by rewrite Hr in H.
Qed.

Lemma nonce_stays T l T' k :
  replay_run T l T' -> is_Some (request_nonces T !! k) -> k ∉ accepted_nonces l.
Proof.
  intros Hrun. revert k.
  induction Hrun as [T|T T1 l T2 [Hh _] Hrun IH|T fs ns r o c l T2 Hr Hrun IH]; intros k [row Hk].
  - apply not_elem_of_nil.
  - apply IH. exists row. by eapply lookup_weaken.
  - pose proof (reserve_history r (start T fs ns)) as [Hh _].
    rewrite Hr in Hh. simpl in Hh.
    assert (k ∉ accepted_nonces l) as Hl.
    { apply IH. exists row. by eapply lookup_weaken. }
    unfold accepted_nonces in *. destruct o as [d|e]; simpl; [|done].
    apply not_elem_of_cons. split; [|done]. intros ->.
    apply reserve_success in Hr as [Hn _]. simpl in Hn. congruence.
Qed.

(** C14: A nonce is consumed at most once: in any sequence of reservations, each
    under any faults of the database and with any other operations in between,
    no (key, nonce) pair is reported as accepted twice. *)
Theorem nonce_accepted_once T l T' :
  replay_run T l T' -> NoDup (accepted_nonces l).
Proof.
  induction 1 as [T|T T1 l T2 _ _ IH|T fs ns r o c l T2 Hr Hrun IH]; [constructor | done |].
  unfold accepted_nonces in *. destruct o as [d|e]; simpl; [|done].
  constructor; [|done].
  apply (nonce_stays _ _ _ _ Hrun). by apply reserve_success in Hr as (_ & Hn & _).
Qed.

(** A request id is bound to one content: all accepted reservations of one
    (service, request id), under any faults and interleaved with any other
    operations, carry the same fingerprint. *)
Theorem request_id_bound_once T l T' r1 d1 r2 d2 :
  replay_run T l T' -> (r1, Ok d1) ∈ l -> (r2, Ok d2) ∈ l ->
  request_key r1 = request_key r2 ->
  reservation_request_fingerprint r1 = reservation_request_fingerprint r2.
Proof.
  intros Hrun H1 H2 Hk.
  assert (forall r d, (r, Ok d) ∈ l -> exists row,
    request_ids T' !! request_key r = Some row /\
    ri_request_fingerprint row = reservation_request_fingerprint r) as Hbound.
  { clear H1 H2 Hk. induction Hrun as [T|T T1 l T2 _ _ IH|T fs ns r o c l T2 Hr Hrun IH];
      intros r' d' Hin; [by apply elem_of_nil in Hin | by eapply IH|].
    apply elem_of_cons in Hin as [[= -> <-]|Hin]; [|by eapply IH].
    apply reserve_success in Hr as (_ & _ & (row & Hrow & Hf) & _).
    exists row. split; [|done]. eapply lookup_weaken; [exact Hrow|].
    by apply (replay_run_history _ _ _ Hrun). }
  destruct (Hbound _ _ H1) as (row1 & Hr1 & <-), (Hbound _ _ H2) as (row2 & Hr2 & <-).
  congruence.
Qed.

(** A reservation is all or nothing: under any schedule of faults the
    caller sees the faultless answer and tables, or a repository error with the
    tables either untouched or exactly those of the faultless run. *)
Theorem reserve_atomic r : atomic is_replay_repository (PostgresReplayProtection_reserve r).
Proof.
  unfold PostgresReplayProtection_reserve, append_replay_audit. db_walk.
Qed.

Lemma insert_nonce_run T r :
  reservation_wf T r ->
  insert_nonce_sql (KeyId_as_uuid (reservation_key_id r)) (reservation_nonce_digest r)
    (nonce_row r) T =
  match request_nonces T !! nonce_key r with
  | Some _ => Ok (0%Z, T)
  | None => Ok (1%Z, with_request_nonces (<[nonce_key r := nonce_row r]> (request_nonces T)) T)
  end.
Proof.
  intros [Hn Hf Hc Hr Hk Hs Hi]. unfold insert_nonce_sql, nonce_key. simpl.
  apply octet_length_32 in Hn, Hf. rewrite Hn, Hf. simpl.
  rewrite (proj2 (Z.leb_le 0 _)), (proj2 (Z.leb_le 0 _)), (proj2 (Z.ltb_lt _ _)) by lia. simpl.
  unfold references. by rewrite !bool_decide_true.
Qed.

Lemma insert_request_id_run T r :
  reservation_wf T r ->
  insert_request_id_sql (ActorId_as_uuid (reservation_service_id r)) (reservation_request_id r)
    (reservation_request_fingerprint r) (reservation_reserved_at r) T =
  match request_ids T !! request_key r with
  | Some _ => Ok (0%Z, T)
  | None => Ok (1%Z, with_request_ids
      (<[request_key r := MkRequestIdRow (reservation_request_fingerprint r)
                            (reservation_reserved_at r)]> (request_ids T)) T)
  end.
Proof.
  intros [Hn Hf Hc Hr Hk Hs Hi]. unfold insert_request_id_sql, request_key.
  apply octet_length_32 in Hf. rewrite Hf. simpl.
  rewrite (proj2 (Z.leb_le 0 _)) by lia. simpl. unfold references. by rewrite !bool_decide_true.
Qed.

Lemma append_replay_audit_run T r outcome d ns :
  String.length (reservation_nonce_digest r) = 32 ->
  String.length (reservation_request_fingerprint r) = 32 ->
  (0 <= reservation_reserved_at r)%Z ->
  outcome ∈ ["fresh"; "safe_retry"; "replay_rejected"; "request_conflict_rejected"] ->
  append_replay_audit r outcome (MkConn d T [] ns) =
    (Ok tt, MkConn d (with_replay_audit (replay_audit T ++ [replay_audit_row r outcome]) T) [] ns).
Proof.
  intros Hn Hf Hr Ho. unfold append_replay_audit. rewrite bind_run.
  apply octet_length_32 in Hn, Hf.
  erewrite execute_run; [done|]. unfold insert_replay_audit_sql. simpl.
  rewrite Hn, Hf, (proj2 (Z.leb_le 0 _)), bool_decide_true by (done || lia). done.
Qed.

Lemma reservation_wf_nonces T r m :
  reservation_wf T r -> reservation_wf (with_request_nonces m T) r.
Proof. by intros []. Qed.

Ltac append_run :=
  db_run; rewrite append_replay_audit_run by (done || set_solver); done.

Lemma reserve_run T r ns :
  reservation_wf T r ->
  PostgresReplayProtection_reserve r (start T [] ns) =
    (replay_outcome T r, start (replay_effect T r) [] ns).
Proof.
  intros Hwf. pose proof Hwf as [Hn Hf _ Hr _ _ _].
  unfold PostgresReplayProtection_reserve, replay_effect, replay_outcome, start.
  pose proof (insert_nonce_run T r Hwf) as Hnonce.
  destruct (request_nonces T !! nonce_key r) as [n|] eqn:En; db_run; simpl.
  { append_run. }
  set (T1 := with_request_nonces _ T) in *.
  pose proof (insert_request_id_run T1 r (reservation_wf_nonces _ _ _ Hwf)) as Hid.
  change (request_ids T1) with (request_ids T) in Hid.
  destruct (request_ids T !! request_key r) as [row|] eqn:Er; db_run; simpl.
  - rewrite (execute_run _ _ _ _ _ (ri_request_fingerprint row) T1)
      by (unfold select_fingerprint_sql; unfold request_key in Er; simpl; by rewrite Er).
    case_bool_decide as Hfp; [rewrite Hfp, String.eqb_refl | rewrite (proj2 (String.eqb_neq _ _) Hfp)];
      simpl; append_run.
  - erewrite (execute_run _ _ _ _ _ (reservation_request_fingerprint r));
      [|unfold select_fingerprint_sql, request_key; simpl; by rewrite lookup_insert_eq].
    rewrite String.eqb_refl. simpl. append_run.
Qed.

(** C36: Replay protection refines its specification: for a reservation that
    verification produced, a faultless run answers fresh, safe retry, replay or
    conflict exactly as the stored nonces and bindings say, and changes the
    tables by exactly the specified rows, the audit row of a rejection included. *)
Theorem reserve_refines T r ns :
  reservation_wf T r ->
  PostgresReplayProtection_reserve r (start T [] ns) =
    (replay_outcome T r, start (replay_effect T r) [] ns).
Proof. apply reserve_run. Qed.
End theory.
