(* ===== verification/Admission.v ===== *)
(** * Admission: default-deny communication state

    [src/kernel/admission.rs] and
    [src/infrastructure/postgres_admission_repository.rs]. The kernel only reads
    the records of migration 0007. *)

From S2P Require Import Prelude Text Platform Database Schema Identity.

Record CommunicationAdmission := MkCommunicationAdmission {
  admission_service_id : ActorId;
  admission_enabled : bool;
  admission_revision : Z;
  admission_updated_at : Z;
}.

Inductive AdmissionError :=
| AdmissionError_Disabled (id : ActorId)
| AdmissionError_InvalidStoredRecord
| AdmissionError_Repository (message : string)
| AdmissionError_UnknownService (id : ActorId).

#[export] Instance AdmissionError_eq_dec : EqDecision AdmissionError.
Proof. solve_decision. Defined.

Definition CommunicationAdmission_restore (service_id : ActorId) (enabled : bool)
  (revision updated_at : Z) : Result AdmissionError CommunicationAdmission :=
  if (revision <? 0)%Z || (updated_at <? 0)%Z then Err AdmissionError_InvalidStoredRecord
  else Ok (MkCommunicationAdmission service_id enabled revision updated_at).

Record AdmissionRepository (S : Type) := MkAdmissionRepository {
  admission_repository_find : ActorId -> Db S AdmissionError (option CommunicationAdmission);
}.
Arguments admission_repository_find {S}.

Definition AdmissionService_require_enabled {S} (R : AdmissionRepository S) (service_id : ActorId) :
  Db S AdmissionError CommunicationAdmission :=
  found ← admission_repository_find R service_id;
  admission ← lift (ok_or (AdmissionError_UnknownService service_id) found);
  if negb (admission_enabled admission) then throw (AdmissionError_Disabled service_id)
  else mret admission.

Section admission.
  Context {P : Platform}.

Definition AdmissionError_to_string (e : AdmissionError) : string :=
  match e with
  | AdmissionError_Disabled id => "communication is disabled for service " +:+ ActorId_to_string id
  | AdmissionError_InvalidStoredRecord => "stored communication admission is invalid"
  | AdmissionError_Repository message => "admission check failed: " +:+ message
  | AdmissionError_UnknownService id =>
      "service identity " +:+ ActorId_to_string id +:+ " was not found"
  end.

Definition admission_repository_error (message : string) : AdmissionError :=
  AdmissionError_Repository message.
Definition admission_query_error (e : PostgresError) : AdmissionError :=
  admission_repository_error (postgres_error_text e).

Definition find_admission_sql (service_id : Uuid) (T : Tables) : option (string * AdmissionRow) :=
  row ← admission T !! service_id; Some (uuid_print service_id, row).

Definition admission_from_row (row : string * AdmissionRow) :
  Result AdmissionError CommunicationAdmission :=
  let '(id, row) := row in
  stored_id ← result_map_err (fun error => AdmissionError_Repository (IdentityError_to_string error))
    (ActorId_from_str id);
  CommunicationAdmission_restore stored_id (adm_communication_enabled row) (adm_revision row)
    (adm_updated_at row).

Definition PostgresAdmissionRepository_find (service_id : ActorId) :
  Db Tables AdmissionError (option CommunicationAdmission) :=
  connection admission_repository_error;;
  row ← query admission_query_error (find_admission_sql (ActorId_as_uuid service_id));
  match row with
  | None => mret None
  | Some row => admission ← lift (admission_from_row row); mret (Some admission)
  end.

Definition PostgresAdmissionRepository : AdmissionRepository Tables := {|
  admission_repository_find := PostgresAdmissionRepository_find |}.

Context {HP : PlatformLaws P}.

Lemma ActorId_from_to_string id : ActorId_from_str (ActorId_to_string id) = Ok id.
Proof. destruct id. unfold ActorId_from_str, ActorId_to_string. by rewrite uuid_parse_print. Qed.

(** A service passes the check only when its stored record says so. *)
Lemma require_enabled_stored id c a c' :
  AdmissionService_require_enabled PostgresAdmissionRepository id c = (Ok a, c') ->
  durable c' = durable c /\
  exists row, admission (durable c) !! ActorId_as_uuid id = Some row /\
    adm_communication_enabled row = true /\ admission_revision a = adm_revision row.
Proof.
  unfold AdmissionService_require_enabled. simpl. unfold PostgresAdmissionRepository_find.
  intros H. db_inv.
  unfold find_admission_sql in *.
  destruct (admission _ !! _) as [row|] eqn:Hrow; simpl in *; db_inv; simplify_eq/=.
  split; [done|]. exists row. split; [done|].
  unfold CommunicationAdmission_restore in *. db_inv. simpl in *.
  split; [|done]. by apply negb_false_iff.
Qed.
End admission.
