(* ===== verification/RequestGate.v ===== *)
(** * RequestGate: signature, then replay, then admission

    [src/kernel/request_gate.rs]: the ordered, fail-closed boundary every
    governed request crosses. The three stages are the interfaces the gate is
    generic over. *)

From S2P Require Import Prelude Text Platform Database Schema Identity InstanceKeys.
From S2P Require Import InstanceRegistry ServiceRequests ReplayProtection Admission.

(** [trait SignatureVerification] *)
Class SignatureVerification (S V : Type) :=
  verify_signature : V -> SignedServiceRequest -> Z ->
    Db S ServiceRequestAuthenticationError VerifiedServiceRequest.

(** [trait ReplayReservation] *)
Class ReplayReserver (S R : Type) :=
  reserve_replay : R -> VerifiedServiceRequest -> Z -> Db S ReplayProtectionError ReplayDisposition.

(** [trait CommunicationAdmissionCheck] *)
Class CommunicationAdmissionCheck (S A : Type) :=
  require_communication : A -> ActorId -> Db S AdmissionError Z.

#[export] Instance verifier_signatures {P : Platform} {S R} `{EligibleInstanceResolver S R} :
  SignatureVerification S R := ServiceRequestVerifier_verify.

#[export] Instance service_replay {S} : ReplayReserver S (ReplayProtectionRepository S) :=
  ReplayProtectionService_protect.

#[export] Instance service_admission {S} : CommunicationAdmissionCheck S (AdmissionRepository S) :=
  fun service id =>
    admission ← AdmissionService_require_enabled service id;
    mret (admission_revision admission).

Record AdmittedServiceRequest := MkAdmittedServiceRequest {
  admitted_verified : VerifiedServiceRequest;
  admitted_replay_disposition : ReplayDisposition;
  admitted_admission_revision : Z;
}.

Inductive ServiceRequestGateError :=
| GateError_Admission (error : AdmissionError)
| GateError_Replay (error : ReplayProtectionError)
| GateError_Signature (error : ServiceRequestAuthenticationError).

Record ServiceRequestGate (V R A : Type) := MkServiceRequestGate {
  gate_signatures : V;
  gate_replay : R;
  gate_admission : A;
}.
Arguments gate_signatures {V R A}.
Arguments gate_replay {V R A}.
Arguments gate_admission {V R A}.

Definition ServiceRequestGate_admit {S V R A} `{SignatureVerification S V, ReplayReserver S R,
    CommunicationAdmissionCheck S A} (gate : ServiceRequestGate V R A)
  (request : SignedServiceRequest) (now : Z) : Db S ServiceRequestGateError AdmittedServiceRequest :=
  verified ← map_err GateError_Signature (verify_signature (gate_signatures gate) request now);
  replay_disposition ← map_err GateError_Replay (reserve_replay (gate_replay gate) verified now);
  admission_revision ← map_err GateError_Admission
    (require_communication (gate_admission gate) (verified_service_id verified));
  mret (MkAdmittedServiceRequest verified replay_disposition admission_revision).

Definition GateError_to_string {P : Platform} (e : ServiceRequestGateError) : string :=
  match e with
  | GateError_Admission error => AdmissionError_to_string error
  | GateError_Replay error => ReplayProtectionError_to_string error
  | GateError_Signature error => Authentication_to_string error
  end.

(** The gate of the deployed kernel: registry, replay and admission in PostgreSQL *)
Definition kernel_gate {P : Platform} (policy : LeasePolicy) :
  ServiceRequestGate (InstanceRegistryService Tables) (ReplayProtectionRepository Tables)
    (AdmissionRepository Tables) :=
  MkServiceRequestGate _ _ _ (MkInstanceRegistryService _ PostgresInstanceRegistry policy)
    PostgresReplayProtection PostgresAdmissionRepository.

Section theory.
Context {P : Platform} {HP : PlatformLaws P}.

Definition any_error {E} (e : E) : Prop := True.

Lemma verify_quiet policy repository request now :
  repository = PostgresInstanceRegistry ->
  quiet (S:=Tables) any_error
    (ServiceRequestVerifier_verify (MkInstanceRegistryService _ repository policy) request now).
Proof.
  intros ->. unfold ServiceRequestVerifier_verify, find_eligible, InstanceRegistryService_resolver,
    InstanceRegistryService_find_eligible. simpl. unfold PostgresInstanceRegistry_find.
  db_walk.
Qed.

Lemma verify_service_id {S R} `{EligibleInstanceResolver S R} (r : R) request now c v c' :
  ServiceRequestVerifier_verify r request now c = (Ok v, c') ->
  verified_service_id v = signed_service_id request.
Proof. unfold ServiceRequestVerifier_verify. intros Hv. by db_inv. Qed.

Lemma verify_instance_id {S R} `{EligibleInstanceResolver S R} (r : R) request now c v c' :
  ServiceRequestVerifier_verify r request now c = (Ok v, c') ->
  verified_instance_id v = signed_instance_id request.
Proof. unfold ServiceRequestVerifier_verify. intros Hv. by db_inv. Qed.

Lemma gate_admitted policy request now (c : Conn Tables) a c' :
  in_i64 now ->
  ServiceRequestGate_admit (kernel_gate policy) request now c = (Ok a, c') ->
  exists i row key_id key adm,
    eligible_stored (durable c) (signed_instance_id request) now i row key_id key /\
    authentic (instance_public_key i) request now (admitted_verified a) /\
    request_nonces (durable c) !! (key_id, verified_nonce_digest (admitted_verified a)) = None /\
    is_Some (request_nonces (durable c') !!
               (key_id, verified_nonce_digest (admitted_verified a))) /\
    admission (durable c') !! si_service_id row = Some adm /\
    adm_communication_enabled adm = true /\
    admitted_admission_revision a = adm_revision adm.
Proof.
  intros Hnow. unfold ServiceRequestGate_admit, verify_signature, verifier_signatures,
    reserve_replay, service_replay, require_communication, service_admission. simpl.
  intros H. db_inv.
  match goal with H : ServiceRequestVerifier_verify _ _ _ _ = _ |- _ =>
    apply verify_authentic in H as (i & Hf & _ & Hauth); [|done] end.
  unfold find_eligible, InstanceRegistryService_resolver in Hf. simpl in Hf.
  apply find_eligible_stored in Hf as (Hd & row & key_id & key & Hs).
  match goal with H : ReplayProtectionService_protect _ _ _ _ = _ |- _ =>
    unfold ReplayProtectionService_protect in H end. db_inv.
  match goal with H : replay_reserve _ _ _ = _ |- _ =>
    simpl in H; apply reserve_success in H as (Hn & Hn' & _) end.
  match goal with H : AdmissionService_require_enabled _ _ _ = _ |- _ =>
    apply require_enabled_stored in H as (Hd' & adm & Ha & He & Hr) end.
  unfold ReplayReservation_from_verified in *. result_inv.
  exists i, row, key_id, key, adm. simpl. unfold nonce_key in *. simpl in *.
  pose proof Hauth as [[Hsv _] _ Hk _ _ _ _ _ _]. rewrite Hk, (eligible_public _ _ _ _ _ _ _ Hs) in *.
  simpl in *. rewrite Hd' in *. rewrite Hsv in Ha. simpl in Ha. rewrite Hd in Hn. auto 10.
Qed.

(** C4: The gate admits a request only when every stage agreed: the request is
    authentic for a stored, unrevoked instance in its lease, its nonce had never
    been consumed and now is, and the stored admission of the source is enabled. *)
Theorem gate_admits_only policy request now (c : Conn Tables) a c' :
  in_i64 now ->
  ServiceRequestGate_admit (kernel_gate policy) request now c = (Ok a, c') ->
  exists i row key_id key adm,
    eligible_stored (durable c) (signed_instance_id request) now i row key_id key /\
    authentic (instance_public_key i) request now (admitted_verified a) /\
    request_nonces (durable c) !! (key_id, verified_nonce_digest (admitted_verified a)) = None /\
    is_Some (request_nonces (durable c') !!
               (key_id, verified_nonce_digest (admitted_verified a))) /\
    admission (durable c') !! si_service_id row = Some adm /\
    adm_communication_enabled adm = true /\
    admitted_admission_revision a = adm_revision adm.
Proof. apply gate_admitted. Qed.

(** The stages run in order and fail closed: a request whose signature is
    rejected changes nothing in the database, whatever faults occur; a request
    stopped by admission has already used up its nonce. *)
Theorem gate_rejections policy request now (c : Conn Tables) e c' :
  ServiceRequestGate_admit (kernel_gate policy) request now c = (Err e, c') ->
  match e with
  | GateError_Signature _ => durable c' = durable c
  | GateError_Admission _ => exists v,
      verified_service_id v = signed_service_id request /\
      is_Some (request_nonces (durable c') !!
                 (KeyId_as_uuid (verified_key_id v), verified_nonce_digest v))
  | GateError_Replay _ => replay_history (durable c) (durable c')
  end.
Proof.
  unfold ServiceRequestGate_admit, verify_signature, verifier_signatures,
    reserve_replay, service_replay, require_communication, service_admission. simpl.
  unfold mbind, db_bind, map_err.
  destruct (ServiceRequestVerifier_verify _ _ _ c) as [rv c1] eqn:Hv.
  assert (durable c1 = durable c) as Hd1.
  { pose proof (verify_quiet policy _ request now eq_refl c) as [Hd _]. by rewrite Hv in Hd. }
  destruct rv as [v|ev]; simpl; [|by intros [= <- <-]].
  destruct (ReplayProtectionService_protect _ _ _ c1) as [rr c2] eqn:Hr.
  assert (replay_history (durable c1) (durable c2)) as Hh.
  { assert (history replay_history (ReplayProtectionService_protect
      PostgresReplayProtection v now)) as Hev.
    { unfold ReplayProtectionService_protect. db_walk. apply reserve_history. }
    specialize (Hev c1). by rewrite Hr in Hev. }
  destruct rr as [d|er]; simpl; [|by intros [= <- <-]; rewrite <-Hd1].
  destruct (AdmissionService_require_enabled _ _ c2) as [ra c3] eqn:Ha.
  assert (durable c3 = durable c2) as Hd3.
  { assert (quiet any_error (AdmissionService_require_enabled PostgresAdmissionRepository
      (verified_service_id v))) as Hq.
    { unfold AdmissionService_require_enabled. simpl. unfold PostgresAdmissionRepository_find.
      db_walk. }
    destruct (Hq c2) as [Hd _]. by rewrite Ha in Hd. }
  destruct ra as [adm|ea]; simpl; [done|]. intros [= <- <-]. exists v.
  apply verify_service_id in Hv. unfold ReplayProtectionService_protect in Hr. db_inv.
  match goal with H : replay_reserve _ _ _ = _ |- _ =>
    simpl in H; apply reserve_success in H as (_ & Hn & _) end.
  unfold ReplayReservation_from_verified in *. result_inv. by split.
Qed.
End theory.
