(* ===== verification/RequestNames.v ===== *)
(** * RequestNames: request and route identifiers, action names

    The part of [src/kernel/requests.rs] that [src/kernel/authority.rs] needs:
    the two modules of the source refer to each other. *)

From S2P Require Import Prelude Text Platform Database Schema Identity.
From stdpp Require Import countable.
From Stdlib Require Import Ascii.

Definition MAX_ACTION_NAME_LENGTH : Z := 200.

Record RequestId := MkRequestId { RequestId_as_uuid : Uuid }.
Record RouteId := MkRouteId { RouteId_as_uuid : Uuid }.

#[export] Instance RequestId_eq_dec : EqDecision RequestId.
Proof. solve_decision. Defined.
#[export] Instance RequestId_countable : Countable RequestId.
Proof. solve_id_countable MkRequestId RequestId_as_uuid. Defined.
#[export] Instance RouteId_eq_dec : EqDecision RouteId.
Proof. solve_decision. Defined.
#[export] Instance RouteId_countable : Countable RouteId.
Proof. solve_id_countable MkRouteId RouteId_as_uuid. Defined.

#[export] Instance MkRouteId_inj : Inj (=) (=) MkRouteId.
Proof. by intros u v [= ->]. Qed.

Inductive RequestError :=
| RequestError_InvalidRequestId
| RequestError_InvalidActionName
| RequestError_InvalidAcceptedAt
| RequestError_InvalidRouteId
| RequestError_RequestIdConflict (id : RequestId)
| RequestError_Repository (message : string)
| RequestError_UnknownSource (id : ActorId)
| RequestError_UnknownSchemaVersion
| RequestError_UnknownSubscription.

#[export] Instance RequestError_eq_dec : EqDecision RequestError.
Proof. solve_decision. Defined.

(** The bytes after the first of a dotted-name segment *)
Definition segment_char (c : ascii) : bool :=
  is_ascii_lowercase c || is_ascii_digit c || is_char "_" c || is_char "-" c.

Definition is_valid_action_segment (segment : string) : bool :=
  match segment with
  | String c rest => is_ascii_lowercase c && all_bytes segment_char rest
  | EmptyString => false
  end.

Definition is_valid_action_name (value : string) : bool :=
  if is_empty value || (MAX_ACTION_NAME_LENGTH <? len value)%Z then false
  else match split_char "." value with
       | namespace :: first_action_segment :: segments =>
           is_valid_action_segment namespace && is_valid_action_segment first_action_segment
           && forallb is_valid_action_segment segments
       | _ => false
       end.

Record ActionName := MkActionName { ActionName_as_str : string }.

#[export] Instance ActionName_eq_dec : EqDecision ActionName.
Proof. solve_decision. Defined.

Definition ActionName_new (value : string) : Result RequestError ActionName :=
  if negb (is_valid_action_name value) then Err RequestError_InvalidActionName
  else Ok (MkActionName value).

(** The CHECKs that migrations 0008 to 0014 put on actions, schema names and
    scopes: 3 to 200 characters, lower case, and at least two dot-separated
    segments of the shape [a-z][a-z0-9_-]*; a scope has no spaces around it. *)
Definition dotted_name_check (value : string) : bool :=
  bool_decide (3 <= chars_count value <= 200)%Z && bool_decide (to_ascii_lowercase value = value)
  && match split_char "." value with
     | _ :: _ :: _ => forallb is_valid_action_segment (split_char "." value)
     | _ => false
     end.

Definition scope_check (value : string) : bool :=
  bool_decide (1 <= chars_count value <= 200)%Z && bool_decide (value = btrim value).

Section names.
  Context {P : Platform}.

Definition RequestId_to_string (id : RequestId) : string := uuid_print (RequestId_as_uuid id).
Definition RequestId_from_str (value : string) : Result RequestError RequestId :=
  match uuid_parse value with
  | Some u => Ok (MkRequestId u)
  | None => Err RequestError_InvalidRequestId
  end.

Definition RouteId_to_string (id : RouteId) : string := uuid_print (RouteId_as_uuid id).
Definition RouteId_from_str (value : string) : Result RequestError RouteId :=
  match uuid_parse value with
  | Some u => Ok (MkRouteId u)
  | None => Err RequestError_InvalidRouteId
  end.

Definition RequestError_to_string (e : RequestError) : string :=
  match e with
  | RequestError_InvalidRequestId => "request ID must be a UUID"
  | RequestError_InvalidActionName =>
      "action must be a canonical dotted lower-case name within the length limit"
  | RequestError_InvalidAcceptedAt => "request acceptance timestamp is invalid"
  | RequestError_InvalidRouteId => "route ID must be a UUID"
  | RequestError_RequestIdConflict id =>
      "request ID " +:+ RequestId_to_string id +:+ " is bound to different content"
  | RequestError_Repository message => "request repository failed: " +:+ message
  | RequestError_UnknownSource id =>
      "source service identity " +:+ ActorId_to_string id +:+ " was not found"
  | RequestError_UnknownSchemaVersion => "referenced schema version was not found"
  | RequestError_UnknownSubscription => "referenced subscription was not found"
  end.
End names.

(** ** The alphabet of dotted names *)

(** A byte of a dotted name is printable and not an upper-case letter. *)
Lemma name_byte_facts c :
  segment_char c || is_char c "." = true -> is_graphic c = true /\ is_ascii_uppercase c = false.
Proof.
  unfold segment_char, is_ascii_lowercase, is_ascii_digit, is_char, is_graphic, is_ascii_uppercase.
  rewrite !orb_true_iff, !in_range_spec, in_range_false, !Ascii.eqb_eq.
  intros [[[[?|?]|<-]|<-]| ->]; (split; [|]); try lia; vm_compute; intuition congruence.
Qed.

Lemma segments_bytes value :
  forallb is_valid_action_segment (split_char "." value) = true ->
  all_bytes (fun c => segment_char c || is_char c ".") value = true.
Proof.
  intros H. apply split_char_all. apply forallb_forall. intros [|c p] Hin; [done|].
  rewrite forallb_forall in H. specialize (H _ Hin). simpl in *.
  apply andb_true_iff in H as [Hc ->]. unfold segment_char. by rewrite Hc.
Qed.

Lemma lowercase_id value :
  all_bytes (fun c => segment_char c || is_char c ".") value = true ->
  to_ascii_lowercase value = value.
Proof.
  induction value as [|c value IH]; [done|]. cbn [all_bytes to_ascii_lowercase].
  intros [Hc Hv]%andb_true_iff. unfold ascii_lowercase.
  destruct (name_byte_facts c Hc) as [_ ->]. by rewrite IH.
Qed.

(** What a valid action name looks like *)
Lemma valid_action_name_facts value :
  is_valid_action_name value = true ->
  is_empty value = false /\ (len value <= MAX_ACTION_NAME_LENGTH)%Z /\
  forallb is_valid_action_segment (split_char "." value) = true /\
  all_bytes is_graphic value = true /\ to_ascii_lowercase value = value /\
  exists a b rest, split_char "." value = a :: b :: rest.
Proof.
  unfold is_valid_action_name. intros Hv.
  destruct (is_empty value || (MAX_ACTION_NAME_LENGTH <? len value)%Z) eqn:Hl; [done|].
  apply orb_false_iff in Hl as [He Hl]. apply Z.ltb_ge in Hl.
  assert (exists a b rest, split_char "." value = a :: b :: rest) as (a & b & rest & Hsplit)
    by (destruct (split_char "." value) as [|? [|? ?]]; eauto; done).
  assert (forallb is_valid_action_segment (split_char "." value) = true) as Hseg
    by (rewrite Hsplit in *; simpl; by rewrite andb_assoc).
  pose proof (segments_bytes _ Hseg) as Hbytes.
  split_and!; try done; [|by apply lowercase_id | by exists a, b, rest].
  eapply all_bytes_mono; [|exact Hbytes]. intros c Hc. by apply name_byte_facts.
Qed.

(** The table's check accepts every valid action name. *)
Lemma valid_action_name_check value :
  is_valid_action_name value = true -> dotted_name_check value = true.
Proof.
  intros (_ & Hl & Hseg & Hg & Hlow & a & b & rest & Hsplit)%valid_action_name_facts.
  unfold dotted_name_check. rewrite Hsplit, <-Hsplit, Hseg, andb_true_r, andb_true_iff,
    !bool_decide_eq_true, chars_count_graphic by done.
  unfold MAX_ACTION_NAME_LENGTH in Hl. unfold len in *. apply split_char_two_length in Hsplit as Hlen.
  rewrite Hsplit in Hseg. simpl in Hseg.
  destruct a as [|? a]; [done|]. destruct b as [|? b]; [by rewrite andb_false_r in Hseg|].
  simpl in Hlen. split; [lia | done].
Qed.
