(* ===== verification/Authority.v ===== *)
(** * Authority: facts, grants, schema versions and pinned decisions

    [src/kernel/authority.rs]: the facts of the two decision points, grants and
    what they permit, published schema versions, and the service that asks a
    policy evaluator for a verdict and records it before answering. *)

From S2P Require Import Prelude Text Platform Database Identity RequestNames.
From stdpp Require Import countable.
From Stdlib Require Import Ascii.

Definition MAX_SCOPE_LENGTH : Z := 200.
Definition MAX_POLICY_BUNDLE_VERSION_LENGTH : Z := 200.
Definition MAX_SCHEMA_NAME_LENGTH : Z := 200.

Record GrantId := MkGrantId { GrantId_as_uuid : Uuid }.
Record SchemaVersionId := MkSchemaVersionId { SchemaVersionId_as_uuid : Uuid }.
Record DecisionId := MkDecisionId { DecisionId_as_uuid : Uuid }.
Record Scope := MkScope { Scope_as_str : string }.
Record PolicyBundleVersion := MkPolicyBundleVersion { PolicyBundleVersion_as_str : string }.
Record SchemaName := MkSchemaName { SchemaName_as_str : string }.
Record ContentDigest := MkContentDigest { ContentDigest_as_bytes : bytes }.

#[export] Instance GrantId_eq_dec : EqDecision GrantId.
Proof. solve_decision. Defined.
#[export] Instance SchemaVersionId_eq_dec : EqDecision SchemaVersionId.
Proof. solve_decision. Defined.
#[export] Instance DecisionId_eq_dec : EqDecision DecisionId.
Proof. solve_decision. Defined.
#[export] Instance Scope_eq_dec : EqDecision Scope.
Proof. solve_decision. Defined.
#[export] Instance PolicyBundleVersion_eq_dec : EqDecision PolicyBundleVersion.
Proof. solve_decision. Defined.
#[export] Instance SchemaName_eq_dec : EqDecision SchemaName.
Proof. solve_decision. Defined.
#[export] Instance ContentDigest_eq_dec : EqDecision ContentDigest.
Proof. solve_decision. Defined.

Inductive AuthorityError :=
| AuthorityError_InvalidScope
| AuthorityError_InvalidPolicyBundleVersion
| AuthorityError_InvalidValidityWindow
| AuthorityError_InvalidGrantId
| AuthorityError_InvalidSchemaName
| AuthorityError_InvalidSchemaVersionId
| AuthorityError_InvalidSchemaVersion
| AuthorityError_InvalidDecisionId
| AuthorityError_SchemaNamespaceConflict (name : SchemaName)
| AuthorityError_Repository (message : string)
| AuthorityError_Evaluator (message : string).

#[export] Instance AuthorityError_eq_dec : EqDecision AuthorityError.
Proof. solve_decision. Defined.

(** ** Scopes, versions and names *)

Definition Scope_new (value : string) : Result AuthorityError Scope :=
  if is_empty value || (MAX_SCOPE_LENGTH <? len value)%Z || negb (bool_decide (trim value = value))
  then Err AuthorityError_InvalidScope
  else Ok (MkScope value).

Definition Scope_wildcard : Scope := MkScope "*".

Definition Scope_matches (self requested : Scope) : bool :=
  String.eqb (Scope_as_str self) "*" || String.eqb (Scope_as_str self) (Scope_as_str requested).

Definition PolicyBundleVersion_new (value : string) : Result AuthorityError PolicyBundleVersion :=
  if is_empty value || (MAX_POLICY_BUNDLE_VERSION_LENGTH <? len value)%Z
  then Err AuthorityError_InvalidPolicyBundleVersion
  else Ok (MkPolicyBundleVersion value).

Record SchemaVersionRefs := MkSchemaVersionRefs {
  refs_artifact : SchemaVersionId;
  refs_permission_policy : SchemaVersionId;
}.

#[export] Instance SchemaVersionRefs_eq_dec : EqDecision SchemaVersionRefs.
Proof. solve_decision. Defined.

Definition NO_ARTIFACT_SCHEMA_VERSION : SchemaVersionId := MkSchemaVersionId (uuid_of_N 1).
Definition NO_ARTIFACT_PERMISSION_POLICY_SCHEMA_VERSION : SchemaVersionId :=
  MkSchemaVersionId (uuid_of_N 2).
Definition no_artifact_schema_versions : SchemaVersionRefs :=
  MkSchemaVersionRefs NO_ARTIFACT_SCHEMA_VERSION NO_ARTIFACT_PERMISSION_POLICY_SCHEMA_VERSION.

Definition is_valid_schema_segment (segment : string) : bool :=
  match segment with
  | String c rest => is_ascii_lowercase c && all_bytes segment_char rest
  | EmptyString => false
  end.

Definition is_valid_schema_name (value : string) : bool :=
  if is_empty value || (MAX_SCHEMA_NAME_LENGTH <? len value)%Z then false
  else match split_char "." value with
       | namespace :: first_segment :: segments =>
           is_valid_schema_segment namespace && is_valid_schema_segment first_segment
           && forallb is_valid_schema_segment segments
       | _ => false
       end.

Definition SchemaName_new (value : string) : Result AuthorityError SchemaName :=
  if negb (is_valid_schema_name value) then Err AuthorityError_InvalidSchemaName
  else Ok (MkSchemaName value).

(** ** Facts and grants *)

Record PolicyFacts := MkPolicyFacts {
  facts_source : ActorId;
  facts_action : ActionName;
  facts_scope : Scope;
  facts_schema_versions : SchemaVersionRefs;
  facts_destination : option ActorId;
}.

#[export] Instance PolicyFacts_eq_dec : EqDecision PolicyFacts.
Proof. solve_decision. Defined.

Definition PolicyFacts_for_request_acceptance (source : ActorId) (action : ActionName)
  (scope : Scope) (schema_versions : SchemaVersionRefs) : PolicyFacts :=
  MkPolicyFacts source action scope schema_versions None.

Definition PolicyFacts_for_route (source : ActorId) (action : ActionName) (scope : Scope)
  (schema_versions : SchemaVersionRefs) (destination : ActorId) : PolicyFacts :=
  MkPolicyFacts source action scope schema_versions (Some destination).

Definition PolicyFacts_is_route_decision (facts : PolicyFacts) : bool :=
  bool_decide (is_Some (facts_destination facts)).

Record Grant := MkGrant {
  grant_id : GrantId;
  grant_source : ActorId;
  grant_action : ActionName;
  grant_scope : Scope;
  grant_schema_versions : SchemaVersionRefs;
  grant_destination : option ActorId;
  grant_valid_from : Z;
  grant_valid_until : option Z;
}.

#[export] Instance Grant_eq_dec : EqDecision Grant.
Proof. solve_decision. Defined.

Definition Grant_restore (id : GrantId) (source : ActorId) (action : ActionName) (scope : Scope)
  (schema_versions : SchemaVersionRefs) (destination : option ActorId) (valid_from : Z)
  (valid_until : option Z) : Result AuthorityError Grant :=
  if (valid_from <? 0)%Z
     || match valid_until with Some until => (until <=? valid_from)%Z | None => false end
  then Err AuthorityError_InvalidValidityWindow
  else Ok (MkGrant id source action scope schema_versions destination valid_from valid_until).

(** [Grant::new] with the random id it draws *)
Definition Grant_new (id : GrantId) (source : ActorId) (action : ActionName) (scope : Scope)
  (schema_versions : SchemaVersionRefs) (destination : option ActorId) (valid_from : Z)
  (valid_until : option Z) : Result AuthorityError Grant :=
  Grant_restore id source action scope schema_versions destination valid_from valid_until.

Definition Grant_permits (self : Grant) (facts : PolicyFacts) (now : Z) : bool :=
  bool_decide (grant_source self = facts_source facts)
  && bool_decide (grant_action self = facts_action facts)
  && Scope_matches (grant_scope self) (facts_scope facts)
  && bool_decide (grant_schema_versions self = facts_schema_versions facts)
  && bool_decide (grant_destination self = facts_destination facts)
  && (grant_valid_from self <=? now)%Z
  && match grant_valid_until self with Some until => (now <? until)%Z | None => true end.

(** ** Schema versions *)

Inductive SchemaKind := SchemaKind_Artifact | SchemaKind_PermissionPolicy.

Inductive SchemaStatus :=
| SchemaStatus_Published | SchemaStatus_Active | SchemaStatus_Suspended
| SchemaStatus_Superseded | SchemaStatus_Retired.

#[export] Instance SchemaKind_eq_dec : EqDecision SchemaKind.
Proof. solve_decision. Defined.
#[export] Instance SchemaStatus_eq_dec : EqDecision SchemaStatus.
Proof. solve_decision. Defined.

Record SchemaVersion := MkSchemaVersion {
  schema_id : SchemaVersionId;
  schema_kind : SchemaKind;
  schema_name : SchemaName;
  schema_version : Z;
  schema_owner : ActorId;
  schema_content_digest : ContentDigest;
  schema_predecessor : option SchemaVersionId;
  schema_published_at : Z;
}.

Definition SchemaVersion_restore (id : SchemaVersionId) (kind : SchemaKind) (name : SchemaName)
  (version : Z) (owner : ActorId) (content_digest : ContentDigest)
  (predecessor : option SchemaVersionId) (published_at : Z) : Result AuthorityError SchemaVersion :=
  if (version <? 1)%Z || (published_at <? 0)%Z then Err AuthorityError_InvalidSchemaVersion
  else Ok (MkSchemaVersion id kind name version owner content_digest predecessor published_at).

Record SchemaRecord := MkSchemaRecord {
  record_version : SchemaVersion;
  record_status : SchemaStatus;
}.

Definition SchemaRecord_is_active (r : SchemaRecord) : bool :=
  bool_decide (record_status r = SchemaStatus_Active).

Record SchemaRepository (S : Type) := MkSchemaRepository {
  schema_repository_publish : SchemaKind -> SchemaName -> ActorId -> ContentDigest -> Z ->
    Db S AuthorityError SchemaRecord;
  schema_repository_find : SchemaKind -> SchemaName -> Z -> Db S AuthorityError (option SchemaRecord);
}.
Arguments schema_repository_publish {S}.
Arguments schema_repository_find {S}.

Definition SchemaService_publish {S} (R : SchemaRepository S) (kind : SchemaKind)
  (name : SchemaName) (owner : ActorId) (content_digest : ContentDigest) (published_at : Z) :
  Db S AuthorityError SchemaRecord :=
  if (published_at <? 0)%Z then throw AuthorityError_InvalidSchemaVersion
  else schema_repository_publish R kind name owner content_digest published_at.

Definition SchemaService_find {S} (R : SchemaRepository S) (kind : SchemaKind) (name : SchemaName)
  (version : Z) : Db S AuthorityError (option SchemaRecord) :=
  schema_repository_find R kind name version.

(** ** Decisions *)

Inductive Verdict := Verdict_Allow | Verdict_Deny.

#[export] Instance Verdict_eq_dec : EqDecision Verdict.
Proof. solve_decision. Defined.

Record AuthorityDecision := MkAuthorityDecision {
  decision_id : DecisionId;
  decision_facts : PolicyFacts;
  decision_verdict : Verdict;
  decision_evaluator : ActorId;
  decision_policy_bundle_version : option PolicyBundleVersion;
  decision_decided_at : Z;
}.

Definition AuthorityDecision_is_allowed (d : AuthorityDecision) : bool :=
  match decision_verdict d with Verdict_Allow => true | Verdict_Deny => false end.

Record PolicyEvaluation := MkPolicyEvaluation {
  evaluation_verdict : Verdict;
  evaluation_policy_bundle_version : PolicyBundleVersion;
}.

(** [trait PolicyEvaluator]: a remote process, so the answer may differ from one
    call to the next; a call does not touch the database. *)
Definition PolicyEvaluator : Type :=
  PolicyFacts -> list Grant -> Result AuthorityError PolicyEvaluation.

Record AuthorityRepository (S : Type) := MkAuthorityRepository {
  repository_matching_grants : PolicyFacts -> Z -> Db S AuthorityError (list Grant);
}.
Arguments repository_matching_grants {S}.

Record AuthorityDecisionRecorder (S : Type) := MkAuthorityDecisionRecorder {
  recorder_record : AuthorityDecision -> Db S AuthorityError unit;
}.
Arguments recorder_record {S}.

Record AuthorityService (S : Type) := MkAuthorityService {
  authority_repository : AuthorityRepository S;
  authority_evaluator : PolicyEvaluator;
  authority_evaluator_id : ActorId;
  authority_decisions_recorder : AuthorityDecisionRecorder S;
}.
Arguments authority_repository {S}.
Arguments authority_evaluator {S}.
Arguments authority_evaluator_id {S}.
Arguments authority_decisions_recorder {S}.

Definition AuthorityService_authorize {S} (A : AuthorityService S) (facts : PolicyFacts) (now : Z) :
  Db S AuthorityError AuthorityDecision :=
  grants ← repository_matching_grants (authority_repository A) facts now;
  let '(verdict, policy_bundle_version) :=
    match authority_evaluator A facts grants with
    | Ok evaluation =>
        (evaluation_verdict evaluation, Some (evaluation_policy_bundle_version evaluation))
    | Err _ => (Verdict_Deny, None)
    end in
  id ← new_uuid;
  let decision := MkAuthorityDecision (MkDecisionId id) facts verdict (authority_evaluator_id A)
                    policy_bundle_version now in
  recorder_record (authority_decisions_recorder A) decision;;
  mret decision.

Section authority.
  Context {P : Platform}.

Definition GrantId_to_string (id : GrantId) : string := uuid_print (GrantId_as_uuid id).
Definition GrantId_from_str (value : string) : Result AuthorityError GrantId :=
  match uuid_parse value with
  | Some u => Ok (MkGrantId u)
  | None => Err AuthorityError_InvalidGrantId
  end.

Definition SchemaVersionId_to_string (id : SchemaVersionId) : string :=
  uuid_print (SchemaVersionId_as_uuid id).
Definition SchemaVersionId_from_str (value : string) : Result AuthorityError SchemaVersionId :=
  match uuid_parse value with
  | Some u => Ok (MkSchemaVersionId u)
  | None => Err AuthorityError_InvalidSchemaVersionId
  end.

Definition DecisionId_to_string (id : DecisionId) : string := uuid_print (DecisionId_as_uuid id).
Definition DecisionId_from_str (value : string) : Result AuthorityError DecisionId :=
  match uuid_parse value with
  | Some u => Ok (MkDecisionId u)
  | None => Err AuthorityError_InvalidDecisionId
  end.

Definition AuthorityError_to_string (e : AuthorityError) : string :=
  match e with
  | AuthorityError_InvalidScope => "scope must be non-empty, bounded, and untrimmed-safe"
  | AuthorityError_InvalidPolicyBundleVersion =>
      "policy bundle version must be non-empty and within the length limit"
  | AuthorityError_InvalidValidityWindow => "grant validity window is invalid"
  | AuthorityError_InvalidGrantId => "grant ID must be a UUID"
  | AuthorityError_InvalidSchemaName =>
      "schema name must be a dotted, namespaced, lower-case identifier within the length limit"
  | AuthorityError_InvalidSchemaVersionId => "schema version ID must be a UUID"
  | AuthorityError_InvalidSchemaVersion => "schema version number or publication time is invalid"
  | AuthorityError_InvalidDecisionId => "decision ID must be a UUID"
  | AuthorityError_SchemaNamespaceConflict name =>
      "schema name " +:+ SchemaName_as_str name +:+ " is owned by a different service"
  | AuthorityError_Repository message => "authority repository failed: " +:+ message
  | AuthorityError_Evaluator message => "policy evaluator failed: " +:+ message
  end.
End authority.
