(* ===== verification/PostgresAuthority.v ===== *)
(** * PostgresAuthority: grants, schema versions and decisions in PostgreSQL

    [src/infrastructure/postgres_authority_repository.rs] with the statements and
    functions of migrations 0009 to 0013, 0018 and 0019. *)

From S2P Require Import Prelude Text Platform Database Schema Identity RequestNames Authority.
From Stdlib Require Import Ascii.

Definition schema_kind_to_sql (kind : SchemaKind) : string :=
  match kind with
  | SchemaKind_Artifact => "artifact"
  | SchemaKind_PermissionPolicy => "permission_policy"
  end.

Definition verdict_to_sql (verdict : Verdict) : string :=
  match verdict with Verdict_Allow => "allow" | Verdict_Deny => "deny" end.

Definition schema_kind_from_sql (value : string) : Result AuthorityError SchemaKind :=
  if String.eqb value "artifact" then Ok SchemaKind_Artifact
  else if String.eqb value "permission_policy" then Ok SchemaKind_PermissionPolicy
  else Err (AuthorityError_Repository ("unknown stored schema kind: " +:+ value)).

Definition schema_status_from_sql (value : string) : Result AuthorityError SchemaStatus :=
  if String.eqb value "published" then Ok SchemaStatus_Published
  else if String.eqb value "active" then Ok SchemaStatus_Active
  else if String.eqb value "suspended" then Ok SchemaStatus_Suspended
  else if String.eqb value "superseded" then Ok SchemaStatus_Superseded
  else if String.eqb value "retired" then Ok SchemaStatus_Retired
  else Err (AuthorityError_Repository ("unknown stored schema status: " +:+ value)).

(** WHERE clause of MATCHING_GRANTS_SQL *)
Definition grant_matches (facts : PolicyFacts) (now : Z) (_ : Uuid) (row : GrantRow) : bool :=
  bool_decide (gr_source_service_id row = ActorId_as_uuid (facts_source facts))
  && String.eqb (gr_action row) (ActionName_as_str (facts_action facts))
  && bool_decide (gr_artifact_schema_version_id row =
       SchemaVersionId_as_uuid (refs_artifact (facts_schema_versions facts)))
  && bool_decide (gr_permission_policy_schema_version_id row =
       SchemaVersionId_as_uuid (refs_permission_policy (facts_schema_versions facts)))
  && bool_decide (gr_destination_service_id row = ActorId_as_uuid <$> facts_destination facts)
  && (String.eqb (gr_scope row) "*" || String.eqb (gr_scope row) (Scope_as_str (facts_scope facts)))
  && (gr_valid_from row <=? now)%Z
  && match gr_valid_until row with None => true | Some until => (now <? until)%Z end
  && bool_decide (gr_revoked_at row = None).

Definition matching_grants_sql (facts : PolicyFacts) (now : Z) (T : Tables) : list (Uuid * GrantRow) :=
  select (grant_matches facts now) (authority_grants T).

Definition versions_of (kind name : string) (T : Tables) : list (Uuid * SchemaVersionRow) :=
  select (fun _ row => String.eqb (sv_kind row) kind && String.eqb (sv_name row) name)
    (schema_versions T).

(** [publish_authority_schema_version] of migration 0010 *)
Definition publish_schema_version_sql (id : Uuid) (kind name : string) (owner : Uuid)
  (content_digest : bytes) (published_at : Z) (T : Tables) :
  Result PostgresError ((Uuid * SchemaVersionRow) * Tables) :=
  let versions := versions_of kind name T in
  '(next_version, predecessor) ←
    match latest (fun kv => sv_version kv.2) versions with
    | Some (latest_id, latest) =>
        if negb (bool_decide (sv_owner_service_id latest = owner))
        then Err (raise_exception ("schema name " +:+ name +:+ " is owned by a different service"))
        else if negb (i64_fits (sv_version latest + 1)) then Err (raise_exception "bigint out of range")
        else Ok ((sv_version latest + 1)%Z, Some latest_id)
    | None => Ok (1%Z, None)
    end;
  require (bool_decide (kind ∈ ["artifact"; "permission_policy"]))
    (check_violation "authority_schema_versions_kind_check");;
  require (dotted_name_check name) (check_violation "authority_schema_versions_name_check");;
  require (1 <=? next_version)%Z (check_violation "authority_schema_versions_version_check");;
  require (octet_length content_digest =? 32)%Z
    (check_violation "authority_schema_versions_content_digest_check");;
  require (0 <=? published_at)%Z (check_violation "authority_schema_versions_published_at_check");;
  require (bool_decide (schema_versions T !! id = None))
    (unique_violation "authority_schema_versions_pkey");;
  require (negb (existsb (fun kv => sv_version kv.2 =? next_version)%Z versions))
    (unique_violation "authority_schema_versions_kind_name_version_key");;
  references (identities T) owner "authority_schema_versions_owner_service_id_fkey";;
  let row := MkSchemaVersionRow kind name next_version owner content_digest predecessor published_at
               "published" in
  Ok ((id, row), with_schema_versions (<[id := row]> (schema_versions T)) T).

Definition find_schema_version_sql (kind name : string) (version : Z) (T : Tables) :
  option (Uuid * SchemaVersionRow) :=
  head (select (fun _ row => String.eqb (sv_kind row) kind && String.eqb (sv_name row) name
                             && (sv_version row =? version)%Z) (schema_versions T)).

Definition insert_decision_sql (id : Uuid) (row : DecisionRow) (T : Tables) :
  Result PostgresError (Z * Tables) :=
  require (dotted_name_check (dec_action row)) (check_violation "authority_decisions_action_check");;
  require (scope_check (dec_scope row)) (check_violation "authority_decisions_scope_check");;
  require (bool_decide (dec_verdict row ∈ ["allow"; "deny"]))
    (check_violation "authority_decisions_verdict_check");;
  require (0 <=? dec_decided_at row)%Z (check_violation "authority_decisions_decided_at_check");;
  require (bool_decide (authority_decisions T !! id = None))
    (unique_violation "authority_decisions_pkey");;
  references (identities T) (dec_source_service_id row) "authority_decisions_source_service_id_fkey";;
  match dec_destination_service_id row with
  | Some destination =>
      references (identities T) destination "authority_decisions_destination_service_id_fkey"
  | None => Ok tt
  end;;
  references (identities T) (dec_evaluator_service_id row)
    "authority_decisions_evaluator_service_id_fkey";;
  references (schema_versions T) (dec_artifact_schema_version_id row)
    "authority_decisions_artifact_schema_version_fk";;
  references (schema_versions T) (dec_permission_policy_schema_version_id row)
    "authority_decisions_permission_policy_schema_version_fk";;
  Ok (1%Z, with_authority_decisions (<[id := row]> (authority_decisions T)) T).

Section adapter.
  Context {P : Platform}.

Definition authority_repository_error (message : string) : AuthorityError :=
  AuthorityError_Repository message.
Definition authority_query_error (e : PostgresError) : AuthorityError :=
  authority_repository_error (postgres_error_text e).

Definition grant_from_row (kv : Uuid * GrantRow) : Result AuthorityError Grant :=
  let '(grant_id, row) := kv in
  id ← GrantId_from_str (uuid_print grant_id);
  source ← result_map_err
    (fun error => AuthorityError_Repository ("invalid stored source ID: " +:+ IdentityError_to_string error))
    (ActorId_from_str (uuid_print (gr_source_service_id row)));
  action ← result_map_err (fun _ => AuthorityError_Repository "stored grant action is invalid")
    (ActionName_new (gr_action row));
  scope ← result_map_err (fun _ => AuthorityError_Repository "stored grant scope is invalid")
    (Scope_new (gr_scope row));
  artifact ← SchemaVersionId_from_str (uuid_print (gr_artifact_schema_version_id row));
  permission_policy ← SchemaVersionId_from_str
    (uuid_print (gr_permission_policy_schema_version_id row));
  destination ←
    match gr_destination_service_id row with
    | None => Ok None
    | Some value =>
        result_map_err
          (fun error => AuthorityError_Repository
             ("invalid stored destination ID: " +:+ IdentityError_to_string error))
          (Some <$> ActorId_from_str (uuid_print value))
    end;
  Grant_restore id source action scope (MkSchemaVersionRefs artifact permission_policy) destination
    (gr_valid_from row) (gr_valid_until row).

Definition schema_record_from_row (kv : Uuid * SchemaVersionRow) : Result AuthorityError SchemaRecord :=
  let '(schema_version_id, row) := kv in
  id ← SchemaVersionId_from_str (uuid_print schema_version_id);
  kind ← schema_kind_from_sql (sv_kind row);
  name ← result_map_err (fun _ => AuthorityError_Repository "stored schema name is invalid")
    (SchemaName_new (sv_name row));
  owner ← result_map_err
    (fun error => AuthorityError_Repository ("invalid stored owner ID: " +:+ IdentityError_to_string error))
    (ActorId_from_str (uuid_print (sv_owner_service_id row)));
  content_digest ← ok_or (AuthorityError_Repository "stored content digest is invalid")
    (if bool_decide (String.length (sv_content_digest row) = 32%nat)
     then Some (sv_content_digest row) else None);
  predecessor ←
    match sv_predecessor_id row with
    | None => Ok None
    | Some value => Some <$> SchemaVersionId_from_str (uuid_print value)
    end;
  version ← SchemaVersion_restore id kind name (sv_version row) owner
    (MkContentDigest content_digest) predecessor (sv_published_at row);
  status ← schema_status_from_sql (sv_status row);
  Ok (MkSchemaRecord version status).

Definition PostgresAuthority_matching_grants (facts : PolicyFacts) (now : Z) :
  Db Tables AuthorityError (list Grant) :=
  connection authority_repository_error;;
  rows ← query authority_query_error (matching_grants_sql facts now);
  lift (collect grant_from_row rows).

Definition PostgresAuthority_publish (kind : SchemaKind) (name : SchemaName) (owner : ActorId)
  (content_digest : ContentDigest) (published_at : Z) : Db Tables AuthorityError SchemaRecord :=
  connection authority_repository_error;;
  id ← new_uuid;
  row ← autocommit authority_query_error
    (publish_schema_version_sql id (schema_kind_to_sql kind) (SchemaName_as_str name)
      (ActorId_as_uuid owner) (ContentDigest_as_bytes content_digest) published_at);
  lift (schema_record_from_row row).

Definition PostgresAuthority_find (kind : SchemaKind) (name : SchemaName) (version : Z) :
  Db Tables AuthorityError (option SchemaRecord) :=
  connection authority_repository_error;;
  row ← query authority_query_error
    (find_schema_version_sql (schema_kind_to_sql kind) (SchemaName_as_str name) version);
  match row with
  | None => mret None
  | Some row => record ← lift (schema_record_from_row row); mret (Some record)
  end.

Definition decision_row (decision : AuthorityDecision) : DecisionRow :=
  let facts := decision_facts decision in
  MkDecisionRow (ActorId_as_uuid (facts_source facts)) (ActionName_as_str (facts_action facts))
    (Scope_as_str (facts_scope facts))
    (SchemaVersionId_as_uuid (refs_artifact (facts_schema_versions facts)))
    (SchemaVersionId_as_uuid (refs_permission_policy (facts_schema_versions facts)))
    (ActorId_as_uuid <$> facts_destination facts) (verdict_to_sql (decision_verdict decision))
    (ActorId_as_uuid (decision_evaluator decision))
    (PolicyBundleVersion_as_str <$> decision_policy_bundle_version decision)
    (decision_decided_at decision).

Definition PostgresAuthority_record (decision : AuthorityDecision) : Db Tables AuthorityError unit :=
  connection authority_repository_error;;
  rows ← autocommit authority_query_error
    (insert_decision_sql (DecisionId_as_uuid (decision_id decision)) (decision_row decision));
  if negb (rows =? 1)%Z
  then throw (AuthorityError_Repository
                ("recording decision " +:+ DecisionId_to_string (decision_id decision)
                 +:+ " changed " +:+ show_i64 rows +:+ " rows"))
  else mret tt.

Definition PostgresAuthorityRepository : AuthorityRepository Tables := {|
  repository_matching_grants := PostgresAuthority_matching_grants |}.
Definition PostgresSchemaRepository : SchemaRepository Tables := {|
  schema_repository_publish := PostgresAuthority_publish;
  schema_repository_find := PostgresAuthority_find |}.
Definition PostgresDecisionRecorder : AuthorityDecisionRecorder Tables := {|
  recorder_record := PostgresAuthority_record |}.
End adapter.

(** ** Matching grants *)

Section theory.
Context {P : Platform} {HP : PlatformLaws P}.

Lemma grant_from_row_Ok id row g :
  grant_from_row (id, row) = Ok g ->
  grant_id g = MkGrantId id /\
  grant_source g = MkActorId (gr_source_service_id row) /\
  ActionName_as_str (grant_action g) = gr_action row /\
  Scope_as_str (grant_scope g) = gr_scope row /\
  grant_schema_versions g =
    MkSchemaVersionRefs (MkSchemaVersionId (gr_artifact_schema_version_id row))
      (MkSchemaVersionId (gr_permission_policy_schema_version_id row)) /\
  grant_destination g = MkActorId <$> gr_destination_service_id row /\
  grant_valid_from g = gr_valid_from row /\ grant_valid_until g = gr_valid_until row.
Proof.
  unfold grant_from_row, GrantId_from_str, ActorId_from_str, SchemaVersionId_from_str,
    ActionName_new, Scope_new, Grant_restore.
  rewrite !uuid_parse_print. intros H.
  destruct (gr_destination_service_id row) as [d|]; rewrite ?uuid_parse_print in H;
    cbn [mbind result_bind result_map_err fmap result_fmap] in H; result_inv; done.
Qed.

(** The WHERE clause and [Grant::permits] agree on a row that is not revoked. *)
Lemma grant_matches_permits id row g facts now :
  grant_from_row (id, row) = Ok g ->
  grant_matches facts now id row = true <->
  Grant_permits g facts now = true /\ gr_revoked_at row = None.
Proof.
  intros (_ & Hs & Ha & Hsc & Hv & Hd & Hf & Hu)%grant_from_row_Ok.
  unfold grant_matches, Grant_permits, Scope_matches.
  rewrite Hs, Hsc, Hv, Hd, Hf, Hu, <-Ha.
  destruct facts as [[s] [a] [sc] [[ar] [pp]] d]; destruct (grant_action g) as [ga]; simpl.
  rewrite !andb_true_iff, !bool_decide_eq_true, String.eqb_eq.
  assert (gr_destination_service_id row = ActorId_as_uuid <$> d <->
          MkActorId <$> gr_destination_service_id row = d) as ->.
  { destruct (gr_destination_service_id row), d as [[?]|]; naive_solver. }
  naive_solver.
Qed.

Lemma matching_grants_exact facts now c grants c' :
  PostgresAuthority_matching_grants facts now c = (Ok grants, c') ->
  durable c' = durable c /\
  forall g, g ∈ grants <->
    exists id row, authority_grants (durable c) !! id = Some row /\
      gr_revoked_at row = None /\ grant_from_row (id, row) = Ok g /\
      Grant_permits g facts now = true.
Proof.
  unfold PostgresAuthority_matching_grants. intros H. db_inv. split; [done|].
  match goal with H : collect _ _ = Ok _ |- _ => rename H into Hc end.
  unfold matching_grants_sql in Hc. intros g. rewrite (collect_elem_of _ _ _ g Hc). split.
  - intros ([id row] & [Hrow Hm]%select_In & Hg). exists id, row.
    apply (grant_matches_permits _ _ _ _ _ Hg) in Hm. naive_solver.
  - intros (id & row & Hrow & Hr & Hg & Hp). exists (id, row). split; [|done].
    apply select_In. split; [done|]. by apply (grant_matches_permits _ _ _ _ _ Hg).
Qed.

(** The grants the kernel reads for a decision are exactly the stored,
    unrevoked grants that permit the facts now: the SQL filter and
    [Grant::permits] agree on every row. *)
Theorem matching_grants_are_permitting facts now c grants c' :
  PostgresAuthority_matching_grants facts now c = (Ok grants, c') ->
  durable c' = durable c /\
  forall g, g ∈ grants <->
    exists id row, authority_grants (durable c) !! id = Some row /\
      gr_revoked_at row = None /\ grant_from_row (id, row) = Ok g /\
      Grant_permits g facts now = true.
Proof. apply matching_grants_exact. Qed.

Lemma insert_decision_Ok id row T n T' :
  insert_decision_sql id row T = Ok (n, T') ->
  n = 1%Z /\ authority_decisions T !! id = None /\
  T' = with_authority_decisions (<[id := row]> (authority_decisions T)) T.
Proof.
  unfold insert_decision_sql. intros H. result_inv.
  repeat match goal with H : require _ _ = Ok _ |- _ => apply require_Ok in H end.
  by repeat match goal with H : bool_decide _ = true |- _ => apply bool_decide_eq_true in H end.
Qed.

(** The service of the deployed kernel *)
Definition postgres_authority (evaluator : PolicyEvaluator) (evaluator_id : ActorId) :
  AuthorityService Tables :=
  MkAuthorityService _ PostgresAuthorityRepository evaluator evaluator_id PostgresDecisionRecorder.

Lemma authorize_recorded evaluator evaluator_id facts now c d c' :
  AuthorityService_authorize (postgres_authority evaluator evaluator_id) facts now c = (Ok d, c') ->
  authority_decisions (durable c) !! DecisionId_as_uuid (decision_id d) = None /\
  authority_decisions (durable c') !! DecisionId_as_uuid (decision_id d) = Some (decision_row d) /\
  decision_facts d = facts /\ decision_decided_at d = now /\
  exists grants,
    (forall g, g ∈ grants -> Grant_permits g facts now = true) /\
    match evaluator facts grants with
    | Ok evaluation => decision_verdict d = evaluation_verdict evaluation /\
        decision_policy_bundle_version d = Some (evaluation_policy_bundle_version evaluation)
    | Err _ => AuthorityDecision_is_allowed d = false /\ decision_policy_bundle_version d = None
    end.
Proof.
  unfold AuthorityService_authorize. simpl. intros H.
  apply db_bind_Ok in H as (grants & c1 & Hg & H).
  apply matching_grants_exact in Hg as [Hd Hg].
  destruct (evaluator facts grants) as [evaluation|e] eqn:He; db_inv;
    unfold PostgresAuthority_record in *; db_inv;
    match goal with H : insert_decision_sql _ _ _ = Ok _ |- _ =>
      apply insert_decision_Ok in H as (-> & Hnone & HT) end;
    subst; resolve_tables; simpl in *; rewrite lookup_insert_eq;
    (split_and!; [done..|]); exists grants; rewrite He;
    (split; [|done]); intros g Hin; apply Hg in Hin; naive_solver.
Qed.

(** C19: Authorization fails closed and is never unrecorded: a returned decision
    is durably stored under a new id, it allows only if the evaluator answered
    allow on grants that all permit the facts now, and it names a bundle version
    exactly when the evaluator answered. *)
Theorem authorize_fails_closed evaluator evaluator_id facts now c d c' :
  AuthorityService_authorize (postgres_authority evaluator evaluator_id) facts now c = (Ok d, c') ->
  authority_decisions (durable c) !! DecisionId_as_uuid (decision_id d) = None /\
  authority_decisions (durable c') !! DecisionId_as_uuid (decision_id d) = Some (decision_row d) /\
  decision_facts d = facts /\ decision_decided_at d = now /\
  exists grants,
    (forall g, g ∈ grants -> Grant_permits g facts now = true) /\
    match evaluator facts grants with
    | Ok evaluation => decision_verdict d = evaluation_verdict evaluation /\
        decision_policy_bundle_version d = Some (evaluation_policy_bundle_version evaluation)
    | Err _ => AuthorityDecision_is_allowed d = false /\ decision_policy_bundle_version d = None
    end.
Proof. apply authorize_recorded. Qed.

Lemma versions_of_In kind name T id row :
  (id, row) ∈ versions_of kind name T <->
  schema_versions T !! id = Some row /\ sv_kind row = kind /\ sv_name row = name.
Proof. unfold versions_of. rewrite select_In, andb_true_iff, !String.eqb_eq. naive_solver. Qed.

(** Publishing under a name another service owns changes nothing and
    answers with the error of a broken repository, although the trait promises
    [SchemaNamespaceConflict]. *)
Theorem publish_conflict_is_repository_error kind name owner digest now T ns id row :
  (0 <= now)%Z ->
  latest (fun kv => sv_version kv.2)
    (versions_of (schema_kind_to_sql kind) (SchemaName_as_str name) T) = Some (id, row) ->
  sv_owner_service_id row <> ActorId_as_uuid owner ->
  exists c', SchemaService_publish PostgresSchemaRepository kind name owner digest now (start T [] ns) =
    (Err (AuthorityError_Repository (postgres_error_text (raise_exception
       ("schema name " +:+ SchemaName_as_str name +:+ " is owned by a different service")))), c') /\
    durable c' = T.
Proof.
  intros Hnow Hl Ho. unfold SchemaService_publish.
  rewrite (proj2 (Z.ltb_ge now 0)) by lia. simpl. unfold PostgresAuthority_publish, start.
  db_run. destruct (new_uuid_run (E:=AuthorityError) T T ns) as (u & ns' & ->).
  db_run. erewrite autocommit_fail_run; [by eexists|].
  unfold publish_schema_version_sql. cbv zeta. rewrite Hl. rewrite (bool_decide_eq_false_2 (sv_owner_service_id row = ActorId_as_uuid owner)) by done. done.
Qed.

(** What publication keeps true of the version table: positive versions, one
    owner per name, no version twice, and every later version linked to the
    version before it. *)
Record schema_wf (T : Tables) : Prop := {
  schema_wf_positive id row : schema_versions T !! id = Some row -> (1 <= sv_version row)%Z;
  schema_wf_owner id row id' row' :
    schema_versions T !! id = Some row -> schema_versions T !! id' = Some row' ->
    sv_kind row = sv_kind row' -> sv_name row = sv_name row' ->
    sv_owner_service_id row = sv_owner_service_id row';
  schema_wf_unique id row id' row' :
    schema_versions T !! id = Some row -> schema_versions T !! id' = Some row' ->
    sv_kind row = sv_kind row' -> sv_name row = sv_name row' ->
    sv_version row = sv_version row' -> id = id';
  schema_wf_predecessor id row :
    schema_versions T !! id = Some row ->
    match sv_predecessor_id row with
    | None => sv_version row = 1%Z
    | Some previous => exists row', schema_versions T !! previous = Some row' /\
        sv_kind row' = sv_kind row /\ sv_name row' = sv_name row /\
        sv_version row = (sv_version row' + 1)%Z
    end;
}.

(** What a successful publication inserted *)
Lemma publish_schema_version_Ok id kind name owner digest now T kv T' :
  publish_schema_version_sql id kind name owner digest now T = Ok (kv, T') ->
  exists row, kv = (id, row) /\
    T' = with_schema_versions (<[id := row]> (schema_versions T)) T /\
    schema_versions T !! id = None /\
    sv_kind row = kind /\ sv_name row = name /\ sv_owner_service_id row = owner /\
    sv_content_digest row = digest /\ sv_status row = "published" /\
    match latest (fun kv => sv_version kv.2) (versions_of kind name T) with
    | None => sv_version row = 1%Z /\ sv_predecessor_id row = None
    | Some (previous, prow) => sv_version row = (sv_version prow + 1)%Z /\
        sv_predecessor_id row = Some previous /\ sv_owner_service_id prow = owner
    end.
Proof.
  unfold publish_schema_version_sql. intros H.
  destruct (latest _ _) as [[previous prow]|] eqn:Hl; result_inv;
    repeat match goal with H : require _ _ = Ok _ |- _ => apply require_Ok in H end;
    repeat match goal with H : bool_decide _ = true |- _ => apply bool_decide_eq_true in H end;
    eexists; (split_and!; try done); simpl; split_and?; try done.
  by match goal with H : negb (bool_decide _) = false |- _ =>
    apply negb_false_iff, bool_decide_eq_true in H end.
Qed.

Lemma publish_schema_version_wf id kind name owner digest now T kv T' :
  publish_schema_version_sql id kind name owner digest now T = Ok (kv, T') ->
  preserves schema_wf T T'.
Proof.
  intros H [Wp Wo Wu Wc]. apply publish_schema_version_Ok in H
    as (row & -> & -> & Hnew & Hk & Hn & Ho & _ & _ & Hl).
  assert (forall i r, schema_versions T !! i = Some r -> sv_kind r = kind -> sv_name r = name ->
    sv_owner_service_id r = owner /\ (sv_version r < sv_version row)%Z) as Hbelow.
  { intros i r Hi Hik Hin.
    assert ((i, r) ∈ versions_of kind name T) as Hv by by apply versions_of_In.
    destruct (latest _ _) as [[previous prow]|] eqn:Hlat.
    - apply latest_Some in Hlat as [Hp%versions_of_In Hmax]. specialize (Hmax _ Hv). simpl in Hmax.
      destruct Hp as (Hp1 & Hp2 & Hp3), Hl as (Hl1 & _ & Hl3). split; [|lia].
      rewrite <-Hl3. apply (Wo i r previous prow); congruence.
    - apply latest_None in Hlat. rewrite Hlat in Hv. by apply elem_of_nil in Hv. }
  assert (1 <= sv_version row)%Z as Hpos.
  { destruct (latest _ _) as [[previous prow]|] eqn:Hlat; [|lia].
    apply latest_Some in Hlat as [[Hp _]%versions_of_In _]. specialize (Wp _ _ Hp). lia. }
  constructor; simpl; intros i r.
  - intros [[<- <-]|[_ Hi]]%lookup_insert_Some; [done | by eapply Wp].
  - intros i' r' [[<- <-]|[_ Hi]]%lookup_insert_Some [[<- <-]|[_ Hi']]%lookup_insert_Some Ek En.
    + done.
    + rewrite Ho. symmetry. apply (Hbelow i' r'); congruence.
    + rewrite Ho. apply (Hbelow i r); congruence.
    + by eapply Wo.
  - intros i' r' [[<- <-]|[_ Hi]]%lookup_insert_Some [[<- <-]|[_ Hi']]%lookup_insert_Some Ek En Ev.
    + done.
    + destruct (Hbelow i' r'); [congruence..|lia].
    + destruct (Hbelow i r); [congruence..|lia].
    + by eapply Wu.
  - intros [[<- <-]|[Hne Hi]]%lookup_insert_Some.
    + destruct (latest _ _) as [[previous prow]|] eqn:Hlat.
      * destruct Hl as (Hl1 & -> & _).
        apply latest_Some in Hlat as [(Hp1 & Hp2 & Hp3)%versions_of_In _].
        exists prow. rewrite lookup_insert_ne by congruence. split_and!; congruence.
      * by destruct Hl as [-> ->].
    + specialize (Wc i r Hi). destruct (sv_predecessor_id r) as [previous|]; [|done].
      destruct Wc as (prow & Hp & Hrest). exists prow.
      rewrite lookup_insert_ne by congruence. done.
Qed.

(** Publication keeps the version table well formed under any faults: one
    owner per schema name, versions numbered without duplicates from 1, and each
    later version linked to its predecessor of the same name. *)
Theorem publish_preserves_schema_wf kind name owner digest now :
  history (preserves schema_wf)
    (SchemaService_publish PostgresSchemaRepository kind name owner digest now).
Proof.
  unfold SchemaService_publish. simpl. unfold PostgresAuthority_publish. db_walk.
  by eapply publish_schema_version_wf.
Qed.

(** A published record is the next version of its name, owned by its
    publisher, linked to the previous version and not active. *)
Theorem publish_next_version kind name owner digest now c r c' :
  SchemaService_publish PostgresSchemaRepository kind name owner digest now c = (Ok r, c') ->
  SchemaRecord_is_active r = false /\ record_status r = SchemaStatus_Published /\
  schema_owner (record_version r) = owner /\ schema_name (record_version r) = name /\
  match latest (fun kv => sv_version kv.2)
          (versions_of (schema_kind_to_sql kind) (SchemaName_as_str name) (durable c)) with
  | None => schema_version (record_version r) = 1%Z /\ schema_predecessor (record_version r) = None
  | Some (previous, prow) =>
      schema_version (record_version r) = (sv_version prow + 1)%Z /\
      schema_predecessor (record_version r) = Some (MkSchemaVersionId previous) /\
      sv_owner_service_id prow = ActorId_as_uuid owner
  end.
Proof.
  unfold SchemaService_publish. simpl. unfold PostgresAuthority_publish. intros H. db_inv.
  match goal with H : publish_schema_version_sql _ _ _ _ _ _ _ = Ok _ |- _ =>
    apply publish_schema_version_Ok in H as (row & -> & _ & _ & Hk & Hn & Ho & _ & Hst & Hl) end.
  unfold schema_record_from_row, SchemaVersionId_from_str, ActorId_from_str, SchemaName_new,
    SchemaVersion_restore in *. rewrite Hst, Ho, Hn, !uuid_parse_print in *.
  destruct (sv_predecessor_id row) as [previous|]; rewrite ?uuid_parse_print in *;
    cbn [mbind result_bind result_map_err fmap result_fmap] in *; result_inv; simpl in *;
    match goal with H : schema_status_from_sql _ = Ok _ |- _ => injection H as <- end;
    destruct owner, name; (split_and!; try done);
    destruct (latest _ _) as [[previous' prow]|]; naive_solver.
Qed.
End theory.
