(* ===== verification/Subscriptions.v ===== *)
(** * Subscriptions: durable event interests of services

    [src/kernel/subscriptions.rs] and
    [src/infrastructure/postgres_subscription_repository.rs], with the statements
    and triggers of migrations 0004 and 0015. *)

From S2P Require Import Prelude Text Platform Database Schema Identity RequestNames.
From stdpp Require Import countable.
From Stdlib Require Import Ascii.

Definition MAX_EVENT_TYPE_LENGTH : Z := 200.

Inductive DeliveryMode : Set := DeliveryMode_Inclusive.

Record SubscriptionId := MkSubscriptionId { SubscriptionId_as_uuid : Uuid }.
Record EventType := MkEventType { EventType_as_str : string }.

#[export] Instance DeliveryMode_eq_dec : EqDecision DeliveryMode.
Proof. solve_decision. Defined.
#[export] Instance SubscriptionId_eq_dec : EqDecision SubscriptionId.
Proof. solve_decision. Defined.
#[export] Instance EventType_eq_dec : EqDecision EventType.
Proof. solve_decision. Defined.

Inductive SubscriptionError :=
| SubscriptionError_AlreadyExists (id : SubscriptionId)
| SubscriptionError_AlreadyDisabled (id : SubscriptionId)
| SubscriptionError_DuplicateActive (service_id : ActorId) (event_type : EventType)
| SubscriptionError_InvalidEventType
| SubscriptionError_InvalidSubscriptionId
| SubscriptionError_InvalidTimestamp
| SubscriptionError_NotFound (id : SubscriptionId)
| SubscriptionError_Repository (message : string)
| SubscriptionError_UnknownService (id : ActorId).

#[export] Instance SubscriptionError_eq_dec : EqDecision SubscriptionError.
Proof. solve_decision. Defined.

(** The characters of a segment: a multi-byte character has no byte in the class,
    so testing bytes is testing characters. *)
Definition valid_event_segment (segment : string) : bool :=
  match segment with
  | String c rest => is_ascii_lowercase c && all_bytes segment_char rest
  | EmptyString => false
  end.

Definition EventType_new (value : string) : Result SubscriptionError EventType :=
  let value := trim value in
  if is_empty value || (MAX_EVENT_TYPE_LENGTH <? chars_count value)%Z
     || negb (forallb valid_event_segment (split_char "." value))
  then Err SubscriptionError_InvalidEventType
  else Ok (MkEventType value).

Record Subscription := MkSubscription {
  subscription_id : SubscriptionId;
  subscription_service_id : ActorId;
  subscription_event_type : EventType;
  subscription_delivery_mode : DeliveryMode;
  subscription_created_at : Z;
  subscription_disabled_at : option Z;
}.

#[export] Instance Subscription_eq_dec : EqDecision Subscription.
Proof. solve_decision. Defined.

Definition Subscription_restore (id : SubscriptionId) (service_id : ActorId)
  (event_type : EventType) (delivery_mode : DeliveryMode) (created_at : Z)
  (disabled_at : option Z) : Result SubscriptionError Subscription :=
  if (created_at <? 0)%Z
     || match disabled_at with Some value => (value <? created_at)%Z | None => false end
  then Err SubscriptionError_InvalidTimestamp
  else Ok (MkSubscription id service_id event_type delivery_mode created_at disabled_at).

(** [Subscription::create] with the random id it draws *)
Definition Subscription_create (id : SubscriptionId) (service_id : ActorId)
  (event_type : EventType) (delivery_mode : DeliveryMode) (now : Z) :
  Result SubscriptionError Subscription :=
  Subscription_restore id service_id event_type delivery_mode now None.

Definition Subscription_is_active (s : Subscription) : bool :=
  match subscription_disabled_at s with None => true | Some _ => false end.

(** ** The service over its repository *)

Record SubscriptionRepository (S : Type) := MkSubscriptionRepository {
  subscription_repository_insert : Subscription -> Db S SubscriptionError unit;
  subscription_repository_list : ActorId -> Db S SubscriptionError (list Subscription);
  subscription_repository_list_active : ActorId -> Db S SubscriptionError (list Subscription);
  subscription_repository_disable :
    ActorId -> SubscriptionId -> Z -> Db S SubscriptionError Subscription;
  subscription_repository_find_active : EventType -> Db S SubscriptionError (list Subscription);
}.
Arguments subscription_repository_insert {S}.
Arguments subscription_repository_list {S}.
Arguments subscription_repository_list_active {S}.
Arguments subscription_repository_disable {S}.
Arguments subscription_repository_find_active {S}.

Definition SubscriptionService_create {S} (R : SubscriptionRepository S) (service_id : ActorId)
  (event_type : EventType) (delivery_mode : DeliveryMode) (now : Z) :
  Db S SubscriptionError Subscription :=
  id ← new_uuid;
  subscription ← lift (Subscription_create (MkSubscriptionId id) service_id event_type
                         delivery_mode now);
  subscription_repository_insert R subscription;;
  mret subscription.

Definition SubscriptionService_list {S} (R : SubscriptionRepository S) (service_id : ActorId) :=
  subscription_repository_list R service_id.
Definition SubscriptionService_list_active {S} (R : SubscriptionRepository S) (service_id : ActorId) :=
  subscription_repository_list_active R service_id.
Definition SubscriptionService_find_active_by_event_type {S} (R : SubscriptionRepository S)
  (event_type : EventType) := subscription_repository_find_active R event_type.

Definition SubscriptionService_disable {S} (R : SubscriptionRepository S) (service_id : ActorId)
  (subscription_id : SubscriptionId) (now : Z) : Db S SubscriptionError Subscription :=
  if (now <? 0)%Z then throw SubscriptionError_InvalidTimestamp
  else subscription_repository_disable R service_id subscription_id now.

(** ** The PostgreSQL adapter *)

Definition delivery_mode_to_sql (mode : DeliveryMode) : string :=
  match mode with DeliveryMode_Inclusive => "inclusive" end.

Definition delivery_mode_from_sql (value : string) : Result SubscriptionError DeliveryMode :=
  if String.eqb value "inclusive" then Ok DeliveryMode_Inclusive
  else Err (SubscriptionError_Repository ("unknown stored delivery mode: " +:+ value)).

(** The CHECK on event types: 1 to 200 lower-case characters in dot-separated
    segments of the shape [a-z][a-z0-9_-]* *)
Definition event_type_check (value : string) : bool :=
  bool_decide (1 <= chars_count value <= 200)%Z && bool_decide (to_ascii_lowercase value = value)
  && forallb is_valid_action_segment (split_char "." value).

Definition active_subscriptions (service_id : Uuid) (event_type : string) (T : Tables) :
  list (Uuid * SubscriptionRow) :=
  select (fun _ row => bool_decide (sub_service_id row = service_id)
                       && String.eqb (sub_event_type row) event_type
                       && bool_decide (sub_disabled_at row = None)) (subscriptions T).

Definition insert_subscription_sql (id service_id : Uuid) (event_type delivery_mode : string)
  (created_at : Z) (T : Tables) : Result PostgresError (Z * Tables) :=
  require (event_type_check event_type) (check_violation "subscriptions_event_type_check");;
  require (0 <=? created_at)%Z (check_violation "subscriptions_created_at_check");;
  require (String.eqb delivery_mode "inclusive") (check_violation "subscriptions_delivery_mode_check");;
  require (bool_decide (subscriptions T !! id = None)) (unique_violation "subscriptions_pkey");;
  require (bool_decide (active_subscriptions service_id event_type T = []))
    (unique_violation "subscriptions_one_active_event_idx");;
  references (identities T) service_id "subscriptions_service_id_fkey";;
  Ok (1%Z, with_subscriptions
    (<[id := MkSubscriptionRow service_id event_type delivery_mode created_at None]>
       (subscriptions T)) T).

(** DISABLE_SQL, behind the trigger [protect_subscription_history]: its WHERE
    clause only reaches rows the trigger lets through. *)
Definition disable_subscription_sql (id service_id : Uuid) (disabled_at : Z) (T : Tables) :
  Result PostgresError (option (Uuid * SubscriptionRow) * Tables) :=
  match subscriptions T !! id with
  | Some row =>
      if bool_decide (sub_service_id row = service_id) && bool_decide (sub_disabled_at row = None)
         && (sub_created_at row <=? disabled_at)%Z
      then
        let row := MkSubscriptionRow (sub_service_id row) (sub_event_type row)
                     (sub_delivery_mode row) (sub_created_at row) (Some disabled_at) in
        Ok (Some (id, row), with_subscriptions (<[id := row]> (subscriptions T)) T)
      else Ok (None, T)
  | None => Ok (None, T)
  end.

Definition insert_subscription_audit_sql (row : SubscriptionAuditRow) (T : Tables) :
  Result PostgresError (Z * Tables) :=
  require (bool_decide (suba_action row ∈ ["created"; "disabled"]))
    (check_violation "subscription_audit_action_check");;
  require (0 <=? suba_recorded_at row)%Z (check_violation "subscription_audit_recorded_at_check");;
  Ok (1%Z, with_subscription_audit (subscription_audit T ++ [row]) T).

Definition list_subscriptions_sql (active_only : bool) (service_id : Uuid) (T : Tables) :
  list (Uuid * SubscriptionRow) :=
  order_by (created_order sub_created_at)
    (select (fun _ row => bool_decide (sub_service_id row = service_id)
                          && (negb active_only || bool_decide (sub_disabled_at row = None)))
       (subscriptions T)).

Definition find_active_by_event_type_sql (event_type : string) (T : Tables) :
  list (Uuid * SubscriptionRow) :=
  order_by (created_order sub_created_at)
    (select (fun _ row => String.eqb (sub_event_type row) event_type
                          && bool_decide (sub_disabled_at row = None)) (subscriptions T)).

Section adapter.
  Context {P : Platform}.

Definition SubscriptionId_to_string (id : SubscriptionId) : string :=
  uuid_print (SubscriptionId_as_uuid id).
Definition SubscriptionId_from_str (value : string) : Result SubscriptionError SubscriptionId :=
  match uuid_parse value with
  | Some u => Ok (MkSubscriptionId u)
  | None => Err SubscriptionError_InvalidSubscriptionId
  end.

Definition SubscriptionError_to_string (e : SubscriptionError) : string :=
  match e with
  | SubscriptionError_AlreadyExists id =>
      "subscription " +:+ SubscriptionId_to_string id +:+ " already exists"
  | SubscriptionError_AlreadyDisabled id =>
      "subscription " +:+ SubscriptionId_to_string id +:+ " is already disabled"
  | SubscriptionError_DuplicateActive service_id event_type =>
      "service " +:+ ActorId_to_string service_id +:+ " already has an active subscription for "
      +:+ EventType_as_str event_type
  | SubscriptionError_InvalidEventType =>
      "event type must contain lowercase dot-separated name segments"
  | SubscriptionError_InvalidSubscriptionId => "subscription ID must be a valid UUID"
  | SubscriptionError_InvalidTimestamp => "subscription timestamp is invalid"
  | SubscriptionError_NotFound id =>
      "subscription " +:+ SubscriptionId_to_string id +:+ " was not found"
  | SubscriptionError_Repository message => "subscription repository failed: " +:+ message
  | SubscriptionError_UnknownService id =>
      "service identity " +:+ ActorId_to_string id +:+ " was not found"
  end.

Definition subscription_repository_error (message : string) : SubscriptionError :=
  SubscriptionError_Repository message.
Definition subscription_query_error (e : PostgresError) : SubscriptionError :=
  subscription_repository_error (postgres_error_text e).

Definition subscription_from_row (kv : Uuid * SubscriptionRow) : Result SubscriptionError Subscription :=
  let '(id, row) := kv in
  id ← SubscriptionId_from_str (uuid_print id);
  service_id ← result_map_err
    (fun error => SubscriptionError_Repository
       ("invalid stored service ID: " +:+ IdentityError_to_string error))
    (ActorId_from_str (uuid_print (sub_service_id row)));
  event_type ← EventType_new (sub_event_type row);
  delivery_mode ← delivery_mode_from_sql (sub_delivery_mode row);
  result_map_err (fun _ => SubscriptionError_Repository "stored subscription is invalid")
    (Subscription_restore id service_id event_type delivery_mode (sub_created_at row)
       (sub_disabled_at row)).

Definition append_subscription_audit (s : Subscription) (action : string) (recorded_at : Z) :
  Db Tables SubscriptionError unit :=
  execute subscription_query_error
    (insert_subscription_audit_sql
       (MkSubscriptionAuditRow (SubscriptionId_as_uuid (subscription_id s))
          (ActorId_as_uuid (subscription_service_id s)) (EventType_as_str (subscription_event_type s))
          (delivery_mode_to_sql (subscription_delivery_mode s)) action recorded_at));;
  mret tt.

Definition PostgresSubscription_insert (s : Subscription) : Db Tables SubscriptionError unit :=
  connection subscription_repository_error;;
  transaction subscription_query_error;;
  rows ← execute
    (fun error =>
       if is_unique_violation error
       then if bool_decide (error_constraint error = Some "subscriptions_pkey")
            then SubscriptionError_AlreadyExists (subscription_id s)
            else SubscriptionError_DuplicateActive (subscription_service_id s)
                   (subscription_event_type s)
       else if is_foreign_key_violation error
       then SubscriptionError_UnknownService (subscription_service_id s)
       else subscription_query_error error)
    (insert_subscription_sql (SubscriptionId_as_uuid (subscription_id s))
      (ActorId_as_uuid (subscription_service_id s)) (EventType_as_str (subscription_event_type s))
      (delivery_mode_to_sql (subscription_delivery_mode s)) (subscription_created_at s));
  if negb (rows =? 1)%Z
  then throw (SubscriptionError_Repository
                ("subscription insert changed " +:+ show_i64 rows +:+ " rows"))
  else
    append_subscription_audit s "created" (subscription_created_at s);;
    commit subscription_query_error.

Definition list_subscriptions (service_id : ActorId) (active_only : bool) :
  Db Tables SubscriptionError (list Subscription) :=
  connection subscription_repository_error;;
  rows ← query subscription_query_error
    (list_subscriptions_sql active_only (ActorId_as_uuid service_id));
  lift (collect subscription_from_row rows).

Definition PostgresSubscription_find_active_by_event_type (event_type : EventType) :
  Db Tables SubscriptionError (list Subscription) :=
  connection subscription_repository_error;;
  rows ← query subscription_query_error
    (find_active_by_event_type_sql (EventType_as_str event_type));
  lift (collect subscription_from_row rows).

Definition classify_failed_disable (service_id : ActorId) (id : SubscriptionId) (disabled_at : Z) :
  Db Tables SubscriptionError SubscriptionError :=
  row ← query subscription_query_error (fun T => subscriptions T !! SubscriptionId_as_uuid id);
  match row with
  | None => mret (SubscriptionError_NotFound id)
  | Some row =>
      owner ← lift (result_map_err
        (fun error => SubscriptionError_Repository
           ("invalid stored service ID: " +:+ IdentityError_to_string error))
        (ActorId_from_str (uuid_print (sub_service_id row))));
      mret (if negb (bool_decide (owner = service_id)) then SubscriptionError_NotFound id
            else if bool_decide (is_Some (sub_disabled_at row))
            then SubscriptionError_AlreadyDisabled id
            else if (disabled_at <? sub_created_at row)%Z then SubscriptionError_InvalidTimestamp
            else SubscriptionError_Repository "subscription disable was not applied")
  end.

Definition PostgresSubscription_disable (service_id : ActorId) (id : SubscriptionId)
  (disabled_at : Z) : Db Tables SubscriptionError Subscription :=
  if (disabled_at <? 0)%Z then throw SubscriptionError_InvalidTimestamp
  else
    connection subscription_repository_error;;
    transaction subscription_query_error;;
    row ← execute subscription_query_error
      (disable_subscription_sql (SubscriptionId_as_uuid id) (ActorId_as_uuid service_id) disabled_at);
    match row with
    | None => error ← classify_failed_disable service_id id disabled_at; throw error
    | Some row =>
        subscription ← lift (subscription_from_row row);
        append_subscription_audit subscription "disabled" disabled_at;;
        commit subscription_query_error;;
        mret subscription
    end.

Definition PostgresSubscriptionRepository : SubscriptionRepository Tables := {|
  subscription_repository_insert := PostgresSubscription_insert;
  subscription_repository_list := fun service_id => list_subscriptions service_id false;
  subscription_repository_list_active := fun service_id => list_subscriptions service_id true;
  subscription_repository_disable := PostgresSubscription_disable;
  subscription_repository_find_active := PostgresSubscription_find_active_by_event_type |}.
End adapter.

(** ** Histories of subscriptions *)

(** A row is immutable except for its first disabling. *)
Definition subscription_succeeds (row row' : SubscriptionRow) : Prop :=
  row' = row \/
  (sub_disabled_at row = None /\ exists t, (sub_created_at row <= t)%Z /\
     row' = MkSubscriptionRow (sub_service_id row) (sub_event_type row) (sub_delivery_mode row)
              (sub_created_at row) (Some t)).

Definition subscription_history (T T' : Tables) : Prop :=
  forall id row, subscriptions T !! id = Some row ->
    exists row', subscriptions T' !! id = Some row' /\ subscription_succeeds row row'.

Lemma subscription_succeeds_trans row1 row2 row3 :
  subscription_succeeds row1 row2 -> subscription_succeeds row2 row3 -> subscription_succeeds row1 row3.
Proof.
  intros [->|(Hn & t & Ht & ->)]; [done|]. intros [->|(Hn' & _)]; [right; eauto | done].
Qed.

#[export] Instance subscription_history_preorder : PreOrder subscription_history.
Proof.
  split.
  - intros T id row Hrow. exists row. split; [done | by left].
  - intros T1 T2 T3 H12 H23 id row Hrow.
    destruct (H12 id row Hrow) as (row2 & Hrow2 & H2).
    destruct (H23 id row2 Hrow2) as (row3 & Hrow3 & H3). exists row3.
    split; [done | by eapply subscription_succeeds_trans].
Qed.

(** At most one active subscription per service and event type *)
Definition one_active (T : Tables) : Prop := forall id row id' row',
  subscriptions T !! id = Some row -> subscriptions T !! id' = Some row' ->
  sub_disabled_at row = None -> sub_disabled_at row' = None ->
  sub_service_id row = sub_service_id row' -> sub_event_type row = sub_event_type row' -> id = id'.

Section theory.
Context {P : Platform} {HP : PlatformLaws P}.

Lemma insert_subscription_Ok id s e m t T n T' :
  insert_subscription_sql id s e m t T = Ok (n, T') ->
  n = 1%Z /\ subscriptions T !! id = None /\ active_subscriptions s e T = [] /\
  T' = with_subscriptions (<[id := MkSubscriptionRow s e m t None]> (subscriptions T)) T.
Proof.
  unfold insert_subscription_sql. intros H. result_inv.
  repeat match goal with H : require _ _ = Ok _ |- _ => apply require_Ok in H end.
  by repeat match goal with H : bool_decide _ = true |- _ => apply bool_decide_eq_true in H end.
Qed.

Lemma disable_subscription_Ok id s t T o T' :
  disable_subscription_sql id s t T = Ok (o, T') ->
  (o = None /\ T' = T) \/
  exists row, subscriptions T !! id = Some row /\ sub_service_id row = s /\
    sub_disabled_at row = None /\ (sub_created_at row <= t)%Z /\
    let row' := MkSubscriptionRow (sub_service_id row) (sub_event_type row)
                  (sub_delivery_mode row) (sub_created_at row) (Some t) in
    o = Some (id, row') /\ T' = with_subscriptions (<[id := row']> (subscriptions T)) T.
Proof.
  unfold disable_subscription_sql. destruct (subscriptions T !! id) as [row|] eqn:Hrow;
    [|intros H; result_inv; auto].
  destruct (_ && _) eqn:Hb; intros H; result_inv; [right | auto].
  rewrite !andb_true_iff, !bool_decide_eq_true, Z.leb_le in Hb. exists row. naive_solver.
Qed.

Lemma insert_subscription_audit_Ok row T n T' :
  insert_subscription_audit_sql row T = Ok (n, T') ->
  T' = with_subscription_audit (subscription_audit T ++ [row]) T.
Proof. unfold insert_subscription_audit_sql. intros H. by result_inv. Qed.

(** The two relations the mutating statements respect *)
Definition subscription_step (T T' : Tables) : Prop :=
  subscription_history T T' /\ preserves one_active T T'.

#[export] Instance subscription_step_preorder : PreOrder subscription_step.
Proof.
  split; [by intros T; split|]. intros T1 T2 T3 [H1 H2] [H3 H4]. split; by etrans.
Qed.

Lemma insert_subscription_step id s e m t T n T' :
  insert_subscription_sql id s e m t T = Ok (n, T') -> subscription_step T T'.
Proof.
  intros (_ & Hnew & Hact & ->)%insert_subscription_Ok. split.
  - intros i row Hi. exists row. simpl. rewrite lookup_insert_ne by congruence.
    split; [done | by left].
  - intros Hone i row i' row'. simpl.
    assert (forall j r, subscriptions T !! j = Some r -> sub_disabled_at r = None ->
      sub_service_id r = s -> sub_event_type r = e -> False) as Hno.
    { intros j r Hj Hd Hs He.
      assert ((j, r) ∈ active_subscriptions s e T) as Hin.
      { apply select_In. rewrite Hs, He, Hd, !bool_decide_true, String.eqb_refl by done. done. }
      rewrite Hact in Hin. by apply elem_of_nil in Hin. }
    intros [[<- <-]|[_ Hi]]%lookup_insert_Some [[<- <-]|[_ Hi']]%lookup_insert_Some Hd Hd' Hs He;
      simpl in *; [done | | | by eapply Hone]; exfalso; by eapply Hno.
Qed.

Lemma disable_subscription_step id s t T o T' :
  disable_subscription_sql id s t T = Ok (o, T') -> subscription_step T T'.
Proof.
  intros [[_ ->]|(row & Hrow & Hs & Hd & Ht & _ & ->)]%disable_subscription_Ok; [done|].
  split.
  - intros i r Hi. simpl. destruct (decide (id = i)) as [<-|Hne].
    + rewrite lookup_insert_eq. simplify_eq. eexists; split; [done|]. right. eauto.
    + rewrite lookup_insert_ne by done. exists r. split; [done | by left].
  - intros Hone i r i' r'. simpl.
    intros [[<- <-]|[_ Hi]]%lookup_insert_Some [[<- <-]|[_ Hi']]%lookup_insert_Some; simpl; try done.
    by eapply Hone.
Qed.

Lemma insert_subscription_audit_step row T n T' :
  insert_subscription_audit_sql row T = Ok (n, T') -> subscription_step T T'.
Proof.
  intros ->%insert_subscription_audit_Ok. split; [|by intros ?].
  intros i r Hr. exists r. split; [done | by left].
Qed.

(** Subscriptions keep their history: creating and disabling, under any
    faults, never change a stored subscription except for its first disabling,
    and keep at most one active subscription per service and event type. *)
Theorem subscriptions_keep_history service_id event_type mode id now :
  history subscription_step
    (SubscriptionService_create PostgresSubscriptionRepository service_id event_type mode now) /\
  history subscription_step
    (SubscriptionService_disable PostgresSubscriptionRepository service_id id now).
Proof.
  unfold SubscriptionService_create, SubscriptionService_disable. simpl.
  unfold PostgresSubscription_insert, PostgresSubscription_disable, append_subscription_audit,
    classify_failed_disable.
  split; db_walk; eauto using insert_subscription_step, disable_subscription_step,
    insert_subscription_audit_step.
Qed.

(** Another service's subscription looks absent: disabling it changes
    nothing and answers exactly as for an id that does not exist. *)
Theorem disable_hides_foreign_subscription service_id id now T ns row :
  (0 <= now)%Z -> subscriptions T !! SubscriptionId_as_uuid id = Some row ->
  sub_service_id row <> ActorId_as_uuid service_id ->
  SubscriptionService_disable PostgresSubscriptionRepository service_id id now (start T [] ns) =
    (Err (SubscriptionError_NotFound id), start T [] ns) /\
  forall T', subscriptions T' !! SubscriptionId_as_uuid id = None ->
    SubscriptionService_disable PostgresSubscriptionRepository service_id id now (start T' [] ns) =
      (Err (SubscriptionError_NotFound id), start T' [] ns).
Proof.
  intros Hnow Hrow Hs. unfold SubscriptionService_disable. simpl.
  unfold PostgresSubscription_disable, classify_failed_disable, start.
  rewrite !(proj2 (Z.ltb_ge now 0)) by lia. split; [|intros T' Hnone].
  - db_run. rewrite (execute_run T T _ _ _ None T)
      by (unfold disable_subscription_sql; rewrite Hrow, (bool_decide_eq_false_2 _ Hs); done).
    db_run. rewrite Hrow. unfold ActorId_from_str. rewrite uuid_parse_print. simpl.
    db_run. rewrite bool_decide_eq_false_2; [done|]. intros <-. by apply Hs.
  - db_run. rewrite (execute_run T' T' _ _ _ None T')
      by (unfold disable_subscription_sql; by rewrite Hnone).
    db_run. by rewrite Hnone.
Qed.

(** Every action a request can carry is an event type, the same text: the
    conversion that request routing makes cannot fail. *)
Theorem action_is_event_type value action :
  ActionName_new value = Ok action ->
  EventType_new (ActionName_as_str action) = Ok (MkEventType value).
Proof.
  unfold ActionName_new. intros H. result_inv. simpl. rename Heqb into Hv.
  apply negb_false_iff, valid_action_name_facts in Hv as (He & Hl & Hseg & Hg & _ & _).
  unfold EventType_new. rewrite trim_graphic, chars_count_graphic by done.
  rewrite He. change valid_event_segment with is_valid_action_segment. rewrite Hseg.
  unfold MAX_EVENT_TYPE_LENGTH, MAX_ACTION_NAME_LENGTH in *. by rewrite (proj2 (Z.ltb_ge _ _)) by lia.
Qed.
End theory.
