(* ===== verification/Requests.v ===== *)
(** * Requests: acceptance of requests and materialization of routes

    [src/kernel/requests.rs], [src/infrastructure/postgres_request_repository.rs]
    and [src/infrastructure/postgres_route_repository.rs], with the tables and
    triggers of migrations 0008, 0014 and 0016. The identifiers and action names
    are in RequestNames. *)

From S2P Require Import Prelude Text Platform Database Schema Identity RequestNames Authority.
From S2P Require Import Subscriptions.
From Stdlib Require Import Ascii.

Record Request := MkRequest {
  request_id : RequestId;
  request_source_service : ActorId;
  request_action : ActionName;
  request_scope : Scope;
  request_schema_versions : SchemaVersionRefs;
}.

Record RequestFingerprint := MkRequestFingerprint { RequestFingerprint_as_bytes : bytes }.

#[export] Instance Request_eq_dec : EqDecision Request.
Proof. solve_decision. Defined.
#[export] Instance RequestFingerprint_eq_dec : EqDecision RequestFingerprint.
Proof. solve_decision. Defined.

Record AcceptedRequest := MkAcceptedRequest {
  accepted_request : Request;
  accepted_fingerprint : RequestFingerprint;
  accepted_at : Z;
}.

#[export] Instance AcceptedRequest_eq_dec : EqDecision AcceptedRequest.
Proof. solve_decision. Defined.

Definition AcceptedRequest_restore (request : Request) (fingerprint : RequestFingerprint)
  (accepted_at : Z) : Result RequestError AcceptedRequest :=
  if (accepted_at <? 0)%Z then Err RequestError_InvalidAcceptedAt
  else Ok (MkAcceptedRequest request fingerprint accepted_at).

Inductive RequestAcceptance :=
| RequestAcceptance_Accepted (record : AcceptedRequest)
| RequestAcceptance_SafeRetry (record : AcceptedRequest).

#[export] Instance RequestAcceptance_eq_dec : EqDecision RequestAcceptance.
Proof. solve_decision. Defined.

Definition RequestAcceptance_record (a : RequestAcceptance) : AcceptedRequest :=
  match a with RequestAcceptance_Accepted record | RequestAcceptance_SafeRetry record => record end.

Definition RequestAcceptance_is_fresh (a : RequestAcceptance) : bool :=
  match a with RequestAcceptance_Accepted _ => true | RequestAcceptance_SafeRetry _ => false end.

Definition Request_restore (id : RequestId) (source_service : ActorId) (action : string)
  (scope : Scope) (schema_versions : SchemaVersionRefs) : Result RequestError Request :=
  action ← ActionName_new action;
  Ok (MkRequest id source_service action scope schema_versions).

(** [Request::create] with the random id it draws *)
Definition Request_create (id : RequestId) (source_service : ActorId) (action : string)
  (scope : Scope) (schema_versions : SchemaVersionRefs) : Result RequestError Request :=
  Request_restore id source_service action scope schema_versions.

(** [hash_field]: the length as a [u64], then the bytes *)
Definition hash_field (b : bytes) : bytes :=
  be_bytes 8 (N.of_nat (String.length b)) +:+ b.

Record Route := MkRoute {
  route_id : RouteId;
  route_source_service : ActorId;
  route_request_id : RequestId;
  route_subscription_id : SubscriptionId;
  route_destination_service : ActorId;
  route_created_at : Z;
}.

#[export] Instance Route_eq_dec : EqDecision Route.
Proof. solve_decision. Defined.

Definition Route_restore (id : RouteId) (source_service : ActorId) (request_id : RequestId)
  (subscription_id : SubscriptionId) (destination_service : ActorId) (created_at : Z) :
  Result RequestError Route :=
  if (created_at <? 0)%Z then Err RequestError_InvalidAcceptedAt
  else Ok (MkRoute id source_service request_id subscription_id destination_service created_at).

(** [Route::create] with the random id it draws *)
Definition Route_create (id : RouteId) (source_service : ActorId) (request_id : RequestId)
  (subscription_id : SubscriptionId) (destination_service : ActorId) (created_at : Z) :
  Result RequestError Route :=
  Route_restore id source_service request_id subscription_id destination_service created_at.

(** ** The services over their repositories *)

Record RequestRepository (S : Type) := MkRequestRepository {
  request_repository_accept : Request -> RequestFingerprint -> Db S RequestError RequestAcceptance;
  request_repository_find : ActorId -> RequestId -> Db S RequestError (option AcceptedRequest);
}.
Arguments request_repository_accept {S}.
Arguments request_repository_find {S}.

Definition RequestService_accept {S} (R : RequestRepository S) := request_repository_accept R.
Definition RequestService_find {S} (R : RequestRepository S) := request_repository_find R.

Record RouteRepository (S : Type) := MkRouteRepository {
  route_repository_materialize : Route -> Db S RequestError Route;
  route_repository_find : RouteId -> Db S RequestError (option Route);
  route_repository_list_for_request : RequestId -> Db S RequestError (list Route);
  route_repository_list_for_destination : ActorId -> Db S RequestError (list Route);
}.
Arguments route_repository_materialize {S}.
Arguments route_repository_find {S}.
Arguments route_repository_list_for_request {S}.
Arguments route_repository_list_for_destination {S}.

Definition RouteService_materialize {S} (R : RouteRepository S) (source_service : ActorId)
  (request_id : RequestId) (subscription_id : SubscriptionId) (destination_service : ActorId)
  (now : Z) : Db S RequestError Route :=
  id ← new_uuid;
  route ← lift (Route_create (MkRouteId id) source_service request_id subscription_id
                  destination_service now);
  route_repository_materialize R route.

Definition RouteService_find {S} (R : RouteRepository S) := route_repository_find R.
Definition RouteService_list_for_request {S} (R : RouteRepository S) :=
  route_repository_list_for_request R.
Definition RouteService_list_for_destination {S} (R : RouteRepository S) :=
  route_repository_list_for_destination R.

(** ** The statements of the adapters *)

(** INSERT_SQL: [None] when the primary key conflicts. Foreign keys are checked
    after the row is written. *)
Definition insert_accepted_request_sql (source request : Uuid) (row : AcceptedRequestRow) (T : Tables) :
  Result PostgresError (option ((Uuid * Uuid) * AcceptedRequestRow) * Tables) :=
  require (dotted_name_check (ar_action row)) (check_violation "accepted_requests_action_check");;
  require (scope_check (ar_scope row)) (check_violation "accepted_requests_scope_check");;
  require (octet_length (ar_semantic_fingerprint row) =? 32)%Z
    (check_violation "accepted_requests_semantic_fingerprint_check");;
  if bool_decide (is_Some (accepted_requests T !! (source, request))) then Ok (None, T)
  else
    references (identities T) source "accepted_requests_source_service_id_fkey";;
    references (schema_versions T) (ar_artifact_schema_version_id row)
      "accepted_requests_artifact_schema_version_fk";;
    references (schema_versions T) (ar_permission_policy_schema_version_id row)
      "accepted_requests_permission_policy_schema_version_fk";;
    Ok (Some ((source, request), row),
        with_accepted_requests (<[(source, request) := row]> (accepted_requests T)) T).

Definition find_accepted_request_sql (source request : Uuid) (T : Tables) :
  option ((Uuid * Uuid) * AcceptedRequestRow) :=
  pair (source, request) <$> accepted_requests T !! (source, request).

(** AUDIT_SQL *)
Definition insert_acceptance_audit_sql (row : AcceptanceAuditRow) (T : Tables) :
  Result PostgresError (Z * Tables) :=
  require (octet_length (aa_attempted_fingerprint row) =? 32)%Z
    (check_violation "request_acceptance_audit_attempted_fingerprint_check");;
  require (bool_decide (aa_outcome row ∈ ["accepted"; "safe_retry"; "request_conflict_rejected"]))
    (check_violation "request_acceptance_audit_outcome_check");;
  references (accepted_requests T) (aa_source_service_id row, aa_request_id row)
    "request_acceptance_audit_source_service_id_request_id_fkey";;
  Ok (1%Z, with_acceptance_audit (acceptance_audit T ++ [row]) T).

Definition routes_of_match (request subscription : Uuid) (T : Tables) : list (Uuid * RouteRow) :=
  select (fun _ row => bool_decide (rr_request_id row = request)
                       && bool_decide (rr_subscription_id row = subscription)) (request_routes T).

(** INSERT_SQL of the routes: only a conflict on the match key is ignored. *)
Definition insert_route_sql (id : Uuid) (row : RouteRow) (T : Tables) :
  Result PostgresError (option (Uuid * RouteRow) * Tables) :=
  require (0 <=? rr_created_at row)%Z (check_violation "request_routes_created_at_check");;
  if bool_decide (routes_of_match (rr_request_id row) (rr_subscription_id row) T <> [])
  then Ok (None, T)
  else
    require (bool_decide (request_routes T !! id = None)) (unique_violation "request_routes_pkey");;
    references (subscriptions T) (rr_subscription_id row) "request_routes_subscription_id_fkey";;
    references (identities T) (rr_destination_service_id row)
      "request_routes_destination_service_id_fkey";;
    references (accepted_requests T) (rr_source_service_id row, rr_request_id row)
      "request_routes_accepted_request_fk";;
    Ok (Some (id, row), with_request_routes (<[id := row]> (request_routes T)) T).

Definition find_route_by_match_sql (request subscription : Uuid) (T : Tables) : option (Uuid * RouteRow) :=
  head (routes_of_match request subscription T).

Definition list_routes_sql (where_ : RouteRow -> bool) (T : Tables) : list (Uuid * RouteRow) :=
  order_by (created_order rr_created_at) (select (fun _ => where_) (request_routes T)).

Section adapters.
  Context {P : Platform}.

Definition Request_fingerprint_input (request : Request) : bytes :=
  uuid_as_bytes (ActorId_as_uuid (request_source_service request))
  +:+ hash_field (ActionName_as_str (request_action request))
  +:+ hash_field (Scope_as_str (request_scope request))
  +:+ uuid_as_bytes (SchemaVersionId_as_uuid (refs_artifact (request_schema_versions request)))
  +:+ uuid_as_bytes (SchemaVersionId_as_uuid (refs_permission_policy (request_schema_versions request))).

Definition Request_fingerprint (request : Request) : RequestFingerprint :=
  MkRequestFingerprint (sha256 (Request_fingerprint_input request)).

Definition request_repository_error (message : string) : RequestError :=
  RequestError_Repository message.
Definition request_query_error (e : PostgresError) : RequestError :=
  request_repository_error (postgres_error_text e).

(** *** [postgres_request_repository.rs] *)

Definition accepted_request_from_row (kv : (Uuid * Uuid) * AcceptedRequestRow) :
  Result RequestError AcceptedRequest :=
  let '((source, id), row) := kv in
  source_service ← result_map_err
    (fun error => RequestError_Repository ("invalid stored source ID: " +:+ IdentityError_to_string error))
    (ActorId_from_str (uuid_print source));
  request_id ← RequestId_from_str (uuid_print id);
  scope ← result_map_err (fun _ => RequestError_Repository "stored request scope is invalid")
    (Scope_new (ar_scope row));
  artifact ← result_map_err
    (fun _ => RequestError_Repository "stored artifact schema version ID is invalid")
    (SchemaVersionId_from_str (uuid_print (ar_artifact_schema_version_id row)));
  permission_policy ← result_map_err
    (fun _ => RequestError_Repository "stored permission-policy schema version ID is invalid")
    (SchemaVersionId_from_str (uuid_print (ar_permission_policy_schema_version_id row)));
  request ← result_map_err (fun _ => RequestError_Repository "stored request action is invalid")
    (Request_restore request_id source_service (ar_action row) scope
       (MkSchemaVersionRefs artifact permission_policy));
  fingerprint ← ok_or (RequestError_Repository "stored request fingerprint is invalid")
    (if (octet_length (ar_semantic_fingerprint row) =? 32)%Z
     then Some (ar_semantic_fingerprint row) else None);
  result_map_err (fun _ => RequestError_Repository "stored acceptance time is invalid")
    (AcceptedRequest_restore request (MkRequestFingerprint fingerprint) (ar_accepted_at row)).

Definition append_acceptance_audit (request : Request) (fingerprint : RequestFingerprint)
  (outcome : string) : Db Tables RequestError unit :=
  rows ← execute request_query_error
    (insert_acceptance_audit_sql
       (MkAcceptanceAuditRow (ActorId_as_uuid (request_source_service request))
          (RequestId_as_uuid (request_id request)) (ActionName_as_str (request_action request))
          (Scope_as_str (request_scope request))
          (SchemaVersionId_as_uuid (refs_artifact (request_schema_versions request)))
          (SchemaVersionId_as_uuid (refs_permission_policy (request_schema_versions request)))
          (RequestFingerprint_as_bytes fingerprint) outcome));
  if negb (rows =? 1)%Z
  then throw (RequestError_Repository
                ("request acceptance audit changed " +:+ show_i64 rows +:+ " rows"))
  else mret tt.

(** [foreign_key_violation_error] of the accepted requests *)
Definition acceptance_foreign_key_error (error : PostgresError) (source_service : ActorId) :
  option RequestError :=
  if negb (is_foreign_key_violation error) then None
  else match error_constraint error with
  | Some constraint =>
      if String.eqb constraint "accepted_requests_source_service_id_fkey"
      then Some (RequestError_UnknownSource source_service)
      else if String.eqb constraint "accepted_requests_artifact_schema_version_fk"
              || String.eqb constraint "accepted_requests_permission_policy_schema_version_fk"
      then Some RequestError_UnknownSchemaVersion
      else None
  | None => None
  end.

Definition accepted_row (request : Request) (fingerprint : RequestFingerprint) (at_ : Z) :
  AcceptedRequestRow :=
  MkAcceptedRequestRow (ActionName_as_str (request_action request))
    (Scope_as_str (request_scope request))
    (SchemaVersionId_as_uuid (refs_artifact (request_schema_versions request)))
    (SchemaVersionId_as_uuid (refs_permission_policy (request_schema_versions request)))
    (RequestFingerprint_as_bytes fingerprint) at_.

Definition PostgresRequest_accept (request : Request) (fingerprint : RequestFingerprint) :
  Db Tables RequestError RequestAcceptance :=
  let source := ActorId_as_uuid (request_source_service request) in
  let id := RequestId_as_uuid (request_id request) in
  connection request_repository_error;;
  transaction request_query_error;;
  now ← server_clock;
  inserted ← execute
    (fun error => default (request_query_error error)
       (acceptance_foreign_key_error error (request_source_service request)))
    (insert_accepted_request_sql source id (accepted_row request fingerprint now));
  match inserted with
  | Some row =>
      stored ← lift (accepted_request_from_row row);
      append_acceptance_audit request fingerprint "accepted";;
      commit request_query_error;;
      mret (RequestAcceptance_Accepted stored)
  | None =>
      row ← query request_query_error (find_accepted_request_sql source id);
      row ← lift (ok_or (RequestError_Repository
                           "conflicting request disappeared during acceptance") row);
      stored ← lift (accepted_request_from_row row);
      if negb (bool_decide (accepted_request stored = request))
         || negb (bool_decide (accepted_fingerprint stored = fingerprint))
      then
        append_acceptance_audit request fingerprint "request_conflict_rejected";;
        commit request_query_error;;
        throw (RequestError_RequestIdConflict (request_id request))
      else
        append_acceptance_audit request fingerprint "safe_retry";;
        commit request_query_error;;
        mret (RequestAcceptance_SafeRetry stored)
  end.

Definition PostgresRequest_find (source_service : ActorId) (id : RequestId) :
  Db Tables RequestError (option AcceptedRequest) :=
  connection request_repository_error;;
  row ← query request_query_error
    (find_accepted_request_sql (ActorId_as_uuid source_service) (RequestId_as_uuid id));
  match row with
  | Some row => stored ← lift (accepted_request_from_row row); mret (Some stored)
  | None => mret None
  end.

Definition PostgresRequestRepository : RequestRepository Tables := {|
  request_repository_accept := PostgresRequest_accept;
  request_repository_find := PostgresRequest_find |}.

(** *** [postgres_route_repository.rs] *)

Definition parse_actor_id (value : Uuid) (column : string) : Result RequestError ActorId :=
  result_map_err
    (fun error => RequestError_Repository
       ("invalid stored " +:+ column +:+ ": " +:+ IdentityError_to_string error))
    (ActorId_from_str (uuid_print value)).

Definition route_from_row (kv : Uuid * RouteRow) : Result RequestError Route :=
  let '(id, row) := kv in
  id ← RouteId_from_str (uuid_print id);
  source_service ← parse_actor_id (rr_source_service_id row) "source_service_id";
  request_id ← RequestId_from_str (uuid_print (rr_request_id row));
  subscription_id ← result_map_err
    (fun _ => RequestError_Repository "stored route subscription ID is invalid")
    (SubscriptionId_from_str (uuid_print (rr_subscription_id row)));
  destination_service ← parse_actor_id (rr_destination_service_id row) "destination_service_id";
  result_map_err (fun _ => RequestError_Repository "stored route is invalid")
    (Route_restore id source_service request_id subscription_id destination_service
       (rr_created_at row)).

(** [foreign_key_violation_error] of the routes *)
Definition route_foreign_key_error (error : PostgresError) : option RequestError :=
  if negb (is_foreign_key_violation error) then None
  else match error_constraint error with
  | Some constraint =>
      if String.eqb constraint "request_routes_subscription_id_fkey"
      then Some RequestError_UnknownSubscription
      else if String.eqb constraint "request_routes_accepted_request_fk"
              || String.eqb constraint "request_routes_destination_service_id_fkey"
      then Some (RequestError_Repository
                   "route references an unknown request or destination identity")
      else None
  | None => None
  end.

Definition route_row (route : Route) : RouteRow :=
  MkRouteRow (ActorId_as_uuid (route_source_service route))
    (RequestId_as_uuid (route_request_id route))
    (SubscriptionId_as_uuid (route_subscription_id route))
    (ActorId_as_uuid (route_destination_service route)) (route_created_at route).

Definition PostgresRoute_materialize (route : Route) : Db Tables RequestError Route :=
  connection request_repository_error;;
  inserted ← autocommit
    (fun error => default (request_query_error error) (route_foreign_key_error error))
    (insert_route_sql (RouteId_as_uuid (route_id route)) (route_row route));
  match inserted with
  | Some row => lift (route_from_row row)
  | None =>
      existing ← query request_query_error
        (find_route_by_match_sql (RequestId_as_uuid (route_request_id route))
           (SubscriptionId_as_uuid (route_subscription_id route)));
      existing ← lift (ok_or (RequestError_Repository
                                "conflicting route disappeared during materialization") existing);
      lift (route_from_row existing)
  end.

Definition PostgresRoute_find (id : RouteId) : Db Tables RequestError (option Route) :=
  connection request_repository_error;;
  row ← query request_query_error (fun T => pair (RouteId_as_uuid id) <$> request_routes T !! RouteId_as_uuid id);
  match row with
  | Some row => route ← lift (route_from_row row); mret (Some route)
  | None => mret None
  end.

Definition PostgresRoute_list_for_request (id : RequestId) : Db Tables RequestError (list Route) :=
  connection request_repository_error;;
  rows ← query request_query_error
    (list_routes_sql (fun row => bool_decide (rr_request_id row = RequestId_as_uuid id)));
  lift (collect route_from_row rows).

Definition PostgresRoute_list_for_destination (service : ActorId) : Db Tables RequestError (list Route) :=
  connection request_repository_error;;
  rows ← query request_query_error
    (list_routes_sql (fun row => bool_decide (rr_destination_service_id row = ActorId_as_uuid service)));
  lift (collect route_from_row rows).

Definition PostgresRouteRepository : RouteRepository Tables := {|
  route_repository_materialize := PostgresRoute_materialize;
  route_repository_find := PostgresRoute_find;
  route_repository_list_for_request := PostgresRoute_list_for_request;
  route_repository_list_for_destination := PostgresRoute_list_for_destination |}.
End adapters.

(** ** Requests that the kernel can hold *)

#[export] Instance AcceptedRequestRow_eq_dec : EqDecision AcceptedRequestRow.
Proof. solve_decision. Defined.

(** What [ActionName::new] and [Scope::new] leave behind. The check of the table
    on scopes follows from [Scope::new] for text in UTF-8. *)
Record request_wf (request : Request) : Prop := {
  rwf_action : ActionName_new (ActionName_as_str (request_action request)) = Ok (request_action request);
  rwf_scope : Scope_new (Scope_as_str (request_scope request)) = Ok (request_scope request);
  rwf_scope_check : scope_check (Scope_as_str (request_scope request)) = true;
}.

(** Every stored row was written for such a request. *)
Definition accepted_wf (T : Tables) : Prop := forall source id row,
  accepted_requests T !! (source, id) = Some row ->
  exists request fingerprint, request_wf request /\
    String.length (RequestFingerprint_as_bytes fingerprint) = 32 /\ (0 <= ar_accepted_at row)%Z /\
    request_source_service request = MkActorId source /\ request_id request = MkRequestId id /\
    row = accepted_row request fingerprint (ar_accepted_at row).

(** What the request tables record for a key *)
Definition stored_request (T : Tables) (source : ActorId) (id : RequestId) : option AcceptedRequestRow :=
  accepted_requests T !! (ActorId_as_uuid source, RequestId_as_uuid id).

(** Accepted requests are append-only. *)
Definition accepted_history (T T' : Tables) : Prop :=
  accepted_requests T ⊆ accepted_requests T'.

#[export] Instance accepted_history_preorder : PreOrder accepted_history.
Proof. unfold accepted_history. split; [by intros T | intros T1 T2 T3; apply map_subseteq_po]. Qed.

(** At most one route for a request id and a subscription *)
Definition routes_unique (T : Tables) : Prop := forall i r i' r',
  request_routes T !! i = Some r -> request_routes T !! i' = Some r' ->
  rr_request_id r = rr_request_id r' -> rr_subscription_id r = rr_subscription_id r' -> i = i'.

Definition routes_step (T T' : Tables) : Prop :=
  request_routes T ⊆ request_routes T' /\ preserves routes_unique T T'.

#[export] Instance routes_step_preorder : PreOrder routes_step.
Proof.
  split; [by intros T; split|]. intros T1 T2 T3 [H1 H2] [H3 H4].
  split; [by etrans | by etrans].
Qed.

Section fingerprints.
Context {P : Platform} {HP : PlatformLaws P}.

Lemma hash_field_inj a b s t :
  (len a < 2 ^ 64)%Z -> (len b < 2 ^ 64)%Z ->
  hash_field a +:+ s = hash_field b +:+ t -> a = b /\ s = t.
Proof.
  unfold hash_field, len. intros Ha Hb. rewrite !string_app_assoc.
  intros (Hl & Hs)%string_app_inj_length; [|by rewrite !length_be_bytes].
  apply be_bytes_inj in Hl; [|change (256 ^ N.of_nat 8)%N with (2 ^ 64)%N; lia..].
  apply string_app_inj_length in Hs; [done|lia].
Qed.

Lemma request_wf_lengths request :
  request_wf request ->
  (len (ActionName_as_str (request_action request)) <= MAX_ACTION_NAME_LENGTH)%Z /\
  (len (Scope_as_str (request_scope request)) <= MAX_SCOPE_LENGTH)%Z.
Proof.
  intros [Ha Hs _]. unfold ActionName_new, is_valid_action_name in Ha. unfold Scope_new in Hs.
  destruct (is_empty (ActionName_as_str _) || (MAX_ACTION_NAME_LENGTH <? _)%Z) eqn:E; [done|].
  result_inv. bool_facts. done.
Qed.

(** The fingerprint binds the content of a request: two requests with one
    fingerprint have the same source, action, scope and schema versions, unless
    SHA-256 collides on the two encodings. *)
Theorem fingerprint_binds_content r1 r2 :
  request_wf r1 -> request_wf r2 -> Request_fingerprint r1 = Request_fingerprint r2 ->
  (request_source_service r1 = request_source_service r2 /\
   request_action r1 = request_action r2 /\ request_scope r1 = request_scope r2 /\
   request_schema_versions r1 = request_schema_versions r2) \/
  sha256_collision (Request_fingerprint_input r1) (Request_fingerprint_input r2).
Proof.
  intros Hwf1 Hwf2 [= Heq]. destruct (sha256_eq _ _ Heq) as [H|]; [left | by right].
  destruct (request_wf_lengths _ Hwf1) as [La1 Ls1], (request_wf_lengths _ Hwf2) as [La2 Ls2].
  unfold MAX_ACTION_NAME_LENGTH, MAX_SCOPE_LENGTH in *.
  destruct r1 as [i1 [s1] [a1] [c1] [[v1] [p1]]], r2 as [i2 [s2] [a2] [c2] [[v2] [p2]]].
  unfold Request_fingerprint_input in H. simpl in *.
  apply string_app_inj_length in H as [Hs H]; [|unfold uuid_as_bytes; by rewrite !length_be_bytes].
  apply hash_field_inj in H as [-> H]; [|lia..]. apply hash_field_inj in H as [-> H]; [|lia..].
  apply string_app_inj_length in H as [Hv Hp]; [|unfold uuid_as_bytes; by rewrite !length_be_bytes].
  apply uuid_as_bytes_inj in Hs as ->, Hv as ->, Hp as ->. done.
Qed.
End fingerprints.

Section acceptance.
Context {P : Platform} {HP : PlatformLaws P}.

Lemma insert_accepted_request_Ok source id row T o T' :
  insert_accepted_request_sql source id row T = Ok (o, T') ->
  (o = None /\ T' = T /\ is_Some (accepted_requests T !! (source, id))) \/
  (o = Some ((source, id), row) /\ accepted_requests T !! (source, id) = None /\
   T' = with_accepted_requests (<[(source, id) := row]> (accepted_requests T)) T).
Proof.
  unfold insert_accepted_request_sql. intros H. result_inv.
  case_bool_decide as Hs; result_inv; [by left | right].
  apply eq_None_not_Some in Hs. done.
Qed.

Lemma insert_acceptance_audit_Ok row T n T' :
  insert_acceptance_audit_sql row T = Ok (n, T') ->
  n = 1%Z /\ T' = with_acceptance_audit (acceptance_audit T ++ [row]) T.
Proof. unfold insert_acceptance_audit_sql. intros H. by result_inv. Qed.

Lemma accept_steps :
  (forall source id row T o T', insert_accepted_request_sql source id row T = Ok (o, T') ->
     accepted_history T T') /\
  (forall row T n T', insert_acceptance_audit_sql row T = Ok (n, T') -> accepted_history T T').
Proof.
  split.
  - intros * [(_ & -> & _)|(_ & Hnone & ->)]%insert_accepted_request_Ok; [done|].
    by apply insert_subseteq.
  - intros * [_ ->]%insert_acceptance_audit_Ok. by unfold accepted_history.
Qed.

(** Acceptance is append-only: whatever fails, an accepted request keeps its
    content, its fingerprint and its time of acceptance for ever. *)
Theorem accepted_requests_are_kept request fingerprint :
  history accepted_history (RequestService_accept PostgresRequestRepository request fingerprint).
Proof.
  unfold RequestService_accept. simpl. unfold PostgresRequest_accept, append_acceptance_audit.
  destruct accept_steps. db_walk; eauto.
Qed.

Lemma accepted_request_from_row_of request fingerprint now :
  request_wf request -> String.length (RequestFingerprint_as_bytes fingerprint) = 32 ->
  (0 <= now)%Z ->
  accepted_request_from_row
    ((ActorId_as_uuid (request_source_service request), RequestId_as_uuid (request_id request)),
     accepted_row request fingerprint now) = Ok (MkAcceptedRequest request fingerprint now).
Proof.
  intros [Ha Hs _] Hf Hnow. unfold accepted_request_from_row, ActorId_from_str, RequestId_from_str,
    SchemaVersionId_from_str. rewrite !uuid_parse_print. simpl. rewrite Hs. simpl.
  rewrite ?uuid_parse_print. simpl. unfold Request_restore. rewrite Ha. simpl.
  rewrite octet_length_32 by done. simpl. unfold AcceptedRequest_restore.
  rewrite (proj2 (Z.ltb_ge _ _)) by lia. simpl.
  by destruct request as [[] [] ? ? [[] []]], fingerprint.
Qed.

(** The clock reading of an acceptance *)
Definition clock_of (ns : list N) : Z := Z.of_N (hd 0%N ns mod 2 ^ 63).

Lemma accepted_request_from_row_key source id row stored :
  accepted_request_from_row ((source, id), row) = Ok stored ->
  request_source_service (accepted_request stored) = MkActorId source /\
  request_id (accepted_request stored) = MkRequestId id.
Proof.
  unfold accepted_request_from_row, ActorId_from_str, RequestId_from_str. rewrite !uuid_parse_print.
  unfold Request_restore, AcceptedRequest_restore. simpl. intros H. result_inv. done.
Qed.

(** The record of an acceptance is filed under the source of the request. *)
Lemma accept_source request fp c acceptance c' :
  RequestService_accept PostgresRequestRepository request fp c = (Ok acceptance, c') ->
  request_source_service (accepted_request (RequestAcceptance_record acceptance)) =
    request_source_service request.
Proof.
  unfold RequestService_accept. simpl. unfold PostgresRequest_accept, append_acceptance_audit.
  intros H. db_inv. match type of H with (match ?o with _ => _ end) _ = _ => destruct o as [kv|] end.
  - match goal with H : insert_accepted_request_sql _ _ _ _ = _ |- _ =>
      apply insert_accepted_request_Ok in H as [(? & _)|([= ->] & _)]; [done|] end.
    db_inv. match goal with H : accepted_request_from_row _ = Ok _ |- _ =>
      apply accepted_request_from_row_key in H as [Hs _]; simpl; rewrite Hs end.
    by destruct (request_source_service request).
  - db_inv. match goal with H : find_accepted_request_sql _ _ _ = Some _ |- _ =>
      unfold find_accepted_request_sql in H; destruct (_ !! _) in H; [|done]; injection H as <- end.
    match goal with H : accepted_request_from_row _ = Ok _ |- _ =>
      apply accepted_request_from_row_key in H as [Hs _]; simpl; rewrite Hs end.
    by destruct (request_source_service request).
Qed.

Lemma clock_of_pos ns : (0 <= clock_of ns)%Z.
Proof. unfold clock_of. apply N2Z.is_nonneg. Qed.

Lemma server_clock_draw {E} d w ns :
  server_clock (E:=E) (MkConn d w [] ns) = (Ok (clock_of ns), MkConn d w [] (tl ns) : Conn Tables).
Proof. unfold server_clock, random, clock_of. by destruct ns. Qed.

Lemma accepted_row_eq r r' f f' now now' :
  request_source_service r = request_source_service r' -> request_id r = request_id r' ->
  accepted_row r f now = accepted_row r' f' now' <-> r = r' /\ f = f' /\ now = now'.
Proof.
  destruct r as [i s [a] [c] [[v] [p]]], r' as [i' s' [a'] [c'] [[v'] [p']]], f, f'. simpl.
  intros -> ->. unfold accepted_row. simpl. naive_solver.
Qed.

(** The references of a request that the tables must know *)
Definition known_source (T : Tables) (request : Request) : Prop :=
  is_Some (identities T !! ActorId_as_uuid (request_source_service request)).
Definition known_schemas (T : Tables) (request : Request) : Prop :=
  is_Some (schema_versions T !!
    SchemaVersionId_as_uuid (refs_artifact (request_schema_versions request))) /\
  is_Some (schema_versions T !!
    SchemaVersionId_as_uuid (refs_permission_policy (request_schema_versions request))).

Lemma insert_accepted_run request fp now T :
  request_wf request -> String.length (RequestFingerprint_as_bytes fp) = 32 ->
  let source := ActorId_as_uuid (request_source_service request) in
  let id := RequestId_as_uuid (request_id request) in
  insert_accepted_request_sql source id (accepted_row request fp now) T =
  if bool_decide (is_Some (stored_request T (request_source_service request) (request_id request)))
  then Ok (None, T)
  else if negb (bool_decide (known_source T request))
  then Err (foreign_key_violation "accepted_requests_source_service_id_fkey")
  else if negb (bool_decide (is_Some (schema_versions T !!
            SchemaVersionId_as_uuid (refs_artifact (request_schema_versions request)))))
  then Err (foreign_key_violation "accepted_requests_artifact_schema_version_fk")
  else if negb (bool_decide (is_Some (schema_versions T !!
            SchemaVersionId_as_uuid (refs_permission_policy (request_schema_versions request)))))
  then Err (foreign_key_violation "accepted_requests_permission_policy_schema_version_fk")
  else Ok (Some ((source, id), accepted_row request fp now),
           with_accepted_requests (<[(source, id) := accepted_row request fp now]>
             (accepted_requests T)) T).
Proof.
  intros [Ha _ Hs] Hf. simpl. unfold ActionName_new in Ha. result_inv.
  rename Heqb into Hv. apply negb_false_iff, valid_action_name_check in Hv.
  unfold insert_accepted_request_sql, references, require. simpl.
  rewrite Hv, Hs, octet_length_32 by done. simpl. unfold stored_request, known_source.
  by repeat case_bool_decide.
Qed.

Definition acceptance_frame (T T' : Tables) : Prop :=
  identities T' = identities T /\ schema_versions T' = schema_versions T.

Lemma accept_new request fp T ns :
  request_wf request -> String.length (RequestFingerprint_as_bytes fp) = 32 ->
  stored_request T (request_source_service request) (request_id request) = None ->
  known_source T request -> known_schemas T request ->
  exists T', PostgresRequest_accept request fp (start T [] ns) =
    (Ok (RequestAcceptance_Accepted (MkAcceptedRequest request fp (clock_of ns))),
     start T' [] (tl ns)) /\
    accepted_requests T' = <[(ActorId_as_uuid (request_source_service request),
      RequestId_as_uuid (request_id request)) := accepted_row request fp (clock_of ns)]>
      (accepted_requests T) /\ acceptance_frame T T'.
Proof.
  intros Hwf Hf Hnone Hsrc [Hv Hp]. unfold PostgresRequest_accept, start. db_run.
  rewrite server_clock_draw. cbv beta iota.
  pose proof (insert_accepted_run request fp (clock_of ns) T Hwf Hf) as Hins. simpl in Hins.
  rewrite Hnone, bool_decide_false in Hins by (by intros [? ?]).
  rewrite !bool_decide_true in Hins by done. simpl in Hins.
  rewrite bind_run, (execute_run _ _ _ _ _ _ _ Hins), bind_run, lift_run.
  rewrite accepted_request_from_row_of by (done || apply clock_of_pos).
  unfold append_acceptance_audit. set (row := MkAcceptanceAuditRow _ _ _ _ _ _ _ _).
  do 2 rewrite bind_run. set (T1 := with_accepted_requests _ T).
  rewrite (execute_run T T1 (tl ns) _ (insert_acceptance_audit_sql row) 1%Z
    (with_acceptance_audit (acceptance_audit T1 ++ [row]) T1)); [by eexists|].
  unfold insert_acceptance_audit_sql, references, require. simpl.
  rewrite octet_length_32 by done. simpl.
  by rewrite lookup_insert_eq, (bool_decide_true (is_Some (Some _))).
Qed.

Lemma accept_known request fp T ns r0 f0 at0 :
  request_wf request -> String.length (RequestFingerprint_as_bytes fp) = 32 ->
  request_wf r0 -> String.length (RequestFingerprint_as_bytes f0) = 32 -> (0 <= at0)%Z ->
  request_source_service r0 = request_source_service request -> request_id r0 = request_id request ->
  stored_request T (request_source_service request) (request_id request) =
    Some (accepted_row r0 f0 at0) ->
  exists T', PostgresRequest_accept request fp (start T [] ns) =
    ((if decide (r0 = request /\ f0 = fp)
      then Ok (RequestAcceptance_SafeRetry (MkAcceptedRequest request fp at0))
      else Err (RequestError_RequestIdConflict (request_id request))), start T' [] (tl ns)) /\
    accepted_requests T' = accepted_requests T /\ acceptance_frame T T'.
Proof.
  intros Hwf Hf Hwf0 Hf0 Hat Hs Hi Hrow. unfold PostgresRequest_accept, start. db_run.
  rewrite server_clock_draw. cbv beta iota.
  pose proof (insert_accepted_run request fp (clock_of ns) T Hwf Hf) as Hins. simpl in Hins.
  rewrite Hrow, bool_decide_true in Hins by done.
  rewrite bind_run, (execute_run _ _ _ _ _ _ _ Hins), bind_run, query_run.
  unfold find_accepted_request_sql. unfold stored_request in Hrow. rewrite Hrow. cbn [fmap option_fmap option_map ok_or].
  rewrite bind_run, lift_run. rewrite <-Hs, <-Hi, bind_run, lift_run, accepted_request_from_row_of by done.
  cbn [accepted_request accepted_fingerprint]. rewrite ?Hs, ?Hi.
  assert (forall outcome, outcome ∈ ["accepted"; "safe_retry"; "request_conflict_rejected"] ->
    exists w', append_acceptance_audit request fp outcome (MkConn T T [] (tl ns)) =
      (Ok tt, MkConn T w' [] (tl ns)) /\ accepted_requests w' = accepted_requests T /\
      acceptance_frame T w') as Haudit.
  { intros outcome Ho. unfold append_acceptance_audit. rewrite bind_run.
    set (row := MkAcceptanceAuditRow _ _ _ _ _ _ _ _).
    rewrite (execute_run T T (tl ns) _ (insert_acceptance_audit_sql row) 1%Z
      (with_acceptance_audit (acceptance_audit T ++ [row]) T)); [by eexists|].
    unfold insert_acceptance_audit_sql, references, require. simpl.
    rewrite octet_length_32, (bool_decide_true _ Ho) by done. simpl.
    by rewrite Hrow, bool_decide_true. }
  destruct (decide (r0 = request /\ f0 = fp)) as [[-> ->]|Hne].
  - rewrite !bool_decide_true by done. cbn [negb orb].
    destruct (Haudit "safe_retry") as (w' & Hw & ? & ?); [set_solver|].
    rewrite bind_run, Hw. by exists w'.
  - assert (negb (bool_decide (r0 = request)) || negb (bool_decide (f0 = fp)) = true) as ->
      by (repeat case_bool_decide; naive_solver).
    destruct (Haudit "request_conflict_rejected") as (w' & Hw & ? & ?); [set_solver|].
    rewrite bind_run, Hw. by exists w'.
Qed.

Lemma accepted_wf_row T request row :
  accepted_wf T -> stored_request T (request_source_service request) (request_id request) = Some row ->
  exists r0 f0, request_wf r0 /\ String.length (RequestFingerprint_as_bytes f0) = 32 /\
    (0 <= ar_accepted_at row)%Z /\ request_source_service r0 = request_source_service request /\
    request_id r0 = request_id request /\ row = accepted_row r0 f0 (ar_accepted_at row).
Proof.
  intros Hwf Hrow. destruct (Hwf _ _ _ Hrow) as (r0 & f0 & ? & ? & ? & ? & ? & ?).
  exists r0, f0. destruct request as [[] [] ? ? ?]. done.
Qed.

(** C21: The contract of acceptance. A new request id with known references is
    accepted and stored under the server's clock; an unknown source or schema
    version is refused by name; a repeated id is a safe retry exactly when the
    whole request and its fingerprint are the stored ones, with the original
    record as answer, and otherwise a conflict. *)
Theorem accept_contract request fp T ns :
  accepted_wf T -> request_wf request -> String.length (RequestFingerprint_as_bytes fp) = 32 ->
  let run := RequestService_accept PostgresRequestRepository request fp (start T [] ns) in
  let answers r T' := run = (r, start T' [] (tl ns)) in
  match stored_request T (request_source_service request) (request_id request) with
  | Some row => exists T', accepted_requests T' = accepted_requests T /\
      if decide (row = accepted_row request fp (ar_accepted_at row))
      then answers (Ok (RequestAcceptance_SafeRetry
                          (MkAcceptedRequest request fp (ar_accepted_at row)))) T'
      else answers (Err (RequestError_RequestIdConflict (request_id request))) T'
  | None =>
      (~ known_source T request ->
         answers (Err (RequestError_UnknownSource (request_source_service request))) T) /\
      (known_source T request -> ~ known_schemas T request ->
         answers (Err RequestError_UnknownSchemaVersion) T) /\
      (known_source T request -> known_schemas T request -> exists T',
         answers (Ok (RequestAcceptance_Accepted (MkAcceptedRequest request fp (clock_of ns)))) T' /\
         stored_request T' (request_source_service request) (request_id request) =
           Some (accepted_row request fp (clock_of ns)))
  end.
Proof.
  intros Hwf Hr Hf. unfold RequestService_accept. simpl.
  destruct (stored_request T _ _) as [row|] eqn:Hrow.
  - destruct (accepted_wf_row _ _ _ Hwf Hrow) as (r0 & f0 & Hr0 & Hf0 & Hat & Hs & Hi & Heq).
    rewrite Heq in Hrow.
    destruct (accept_known request fp T ns r0 f0 _ Hr Hf Hr0 Hf0 Hat Hs Hi Hrow) as (T' & Hrun & Hacc & _).
    exists T'. split; [done|]. rewrite Hrun.
    assert (row = accepted_row request fp (ar_accepted_at row) <-> r0 = request /\ f0 = fp) as Hiff.
    { split; [|by intros [<- <-]]. intros Hrow'. rewrite Heq in Hrow' at 1.
      by apply accepted_row_eq in Hrow' as (? & ? & _). }
    destruct (decide (r0 = request /\ f0 = fp)); destruct (decide (row = _)); tauto || done.
  - split_and!; [| |intros Hsrc Hsch].
    3: { destruct (accept_new request fp T ns Hr Hf Hrow Hsrc Hsch) as (T' & Hrun & Hacc & _).
         exists T'. split; [done|]. unfold stored_request. by rewrite Hacc, lookup_insert_eq. }
    all: pose proof (insert_accepted_run request fp (clock_of ns) T Hr Hf) as Hins; simpl in Hins;
      rewrite Hrow, bool_decide_false in Hins by (by intros [? ?]);
      unfold PostgresRequest_accept, start.
    + intros Hsrc. rewrite bool_decide_false in Hins by done. db_run. rewrite server_clock_draw. cbv beta iota.
      by rewrite bind_run, (execute_fail_run _ _ _ _ _ _ Hins).
    + intros Hsrc Hsch. rewrite (bool_decide_true (known_source _ _)) in Hins by done. db_run. rewrite server_clock_draw.
      cbv beta iota. rewrite bind_run. unfold known_schemas in Hsch. simpl in Hins.
      repeat case_bool_decide; simpl in Hins; [tauto|..];
        by rewrite (execute_fail_run _ _ _ _ _ _ Hins).
Qed.

Definition request_transport_error (e : RequestError) : Prop :=
  exists message, e = RequestError_Repository message.

Lemma accept_atomic request fp :
  atomic request_transport_error (PostgresRequest_accept request fp).
Proof.
  unfold PostgresRequest_accept, append_acceptance_audit, request_query_error,
    request_repository_error, request_transport_error.
  db_walk; eauto.
Qed.

(** Acceptance keeps the stored rows well formed. *)
Lemma accepted_wf_insert T request fp now T' :
  accepted_wf T -> request_wf request -> String.length (RequestFingerprint_as_bytes fp) = 32 ->
  (0 <= now)%Z ->
  accepted_requests T' = <[(ActorId_as_uuid (request_source_service request),
      RequestId_as_uuid (request_id request)) := accepted_row request fp now]> (accepted_requests T) ->
  accepted_wf T'.
Proof.
  intros Hwf Hr Hf Hnow Hacc source id row. rewrite Hacc.
  intros [[[= <- <-] <-]|[_ Hrow]]%lookup_insert_Some; [|by apply Hwf].
  exists request, fp. by destruct request as [[] [] ? ? ?].
Qed.

(** C13: Retrying is safe: whatever happened to a first attempt, even a commit whose
    acknowledgement was lost, a second attempt with the same request succeeds,
    answers with the same record as a first attempt that succeeded, and there
    is still one stored record. *)
Theorem acceptance_retry_is_safe request fp T fs ns ns' :
  accepted_wf T -> request_wf request -> String.length (RequestFingerprint_as_bytes fp) = 32 ->
  known_source T request -> known_schemas T request ->
  stored_request T (request_source_service request) (request_id request) = None ->
  let attempt := RequestService_accept PostgresRequestRepository request fp in
  let first := attempt (start T fs ns) in
  exists acceptance T2,
    attempt (start (durable first.2) [] ns') = (Ok acceptance, start T2 [] (tl ns')) /\
    accepted_request (RequestAcceptance_record acceptance) = request /\
    accepted_fingerprint (RequestAcceptance_record acceptance) = fp /\
    (forall a, first.1 = Ok a ->
       RequestAcceptance_record a = RequestAcceptance_record acceptance /\
       RequestAcceptance_is_fresh acceptance = false) /\
    accepted_requests T2 = <[(ActorId_as_uuid (request_source_service request),
      RequestId_as_uuid (request_id request)) :=
        accepted_row request fp (accepted_at (RequestAcceptance_record acceptance))]>
      (accepted_requests T).
Proof.
  intros Hwf Hr Hf Hsrc Hsch Hnone. unfold RequestService_accept. simpl.
  destruct (accept_new request fp T ns Hr Hf Hnone Hsrc Hsch) as (T1 & Hrun & Hacc & [Fi Fs]).
  assert (exists T2, PostgresRequest_accept request fp (start T1 [] ns') =
      (Ok (RequestAcceptance_SafeRetry (MkAcceptedRequest request fp (clock_of ns))),
       start T2 [] (tl ns')) /\ accepted_requests T2 = accepted_requests T1) as (T2 & Hretry & Hacc2).
  { destruct (accept_known request fp T1 ns' request fp (clock_of ns)) as (T2 & Hretry & ? & _);
      try done; [apply clock_of_pos | |].
    - unfold stored_request. by rewrite Hacc, lookup_insert_eq.
    - exists T2. by rewrite decide_True in Hretry. }
  destruct (accept_atomic request fp (start T fs ns)) as [[H1 H2]|(e & H1 & _ & [H2|H2])];
    change (calm (start T fs ns)) with (start T [] ns) in *; rewrite ?Hrun in H1; rewrite ?Hrun in H2;
    simpl in H1, H2.
  - assert (durable (PostgresRequest_accept request fp (start T fs ns)).2 = T1) as ->.
    { change T1 with (durable (start T1 [] (tl ns))). by rewrite <-H2. }
    do 2 eexists. split; [exact Hretry|]. split_and!; try done; [|by rewrite Hacc2].
    rewrite H1. by intros a [= <-].
  - rewrite H2. destruct (accept_new request fp T ns' Hr Hf Hnone Hsrc Hsch) as (T3 & Hrun3 & Hacc3 & _).
    do 2 eexists. split; [exact Hrun3|]. split_and!; try done. by rewrite H1.
  - rewrite H2. do 2 eexists. split; [exact Hretry|]. split_and!; try done; [|by rewrite Hacc2].
    by rewrite H1.
Qed.
End acceptance.

#[local] Arguments route_from_row {P} kv : simpl never.

Section routes.
Context {P : Platform} {HP : PlatformLaws P}.

Definition route_of (id : Uuid) (row : RouteRow) : Route :=
  MkRoute (MkRouteId id) (MkActorId (rr_source_service_id row)) (MkRequestId (rr_request_id row))
    (MkSubscriptionId (rr_subscription_id row)) (MkActorId (rr_destination_service_id row))
    (rr_created_at row).

Lemma route_from_row_of id row :
  (0 <= rr_created_at row)%Z -> route_from_row (id, row) = Ok (route_of id row).
Proof.
  intros H. unfold route_from_row, RouteId_from_str, parse_actor_id, ActorId_from_str,
    RequestId_from_str, SubscriptionId_from_str. rewrite !uuid_parse_print. simpl.
  unfold Route_restore. by rewrite (proj2 (Z.ltb_ge _ _)) by lia.
Qed.

Lemma route_from_row_Ok id row r : route_from_row (id, row) = Ok r -> r = route_of id row.
Proof.
  unfold route_from_row, RouteId_from_str, parse_actor_id, ActorId_from_str, RequestId_from_str,
    SubscriptionId_from_str, Route_restore. rewrite !uuid_parse_print. simpl. intros H. by result_inv.
Qed.

Lemma routes_of_match_In request subscription T id row :
  (id, row) ∈ routes_of_match request subscription T <->
  request_routes T !! id = Some row /\ rr_request_id row = request /\
  rr_subscription_id row = subscription.
Proof.
  unfold routes_of_match. by rewrite select_In, andb_true_iff, !bool_decide_eq_true.
Qed.

Lemma insert_route_Ok id row T o T' :
  insert_route_sql id row T = Ok (o, T') ->
  (o = None /\ T' = T) \/
  (o = Some (id, row) /\ routes_of_match (rr_request_id row) (rr_subscription_id row) T = [] /\
   request_routes T !! id = None /\ T' = with_request_routes (<[id := row]> (request_routes T)) T).
Proof.
  unfold insert_route_sql. intros H. result_inv. case_bool_decide as Hm; result_inv; [by left | right].
  repeat match goal with H : require _ _ = Ok _ |- _ => apply require_Ok in H end.
  rewrite bool_decide_eq_true in *. done.
Qed.

Lemma insert_route_step id row T o T' :
  insert_route_sql id row T = Ok (o, T') -> routes_step T T'.
Proof.
  intros [[_ ->]|(_ & Hm & Hid & ->)]%insert_route_Ok; [done|]. split.
  - by apply insert_subseteq.
  - intros Hu i r i' r'. simpl.
    assert (forall j q, request_routes T !! j = Some q -> rr_request_id q = rr_request_id row ->
      rr_subscription_id q = rr_subscription_id row -> False) as Hno.
    { intros j q Hj H1 H2. assert ((j, q) ∈ routes_of_match (rr_request_id row) (rr_subscription_id row) T)
        as Hin by by apply routes_of_match_In. rewrite Hm in Hin. by apply elem_of_nil in Hin. }
    intros [[<- <-]|[_ Hi]]%lookup_insert_Some [[<- <-]|[_ Hi']]%lookup_insert_Some H1 H2;
      [done | by destruct (Hno _ _ Hi') | by destruct (Hno _ _ Hi) | by eapply Hu].
Qed.

(** Routes are append-only and unique: materializing, under any faults, never
    changes or removes a route and never makes a second one for the same
    request id and subscription. *)
Theorem routes_are_unique source request subscription destination now :
  history routes_step
    (RouteService_materialize PostgresRouteRepository source request subscription destination now).
Proof.
  unfold RouteService_materialize. simpl. unfold PostgresRoute_materialize.
  db_walk; eauto using insert_route_step.
Qed.

Definition routes_wf (T : Tables) : Prop :=
  routes_unique T /\ forall id row, request_routes T !! id = Some row -> (0 <= rr_created_at row)%Z.

Lemma materialize_existing route T ns id row :
  routes_wf T -> (0 <= route_created_at route)%Z -> request_routes T !! id = Some row ->
  rr_request_id row = RequestId_as_uuid (route_request_id route) ->
  rr_subscription_id row = SubscriptionId_as_uuid (route_subscription_id route) ->
  PostgresRoute_materialize route (MkConn T T [] ns) = (Ok (route_of id row), MkConn T T [] ns).
Proof.
  intros [Hu Hc] Hnow Hid Hr Hs. unfold PostgresRoute_materialize. db_run.
  assert ((id, row) ∈ routes_of_match (RequestId_as_uuid (route_request_id route))
    (SubscriptionId_as_uuid (route_subscription_id route)) T) as Hin by by apply routes_of_match_In.
  destruct (routes_of_match _ _ T) as [|[j q] rest] eqn:Hm; [by apply elem_of_nil in Hin|].
  rewrite (autocommit_run T T ns _ (insert_route_sql (RouteId_as_uuid (route_id route)) (route_row route))
    None T); [|unfold insert_route_sql, route_row; simpl;
               by rewrite (proj2 (Z.leb_le _ _) Hnow), Hm].
  db_run. unfold find_route_by_match_sql. rewrite Hm. simpl.
  assert ((j, q) ∈ routes_of_match (RequestId_as_uuid (route_request_id route))
    (SubscriptionId_as_uuid (route_subscription_id route)) T) as (Hj & Hr' & Hs')%routes_of_match_In
    by (rewrite Hm; left).
  assert (j = id) as -> by (eapply Hu; eauto; congruence).
  assert (q = row) as -> by congruence. by rewrite (route_from_row_of id row) by eauto.
Qed.

Lemma materialize_Ok route c0 r c :
  routes_wf (durable c0) -> (0 <= route_created_at route)%Z ->
  PostgresRoute_materialize route c0 = (Ok r, c) ->
  routes_wf (durable c) /\ exists id row, request_routes (durable c) !! id = Some row /\
    r = route_of id row /\ rr_request_id row = RequestId_as_uuid (route_request_id route) /\
    rr_subscription_id row = SubscriptionId_as_uuid (route_subscription_id route).
Proof.
  intros [Hu Hc] Hnow Hrun. unfold PostgresRoute_materialize in Hrun.
  apply db_bind_Ok in Hrun as (u & c1 & [Hd1 _]%connection_Ok & Hrun).
  apply db_bind_Ok in Hrun as (o & c2 & (T' & Hins & Hd2 & Hw2)%autocommit_Ok & Hrun).
  rewrite Hd1 in Hins. destruct (insert_route_step _ _ _ _ _ Hins) as [_ Hpres].
  assert (forall j q, request_routes T' !! j = Some q -> (0 <= rr_created_at q)%Z) as Hc'.
  { apply insert_route_Ok in Hins as [[_ ->]|(_ & _ & _ & ->)]; [done|]. simpl.
    intros j q [[<- <-]|[_ Hj]]%lookup_insert_Some; eauto. }
  assert (routes_wf T') as Hwf' by (split; [by apply Hpres | done]).
  apply insert_route_Ok in Hins as [[-> ->]|(-> & _ & _ & HT')].
  - apply db_bind_Ok in Hrun as (o & c3 & [-> [Hd3 Hw3]]%query_Ok & Hrun).
    apply db_bind_Ok in Hrun as ([j q] & c4 & [Hf ->]%lift_Ok & Hrun).
    apply lift_Ok in Hrun as [Hq ->]. rewrite Hw2 in Hf. rewrite Hd3, Hd2. split; [done|].
    apply ok_or_Ok in Hf. unfold find_route_by_match_sql in Hf.
    apply head_Some_elem_of, routes_of_match_In in Hf as (Hj & ? & ?). exists j, q.
    rewrite (route_from_row_of j q) in Hq by eauto. by injection Hq as <-.
  - apply lift_Ok in Hrun as [Hq ->]. rewrite Hd2. split; [done|].
    rewrite route_from_row_of in Hq by done. injection Hq as <-.
    eexists _, _. split_and!; [|done..]. rewrite HT'. apply lookup_insert_eq.
Qed.

(** Materializing is idempotent: after a route has been returned, any further
    materialization of the same request id and subscription, under a new id, by
    any source and at any time, returns that same route and changes nothing. *)
Theorem materialize_is_idempotent source request subscription destination now T fs ns route c
  source' destination' now' ns' :
  routes_wf T -> (0 <= now')%Z ->
  RouteService_materialize PostgresRouteRepository source request subscription destination now
    (start T fs ns) = (Ok route, c) ->
  RouteService_materialize PostgresRouteRepository source' request subscription destination' now'
    (start (durable c) [] ns') = (Ok route, start (durable c) [] (tl ns')).
Proof.
  intros Hwf Hnow' Hrun.
  unfold RouteService_materialize in Hrun. simpl in Hrun. unfold start in Hrun.
  apply db_bind_Ok in Hrun as (id & c1 & [Hd _]%new_uuid_Ok & Hrun).
  apply db_bind_Ok in Hrun as (r & c2 & [Hr ->]%lift_Ok & Hrun). simpl in Hd.
  unfold Route_create, Route_restore in Hr. result_inv. bool_facts.
  edestruct materialize_Ok as (Hwf' & j & row & Hj & -> & Hjr & Hjs);
    [exact Hwf | | exact Hrun |]; [done|].
  unfold RouteService_materialize, start. rewrite new_uuid_draw_bind.
  unfold Route_create, Route_restore. rewrite (proj2 (Z.ltb_ge _ _)) by lia. rewrite bind_run, lift_run.
  by apply materialize_existing.
Qed.

(** C38: The source of a route is whoever came first: the match key does not hold the
    source service, so when two sources use one request id, the second is
    answered with the first one's route and gets none of its own. *)
Theorem materialize_ignores_source source source' request subscription destination now T ns id row :
  routes_wf T -> (0 <= now)%Z -> request_routes T !! id = Some row ->
  rr_request_id row = RequestId_as_uuid request ->
  rr_subscription_id row = SubscriptionId_as_uuid subscription ->
  rr_source_service_id row = ActorId_as_uuid source -> source' <> source ->
  exists route,
    RouteService_materialize PostgresRouteRepository source' request subscription destination now
      (start T [] ns) = (Ok route, start T [] (tl ns)) /\
    route_source_service route = source /\ route_source_service route <> source'.
Proof.
  intros Hwf Hnow Hid Hr Hs Hsrc Hne. exists (route_of id row).
  unfold RouteService_materialize, start. rewrite new_uuid_draw_bind.
  unfold Route_create, Route_restore. rewrite (proj2 (Z.ltb_ge _ _)) by lia. rewrite bind_run, lift_run.
  assert (route_source_service (route_of id row) = source) as Hroute
    by (unfold route_of; simpl; rewrite Hsrc; by destruct source).
  split_and!; [by apply materialize_existing | done | by rewrite Hroute].
Qed.
End routes.
