(* ===== verification/WorkClaims.v ===== *)
(** * WorkClaims: leased, fenced holds on routes

    [src/kernel/work_claims.rs] and
    [src/infrastructure/postgres_work_claim_repository.rs], with the table,
    the indexes and the trigger [protect_work_claim] of migration 0017.

    The abstract contract is a lock per route ([RouteState]): free, held under a
    fencing token until a lease ends, or done for good. [claim_refines] relates
    the adapter to it; the histories at the end say what survives any sequence of
    operations under any faults. *)

From S2P Require Import Prelude Text Platform Database Schema Identity InstanceKeys RequestNames.
From stdpp Require Import countable.

Record ClaimId := MkClaimId { ClaimId_as_uuid : Uuid }.

#[export] Instance ClaimId_eq_dec : EqDecision ClaimId.
Proof. solve_decision. Defined.

Inductive WorkClaimStatus :=
| WorkClaimStatus_Active
| WorkClaimStatus_Completed
| WorkClaimStatus_Released
| WorkClaimStatus_Expired.

#[export] Instance WorkClaimStatus_eq_dec : EqDecision WorkClaimStatus.
Proof. solve_decision. Defined.

Record WorkClaim := MkWorkClaim {
  claim_id : ClaimId;
  claim_route_id : RouteId;
  claim_worker_service : ActorId;
  claim_worker_instance : InstanceId;
  claim_fencing_token : Z;
  claim_status : WorkClaimStatus;
  claim_claimed_at : Z;
  claim_lease_expires_at : Z;
}.

#[export] Instance WorkClaim_eq_dec : EqDecision WorkClaim.
Proof. solve_decision. Defined.

Inductive WorkClaimError :=
| WorkClaimError_InvalidClaimId
| WorkClaimError_InvalidFencingToken
| WorkClaimError_InvalidLease
| WorkClaimError_InvalidTimestamp
| WorkClaimError_RouteNotFound (id : RouteId)
| WorkClaimError_AlreadyClaimed (id : RouteId)
| WorkClaimError_AlreadyCompleted (id : RouteId)
| WorkClaimError_NotFound (id : ClaimId)
| WorkClaimError_Fenced
| WorkClaimError_Repository (message : string).

#[export] Instance WorkClaimError_eq_dec : EqDecision WorkClaimError.
Proof. solve_decision. Defined.

Definition WorkClaim_restore (id : ClaimId) (route_id : RouteId) (worker_service : ActorId)
  (worker_instance : InstanceId) (fencing_token : Z) (status : WorkClaimStatus)
  (claimed_at lease_expires_at : Z) : Result WorkClaimError WorkClaim :=
  if (fencing_token <? 1)%Z then Err WorkClaimError_InvalidFencingToken
  else if (claimed_at <? 0)%Z || (lease_expires_at <=? claimed_at)%Z
  then Err WorkClaimError_InvalidLease
  else Ok (MkWorkClaim id route_id worker_service worker_instance fencing_token status
             claimed_at lease_expires_at).

Definition WorkClaim_is_current (claim : WorkClaim) (now : Z) : bool :=
  match claim_status claim with
  | WorkClaimStatus_Active => (now <? claim_lease_expires_at claim)%Z
  | _ => false
  end.

(** ** The service over its repository *)

Record WorkClaimRepository (S : Type) := MkWorkClaimRepository {
  work_claim_repository_claim :
    RouteId -> ActorId -> InstanceId -> Z -> Z -> Db S WorkClaimError WorkClaim;
  work_claim_repository_renew : ClaimId -> Z -> Z -> Z -> Db S WorkClaimError WorkClaim;
  work_claim_repository_release : ClaimId -> Z -> Z -> Db S WorkClaimError WorkClaim;
  work_claim_repository_complete : ClaimId -> Z -> Z -> Db S WorkClaimError WorkClaim;
  work_claim_repository_find : ClaimId -> Db S WorkClaimError (option WorkClaim);
  work_claim_repository_active_route_ids : list RouteId -> Z -> Db S WorkClaimError (gset RouteId);
  work_claim_repository_completed_route_ids : list RouteId -> Db S WorkClaimError (gset RouteId);
}.
Arguments work_claim_repository_claim {S}.
Arguments work_claim_repository_renew {S}.
Arguments work_claim_repository_release {S}.
Arguments work_claim_repository_complete {S}.
Arguments work_claim_repository_find {S}.
Arguments work_claim_repository_active_route_ids {S}.
Arguments work_claim_repository_completed_route_ids {S}.

Section service.
  Context {S : Type} (R : WorkClaimRepository S).

Definition WorkClaimService_claim (route_id : RouteId) (worker_service : ActorId)
  (worker_instance : InstanceId) (lease_expires_at now : Z) : Db S WorkClaimError WorkClaim :=
  if (now <? 0)%Z || (lease_expires_at <=? now)%Z then throw WorkClaimError_InvalidLease
  else work_claim_repository_claim R route_id worker_service worker_instance lease_expires_at now.

Definition WorkClaimService_renew (claim_id : ClaimId) (fencing_token lease_expires_at now : Z) :
  Db S WorkClaimError WorkClaim :=
  if (now <? 0)%Z || (lease_expires_at <=? now)%Z then throw WorkClaimError_InvalidLease
  else work_claim_repository_renew R claim_id fencing_token lease_expires_at now.

Definition WorkClaimService_release (claim_id : ClaimId) (fencing_token now : Z) :
  Db S WorkClaimError WorkClaim :=
  if (now <? 0)%Z then throw WorkClaimError_InvalidLease
  else work_claim_repository_release R claim_id fencing_token now.

Definition WorkClaimService_complete (claim_id : ClaimId) (fencing_token now : Z) :
  Db S WorkClaimError WorkClaim :=
  if (now <? 0)%Z then throw WorkClaimError_InvalidLease
  else work_claim_repository_complete R claim_id fencing_token now.

Definition WorkClaimService_find (claim_id : ClaimId) : Db S WorkClaimError (option WorkClaim) :=
  work_claim_repository_find R claim_id.

Definition WorkClaimService_active_route_ids (route_ids : list RouteId) (now : Z) :
  Db S WorkClaimError (gset RouteId) :=
  if (now <? 0)%Z then throw WorkClaimError_InvalidTimestamp
  else work_claim_repository_active_route_ids R route_ids now.

Definition WorkClaimService_completed_route_ids (route_ids : list RouteId) :
  Db S WorkClaimError (gset RouteId) :=
  work_claim_repository_completed_route_ids R route_ids.
End service.

(** ** The statements of the adapter *)

Definition work_claim_row_check (row : WorkClaimRow) : Result PostgresError unit :=
  require (0 <=? wc_claimed_at row)%Z (check_violation "work_claims_claimed_at_check");;
  require (1 <=? wc_fencing_token row)%Z (check_violation "work_claims_fencing_token_check");;
  require (wc_claimed_at row <? wc_lease_expires_at row)%Z (check_violation "work_claims_check");;
  require (bool_decide (wc_status row ∈ ["active"; "completed"; "released"; "expired"]))
    (check_violation "work_claims_status_check").

Definition claims_of_route (route_id : Uuid) (T : Tables) : list (Uuid * WorkClaimRow) :=
  select (fun _ row => bool_decide (wc_route_id row = route_id)) (work_claims T).

Definition active_claims_of_route (route_id : Uuid) (T : Tables) : list (Uuid * WorkClaimRow) :=
  select (fun _ row => bool_decide (wc_route_id row = route_id)
                       && String.eqb (wc_status row) "active") (work_claims T).

Definition route_destination_sql (route_id : Uuid) (T : Tables) : option Uuid :=
  rr_destination_service_id <$> request_routes T !! route_id.

(** LOCK_LATEST_CLAIM_FOR_ROUTE_SQL *)
Definition latest_claim_sql (route_id : Uuid) (T : Tables) : option (Uuid * WorkClaimRow) :=
  latest (fun kv => wc_fencing_token kv.2) (claims_of_route route_id T).

(** INSERT_CLAIM_SQL *)
Definition insert_claim_sql (id route_id worker_service worker_instance : Uuid)
  (fencing_token claimed_at lease_expires_at : Z) (T : Tables) :
  Result PostgresError ((Uuid * WorkClaimRow) * Tables) :=
  let row := MkWorkClaimRow route_id worker_service worker_instance fencing_token "active"
               claimed_at lease_expires_at in
  work_claim_row_check row;;
  require (bool_decide (work_claims T !! id = None)) (unique_violation "work_claims_pkey");;
  require (forallb (fun kv => negb (wc_fencing_token kv.2 =? fencing_token)%Z)
             (claims_of_route route_id T))
    (unique_violation "work_claims_route_id_fencing_token_key");;
  require (bool_decide (active_claims_of_route route_id T = []))
    (unique_violation "work_claims_one_active_per_route_idx");;
  references (request_routes T) route_id "work_claims_route_id_fkey";;
  references (identities T) worker_service "work_claims_worker_service_id_fkey";;
  references (service_instances T) worker_instance "work_claims_worker_instance_id_fkey";;
  Ok ((id, row), with_work_claims (<[id := row]> (work_claims T)) T).

(** The trigger on updates: the key of the row does not change here. *)
Definition protect_work_claim (old new : WorkClaimRow) : Result PostgresError unit :=
  if negb (bool_decide (wc_route_id new = wc_route_id old
                        /\ wc_worker_service_id new = wc_worker_service_id old
                        /\ wc_worker_instance_id new = wc_worker_instance_id old
                        /\ wc_fencing_token new = wc_fencing_token old
                        /\ wc_claimed_at new = wc_claimed_at old))
  then Err (raise_exception "only status and lease_expires_at may change on a work claim")
  else if negb (String.eqb (wc_status old) "active")
  then Err (raise_exception ("work claim status " +:+ wc_status old +:+ " is terminal"))
  else if String.eqb (wc_status new) "active"
  then if (wc_lease_expires_at new <=? wc_lease_expires_at old)%Z
       then Err (raise_exception "work claim renewal must extend the lease")
       else Ok tt
  else if negb (wc_lease_expires_at new =? wc_lease_expires_at old)%Z
  then Err (raise_exception "a terminal work claim transition must not change the lease")
  else Ok tt.

(** An UPDATE of one claim by its id. A claim that the trigger lets through was
    active already, so the unique indexes have nothing to say. *)
Definition update_claim_sql (set : WorkClaimRow -> WorkClaimRow) (id : Uuid) (T : Tables) :
  Result PostgresError (option (Uuid * WorkClaimRow) * Tables) :=
  match work_claims T !! id with
  | None => Ok (None, T)
  | Some old =>
      let new := set old in
      protect_work_claim old new;;
      work_claim_row_check new;;
      Ok (Some (id, new), with_work_claims (<[id := new]> (work_claims T)) T)
  end.

Definition set_claim_status (status : string) (row : WorkClaimRow) : WorkClaimRow :=
  MkWorkClaimRow (wc_route_id row) (wc_worker_service_id row) (wc_worker_instance_id row)
    (wc_fencing_token row) status (wc_claimed_at row) (wc_lease_expires_at row).
Definition set_claim_lease (lease_expires_at : Z) (row : WorkClaimRow) : WorkClaimRow :=
  MkWorkClaimRow (wc_route_id row) (wc_worker_service_id row) (wc_worker_instance_id row)
    (wc_fencing_token row) (wc_status row) (wc_claimed_at row) lease_expires_at.

(** EXPIRE_SQL, run with [execute]: the row count is not looked at. *)
Definition expire_sql (id : Uuid) : Tables -> Result PostgresError (option (Uuid * WorkClaimRow) * Tables) :=
  update_claim_sql (set_claim_status "expired") id.

(** [query_one] on a statement: no row is an error of the driver. *)
Definition query_one {A} (f : Tables -> Result PostgresError (option A * Tables)) (T : Tables) :
  Result PostgresError (A * Tables) :=
  '(row, T') ← f T;
  match row with
  | Some row => Ok (row, T')
  | None => Err (IoError "query returned an unexpected number of rows")
  end.

Definition renew_sql (id : Uuid) (lease_expires_at : Z) :=
  query_one (update_claim_sql (set_claim_lease lease_expires_at) id).
Definition transition_sql (id : Uuid) (status : string) :=
  query_one (update_claim_sql (set_claim_status status) id).

Definition lock_claim_sql (id : Uuid) (T : Tables) : option (Uuid * WorkClaimRow) :=
  pair id <$> work_claims T !! id.

Section adapter.
  Context {P : Platform}.

Definition ClaimId_to_string (id : ClaimId) : string := uuid_print (ClaimId_as_uuid id).
Definition ClaimId_from_str (value : string) : Result WorkClaimError ClaimId :=
  match uuid_parse value with
  | Some u => Ok (MkClaimId u)
  | None => Err WorkClaimError_InvalidClaimId
  end.

Definition WorkClaimError_to_string (e : WorkClaimError) : string :=
  match e with
  | WorkClaimError_InvalidClaimId => "claim ID must be a UUID"
  | WorkClaimError_InvalidFencingToken => "fencing token must be a positive integer"
  | WorkClaimError_InvalidLease => "claim lease window is invalid"
  | WorkClaimError_InvalidTimestamp => "timestamp must not be negative"
  | WorkClaimError_RouteNotFound id => "route " +:+ RouteId_to_string id +:+ " was not found"
  | WorkClaimError_AlreadyClaimed id => "route " +:+ RouteId_to_string id +:+ " is already claimed"
  | WorkClaimError_AlreadyCompleted id =>
      "route " +:+ RouteId_to_string id +:+ " is already completed"
  | WorkClaimError_NotFound id => "claim " +:+ ClaimId_to_string id +:+ " was not found"
  | WorkClaimError_Fenced => "fencing token does not match the current active claim"
  | WorkClaimError_Repository message => "work claim repository failed: " +:+ message
  end.

Definition work_claim_repository_error (message : string) : WorkClaimError :=
  WorkClaimError_Repository message.
Definition work_claim_query_error (e : PostgresError) : WorkClaimError :=
  work_claim_repository_error (postgres_error_text e).

Definition status_from_sql (value : string) : Result WorkClaimError WorkClaimStatus :=
  if String.eqb value "active" then Ok WorkClaimStatus_Active
  else if String.eqb value "completed" then Ok WorkClaimStatus_Completed
  else if String.eqb value "released" then Ok WorkClaimStatus_Released
  else if String.eqb value "expired" then Ok WorkClaimStatus_Expired
  else Err (WorkClaimError_Repository ("unknown stored work claim status: " +:+ value)).

Definition claim_from_row (kv : Uuid * WorkClaimRow) : Result WorkClaimError WorkClaim :=
  let '(id, row) := kv in
  id ← ClaimId_from_str (uuid_print id);
  route_id ← result_map_err (fun _ => WorkClaimError_Repository "stored route ID is invalid")
    (RouteId_from_str (uuid_print (wc_route_id row)));
  worker_service ← result_map_err
    (fun error => WorkClaimError_Repository
       ("invalid stored worker service ID: " +:+ IdentityError_to_string error))
    (ActorId_from_str (uuid_print (wc_worker_service_id row)));
  worker_instance ← result_map_err
    (fun _ => WorkClaimError_Repository "stored worker instance ID is invalid")
    (InstanceId_from_str (uuid_print (wc_worker_instance_id row)));
  status ← status_from_sql (wc_status row);
  result_map_err (fun _ => WorkClaimError_Repository "stored work claim is invalid")
    (WorkClaim_restore id route_id worker_service worker_instance (wc_fencing_token row) status
       (wc_claimed_at row) (wc_lease_expires_at row)).

(** [.map(|row| claim_from_row(&row)).transpose()] *)
Definition optional_claim (row : option (Uuid * WorkClaimRow)) :
  Result WorkClaimError (option WorkClaim) :=
  match row with
  | Some row => claim ← claim_from_row row; Ok (Some claim)
  | None => Ok None
  end.

Definition PostgresWorkClaim_claim (route_id : RouteId) (worker_service : ActorId)
  (worker_instance : InstanceId) (lease_expires_at now : Z) : Db Tables WorkClaimError WorkClaim :=
  connection work_claim_repository_error;;
  transaction work_claim_query_error;;
  destination ← query work_claim_query_error (route_destination_sql (RouteId_as_uuid route_id));
  owns_route ← match destination with
    | Some row =>
        destination ← lift (result_map_err
          (fun error => WorkClaimError_Repository
             ("invalid stored destination ID: " +:+ IdentityError_to_string error))
          (ActorId_from_str (uuid_print row)));
        mret (bool_decide (destination = worker_service))
    | None => mret false
    end;
  if negb owns_route then throw (WorkClaimError_RouteNotFound route_id)
  else
    row ← query work_claim_query_error (latest_claim_sql (RouteId_as_uuid route_id));
    latest ← lift (optional_claim row);
    next_fencing_token ← match latest with
      | Some claim =>
          if WorkClaim_is_current claim now then throw (WorkClaimError_AlreadyClaimed route_id)
          else match claim_status claim with
          | WorkClaimStatus_Completed => throw (WorkClaimError_AlreadyCompleted route_id)
          | WorkClaimStatus_Active =>
              execute work_claim_query_error (expire_sql (ClaimId_as_uuid (claim_id claim)));;
              mret (wrapping_add (claim_fencing_token claim) 1)
          | _ => mret (wrapping_add (claim_fencing_token claim) 1)
          end
      | None => mret 1%Z
      end;
    id ← new_uuid;
    row ← execute work_claim_query_error
      (insert_claim_sql id (RouteId_as_uuid route_id) (ActorId_as_uuid worker_service)
         (InstanceId_as_uuid worker_instance) next_fencing_token now lease_expires_at);
    claim ← lift (claim_from_row row);
    commit work_claim_query_error;;
    mret claim.

Definition lock_current (id : ClaimId) (fencing_token now : Z) : Db Tables WorkClaimError WorkClaim :=
  row ← query work_claim_query_error (lock_claim_sql (ClaimId_as_uuid id));
  row ← lift (ok_or (WorkClaimError_NotFound id) row);
  claim ← lift (claim_from_row row);
  if negb (claim_fencing_token claim =? fencing_token)%Z || negb (WorkClaim_is_current claim now)
  then throw WorkClaimError_Fenced
  else mret claim.

Definition PostgresWorkClaim_renew (id : ClaimId) (fencing_token lease_expires_at now : Z) :
  Db Tables WorkClaimError WorkClaim :=
  connection work_claim_repository_error;;
  transaction work_claim_query_error;;
  current ← lock_current id fencing_token now;
  row ← execute work_claim_query_error
    (renew_sql (ClaimId_as_uuid (claim_id current)) lease_expires_at);
  claim ← lift (claim_from_row row);
  commit work_claim_query_error;;
  mret claim.

Definition PostgresWorkClaim_transition (id : ClaimId) (fencing_token now : Z) (status : string) :
  Db Tables WorkClaimError WorkClaim :=
  connection work_claim_repository_error;;
  transaction work_claim_query_error;;
  current ← lock_current id fencing_token now;
  row ← execute work_claim_query_error
    (transition_sql (ClaimId_as_uuid (claim_id current)) status);
  claim ← lift (claim_from_row row);
  commit work_claim_query_error;;
  mret claim.

Definition PostgresWorkClaim_release (id : ClaimId) (fencing_token now : Z) :=
  PostgresWorkClaim_transition id fencing_token now "released".
Definition PostgresWorkClaim_complete (id : ClaimId) (fencing_token now : Z) :=
  PostgresWorkClaim_transition id fencing_token now "completed".

Definition PostgresWorkClaim_find (id : ClaimId) : Db Tables WorkClaimError (option WorkClaim) :=
  connection work_claim_repository_error;;
  row ← query work_claim_query_error (lock_claim_sql (ClaimId_as_uuid id));
  lift (optional_claim row).

(** The route ids of the claims that satisfy a condition, among the given ones *)
Definition claimed_routes_sql (where_ : WorkClaimRow -> bool) (route_ids : list string) (T : Tables) :
  list Uuid :=
  (fun kv => wc_route_id kv.2) <$>
    select (fun _ row => bool_decide (uuid_print (wc_route_id row) ∈ route_ids) && where_ row)
      (work_claims T).

Definition route_ids_from_rows (rows : list Uuid) : Result WorkClaimError (gset RouteId) :=
  ids ← collect (fun row => result_map_err
                  (fun _ => WorkClaimError_Repository "stored route ID is invalid")
                  (RouteId_from_str (uuid_print row))) rows;
  Ok (list_to_set ids).

Definition PostgresWorkClaim_active_route_ids (route_ids : list RouteId) (now : Z) :
  Db Tables WorkClaimError (gset RouteId) :=
  match route_ids with
  | [] => mret ∅
  | _ =>
      connection work_claim_repository_error;;
      rows ← query work_claim_query_error
        (claimed_routes_sql (fun row => String.eqb (wc_status row) "active"
                                        && (now <? wc_lease_expires_at row)%Z)
           (map RouteId_to_string route_ids));
      lift (route_ids_from_rows rows)
  end.

Definition PostgresWorkClaim_completed_route_ids (route_ids : list RouteId) :
  Db Tables WorkClaimError (gset RouteId) :=
  match route_ids with
  | [] => mret ∅
  | _ =>
      connection work_claim_repository_error;;
      rows ← query work_claim_query_error
        (claimed_routes_sql (fun row => String.eqb (wc_status row) "completed")
           (map RouteId_to_string route_ids));
      lift (route_ids_from_rows rows)
  end.

Definition PostgresWorkClaimRepository : WorkClaimRepository Tables := {|
  work_claim_repository_claim := PostgresWorkClaim_claim;
  work_claim_repository_renew := PostgresWorkClaim_renew;
  work_claim_repository_release := PostgresWorkClaim_release;
  work_claim_repository_complete := PostgresWorkClaim_complete;
  work_claim_repository_find := PostgresWorkClaim_find;
  work_claim_repository_active_route_ids := PostgresWorkClaim_active_route_ids;
  work_claim_repository_completed_route_ids := PostgresWorkClaim_completed_route_ids |}.
End adapter.

#[local] Arguments claim_from_row {P} kv : simpl never.

(** ** The lock of a route *)

Inductive RouteState :=
| Free (last_token : Z)
| Held (holder : Uuid) (token lease_expires_at : Z)
| Done.

Inductive LockRefusal := StillHeld | Finished.

(** What claiming, renewing and ending a claim promise *)
Definition lock_claim (s : RouteState) (holder : Uuid) (lease_expires_at now : Z) :
  Result LockRefusal RouteState :=
  match s with
  | Free token => Ok (Held holder (token + 1) lease_expires_at)
  | Held _ token until =>
      if (now <? until)%Z then Err StillHeld else Ok (Held holder (token + 1) lease_expires_at)
  | Done => Err Finished
  end.

Definition route_state (T : Tables) (route_id : Uuid) : RouteState :=
  match latest_claim_sql route_id T with
  | None => Free 0
  | Some (id, row) =>
      if String.eqb (wc_status row) "active"
      then Held id (wc_fencing_token row) (wc_lease_expires_at row)
      else if String.eqb (wc_status row) "completed" then Done
      else Free (wc_fencing_token row)
  end.

(** ** Well-formed tables and their histories *)

Definition claim_row_wf (row : WorkClaimRow) : Prop :=
  work_claim_row_check row = Ok tt /\ (wc_fencing_token row <= i64_max)%Z.

Record claims_wf (T : Tables) : Prop := {
  cw_rows id row : work_claims T !! id = Some row -> claim_row_wf row;
  cw_tokens id row id' row' :
    work_claims T !! id = Some row -> work_claims T !! id' = Some row' ->
    wc_route_id row = wc_route_id row' -> wc_fencing_token row = wc_fencing_token row' -> id = id';
  cw_latest id row id' row' :
    work_claims T !! id = Some row -> work_claims T !! id' = Some row' ->
    wc_route_id row = wc_route_id row' -> (wc_status row = "active" \/ wc_status row = "completed") ->
    (wc_fencing_token row' <= wc_fencing_token row)%Z;
}.

(** How one claim may change: its identity never does, an ended one is frozen,
    a lease is never shortened. *)
Record claim_succeeds (row row' : WorkClaimRow) : Prop := {
  cs_route : wc_route_id row' = wc_route_id row;
  cs_service : wc_worker_service_id row' = wc_worker_service_id row;
  cs_instance : wc_worker_instance_id row' = wc_worker_instance_id row;
  cs_token : wc_fencing_token row' = wc_fencing_token row;
  cs_claimed : wc_claimed_at row' = wc_claimed_at row;
  cs_lease : (wc_lease_expires_at row <= wc_lease_expires_at row')%Z;
  cs_ended : wc_status row <> "active" -> row' = row;
}.

(** Claims are never lost, and a new claim has a larger token than every older
    one of its route, none of which completed the work. *)
Record claim_history (T T' : Tables) : Prop := {
  ch_kept id row : work_claims T !! id = Some row ->
    exists row', work_claims T' !! id = Some row' /\ claim_succeeds row row';
  ch_new id row' : work_claims T' !! id = Some row' -> work_claims T !! id = None ->
    forall id0 row0, work_claims T !! id0 = Some row0 -> wc_route_id row0 = wc_route_id row' ->
      (wc_fencing_token row0 < wc_fencing_token row')%Z /\ wc_status row0 <> "completed";
}.

Definition claim_step (T T' : Tables) : Prop :=
  claims_wf T -> claims_wf T' /\ claim_history T T'.

#[export] Instance claim_succeeds_preorder : PreOrder claim_succeeds.
Proof.
  split; [intros row; by split|]. intros r1 r2 r3 [] []. split; try congruence; [lia|].
  intros H. specialize (cs_ended0 H). subst r2. auto.
Qed.

#[export] Instance claim_history_preorder : PreOrder claim_history.
Proof.
  split; [intros T; split; [|congruence]; intros id row Hid; exists row; by split|].
  - intros T1 T2 T3 [K1 N1] [K2 N2]. split.
    + intros id row Hid. destruct (K1 _ _ Hid) as (row2 & H2 & S2).
      destruct (K2 _ _ H2) as (row3 & H3 & S3). exists row3. split; [done | by etrans].
    + intros id row' H3 H1 id0 row0 H0 Hr. destruct (K1 _ _ H0) as (row2 & H2 & S2).
      destruct (work_claims T2 !! id) as [r|] eqn:E2.
      * destruct (K2 _ _ E2) as (r' & Hr' & S'). assert (row' = r') as -> by congruence.
        destruct S'. rewrite cs_token0. apply (N1 _ _ E2 H1 _ _ H0). congruence.
      * destruct (N2 _ _ H3 E2 _ _ H2) as [? Hc]; [destruct S2; congruence|].
        destruct S2. split; [lia|]. intros Hc'. rewrite cs_ended0 in Hc by (by rewrite Hc'). done.
Qed.

#[export] Instance claim_step_preorder : PreOrder claim_step.
Proof.
  split; [by intros T H; split|]. intros T1 T2 T3 H12 H23 H1.
  destruct (H12 H1) as [H2 ?]. destruct (H23 H2) as [H3 ?]. split; [done | by etrans].
Qed.

Definition claim_status_of (status : string) : WorkClaimStatus :=
  if String.eqb status "active" then WorkClaimStatus_Active
  else if String.eqb status "completed" then WorkClaimStatus_Completed
  else if String.eqb status "released" then WorkClaimStatus_Released
  else WorkClaimStatus_Expired.

Definition claim_of (id : Uuid) (row : WorkClaimRow) : WorkClaim :=
  MkWorkClaim (MkClaimId id) (MkRouteId (wc_route_id row)) (MkActorId (wc_worker_service_id row))
    (MkInstanceId (wc_worker_instance_id row)) (wc_fencing_token row)
    (claim_status_of (wc_status row)) (wc_claimed_at row) (wc_lease_expires_at row).

Section statements.

Lemma claim_row_wf_facts row :
  claim_row_wf row ->
  (0 <= wc_claimed_at row < wc_lease_expires_at row)%Z /\
  (1 <= wc_fencing_token row <= i64_max)%Z /\
  wc_status row ∈ ["active"; "completed"; "released"; "expired"].
Proof.
  unfold claim_row_wf, work_claim_row_check. intros [H Hmax]. result_inv.
  repeat match goal with H : require _ _ = Ok _ |- _ => apply require_Ok in H end.
  rewrite ?Z.leb_le, ?Z.ltb_lt, ?bool_decide_eq_true in *. auto.
Qed.

Lemma claims_of_route_In route_id T id row :
  (id, row) ∈ claims_of_route route_id T <->
  work_claims T !! id = Some row /\ wc_route_id row = route_id.
Proof. unfold claims_of_route. by rewrite select_In, bool_decide_eq_true. Qed.

Lemma latest_claim_Some route_id T id row :
  latest_claim_sql route_id T = Some (id, row) ->
  work_claims T !! id = Some row /\ wc_route_id row = route_id /\
  forall id' row', work_claims T !! id' = Some row' -> wc_route_id row' = route_id ->
    (wc_fencing_token row' <= wc_fencing_token row)%Z.
Proof.
  intros [[Hid Hr]%claims_of_route_In Hmax]%latest_Some. split_and!; [done..|].
  intros id' row' H Hr'. by apply (Hmax (id', row')), claims_of_route_In.
Qed.

Lemma latest_claim_None route_id T :
  latest_claim_sql route_id T = None <->
  forall id row, work_claims T !! id = Some row -> wc_route_id row <> route_id.
Proof.
  unfold latest_claim_sql. rewrite latest_None. split.
  - intros H id row Hid Hr. assert ((id, row) ∈ claims_of_route route_id T) as Hin
      by by apply claims_of_route_In. rewrite H in Hin. by apply elem_of_nil in Hin.
  - intros H. destruct (claims_of_route route_id T) as [|[id row] l] eqn:Hl; [done|].
    assert ((id, row) ∈ claims_of_route route_id T) as [Hid Hr]%claims_of_route_In
      by (rewrite Hl; left). by destruct (H id row).
Qed.

(** On well-formed tables the latest claim of a route is determined. *)
Lemma latest_claim_intro T id row :
  claims_wf T -> work_claims T !! id = Some row ->
  (forall id' row', work_claims T !! id' = Some row' -> wc_route_id row' = wc_route_id row ->
    (wc_fencing_token row' <= wc_fencing_token row)%Z) ->
  latest_claim_sql (wc_route_id row) T = Some (id, row).
Proof.
  intros Hwf Hid Hmax. destruct (latest_claim_sql (wc_route_id row) T) as [[i r]|] eqn:E.
  - apply latest_claim_Some in E as (Hi & Hr & Hm).
    assert (i = id) as <-; [|congruence].
    eapply cw_tokens; eauto. specialize (Hmax _ _ Hi Hr). specialize (Hm _ _ Hid eq_refl). lia.
  - rewrite latest_claim_None in E. by destruct (E id row).
Qed.

Lemma update_claim_Ok set id T o T' :
  update_claim_sql set id T = Ok (o, T') ->
  match work_claims T !! id with
  | None => o = None /\ T' = T
  | Some old =>
      o = Some (id, set old) /\ protect_work_claim old (set old) = Ok tt /\
      work_claim_row_check (set old) = Ok tt /\
      T' = with_work_claims (<[id := set old]> (work_claims T)) T
  end.
Proof.
  unfold update_claim_sql. destruct (work_claims T !! id) as [old|]; intros H; result_inv; [|done].
  repeat match goal with u : () |- _ => destruct u end. done.
Qed.

Lemma protect_work_claim_Ok old new :
  protect_work_claim old new = Ok tt ->
  wc_status old = "active" /\ claim_succeeds old new /\
  (wc_status new <> "active" -> wc_lease_expires_at new = wc_lease_expires_at old).
Proof.
  unfold protect_work_claim. case_bool_decide as Himm; simpl; [|done].
  destruct Himm as (H1 & H2 & H3 & H4 & H5).
  destruct (String.eqb_spec (wc_status old) "active") as [Ho|]; simpl; [|done].
  destruct (String.eqb_spec (wc_status new) "active") as [Hn|Hn].
  - destruct (Z.leb_spec (wc_lease_expires_at new) (wc_lease_expires_at old)); [done|].
    intros _. split_and!; [done | split; try done; lia | done].
  - destruct (Z.eqb_spec (wc_lease_expires_at new) (wc_lease_expires_at old)); simpl; [|done].
    intros _. split_and!; [done | split; try done; lia | done].
Qed.

(** Replacing an active claim by a successor *)
Lemma update_step T id old new :
  work_claims T !! id = Some old -> claim_succeeds old new -> wc_status old = "active" ->
  work_claim_row_check new = Ok tt ->
  claim_step T (with_work_claims (<[id := new]> (work_claims T)) T).
Proof.
  intros Hid [] Ho Hcheck Hwf.
  assert (forall i r, (<[id:=new]> (work_claims T)) !! i = Some r ->
    exists r0, work_claims T !! i = Some r0 /\ wc_route_id r = wc_route_id r0 /\
      wc_fencing_token r = wc_fencing_token r0 /\
      (wc_status r = "active" \/ wc_status r = "completed" ->
       wc_status r0 = "active" \/ wc_status r0 = "completed")) as Hback.
  { intros i r [[<- <-]|[_ Hi]]%lookup_insert_Some; [|by exists r]. exists old. auto. }
  split; [split; simpl|split; simpl].
  - intros i r [[<- <-]|[_ Hi]]%lookup_insert_Some; [|by eapply cw_rows].
    split; [done|]. rewrite cs_token0. by destruct (cw_rows _ Hwf _ _ Hid).
  - intros i r i' r' (r0 & H0 & R0 & F0 & _)%Hback (r1 & H1 & R1 & F1 & _)%Hback Hr Hf.
    eapply cw_tokens; eauto; congruence.
  - intros i r i' r' (r0 & H0 & R0 & F0 & S0)%Hback (r1 & H1 & R1 & F1 & _)%Hback Hr Hs.
    rewrite F0, F1. eapply cw_latest; eauto; congruence.
  - intros i r Hi. destruct (decide (id = i)) as [<-|].
    + exists new. rewrite lookup_insert_eq. assert (r = old) as -> by congruence. by split.
    + exists r. by rewrite lookup_insert_ne.
  - intros i r [[<- <-]|[_ Hi]]%lookup_insert_Some; congruence.
Qed.

Lemma update_claim_step set id T o T' :
  update_claim_sql set id T = Ok (o, T') -> claim_step T T'.
Proof.
  intros H%update_claim_Ok. destruct (work_claims T !! id) as [old|] eqn:Hid.
  - destruct H as (-> & (Ho & Hs & _)%protect_work_claim_Ok & Hc & ->). by eapply update_step.
  - destruct H as [_ ->]. done.
Qed.

(** A new claim over a route whose claims are all over, with a larger token *)
Lemma insert_step T id row :
  claim_row_wf row -> work_claims T !! id = None -> wc_status row = "active" ->
  (forall i r, work_claims T !! i = Some r -> wc_route_id r = wc_route_id row ->
     (wc_fencing_token r < wc_fencing_token row)%Z /\
     wc_status r <> "completed" /\ wc_status r <> "active") ->
  claim_step T (with_work_claims (<[id := row]> (work_claims T)) T).
Proof.
  intros Hrow Hid Hs Hold Hwf. split; [split; simpl|split; simpl].
  - intros i r [[<- <-]|[_ Hi]]%lookup_insert_Some; [done | by eapply cw_rows].
  - intros i r i' r' [[<- <-]|[_ Hi]]%lookup_insert_Some [[<- <-]|[_ Hi']]%lookup_insert_Some Hr Hf;
      [done| | |by eapply cw_tokens].
    + destruct (Hold _ _ Hi') as [? _]; [done|lia].
    + destruct (Hold _ _ Hi) as [? _]; [done|lia].
  - intros i r i' r' [[<- <-]|[_ Hi]]%lookup_insert_Some [[<- <-]|[_ Hi']]%lookup_insert_Some Hr Hst;
      [done| | |by eapply cw_latest].
    + destruct (Hold _ _ Hi') as [? _]; [done|lia].
    + destruct (Hold _ _ Hi) as (_ & ? & ?); [done|]. by destruct Hst.
  - intros i r Hi. exists r. rewrite lookup_insert_ne by congruence. by split.
  - intros i r [[<- <-]|[_ Hi]]%lookup_insert_Some Hn i0 r0 H0 Hr; [|congruence].
    destruct (Hold _ _ H0 Hr) as (? & ? & _). done.
Qed.

Lemma insert_claim_Ok id rt s i t n l T kv T' :
  insert_claim_sql id rt s i t n l T = Ok (kv, T') ->
  let row := MkWorkClaimRow rt s i t "active" n l in
  work_claim_row_check row = Ok tt /\ work_claims T !! id = None /\ kv = (id, row) /\
  T' = with_work_claims (<[id := row]> (work_claims T)) T.
Proof.
  unfold insert_claim_sql. intros H. result_inv.
  repeat match goal with H : require _ _ = Ok _ |- _ => apply require_Ok in H end.
  rewrite bool_decide_eq_true in *. by match goal with u : (), H : work_claim_row_check _ = Ok ?u |- _ => destruct u end.
Qed.
End statements.

(** ** Faultless runs of the adapter *)

Definition next_token (s : RouteState) : Z :=
  match s with Free token | Held _ token _ => wrapping_add token 1 | Done => 0 end.

Definition expire_latest (route_id : Uuid) (T : Tables) : Tables :=
  match latest_claim_sql route_id T with
  | Some (id, row) =>
      if String.eqb (wc_status row) "active"
      then with_work_claims (<[id := set_claim_status "expired" row]> (work_claims T)) T else T
  | None => T
  end.

Definition owns_route (T : Tables) (route_id : RouteId) (service : ActorId) : Prop :=
  route_destination_sql (RouteId_as_uuid route_id) T = Some (ActorId_as_uuid service).

#[export] Instance owns_route_dec T route_id service : Decision (owns_route T route_id service).
Proof. unfold owns_route. apply _. Defined.

(** A caller that presents this token still holds the claim. *)
Definition holds (row : WorkClaimRow) (token now : Z) : bool :=
  String.eqb (wc_status row) "active" && (now <? wc_lease_expires_at row)%Z
  && (wc_fencing_token row =? token)%Z.

Section runs.
Context {P : Platform} {HP : PlatformLaws P}.

Lemma claim_from_row_check id row :
  work_claim_row_check row = Ok tt -> claim_from_row (id, row) = Ok (claim_of id row).
Proof.
  intros H. assert ((0 <= wc_claimed_at row < wc_lease_expires_at row)%Z /\
    (1 <= wc_fencing_token row)%Z /\
    wc_status row ∈ ["active"; "completed"; "released"; "expired"]) as (H1 & H2 & H3).
  { unfold work_claim_row_check in H. result_inv.
    repeat match goal with H : require _ _ = Ok _ |- _ => apply require_Ok in H end.
    rewrite ?Z.leb_le, ?Z.ltb_lt, ?bool_decide_eq_true in *. auto. }
  unfold claim_from_row, ClaimId_from_str, RouteId_from_str, ActorId_from_str, InstanceId_from_str.
  rewrite !uuid_parse_print. simpl. unfold claim_of, claim_status_of, status_from_sql.
  unfold WorkClaim_restore. rewrite (proj2 (Z.ltb_ge _ 1)), (proj2 (Z.ltb_ge _ 0)),
    (proj2 (Z.leb_gt _ _)) by lia. simpl.
  repeat (apply elem_of_cons in H3 as [-> | H3]; [done|]). by apply elem_of_nil in H3.
Qed.

Lemma expire_latest_Ok T rt id row :
  claims_wf T -> latest_claim_sql rt T = Some (id, row) -> wc_status row = "active" ->
  expire_sql id T = Ok (Some (id, set_claim_status "expired" row), expire_latest rt T).
Proof.
  intros Hwf Hl Hs. unfold expire_latest. rewrite Hl, Hs. simpl.
  apply latest_claim_Some in Hl as (Hid & _).
  destruct (claim_row_wf_facts row) as (H1 & H2 & _); [by eapply cw_rows|].
  unfold expire_sql, update_claim_sql. rewrite Hid. unfold protect_work_claim. simpl.
  rewrite bool_decide_true, Hs, Z.eqb_refl by done. simpl.
  unfold work_claim_row_check. simpl. rewrite !(proj2 (Z.leb_le _ _)), (proj2 (Z.ltb_lt _ _)) by lia.
  done.
Qed.

Lemma claim_run rt s i lease now T w ns :
  claims_wf T ->
  PostgresWorkClaim_claim rt s i lease now (MkConn T w [] ns) =
  if decide (owns_route T rt s) then
    match lock_claim (route_state T (RouteId_as_uuid rt)) (uuid_of_N (hd 0%N ns)) lease now with
    | Err StillHeld => (Err (WorkClaimError_AlreadyClaimed rt), MkConn T T [] ns)
    | Err Finished => (Err (WorkClaimError_AlreadyCompleted rt), MkConn T T [] ns)
    | Ok _ =>
        match insert_claim_sql (uuid_of_N (hd 0%N ns)) (RouteId_as_uuid rt) (ActorId_as_uuid s)
                (InstanceId_as_uuid i) (next_token (route_state T (RouteId_as_uuid rt))) now lease
                (expire_latest (RouteId_as_uuid rt) T) with
        | Ok (kv, T') => (Ok (claim_of kv.1 kv.2), MkConn T' T' [] (tl ns))
        | Err e => (Err (work_claim_query_error e),
                    MkConn T (expire_latest (RouteId_as_uuid rt) T) [] (tl ns))
        end
    end
  else (Err (WorkClaimError_RouteNotFound rt), MkConn T T [] ns).
Proof.
  intros Hwf. unfold PostgresWorkClaim_claim. db_run.
  destruct (decide (owns_route T rt s)) as [Ho|Ho]; unfold owns_route in Ho.
  2: { destruct (route_destination_sql (RouteId_as_uuid rt) T) as [dst|] eqn:Hdst; db_run; [|done].
       unfold ActorId_from_str. rewrite uuid_parse_print. simpl. db_run.
       by rewrite bool_decide_eq_false_2 by (intros <-; done). }
  rewrite Ho. destruct s as [dst]. unfold ActorId_from_str. db_run. rewrite uuid_parse_print.
  simpl. db_run. rewrite bool_decide_true by done. simpl. db_run. unfold route_state.
  assert (forall t n, (id ← new_uuid;
      row ← execute work_claim_query_error
        (insert_claim_sql id (RouteId_as_uuid rt) dst (InstanceId_as_uuid i) t now lease);
      claim ← lift (claim_from_row row);
      commit work_claim_query_error;; mret claim) (MkConn T n [] ns) =
    match insert_claim_sql (uuid_of_N (hd 0%N ns)) (RouteId_as_uuid rt) dst
            (InstanceId_as_uuid i) t now lease n with
    | Ok (kv, T') => (Ok (claim_of kv.1 kv.2), MkConn T' T' [] (tl ns))
    | Err e => (Err (work_claim_query_error e), MkConn T n [] (tl ns))
    end) as Hinsert.
  { intros t n. rewrite new_uuid_draw_bind.
    destruct (insert_claim_sql _ _ _ _ _ _ _ n) as [[kv T']|e] eqn:Hi.
    - rewrite bind_run, (execute_run _ _ _ _ _ _ _ Hi).
      apply insert_claim_Ok in Hi as (Hc & _ & -> & _). rewrite bind_run, lift_run.
      by rewrite claim_from_row_check.
    - by rewrite bind_run, (execute_fail_run _ _ _ _ _ _ Hi). }
  destruct (latest_claim_sql (RouteId_as_uuid rt) T) as [[id row]|] eqn:Hl; simpl.
  - pose proof Hl as (Hid & _)%latest_claim_Some.
    destruct (cw_rows _ Hwf _ _ Hid) as [Hc _]. db_run. unfold optional_claim.
    rewrite claim_from_row_check by done. db_run.
    unfold WorkClaim_is_current. simpl. unfold claim_status_of.
    destruct (String.eqb_spec (wc_status row) "active") as [Hs|Hs].
    + simpl. destruct (now <? wc_lease_expires_at row)%Z; [done|]. db_run.
      rewrite (execute_run _ _ _ _ _ _ _ (expire_latest_Ok _ _ _ _ Hwf Hl Hs)). db_run.
      apply Hinsert.
    + unfold expire_latest. rewrite Hl, (proj2 (String.eqb_neq _ _) Hs).
      destruct (String.eqb (wc_status row) "completed"); [done|].
      destruct (String.eqb (wc_status row) "released"); db_run; apply Hinsert.
  - db_run. unfold expire_latest. rewrite Hl. apply Hinsert.
Qed.

Lemma lock_current_run id token now T ns :
  claims_wf T ->
  lock_current id token now (MkConn T T [] ns) =
  match work_claims T !! ClaimId_as_uuid id with
  | None => (Err (WorkClaimError_NotFound id), MkConn T T [] ns)
  | Some row =>
      if holds row token now then (Ok (claim_of (ClaimId_as_uuid id) row), MkConn T T [] ns)
      else (Err WorkClaimError_Fenced, MkConn T T [] ns)
  end.
Proof.
  intros Hwf. unfold lock_current, lock_claim_sql. db_run.
  destruct (work_claims T !! ClaimId_as_uuid id) as [row|] eqn:Hid; simpl; db_run; [|done].
  destruct (cw_rows _ Hwf _ _ Hid) as [Hc _]. rewrite claim_from_row_check by done.
  db_run. unfold WorkClaim_is_current, holds. simpl. unfold claim_status_of.
  destruct (wc_fencing_token row =? token)%Z; simpl; [|by rewrite andb_false_r].
  rewrite andb_true_r. destruct (String.eqb (wc_status row) "active"); simpl.
  - by destruct (now <? wc_lease_expires_at row)%Z.
  - destruct (String.eqb (wc_status row) "completed"); [done|].
    by destruct (String.eqb (wc_status row) "released").
Qed.

(** Both [renew] and [transition] *)
Lemma update_run set id token now T w ns :
  claims_wf T ->
  (connection work_claim_repository_error;;
   transaction work_claim_query_error;;
   current ← lock_current id token now;
   row ← execute work_claim_query_error
     (query_one (update_claim_sql set (ClaimId_as_uuid (claim_id current))));
   claim ← lift (claim_from_row row);
   commit work_claim_query_error;;
   mret claim) (MkConn T w [] ns) =
  match work_claims T !! ClaimId_as_uuid id with
  | None => (Err (WorkClaimError_NotFound id), MkConn T T [] ns)
  | Some row =>
      if holds row token now then
        match (protect_work_claim row (set row);; work_claim_row_check (set row)) with
        | Ok _ =>
            let T' := with_work_claims (<[ClaimId_as_uuid id := set row]> (work_claims T)) T in
            (Ok (claim_of (ClaimId_as_uuid id) (set row)), MkConn T' T' [] ns)
        | Err e => (Err (work_claim_query_error e), MkConn T T [] ns)
        end
      else (Err WorkClaimError_Fenced, MkConn T T [] ns)
  end.
Proof.
  intros Hwf. db_run. rewrite (lock_current_run id token now T ns Hwf).
  destruct (work_claims T !! ClaimId_as_uuid id) as [row|] eqn:Hid; [|done].
  destruct (holds row token now); [|done]. simpl. db_run.
  assert (query_one (update_claim_sql set (ClaimId_as_uuid id)) T =
    ((protect_work_claim row (set row);; work_claim_row_check (set row));;
     Ok ((ClaimId_as_uuid id, set row),
         with_work_claims (<[ClaimId_as_uuid id := set row]> (work_claims T)) T))) as Hq.
  { unfold query_one, update_claim_sql. rewrite Hid.
    destruct (protect_work_claim row (set row)) as [[]|]; [|done]. simpl.
    by destruct (work_claim_row_check (set row)) as [[]|]. }
  destruct (protect_work_claim row (set row);; work_claim_row_check (set row)) as [[]|e] eqn:Hc.
  - rewrite (execute_run _ _ _ _ _ _ _ Hq). db_run. rewrite claim_from_row_check; [done|].
    apply result_bind_Ok in Hc as (_ & _ & ?). done.
  - by rewrite (execute_fail_run _ _ _ _ _ _ Hq).
Qed.

Lemma renew_check row lease :
  claim_row_wf row -> wc_status row = "active" ->
  (protect_work_claim row (set_claim_lease lease row);;
   work_claim_row_check (set_claim_lease lease row)) =
  if (lease <=? wc_lease_expires_at row)%Z
  then Err (raise_exception "work claim renewal must extend the lease") else Ok tt.
Proof.
  intros (H1 & H2 & H3)%claim_row_wf_facts Hs. unfold protect_work_claim. simpl.
  rewrite bool_decide_true, Hs by done. simpl. destruct (Z.leb_spec lease (wc_lease_expires_at row)); [done|].
  simpl. unfold work_claim_row_check. simpl. rewrite Hs.
  by rewrite !(proj2 (Z.leb_le _ _)), (proj2 (Z.ltb_lt _ _)) by lia.
Qed.

Lemma transition_check row status :
  claim_row_wf row -> wc_status row = "active" -> status ∈ ["completed"; "released"] ->
  (protect_work_claim row (set_claim_status status row);;
   work_claim_row_check (set_claim_status status row)) = Ok tt.
Proof.
  intros (H1 & H2 & _)%claim_row_wf_facts Hs Hst. unfold protect_work_claim. simpl.
  rewrite bool_decide_true, Hs, Z.eqb_refl by done. simpl.
  unfold work_claim_row_check. simpl.
  rewrite !(proj2 (Z.leb_le _ _)), (proj2 (Z.ltb_lt _ _)) by lia.
  by repeat (apply elem_of_cons in Hst as [-> | Hst]; [done|]); apply elem_of_nil in Hst.
Qed.
End runs.

(** ** Operations and their histories *)

Section histories.
Context {P : Platform} {HP : PlatformLaws P}.

Definition claim_transport_error (e : WorkClaimError) : Prop :=
  exists message, e = WorkClaimError_Repository message.

Lemma work_claim_atomic :
  (forall rt s i l now, atomic claim_transport_error (PostgresWorkClaim_claim rt s i l now)) /\
  (forall id t l now, atomic claim_transport_error (PostgresWorkClaim_renew id t l now)) /\
  (forall id t now st, atomic claim_transport_error (PostgresWorkClaim_transition id t now st)).
Proof.
  unfold PostgresWorkClaim_claim, PostgresWorkClaim_renew, PostgresWorkClaim_transition,
    lock_current, work_claim_query_error, work_claim_repository_error, claim_transport_error.
  split_and!; db_walk; eauto.
Qed.

Definition last_token (s : RouteState) : Z :=
  match s with Free token | Held _ token _ => token | Done => 0 end.

(** What is left of a route that can be locked, once its last claim expired *)
Lemma expire_latest_rows T rt id lease now s' i r :
  claims_wf T -> lock_claim (route_state T rt) id lease now = Ok s' ->
  work_claims (expire_latest rt T) !! i = Some r -> wc_route_id r = rt ->
  (wc_fencing_token r <= last_token (route_state T rt))%Z /\
  wc_status r <> "completed" /\ wc_status r <> "active".
Proof.
  intros Hwf. unfold route_state, expire_latest.
  destruct (latest_claim_sql rt T) as [[j row]|] eqn:Hl.
  2: { rewrite latest_claim_None in Hl. intros _ Hi Hr. by destruct (Hl i r). }
  destruct (latest_claim_Some _ _ _ _ Hl) as (Hj & Hrt & Hmax). intros Hok Hi Hr.
  assert (forall i r, work_claims T !! i = Some r -> wc_route_id r = rt ->
    wc_status r = "active" \/ wc_status r = "completed" -> i = j /\ r = row) as Hends.
  { intros i0 r0 H0 Hr0 Hs0. assert (i0 = j) as ->; [|split; congruence].
    eapply cw_tokens; eauto; [congruence|]. specialize (Hmax _ _ H0 Hr0).
    assert (wc_fencing_token row <= wc_fencing_token r0)%Z; [|lia].
    eapply cw_latest; eauto. congruence. }
  destruct (String.eqb_spec (wc_status row) "active") as [Hs|Hs]; simpl in *.
  - apply lookup_insert_Some in Hi as [[<- <-]|[Hne Hi]]; simpl; [done|]. split; [eauto|].
    split; intros Hst; by destruct (Hends _ _ Hi Hr) as [<- _]; auto.
  - destruct (String.eqb_spec (wc_status row) "completed") as [|Hc]; [done|]. simpl. split; [eauto|].
    split; intros Hst; destruct (Hends _ _ Hi Hr) as [_ ->]; auto.
Qed.

Lemma last_token_bounds T rt :
  claims_wf T -> (0 <= last_token (route_state T rt) <= i64_max)%Z.
Proof.
  intros Hwf. unfold route_state. destruct (latest_claim_sql rt T) as [[id row]|] eqn:Hl; [|done].
  apply latest_claim_Some in Hl as (Hid & _).
  destruct (claim_row_wf_facts row) as (_ & ? & _); [by eapply cw_rows|].
  destruct (String.eqb (wc_status row) "active"); simpl; [lia|].
  destruct (String.eqb (wc_status row) "completed"); simpl; unfold i64_max in *; lia.
Qed.

Lemma next_token_exact T rt id lease now s' :
  claims_wf T -> lock_claim (route_state T rt) id lease now = Ok s' ->
  (1 <= next_token (route_state T rt))%Z ->
  next_token (route_state T rt) = (last_token (route_state T rt) + 1)%Z /\
  (next_token (route_state T rt) <= i64_max)%Z.
Proof.
  intros Hwf Hok. pose proof (last_token_bounds T rt Hwf) as Hb. revert Hb.
  assert (forall t, (0 <= t <= i64_max)%Z -> (1 <= wrapping_add t 1)%Z ->
    wrapping_add t 1 = (t + 1)%Z /\ (wrapping_add t 1 <= i64_max)%Z) as Hw.
  { intros t Ht H1. unfold wrapping_add, i64_max in *.
    destruct (decide (t = 2 ^ 63 - 1)%Z) as [->|]; [done|].
    assert (t + 1 + 2 ^ 63 < 2 ^ 64)%Z by lia. rewrite Z.mod_small in * by lia. lia. }
  destruct (route_state T rt); simpl in *; eauto. done.
Qed.

(** The tables after a granted claim *)
Lemma grant_step T rt s i id lease now s' kv T' :
  claims_wf T -> lock_claim (route_state T rt) id lease now = Ok s' ->
  insert_claim_sql id rt s i (next_token (route_state T rt)) now lease (expire_latest rt T) = Ok (kv, T') ->
  claim_step T T' /\ next_token (route_state T rt) = (last_token (route_state T rt) + 1)%Z /\
  work_claims T !! id = None.
Proof.
  intros Hwf Hok (Hc & Hid & _ & ->)%insert_claim_Ok.
  assert (claim_row_wf (MkWorkClaimRow rt s i (next_token (route_state T rt)) "active" now lease) /\
    next_token (route_state T rt) = (last_token (route_state T rt) + 1)%Z) as [Hrow Hnext].
  { assert (1 <= next_token (route_state T rt))%Z as H1.
    { unfold work_claim_row_check in Hc. result_inv.
      repeat match goal with H : require _ _ = Ok _ |- _ => apply require_Ok in H end.
      by rewrite ?Z.leb_le in *. }
    destruct (next_token_exact T rt id lease now s') as [? ?]; [done..|]. by split_and!. }
  split_and!; [|done|].
  - etrans; [|eapply insert_step; [done..|]].
    + unfold expire_latest. destruct (latest_claim_sql rt T) as [[j row]|] eqn:Hl; [|done].
      destruct (String.eqb_spec (wc_status row) "active") as [Hs|]; [|done].
      pose proof (expire_latest_Ok T rt j row Hwf Hl Hs) as He. unfold expire_latest in He.
      rewrite Hl, Hs in He. simpl in He. by eapply update_claim_step.
    + simpl. intros j r Hj Hr. destruct (expire_latest_rows _ _ _ _ _ _ _ _ Hwf Hok Hj Hr).
      split; [lia | done].
  - unfold expire_latest in Hid. destruct (latest_claim_sql rt T) as [[j row]|] eqn:Hl; [|done].
    destruct (String.eqb (wc_status row) "active"); [|done]. simpl in Hid.
    by apply lookup_insert_None in Hid as [? _].
Qed.

Lemma work_claim_histories :
  (forall rt s i l now, history claim_step (PostgresWorkClaim_claim rt s i l now)) /\
  (forall id t l now, history claim_step (PostgresWorkClaim_renew id t l now)) /\
  (forall id t now st, history claim_step (PostgresWorkClaim_transition id t now st)).
Proof.
  destruct work_claim_atomic as (A1 & A2 & A3).
  assert (forall set id T row, work_claims T !! id = Some row ->
    (protect_work_claim row (set row);; work_claim_row_check (set row)) = Ok tt ->
    claim_step T (with_work_claims (<[id := set row]> (work_claims T)) T)) as Hupdate.
  { intros set id T row Hid ([] & (Ha & Hs & _)%protect_work_claim_Ok & Hc)%result_bind_Ok.
    by eapply update_step. }
  split_and!; intros; (eapply atomic_history; [apply _ | eauto |]);
    intros [T w fs ns] Hfs Hwf; simpl in Hfs, Hwf |- *; subst fs; revert Hwf.
  - intros Hwf. rewrite claim_run by done. destruct (decide _); [|by split].
    destruct (lock_claim _ _ _ _) as [s'|[]] eqn:Hok; [|by split..].
    destruct (insert_claim_sql _ _ _ _ _ _ _ _) as [[kv T']|] eqn:Hi; [|by split].
    simpl. eapply grant_step in Hi; [|done..]. by apply Hi.
  - intros Hwf. unfold PostgresWorkClaim_renew, renew_sql. rewrite update_run by done.
    destruct (work_claims T !! _) as [row|] eqn:Hid; [|by split].
    destruct (holds row t now); [|by split].
    destruct (_;; _) as [[]|] eqn:Hc; [|by split]. by apply (Hupdate _ _ _ _ Hid Hc).
  - intros Hwf. unfold PostgresWorkClaim_transition, transition_sql. rewrite update_run by done.
    destruct (work_claims T !! _) as [row|] eqn:Hid; [|by split].
    destruct (holds row t now); [|by split].
    destruct (_;; _) as [[]|] eqn:Hc; [|by split]. by apply (Hupdate _ _ _ _ Hid Hc).
Qed.
End histories.

(** ** Reachable tables *)

Section reachability.
Context {P : Platform}.

(** Any operation with any arguments, faults and random values, or any other
    part of the kernel, none of which writes to the claims. *)
Inductive claim_op : Tables -> Tables -> Prop :=
| op_claim rt s i lease now fs ns T :
    claim_op T (durable (WorkClaimService_claim PostgresWorkClaimRepository rt s i lease now
                           (start T fs ns)).2)
| op_renew id token lease now fs ns T :
    claim_op T (durable (WorkClaimService_renew PostgresWorkClaimRepository id token lease now
                           (start T fs ns)).2)
| op_release id token now fs ns T :
    claim_op T (durable (WorkClaimService_release PostgresWorkClaimRepository id token now
                           (start T fs ns)).2)
| op_complete id token now fs ns T :
    claim_op T (durable (WorkClaimService_complete PostgresWorkClaimRepository id token now
                           (start T fs ns)).2)
| op_other T T' : work_claims T' = work_claims T -> claim_op T T'.

Context {HP : PlatformLaws P}.

Lemma claim_op_step T T' : claim_op T T' -> claim_step T T'.
Proof.
  destruct work_claim_histories as (H1 & H2 & H3).
  intros [rt s i l now fs ns ? | id t l now fs ns ? | id t now fs ns ? | id t now fs ns ? | ? ? Hw];
    unfold WorkClaimService_claim, WorkClaimService_renew, WorkClaimService_release,
      WorkClaimService_complete; try (destruct (_ : bool); [done|]).
  - apply (H1 rt s i l now (start _ fs ns)).
  - apply (H2 id t l now (start _ fs ns)).
  - apply (H3 id t now _ (start _ fs ns)).
  - apply (H3 id t now _ (start _ fs ns)).
  - intros [Hr Ht Hl]. split; [split|split]; rewrite Hw; eauto; try congruence.
    intros j row Hj. exists row. by split.
Qed.

Lemma claim_ops_step T T' : rtc claim_op T T' -> claim_step T T'.
Proof. induction 1; [done|]. etrans; [by apply claim_op_step | done]. Qed.

Lemma no_claims_wf T : work_claims T = ∅ -> claims_wf T.
Proof. intros HT. split; rewrite HT; intros *; by rewrite lookup_empty. Qed.

(** A granted claim, under any faults *)
Lemma claim_granted rt s i lease now c claim c' :
  claims_wf (durable c) ->
  WorkClaimService_claim PostgresWorkClaimRepository rt s i lease now c = (Ok claim, c') ->
  exists id row s' kv, claim = claim_of id row /\ wc_route_id row = RouteId_as_uuid rt /\
    wc_status row = "active" /\
    work_claims (durable c) !! id = None /\ work_claims (durable c') !! id = Some row /\
    lock_claim (route_state (durable c) (RouteId_as_uuid rt)) id lease now = Ok s' /\
    insert_claim_sql id (RouteId_as_uuid rt) (ActorId_as_uuid s) (InstanceId_as_uuid i)
      (next_token (route_state (durable c) (RouteId_as_uuid rt))) now lease
      (expire_latest (RouteId_as_uuid rt) (durable c)) = Ok (kv, durable c').
Proof.
  intros Hwf. unfold WorkClaimService_claim. destruct (_ || _); [done|]. intros Hc.
  destruct work_claim_atomic as (Hat & _). simpl in Hc.
  destruct (atomic_Ok _ _ _ _ _ (Hat _ _ _ _ _) Hc) as (c0 & Hcalm & Hd).
  destruct c as [d w fs ns]. unfold calm in Hcalm. simpl in *. rewrite claim_run in Hcalm by done.
  destruct (decide _); [|done]. destruct (lock_claim _ _ _ _) as [s'|[]] eqn:Hok; [|done..].
  destruct (insert_claim_sql _ _ _ _ _ _ _ _) as [[kv T']|] eqn:Hi; [|done].
  injection Hcalm as <- <-. simpl in Hd. subst T'.
  destruct (grant_step _ _ _ _ _ _ _ _ _ _ Hwf Hok Hi) as (_ & _ & Hnone).
  pose proof Hi as (_ & _ & -> & HT')%insert_claim_Ok. simpl.
  eexists _, _, s', _. split_and!; [done | done | done | exact Hnone | | exact Hok | exact Hi].
  rewrite HT'. apply lookup_insert_eq.
Qed.

(** C26: Whatever sequence of claim operations runs, with whatever faults, the
    stored claims stay consistent: a fencing token of a route names one claim,
    at most one claim of a route is active and it is the newest, and nothing
    is newer than a completed claim. *)
Theorem claims_stay_consistent T T' id row id' row' :
  work_claims T = ∅ -> rtc claim_op T T' ->
  work_claims T' !! id = Some row -> work_claims T' !! id' = Some row' ->
  wc_route_id row = wc_route_id row' ->
  (1 <= wc_fencing_token row)%Z /\
  (wc_fencing_token row = wc_fencing_token row' -> id = id') /\
  (wc_status row = "active" -> wc_status row' = "active" -> id = id') /\
  (wc_status row = "active" \/ wc_status row = "completed" ->
    (wc_fencing_token row' <= wc_fencing_token row)%Z).
Proof.
  intros HT%no_claims_wf Hops Hid Hid' Hr. destruct (claim_ops_step _ _ Hops HT) as [Hwf _].
  destruct (claim_row_wf_facts row) as (_ & ? & _); [by eapply cw_rows|].
  split_and!; [lia| by eapply cw_tokens | | by eapply cw_latest].
  intros Hs Hs'. eapply cw_tokens; [done..|].
  apply Z.le_antisymm; eapply cw_latest; eauto.
Qed.

(** Two grants of one route: the first claim is still there after the second,
    with a smaller token. *)
Lemma claimed_again rt s1 i1 l1 now1 c1 claim1 c1' s2 i2 l2 now2 c2 claim2 c2' :
  claims_wf (durable c1) ->
  WorkClaimService_claim PostgresWorkClaimRepository rt s1 i1 l1 now1 c1 = (Ok claim1, c1') ->
  rtc claim_op (durable c1') (durable c2) ->
  WorkClaimService_claim PostgresWorkClaimRepository rt s2 i2 l2 now2 c2 = (Ok claim2, c2') ->
  exists id1 row1 id2 row2,
    claims_wf (durable c2') /\ claim_id claim1 = MkClaimId id1 /\
    work_claims (durable c2') !! id1 = Some row1 /\ work_claims (durable c2') !! id2 = Some row2 /\
    wc_route_id row1 = wc_route_id row2 /\
    claim_fencing_token claim1 = wc_fencing_token row1 /\
    claim_fencing_token claim2 = wc_fencing_token row2 /\
    (wc_fencing_token row1 < wc_fencing_token row2)%Z.
Proof.
  intros Hwf H1 Hops H2.
  destruct (claim_granted _ _ _ _ _ _ _ _ Hwf H1) as (id1 & row1 & s1' & kv1 & -> & Hr1 & _ & _ & Hrow1 & L1 & I1).
  destruct (grant_step _ _ _ _ _ _ _ _ _ _ Hwf L1 I1) as (Hs1 & _).
  destruct (claim_ops_step _ _ Hops) as [Hwf2 Hh]; [by apply Hs1|].
  destruct (ch_kept _ _ Hh _ _ Hrow1) as (row1' & Hrow1' & Hsucc).
  destruct (claim_granted _ _ _ _ _ _ _ _ Hwf2 H2) as (id2 & row2 & s2' & kv2 & -> & Hr2 & _ & Hnone & Hrow2 & L2 & I2).
  destruct (grant_step _ _ _ _ _ _ _ _ _ _ Hwf2 L2 I2) as (Hs2 & _).
  destruct (Hs2 Hwf2) as [Hwf2' Hh2].
  destruct (ch_kept _ _ Hh2 _ _ Hrow1') as (row1'' & Hrow1'' & Hsucc').
  assert (wc_route_id row1' = wc_route_id row2) as Hr by (destruct Hsucc; congruence).
  destruct (ch_new _ _ Hh2 _ _ Hrow2 Hnone _ _ Hrow1' Hr) as [Htok _].
  exists id1, row1'', id2, row2. simpl.
  destruct Hsucc, Hsucc'. split_and!; try done; congruence.
Qed.

(** Fencing tokens work: when a route is claimed again, whatever happened in
    between and whatever the clocks said, the new claim's token is larger. *)
Theorem fencing_tokens_increase rt s1 i1 l1 now1 c1 claim1 c1' s2 i2 l2 now2 c2 claim2 c2' :
  claims_wf (durable c1) ->
  WorkClaimService_claim PostgresWorkClaimRepository rt s1 i1 l1 now1 c1 = (Ok claim1, c1') ->
  rtc claim_op (durable c1') (durable c2) ->
  WorkClaimService_claim PostgresWorkClaimRepository rt s2 i2 l2 now2 c2 = (Ok claim2, c2') ->
  (claim_fencing_token claim1 < claim_fencing_token claim2)%Z.
Proof.
  intros Hwf H1 Hops H2.
  by destruct (claimed_again _ _ _ _ _ _ _ _ _ _ _ _ _ _ _ Hwf H1 Hops H2)
    as (? & ? & ? & ? & _ & _ & _ & _ & _ & -> & -> & ?).
Qed.

(** A claim call that the route's lock refuses, under any faults *)
Lemma claim_refused rt s i lease now c :
  claims_wf (durable c) ->
  (forall id s', lock_claim (route_state (durable c) (RouteId_as_uuid rt)) id lease now <> Ok s') ->
  refused (WorkClaimService_claim PostgresWorkClaimRepository rt s i lease now) c.
Proof.
  intros Hwf Hno. unfold WorkClaimService_claim. destruct (_ || _); [apply throw_refused|].
  destruct work_claim_atomic as (Hat & _). eapply atomic_refused; [apply Hat|].
  destruct c as [d w fs ns]. unfold refused, calm. simpl in *. rewrite claim_run by done.
  destruct (decide _); [|done].
  destruct (lock_claim _ _ _ _) as [s'|[]] eqn:Hl; [by destruct (Hno _ _ Hl) | done..].
Qed.

(** While a claim is live no other claim of its route succeeds, whoever
    asks and whatever fails, and nothing changes. *)
Theorem live_claim_excludes id row rt s i lease now c :
  claims_wf (durable c) -> work_claims (durable c) !! id = Some row ->
  wc_route_id row = RouteId_as_uuid rt -> wc_status row = "active" ->
  (now < wc_lease_expires_at row)%Z ->
  refused (WorkClaimService_claim PostgresWorkClaimRepository rt s i lease now) c.
Proof.
  intros Hwf Hid Hr Hs Hl. apply claim_refused; [done|]. intros id' s'.
  unfold route_state. rewrite <-Hr, (latest_claim_intro _ id row Hwf Hid), Hs.
  - simpl. by rewrite (proj2 (Z.ltb_lt _ _) Hl).
  - intros j r Hj Hjr. eapply (cw_latest _ Hwf); eauto.
Qed.

(** A claim that ended well, under any faults *)
Lemma transition_granted id token now status c claim c' :
  claims_wf (durable c) ->
  PostgresWorkClaim_transition id token now status c = (Ok claim, c') ->
  claims_wf (durable c') /\ exists row, work_claims (durable c) !! ClaimId_as_uuid id = Some row /\
    holds row token now = true /\
    claim = claim_of (ClaimId_as_uuid id) (set_claim_status status row) /\
    work_claims (durable c') !! ClaimId_as_uuid id = Some (set_claim_status status row).
Proof.
  intros Hwf Hc. destruct work_claim_histories as (_ & _ & Hh).
  destruct (Hh id token now status c Hwf) as [Hwf1 _]. rewrite Hc in Hwf1. split; [done|].
  destruct work_claim_atomic as (_ & _ & Hat).
  destruct (atomic_Ok _ _ _ _ _ (Hat _ _ _ _) Hc) as (c0 & Hcalm & Hd).
  destruct c as [d w fs0 ns0]. unfold calm in Hcalm. simpl in *.
  unfold PostgresWorkClaim_transition, transition_sql in Hcalm. rewrite update_run in Hcalm by done.
  destruct (work_claims d !! ClaimId_as_uuid id) as [row|]; [|done].
  destruct (holds row token now) eqn:Hholds; [|done]. destruct (_;; _) as [[]|]; [|done].
  injection Hcalm as <- <-. exists row. rewrite <-Hd. split_and!; [done..|]. apply lookup_insert_eq.
Qed.

(** Completion is permanent: once a route's work is reported complete, no
    later claim of that route ever succeeds. *)
Theorem completion_is_permanent id token now c claim c' T s i lease now2 fs ns :
  claims_wf (durable c) ->
  WorkClaimService_complete PostgresWorkClaimRepository id token now c = (Ok claim, c') ->
  rtc claim_op (durable c') T ->
  claim_status claim = WorkClaimStatus_Completed /\
  refused (WorkClaimService_claim PostgresWorkClaimRepository (claim_route_id claim) s i lease now2)
    (start T fs ns).
Proof.
  intros Hwf Hc Hops. unfold WorkClaimService_complete in Hc. destruct (now <? 0)%Z; [done|].
  destruct (transition_granted _ _ _ _ _ _ _ Hwf Hc) as (Hwf1 & row & _ & _ & -> & Hrow).
  split; [done|]. destruct (claim_ops_step _ _ Hops Hwf1) as [HwfT HhT].
  destruct (ch_kept _ _ HhT _ _ Hrow) as (row' & Hrow' & Hsucc).
  rewrite (cs_ended _ _ Hsucc) in Hrow' by done.
  apply claim_refused; [done|]. intros id' s'. unfold route_state, start. simpl.
  change (wc_route_id row) with (wc_route_id (set_claim_status "completed" row)).
  rewrite (latest_claim_intro T _ _ HwfT Hrow'); [done|].
  intros j r Hj Hjr. eapply (cw_latest _ HwfT); eauto.
Qed.

(** Nothing can be done with a claim that has ended. *)
Lemma ended_refused id row token lease now c :
  claims_wf (durable c) -> work_claims (durable c) !! ClaimId_as_uuid id = Some row ->
  wc_status row <> "active" ->
  refused (WorkClaimService_renew PostgresWorkClaimRepository id token lease now) c /\
  refused (WorkClaimService_release PostgresWorkClaimRepository id token now) c /\
  refused (WorkClaimService_complete PostgresWorkClaimRepository id token now) c.
Proof.
  intros Hwf Hrow Hst. assert (holds row token now = false) as Hno.
  { unfold holds. by rewrite (proj2 (String.eqb_neq _ _) Hst). }
  destruct work_claim_atomic as (_ & Hat & Hat').
  assert (forall status, refused (PostgresWorkClaim_transition id token now status) c) as Htr.
  { intros status. eapply atomic_refused; [apply Hat'|]. destruct c as [d w fs ns].
    unfold refused, calm. cbn [durable working faults entropy] in *.
    unfold PostgresWorkClaim_transition, transition_sql. rewrite update_run by done.
    by rewrite Hrow, Hno. }
  split_and!.
  - unfold WorkClaimService_renew. destruct (_ || _); [apply throw_refused|].
    eapply atomic_refused; [apply Hat|]. destruct c as [d w fs ns].
    unfold refused, calm. cbn [durable working faults entropy] in *.
    change (work_claim_repository_renew _) with PostgresWorkClaim_renew.
    unfold PostgresWorkClaim_renew, renew_sql. rewrite update_run by done. by rewrite Hrow, Hno.
  - unfold WorkClaimService_release. destruct (now <? 0)%Z; [apply throw_refused | apply Htr].
  - unfold WorkClaimService_complete. destruct (now <? 0)%Z; [apply throw_refused | apply Htr].
Qed.

(** C3: A holder that was superseded stays fenced off: after the route has been
    claimed again, renewing, releasing or completing the old claim fails for
    ever, with any faults, and changes nothing. *)
Theorem stale_holder_is_fenced rt s1 i1 l1 now1 c1 claim1 c1' s2 i2 l2 now2 c2 claim2 c2' T
  token lease now fs ns :
  claims_wf (durable c1) ->
  WorkClaimService_claim PostgresWorkClaimRepository rt s1 i1 l1 now1 c1 = (Ok claim1, c1') ->
  rtc claim_op (durable c1') (durable c2) ->
  WorkClaimService_claim PostgresWorkClaimRepository rt s2 i2 l2 now2 c2 = (Ok claim2, c2') ->
  rtc claim_op (durable c2') T ->
  let c := start T fs ns in
  refused (WorkClaimService_renew PostgresWorkClaimRepository (claim_id claim1) token lease now) c /\
  refused (WorkClaimService_release PostgresWorkClaimRepository (claim_id claim1) token now) c /\
  refused (WorkClaimService_complete PostgresWorkClaimRepository (claim_id claim1) token now) c.
Proof.
  intros Hwf H1 Hops H2 Hops2 c.
  destruct (claimed_again _ _ _ _ _ _ _ _ _ _ _ _ _ _ _ Hwf H1 Hops H2)
    as (id1 & row1 & id2 & row2 & Hwf2 & Hid & Hrow1 & Hrow2 & Hr & _ & _ & Htok).
  destruct (claim_ops_step _ _ Hops2 Hwf2) as [HwfT HhT].
  destruct (ch_kept _ _ HhT _ _ Hrow1) as (r1 & Hr1 & Hs1).
  destruct (ch_kept _ _ HhT _ _ Hrow2) as (r2 & Hr2 & Hs2).
  rewrite Hid. apply (ended_refused _ r1); [done..|]. intros Ha.
  assert (wc_fencing_token r2 <= wc_fencing_token r1)%Z.
  { eapply (cw_latest _ HwfT); [exact Hr1 | exact Hr2 | | by left]. destruct Hs1, Hs2. congruence. }
  destruct Hs1, Hs2. lia.
Qed.
End reachability.

(** ** The adapter implements the lock *)

Section refinement.
Context {P : Platform} {HP : PlatformLaws P}.

(** The state of a route depends on the claims of that route only. *)
Lemma route_state_frame T T' rt :
  claims_wf T -> claims_wf T' ->
  (forall id row, wc_route_id row = rt ->
     work_claims T' !! id = Some row <-> work_claims T !! id = Some row) ->
  route_state T' rt = route_state T rt.
Proof.
  intros Hwf Hwf' Heq. unfold route_state.
  assert (latest_claim_sql rt T' = latest_claim_sql rt T) as ->; [|done].
  destruct (latest_claim_sql rt T) as [[id row]|] eqn:Hl.
  - destruct (latest_claim_Some _ _ _ _ Hl) as (Hid & <- & Hmax).
    apply latest_claim_intro; [done | by apply Heq|].
    intros id' row' Hid' Hr. eapply Hmax; [by apply Heq | done].
  - rewrite latest_claim_None in Hl |- *. intros id row Hid Hr. by apply (Hl id row), Hr; apply Heq.
Qed.

(** After a write to one claim of a route, the other routes are as before. *)
Lemma route_state_other T id row rt :
  claims_wf T -> claims_wf (with_work_claims (<[id := row]> (work_claims T)) T) ->
  wc_route_id row <> rt ->
  (forall old, work_claims T !! id = Some old -> wc_route_id old <> rt) ->
  route_state (with_work_claims (<[id := row]> (work_claims T)) T) rt = route_state T rt.
Proof.
  intros Hwf Hwf' Hr Hold. apply route_state_frame; [done..|]. intros i r Hi. simpl.
  destruct (decide (id = i)) as [<-|]; [|by rewrite lookup_insert_ne].
  rewrite lookup_insert_eq. split; [congruence|]. intros H. by destruct (Hold _ H).
Qed.

(** The newest claim decides the state of its route. *)
Lemma route_state_latest T id row :
  claims_wf T -> work_claims T !! id = Some row ->
  (forall id' row', work_claims T !! id' = Some row' -> wc_route_id row' = wc_route_id row ->
    (wc_fencing_token row' <= wc_fencing_token row)%Z) ->
  route_state T (wc_route_id row) =
    if String.eqb (wc_status row) "active"
    then Held id (wc_fencing_token row) (wc_lease_expires_at row)
    else if String.eqb (wc_status row) "completed" then Done else Free (wc_fencing_token row).
Proof. intros Hwf Hid Hmax. unfold route_state. by rewrite (latest_claim_intro _ id row). Qed.

Lemma grant_states T rt s i id lease now s' kv T' :
  claims_wf T -> lock_claim (route_state T rt) id lease now = Ok s' ->
  insert_claim_sql id rt s i (next_token (route_state T rt)) now lease (expire_latest rt T) = Ok (kv, T') ->
  route_state T' rt = Held id (last_token (route_state T rt) + 1) lease /\
  forall rt', rt' <> rt -> route_state T' rt' = route_state T rt'.
Proof.
  intros Hwf Hok Hi. destruct (grant_step _ _ _ _ _ _ _ _ _ _ Hwf Hok Hi) as (Hs & Hnext & Hnone).
  destruct (Hs Hwf) as [Hwf' _]. apply insert_claim_Ok in Hi as (_ & _ & _ & ->).
  rewrite Hnext in *. split.
  - pose proof (route_state_latest _ id _ Hwf' (lookup_insert_eq _ _ _)) as Hst. simpl in Hst.
    apply Hst. intros j r [[<- <-]|[_ Hj]]%lookup_insert_Some Hr; [done|].
    destruct (expire_latest_rows _ _ _ _ _ _ _ _ Hwf Hok Hj Hr). lia.
  - intros rt' Hne. apply route_state_frame; [done..|]. intros j r Hr. simpl.
    unfold expire_latest in *. destruct (latest_claim_sql rt T) as [[k row]|] eqn:Hl.
    + apply latest_claim_Some in Hl as (Hk & Hrt & _).
      rewrite lookup_insert_Some. destruct (String.eqb (wc_status row) "active"); simpl;
        rewrite ?lookup_insert_Some; naive_solver congruence.
    + rewrite lookup_insert_Some. naive_solver congruence.
Qed.

Lemma insert_claim_intro id rt s i t n l T :
  (0 <= n < l)%Z -> (1 <= t)%Z -> work_claims T !! id = None ->
  (forall j r, work_claims T !! j = Some r -> wc_route_id r = rt ->
     (wc_fencing_token r < t)%Z /\ wc_status r <> "active") ->
  is_Some (request_routes T !! rt) -> is_Some (identities T !! s) ->
  is_Some (service_instances T !! i) ->
  let row := MkWorkClaimRow rt s i t "active" n l in
  insert_claim_sql id rt s i t n l T =
    Ok ((id, row), with_work_claims (<[id := row]> (work_claims T)) T).
Proof.
  intros Hn Ht Hid Hrows Hr Hs Hi. unfold insert_claim_sql, work_claim_row_check, references, require.
  simpl. rewrite !(proj2 (Z.leb_le _ _)), (proj2 (Z.ltb_lt _ _)) by lia. simpl.
  rewrite bool_decide_true by done. simpl.
  assert (forallb (fun kv => negb (wc_fencing_token kv.2 =? t)%Z) (claims_of_route rt T) = true) as ->.
  { apply forallb_forall. intros [j r] [Hj Hjr]%list_elem_of_In%claims_of_route_In. simpl.
    destruct (Hrows _ _ Hj Hjr). apply negb_true_iff, Z.eqb_neq. lia. }
  assert (active_claims_of_route rt T = []) as ->.
  { unfold active_claims_of_route. destruct (select _ _) as [|[j r] rest] eqn:Hsel; [done|].
    assert ((j, r) ∈ select (fun _ row => bool_decide (wc_route_id row = rt)
              && String.eqb (wc_status row) "active") (work_claims T)) as Hin by (rewrite Hsel; left).
    apply select_In in Hin as [Hj Hb]. apply andb_true_iff in Hb as [Hb Ha].
    apply bool_decide_eq_true in Hb. apply String.eqb_eq in Ha. by destruct (Hrows _ _ Hj Hb). }
  simpl. by rewrite !bool_decide_true.
Qed.

Lemma expire_latest_frame rt T :
  request_routes (expire_latest rt T) = request_routes T /\
  identities (expire_latest rt T) = identities T /\
  service_instances (expire_latest rt T) = service_instances T /\
  forall id, work_claims T !! id = None -> work_claims (expire_latest rt T) !! id = None.
Proof.
  unfold expire_latest. destruct (latest_claim_sql rt T) as [[j r]|] eqn:Hl; [|done].
  destruct (String.eqb (wc_status r) "active"); [|done]. simpl. split_and!; [done..|].
  apply latest_claim_Some in Hl as [Hj _]. intros id Hid. by rewrite lookup_insert_ne by congruence.
Qed.

Lemma grant_possible T rt s i id lease now s' :
  claims_wf T -> (0 <= now < lease)%Z -> is_Some (request_routes T !! rt) ->
  is_Some (identities T !! s) -> is_Some (service_instances T !! i) ->
  work_claims T !! id = None -> (last_token (route_state T rt) < i64_max)%Z ->
  lock_claim (route_state T rt) id lease now = Ok s' ->
  next_token (route_state T rt) = (last_token (route_state T rt) + 1)%Z /\
  exists T', insert_claim_sql id rt s i (next_token (route_state T rt)) now lease (expire_latest rt T) =
    Ok ((id, MkWorkClaimRow rt s i (next_token (route_state T rt)) "active" now lease), T').
Proof.
  intros Hwf Hnow Hr Hs Hi Hnone Hmax Hok. pose proof (last_token_bounds T rt Hwf) as Hb.
  assert (next_token (route_state T rt) = last_token (route_state T rt) + 1)%Z as Hnext.
  { destruct (route_state T rt); simpl in *; [..|done];
      apply wrapping_add_exact; unfold in_i64, i64_min, i64_max in *; lia. }
  destruct (expire_latest_frame rt T) as (F1 & F2 & F3 & F4).
  split; [done|]. eexists. apply insert_claim_intro; rewrite ?F1, ?F2, ?F3; auto; [lia|].
  intros j r Hj Hjr. destruct (expire_latest_rows _ _ _ _ _ _ _ _ Hwf Hok Hj Hjr) as (? & ? & ?).
  split; [lia | done].
Qed.

(** C7: The adapter's claim is the lock's: on a route that the caller's service
    owns it succeeds exactly when the lock can be taken, the new claim holds the
    route under the next token, and no other route changes. *)
Theorem claim_refines T rt s i lease now ns :
  claims_wf T -> (0 <= now < lease)%Z -> owns_route T rt s ->
  is_Some (identities T !! ActorId_as_uuid s) ->
  is_Some (service_instances T !! InstanceId_as_uuid i) ->
  work_claims T !! uuid_of_N (hd 0%N ns) = None ->
  (last_token (route_state T (RouteId_as_uuid rt)) < i64_max)%Z ->
  let id := uuid_of_N (hd 0%N ns) in
  let state := route_state T (RouteId_as_uuid rt) in
  let run := WorkClaimService_claim PostgresWorkClaimRepository rt s i lease now (start T [] ns) in
  match lock_claim state id lease now with
  | Ok state' => exists T',
      run = (Ok (MkWorkClaim (MkClaimId id) rt s i (last_token state + 1)
                   WorkClaimStatus_Active now lease), start T' [] (tl ns)) /\
      route_state T' (RouteId_as_uuid rt) = state' /\
      forall rt', rt' <> RouteId_as_uuid rt -> route_state T' rt' = route_state T rt'
  | Err StillHeld => run = (Err (WorkClaimError_AlreadyClaimed rt), start T [] ns)
  | Err Finished => run = (Err (WorkClaimError_AlreadyCompleted rt), start T [] ns)
  end.
Proof.
  intros Hwf Hnow Ho Hs Hi Hnone Hmax. simpl. unfold WorkClaimService_claim, start.
  rewrite (proj2 (Z.ltb_ge now 0)), (proj2 (Z.leb_gt _ _)) by lia. simpl.
  rewrite claim_run, decide_True by done.
  destruct (lock_claim _ _ _ _) as [s'|[]] eqn:Hok; [|done..].
  destruct (grant_possible T (RouteId_as_uuid rt) (ActorId_as_uuid s) (InstanceId_as_uuid i)
    (uuid_of_N (hd 0%N ns)) lease now s') as (Hnext & T' & Hins); [done|done| |done|done|done|done|done|].
  { unfold owns_route, route_destination_sql in Ho.
    by destruct (request_routes T !! RouteId_as_uuid rt). }
  destruct (grant_states _ _ _ _ _ _ _ _ _ _ Hwf Hok Hins) as [Hst Hframe].
  rewrite Hins. exists T'. split_and!; [| |exact Hframe].
  - unfold claim_of. simpl. rewrite Hnext. by destruct rt, s, i.
  - rewrite Hst. destruct (route_state T (RouteId_as_uuid rt)); simpl in *;
      repeat case_match; by simplify_eq.
Qed.

(** The holder of a route, as its claim's row *)
Lemma held_row T rt id token until :
  claims_wf T -> route_state T rt = Held id token until ->
  exists row, work_claims T !! id = Some row /\ wc_route_id row = rt /\ wc_status row = "active" /\
    wc_fencing_token row = token /\ wc_lease_expires_at row = until /\ claim_row_wf row /\
    forall j r, work_claims T !! j = Some r -> wc_route_id r = rt ->
      (wc_fencing_token r <= token)%Z.
Proof.
  intros Hwf. unfold route_state. destruct (latest_claim_sql rt T) as [[j row]|] eqn:Hl; [|done].
  apply latest_claim_Some in Hl as (Hj & Hr & Hmax).
  destruct (String.eqb_spec (wc_status row) "active"); [|by destruct (String.eqb _ "completed")].
  intros [= -> <- <-]. exists row. split_and!; try done. by apply (cw_rows _ Hwf id row).
Qed.

(** Writing to the holder's claim decides its route's state and no other's. *)
Lemma holder_write T rt id token until row new :
  claims_wf T -> route_state T rt = Held id token until -> work_claims T !! id = Some row ->
  (protect_work_claim row new;; work_claim_row_check new) = Ok tt ->
  let T' := with_work_claims (<[id := new]> (work_claims T)) T in
  route_state T' rt = (if String.eqb (wc_status new) "active" then Held id token (wc_lease_expires_at new)
    else if String.eqb (wc_status new) "completed" then Done else Free token) /\
  forall rt', rt' <> rt -> route_state T' rt' = route_state T rt'.
Proof.
  intros Hwf Hheld Hid ([] & (Ha & Hs & _)%protect_work_claim_Ok & Hc)%result_bind_Ok.
  destruct (held_row _ _ _ _ _ Hwf Hheld) as (row' & Hid' & Hr & _ & Ht & _ & _ & Hmax).
  assert (row' = row) as -> by congruence.
  destruct (update_step T id row new Hid Hs Ha Hc Hwf) as [Hwf' _]. destruct Hs. split.
  - pose proof (route_state_latest _ id _ Hwf' (lookup_insert_eq _ _ _)) as Hst.
    rewrite cs_route0, Hr, cs_token0, Ht in Hst. apply Hst. simpl.
    intros j r [[<- <-]|[_ Hj]]%lookup_insert_Some Hjr; [lia | by apply (Hmax j)].
  - intros rt' Hne. apply route_state_other; [done..|congruence|]. intros old Hold. congruence.
Qed.

(** What a live holder can do: with its claim id and token it can extend the
    lease, release the route to the next claimant, or complete the work for
    good; each answers with the changed claim and no other route changes. *)
Theorem holder_operations T rt id token until lease now ns :
  claims_wf T -> route_state T rt = Held id token until -> (0 <= now < until)%Z ->
  (until < lease)%Z ->
  let becomes (m : Db Tables WorkClaimError WorkClaim) state := exists claim T',
    m (start T [] ns) = (Ok claim, start T' [] ns) /\ claim_id claim = MkClaimId id /\
    claim_fencing_token claim = token /\ route_state T' rt = state /\
    forall rt', rt' <> rt -> route_state T' rt' = route_state T rt' in
  becomes (WorkClaimService_renew PostgresWorkClaimRepository (MkClaimId id) token lease now)
    (Held id token lease) /\
  becomes (WorkClaimService_release PostgresWorkClaimRepository (MkClaimId id) token now)
    (Free token) /\
  becomes (WorkClaimService_complete PostgresWorkClaimRepository (MkClaimId id) token now) Done.
Proof.
  intros Hwf Hheld Hnow Hlease becomes.
  destruct (held_row _ _ _ _ _ Hwf Hheld) as (row & Hid & Hr & Ha & Ht & Hl & Hrow & _).
  assert (holds row token now = true) as Hholds.
  { unfold holds. rewrite Ha, Hl, Ht, Z.eqb_refl, (proj2 (Z.ltb_lt _ _)) by lia. done. }
  pose proof (renew_check row lease Hrow Ha) as Hrenew.
  rewrite (proj2 (Z.leb_gt _ _)) in Hrenew by lia.
  assert (forall status, status ∈ ["completed"; "released"] ->
    becomes (PostgresWorkClaim_transition (MkClaimId id) token now status)
      (if String.eqb status "completed" then Done else Free token)) as Htr.
  { intros status Hst. pose proof (transition_check row status Hrow Ha Hst) as Hc.
    destruct (holder_write _ _ _ _ _ _ _ Hwf Hheld Hid Hc) as [Hs Hf].
    do 2 eexists. split_and!; [| | | |exact Hf].
    - unfold PostgresWorkClaim_transition, transition_sql, start. rewrite update_run by done.
      simpl. rewrite Hid, Hholds, Hc. done.
    - done.
    - done.
    - rewrite Hs. by repeat (apply elem_of_cons in Hst as [-> | Hst]; [done|]); apply elem_of_nil in Hst. }
  unfold WorkClaimService_renew, WorkClaimService_release, WorkClaimService_complete.
  rewrite (proj2 (Z.ltb_ge now 0)), (proj2 (Z.leb_gt _ _)) by lia.
  split_and!; [|apply (Htr "released"); set_solver | apply (Htr "completed"); set_solver].
  destruct (holder_write _ _ _ _ _ _ _ Hwf Hheld Hid Hrenew) as [Hs Hf].
  do 2 eexists. split_and!; [| | | |exact Hf].
  - simpl. unfold PostgresWorkClaim_renew, renew_sql, start. rewrite update_run by done.
    simpl. rewrite Hid, Hholds, Hrenew. done.
  - done.
  - done.
  - rewrite Hs. simpl. by rewrite Ha.
Qed.

(** A renewal that does not lengthen the lease is not an extension: a live
    holder that renews up to the same or an earlier instant in the future gets
    a repository failure, the one the storage trigger raises. *)
Theorem renewal_must_extend T rt id token until lease now ns :
  claims_wf T -> route_state T rt = Held id token until -> (0 <= now < lease)%Z ->
  (lease <= until)%Z ->
  WorkClaimService_renew PostgresWorkClaimRepository (MkClaimId id) token lease now (start T [] ns) =
    (Err (WorkClaimError_Repository
       (postgres_error_text (raise_exception "work claim renewal must extend the lease"))),
     start T [] ns).
Proof.
  intros Hwf Hheld Hnow Hlease.
  destruct (held_row _ _ _ _ _ Hwf Hheld) as (row & Hid & Hr & Ha & Ht & Hl & Hrow & _).
  unfold WorkClaimService_renew, start.
  rewrite (proj2 (Z.ltb_ge now 0)), (proj2 (Z.leb_gt _ _)) by lia. simpl.
  unfold PostgresWorkClaim_renew, renew_sql. rewrite update_run by done. simpl.
  rewrite Hid. unfold holds. rewrite Ha, Hl, Ht, Z.eqb_refl, (proj2 (Z.ltb_lt _ _)) by lia.
  simpl. pose proof (renew_check row lease Hrow Ha) as Hc. simpl in Hc. rewrite Hc.
  by rewrite (proj2 (Z.leb_le _ _)) by lia.
Qed.

(** The two sets an eligible-route query asks for *)
Lemma route_ids_from_rows_Ok rows :
  route_ids_from_rows rows = Ok (list_to_set (MkRouteId <$> rows)).
Proof.
  unfold route_ids_from_rows.
  assert (collect (fun row => result_map_err
      (fun _ : RequestError => WorkClaimError_Repository "stored route ID is invalid")
      (RouteId_from_str (uuid_print row))) rows = Ok (MkRouteId <$> rows)) as ->; [|done].
  induction rows as [|r rows IH]; [done|]. simpl. rewrite IH. unfold RouteId_from_str.
  by rewrite uuid_parse_print.
Qed.

Lemma claimed_routes_In where_ route_ids T rt :
  MkRouteId rt ∈ route_ids ->
  rt ∈ claimed_routes_sql where_ (map RouteId_to_string route_ids) T <->
  exists id row, work_claims T !! id = Some row /\ wc_route_id row = rt /\ where_ row = true.
Proof.
  intros Hin. unfold claimed_routes_sql. rewrite list_elem_of_fmap. split.
  - intros ([id row] & -> & [Hid Hb]%select_In). apply andb_true_iff in Hb as [_ Hb]. eauto.
  - intros (id & row & Hid & <- & Hw). exists (id, row). split; [done|]. apply select_In.
    split; [done|]. rewrite Hw, andb_true_r, bool_decide_eq_true.
    apply list_elem_of_fmap. by exists (MkRouteId (wc_route_id row)).
Qed.

Lemma active_route_ids_run route_ids now T ns :
  (0 <= now)%Z -> exists ids,
  WorkClaimService_active_route_ids PostgresWorkClaimRepository route_ids now (start T [] ns) =
    (Ok ids, start T [] ns) /\
  forall rt, rt ∈ route_ids -> rt ∈ ids <->
    exists id row, work_claims T !! id = Some row /\ wc_route_id row = RouteId_as_uuid rt /\
      wc_status row = "active" /\ (now < wc_lease_expires_at row)%Z.
Proof.
  intros Hnow. unfold WorkClaimService_active_route_ids, start.
  rewrite (proj2 (Z.ltb_ge now 0)) by lia. simpl. unfold PostgresWorkClaim_active_route_ids.
  destruct route_ids as [|r rest]; [exists ∅; split; [done|]; by intros ? ?%elem_of_nil|].
  set (ids := r :: rest). db_run. rewrite route_ids_from_rows_Ok. eexists. split; [done|].
  intros [rt] Hin. rewrite elem_of_list_to_set, (list_elem_of_fmap_inj MkRouteId), claimed_routes_In by done.
  setoid_rewrite andb_true_iff. setoid_rewrite String.eqb_eq. setoid_rewrite Z.ltb_lt. done.
Qed.

Lemma completed_route_ids_run route_ids T ns :
  exists ids,
  WorkClaimService_completed_route_ids PostgresWorkClaimRepository route_ids (start T [] ns) =
    (Ok ids, start T [] ns) /\
  forall rt, rt ∈ route_ids -> rt ∈ ids <->
    exists id row, work_claims T !! id = Some row /\ wc_route_id row = RouteId_as_uuid rt /\
      wc_status row = "completed".
Proof.
  unfold WorkClaimService_completed_route_ids, start. simpl.
  unfold PostgresWorkClaim_completed_route_ids.
  destruct route_ids as [|r rest]; [exists ∅; split; [done|]; by intros ? ?%elem_of_nil|].
  set (ids := r :: rest). db_run. rewrite route_ids_from_rows_Ok. eexists. split; [done|].
  intros [rt] Hin. rewrite elem_of_list_to_set, (list_elem_of_fmap_inj MkRouteId), claimed_routes_In by done.
  setoid_rewrite String.eqb_eq. done.
Qed.

(** A route in neither set is one whose lock can be taken. *)
Lemma lockable_iff T rt id lease now :
  claims_wf T ->
  is_ok (lock_claim (route_state T rt) id lease now) = true <->
  ~ (exists j row, work_claims T !! j = Some row /\ wc_route_id row = rt /\
       wc_status row = "active" /\ (now < wc_lease_expires_at row)%Z) /\
  ~ (exists j row, work_claims T !! j = Some row /\ wc_route_id row = rt /\
       wc_status row = "completed").
Proof.
  intros Hwf. unfold route_state.
  destruct (latest_claim_sql rt T) as [[j row]|] eqn:Hl.
  2: { rewrite latest_claim_None in Hl. simpl. split; [|done]. intros _.
       split; intros (i & r & Hi & Hr & _); by destruct (Hl i r). }
  destruct (latest_claim_Some _ _ _ _ Hl) as (Hj & Hr & Hmax).
  assert (forall i r, work_claims T !! i = Some r -> wc_route_id r = rt ->
    wc_status r = "active" \/ wc_status r = "completed" -> r = row) as Hends.
  { intros i r Hi Hir Hs. assert (i = j) as ->; [|congruence].
    eapply (cw_tokens _ Hwf); eauto; [congruence|]. specialize (Hmax _ _ Hi Hir).
    assert (wc_fencing_token row <= wc_fencing_token r)%Z; [|lia].
    eapply (cw_latest _ Hwf); eauto. congruence. }
  destruct (String.eqb_spec (wc_status row) "active") as [Ha|Ha]; simpl.
  - destruct (Z.ltb_spec now (wc_lease_expires_at row)); simpl.
    + split; [done|]. intros [Hno _]. destruct Hno. by exists j, row.
    + split; [|done]. intros _. split; intros (i & r & Hi & Hir & Hs); [destruct Hs as [Hs ?]|];
        rewrite (Hends i r Hi Hir) in * by auto; [lia | congruence].
  - destruct (String.eqb_spec (wc_status row) "completed") as [Hc|Hc]; simpl.
    + split; [done|]. intros [_ Hno]. destruct Hno. by exists j, row.
    + split; [|done]. intros _. split; intros (i & r & Hi & Hir & Hs); [destruct Hs as [Hs ?]|];
        rewrite (Hends i r Hi Hir) in * by auto; congruence.
Qed.
End refinement.
