(* ===== verification/Handshakes.v ===== *)
(** * Handshakes: mutual proof of possession with subscribed instances

    [src/kernel/handshakes.rs], [src/infrastructure/postgres_handshake_repository.rs]
    and [src/infrastructure/postgres_subscribed_instance_discovery.rs], with the
    statements and triggers of migration 0005. The transport that carries a
    challenge to an endpoint is an interface: the source has no implementation of
    it. *)

From S2P Require Import Prelude Text Platform Database Schema Identity InstanceKeys.
From S2P Require Import InstanceRegistry.
From Stdlib Require Import Ascii.

Definition CHALLENGE_LIFETIME_SECONDS : Z := 15.
Definition HANDSHAKE_LIFETIME_SECONDS : Z := 30.
Definition CHALLENGE_CONTEXT : bytes := "infernal-law/instance-handshake/challenge/v1".
Definition RESPONSE_CONTEXT : bytes := "infernal-law/instance-handshake/response/v1".

Inductive HandshakeError :=
| HandshakeError_ChallengeAlreadyUsed
| HandshakeError_ChallengeExpired
| HandshakeError_HandshakeRequired (id : InstanceId)
| HandshakeError_IneligibleInstance (id : InstanceId)
| HandshakeError_InvalidKernelSignature
| HandshakeError_InvalidStoredRecord
| HandshakeError_InvalidTargetSignature
| HandshakeError_InvalidTimestamp
| HandshakeError_KernelKeyMismatch
| HandshakeError_RandomSource
| HandshakeError_Repository (message : string)
| HandshakeError_TargetMismatch
| HandshakeError_Transport (message : string).

Record SignedHandshakeChallenge := MkSignedHandshakeChallenge {
  challenge_nonce : bytes;
  challenge_kernel_key : InstancePublicKey;
  challenge_target_instance_id : InstanceId;
  challenge_target_key_id : KeyId;
  challenge_issued_at : Z;
  challenge_expires_at : Z;
  challenge_signature : InstanceSignature;
}.

Record SignedHandshakeResponse := MkSignedHandshakeResponse {
  response_kernel_instance_id : InstanceId;
  response_target_instance_id : InstanceId;
  response_target_key_id : KeyId;
  response_challenge_digest : bytes;
  response_signature : InstanceSignature;
}.

Record InstanceHandshake := MkInstanceHandshake {
  handshake_challenge_digest : bytes;
  handshake_kernel_instance_id : InstanceId;
  handshake_target_instance_id : InstanceId;
  handshake_target_key_id : KeyId;
  handshake_verified_at : Z;
  handshake_expires_at : Z;
}.

Definition InstanceHandshake_restore (challenge_digest : bytes)
  (kernel_instance_id target_instance_id : InstanceId) (target_key_id : KeyId)
  (verified_at expires_at : Z) : Result HandshakeError InstanceHandshake :=
  if (verified_at <? 0)%Z || (expires_at <=? verified_at)%Z
  then Err HandshakeError_InvalidStoredRecord
  else Ok (MkInstanceHandshake challenge_digest kernel_instance_id target_instance_id target_key_id
             verified_at expires_at).

Definition InstanceHandshake_is_fresh_at (h : InstanceHandshake) (now : Z) : bool :=
  (handshake_verified_at h <=? now)%Z && (now <? handshake_expires_at h)%Z.

Record HandshakeChallengeRecord := MkHandshakeChallengeRecord {
  record_digest : bytes;
  record_kernel_instance_id : InstanceId;
  record_target_instance_id : InstanceId;
  record_target_key_id : KeyId;
  record_issued_at : Z;
  record_expires_at : Z;
}.

Record HandshakeExchange := MkHandshakeExchange {
  exchange_response : SignedHandshakeResponse;
  exchange_received_at : Z;
}.

Inductive HandshakeAttemptOutcome :=
| HandshakeAttemptOutcome_AlreadyFresh (handshake : InstanceHandshake)
| HandshakeAttemptOutcome_Verified (handshake : InstanceHandshake)
| HandshakeAttemptOutcome_Failed (error : HandshakeError).

Record HandshakeAttempt := MkHandshakeAttempt {
  attempt_instance_id : InstanceId;
  attempt_outcome : HandshakeAttemptOutcome;
}.

Record ReconcileReport := MkReconcileReport { report_attempts : list HandshakeAttempt }.

(** ** The traits *)

Record SubscribedInstanceDiscovery (S : Type) := MkSubscribedInstanceDiscovery {
  discovery_eligible_subscribed_instances : Z -> Db S HandshakeError (list RegisteredInstance);
}.
Arguments discovery_eligible_subscribed_instances {S}.

Record HandshakeRepository (S : Type) := MkHandshakeRepository {
  handshakes_insert_challenge : HandshakeChallengeRecord -> Db S HandshakeError unit;
  handshakes_complete : InstanceHandshake -> Db S HandshakeError unit;
  handshakes_find_fresh : InstanceId -> InstanceId -> Z ->
    Db S HandshakeError (option InstanceHandshake);
}.
Arguments handshakes_insert_challenge {S}.
Arguments handshakes_complete {S}.
Arguments handshakes_find_fresh {S}.

Record HandshakeTransport (S : Type) := MkHandshakeTransport {
  transport_exchange : string -> SignedHandshakeChallenge -> Db S HandshakeError HandshakeExchange;
}.
Arguments transport_exchange {S}.

Record HandshakeReconciler (S : Type) := MkHandshakeReconciler {
  reconciler_kernel : InstanceCredential;
  reconciler_discovery : SubscribedInstanceDiscovery S;
  reconciler_handshakes : HandshakeRepository S;
  reconciler_transport : HandshakeTransport S;
}.
Arguments reconciler_kernel {S}.
Arguments reconciler_discovery {S}.
Arguments reconciler_handshakes {S}.
Arguments reconciler_transport {S}.

Section handshakes.
Context {P : Platform}.

Definition challenge_message (nonce : bytes) (kernel_key : InstancePublicKey)
  (target_instance_id : InstanceId) (target_key_id : KeyId) (issued_at expires_at : Z) : bytes :=
  encode_fields [
    CHALLENGE_CONTEXT;
    nonce;
    uuid_as_bytes (ActorId_as_uuid (public_service_id kernel_key));
    uuid_as_bytes (InstanceId_as_uuid (public_instance_id kernel_key));
    uuid_as_bytes (KeyId_as_uuid (public_key_id kernel_key));
    public_key_bytes kernel_key;
    uuid_as_bytes (InstanceId_as_uuid target_instance_id);
    uuid_as_bytes (KeyId_as_uuid target_key_id);
    i64_to_be_bytes issued_at;
    i64_to_be_bytes expires_at].

Definition response_message (kernel_instance_id target_instance_id : InstanceId)
  (target_key_id : KeyId) (challenge_digest : bytes) : bytes :=
  encode_fields [
    RESPONSE_CONTEXT;
    uuid_as_bytes (InstanceId_as_uuid kernel_instance_id);
    uuid_as_bytes (InstanceId_as_uuid target_instance_id);
    uuid_as_bytes (KeyId_as_uuid target_key_id);
    challenge_digest].

Definition SignedHandshakeChallenge_message (challenge : SignedHandshakeChallenge) : bytes :=
  challenge_message (challenge_nonce challenge) (challenge_kernel_key challenge)
    (challenge_target_instance_id challenge) (challenge_target_key_id challenge)
    (challenge_issued_at challenge) (challenge_expires_at challenge).

Definition SignedHandshakeChallenge_digest (challenge : SignedHandshakeChallenge) : bytes :=
  sha256 (SignedHandshakeChallenge_message challenge
          +:+ InstanceSignature_as_bytes (challenge_signature challenge)).

Definition SignedHandshakeChallenge_issue {S} (kernel : InstanceCredential)
  (target : RegisteredInstance) (now : Z) : Db S HandshakeError SignedHandshakeChallenge :=
  let target_key := instance_public_key target in
  if (now <? 0)%Z || negb (RegisteredInstance_is_eligible_at target now)
  then throw (HandshakeError_IneligibleInstance (public_instance_id target_key))
  else
    expires_at ← lift (ok_or HandshakeError_InvalidTimestamp
                         (checked_add now CHALLENGE_LIFETIME_SECONDS));
    let expires_at := Z.min expires_at (instance_lease_expires_at target) in
    if (expires_at <=? now)%Z then throw HandshakeError_InvalidTimestamp
    else
      nonce ← getrandom 32 HandshakeError_RandomSource;
      let kernel_key := credential_public_key kernel in
      let target_instance_id := public_instance_id target_key in
      let target_key_id := public_key_id target_key in
      let message := challenge_message nonce kernel_key target_instance_id target_key_id now
                       expires_at in
      mret (MkSignedHandshakeChallenge nonce kernel_key target_instance_id target_key_id now
              expires_at (InstanceCredential_sign kernel message)).

Definition SignedHandshakeChallenge_verify_kernel (challenge : SignedHandshakeChallenge)
  (trusted_kernel_key : InstancePublicKey) : Result HandshakeError unit :=
  if negb (bool_decide (trusted_kernel_key = challenge_kernel_key challenge))
  then Err HandshakeError_KernelKeyMismatch
  else result_map_err (fun _ => HandshakeError_InvalidKernelSignature)
         (InstancePublicKey_verify trusted_kernel_key (SignedHandshakeChallenge_message challenge)
            (challenge_signature challenge)).

Definition SignedHandshakeResponse_sign (challenge : SignedHandshakeChallenge)
  (target : InstanceCredential) : Result HandshakeError SignedHandshakeResponse :=
  if negb (bool_decide (public_instance_id (credential_public_key target)
                        = challenge_target_instance_id challenge))
     || negb (bool_decide (public_key_id (credential_public_key target)
                           = challenge_target_key_id challenge))
  then Err HandshakeError_TargetMismatch
  else
    let kernel_instance_id := public_instance_id (challenge_kernel_key challenge) in
    let target_instance_id := challenge_target_instance_id challenge in
    let target_key_id := challenge_target_key_id challenge in
    let challenge_digest := SignedHandshakeChallenge_digest challenge in
    let message := response_message kernel_instance_id target_instance_id target_key_id
                     challenge_digest in
    Ok (MkSignedHandshakeResponse kernel_instance_id target_instance_id target_key_id
          challenge_digest (InstanceCredential_sign target message)).

Definition SignedHandshakeResponse_verify (response : SignedHandshakeResponse)
  (challenge : SignedHandshakeChallenge) (target : InstancePublicKey) (now : Z) :
  Result HandshakeError unit :=
  if (now <? challenge_issued_at challenge)%Z || (challenge_expires_at challenge <=? now)%Z
  then Err HandshakeError_ChallengeExpired
  else if negb (bool_decide (response_kernel_instance_id response
                             = public_instance_id (challenge_kernel_key challenge)))
     || negb (bool_decide (response_target_instance_id response
                           = challenge_target_instance_id challenge))
     || negb (bool_decide (response_target_key_id response = challenge_target_key_id challenge))
     || negb (bool_decide (response_challenge_digest response
                           = SignedHandshakeChallenge_digest challenge))
     || negb (bool_decide (public_instance_id target = response_target_instance_id response))
     || negb (bool_decide (public_key_id target = response_target_key_id response))
  then Err HandshakeError_TargetMismatch
  else result_map_err (fun _ => HandshakeError_InvalidTargetSignature)
         (InstancePublicKey_verify target
            (response_message (response_kernel_instance_id response)
               (response_target_instance_id response) (response_target_key_id response)
               (response_challenge_digest response))
            (response_signature response)).

Definition HandshakeChallengeRecord_from (challenge : SignedHandshakeChallenge) :
  HandshakeChallengeRecord :=
  MkHandshakeChallengeRecord (SignedHandshakeChallenge_digest challenge)
    (public_instance_id (challenge_kernel_key challenge)) (challenge_target_instance_id challenge)
    (challenge_target_key_id challenge) (challenge_issued_at challenge)
    (challenge_expires_at challenge).

Definition HandshakeReconciler_reconcile_instance {S} (R : HandshakeReconciler S)
  (instance : RegisteredInstance) (now : Z) : Db S HandshakeError HandshakeAttemptOutcome :=
  let kernel_instance_id := public_instance_id (credential_public_key (reconciler_kernel R)) in
  let target_instance_id := public_instance_id (instance_public_key instance) in
  existing ← handshakes_find_fresh (reconciler_handshakes R) kernel_instance_id
               target_instance_id now;
  match existing with
  | Some existing => mret (HandshakeAttemptOutcome_AlreadyFresh existing)
  | None =>
      challenge ← SignedHandshakeChallenge_issue (reconciler_kernel R) instance now;
      handshakes_insert_challenge (reconciler_handshakes R)
        (HandshakeChallengeRecord_from challenge);;
      exchange ← transport_exchange (reconciler_transport R) (instance_endpoint instance) challenge;
      lift (SignedHandshakeResponse_verify (exchange_response exchange) challenge
              (instance_public_key instance) (exchange_received_at exchange));;
      expires_at ← lift (ok_or HandshakeError_InvalidTimestamp
        (checked_add (exchange_received_at exchange) HANDSHAKE_LIFETIME_SECONDS));
      let expires_at := Z.min expires_at (instance_lease_expires_at instance) in
      handshake ← lift (InstanceHandshake_restore (SignedHandshakeChallenge_digest challenge)
        kernel_instance_id target_instance_id (public_key_id (instance_public_key instance))
        (exchange_received_at exchange) expires_at);
      handshakes_complete (reconciler_handshakes R) handshake;;
      mret (HandshakeAttemptOutcome_Verified handshake)
  end.

(** The loop of [reconcile]: an instance that fails does not stop the others. *)
Fixpoint reconcile_candidates {S} (R : HandshakeReconciler S)
  (candidates : list RegisteredInstance) (now : Z) : Db S HandshakeError (list HandshakeAttempt) :=
  match candidates with
  | [] => mret []
  | instance :: candidates =>
      result ← attempt (HandshakeReconciler_reconcile_instance R instance now);
      let outcome := match result with
                     | Ok outcome => outcome
                     | Err error => HandshakeAttemptOutcome_Failed error
                     end in
      attempts ← reconcile_candidates R candidates now;
      mret (MkHandshakeAttempt (public_instance_id (instance_public_key instance)) outcome
              :: attempts)
  end.

Definition HandshakeReconciler_reconcile {S} (R : HandshakeReconciler S) (now : Z) :
  Db S HandshakeError ReconcileReport :=
  if (now <? 0)%Z then throw HandshakeError_InvalidTimestamp
  else
    candidates ← discovery_eligible_subscribed_instances (reconciler_discovery R) now;
    attempts ← reconcile_candidates R candidates now;
    mret (MkReconcileReport attempts).

Definition HandshakeReconciler_require_fresh {S} (R : HandshakeReconciler S)
  (target_instance_id : InstanceId) (now : Z) : Db S HandshakeError InstanceHandshake :=
  found ← handshakes_find_fresh (reconciler_handshakes R)
    (public_instance_id (credential_public_key (reconciler_kernel R))) target_instance_id now;
  lift (ok_or (HandshakeError_HandshakeRequired target_instance_id) found).

Definition HandshakeError_to_string (e : HandshakeError) : string :=
  match e with
  | HandshakeError_ChallengeAlreadyUsed => "handshake challenge is expired or already used"
  | HandshakeError_ChallengeExpired => "handshake challenge has expired"
  | HandshakeError_HandshakeRequired id =>
      "instance " +:+ InstanceId_to_string id +:+ " requires a fresh handshake"
  | HandshakeError_IneligibleInstance id =>
      "instance " +:+ InstanceId_to_string id +:+ " is not eligible for handshake"
  | HandshakeError_InvalidKernelSignature => "kernel handshake signature is invalid"
  | HandshakeError_InvalidStoredRecord => "stored handshake record is invalid"
  | HandshakeError_InvalidTargetSignature => "target handshake signature is invalid"
  | HandshakeError_InvalidTimestamp => "handshake timestamp is invalid"
  | HandshakeError_KernelKeyMismatch => "kernel handshake key is not trusted"
  | HandshakeError_RandomSource => "operating system random source failed"
  | HandshakeError_Repository message => "handshake repository failed: " +:+ message
  | HandshakeError_TargetMismatch => "handshake response does not match its target"
  | HandshakeError_Transport message => "handshake transport failed: " +:+ message
  end.

(** ** The PostgreSQL adapters *)

Definition insert_handshake_challenge_sql (digest : bytes) (row : HandshakeChallengeRow)
  (T : Tables) : Result PostgresError (Z * Tables) :=
  require (octet_length digest =? 32)%Z
    (check_violation "service_instance_handshake_challenges_challenge_digest_check");;
  require (0 <=? hc_issued_at row)%Z
    (check_violation "service_instance_handshake_challenges_issued_at_check");;
  require (hc_issued_at row <? hc_expires_at row)%Z
    (check_violation "service_instance_handshake_challenges_check");;
  require (bool_decide (handshake_challenges T !! digest = None))
    (unique_violation "service_instance_handshake_challenges_pkey");;
  references (service_instances T) (hc_target_instance_id row)
    "service_instance_handshake_challenges_target_instance_id_fkey";;
  references (service_instance_keys T) (hc_target_key_id row)
    "service_instance_handshake_challenges_target_key_id_fkey";;
  Ok (1%Z, with_handshake_challenges (<[digest := row]> (handshake_challenges T)) T).

(** The UPDATE of [complete]; what the trigger [protect_handshake_challenge_history]
    forbids the WHERE clause already excludes. *)
Definition consume_handshake_challenge_sql (digest : bytes)
  (kernel_instance_id target_instance_id : Uuid) (verified_at : Z) (T : Tables) :
  Result PostgresError (Z * Tables) :=
  match handshake_challenges T !! digest with
  | Some hc =>
      if bool_decide (hc_kernel_instance_id hc = kernel_instance_id)
         && bool_decide (hc_target_instance_id hc = target_instance_id)
         && bool_decide (hc_consumed_at hc = None) && (verified_at <? hc_expires_at hc)%Z
      then
        require (hc_issued_at hc <=? verified_at)%Z
          (check_violation "service_instance_handshake_challenges_check1");;
        Ok (1%Z, with_handshake_challenges
          (<[digest := MkHandshakeChallengeRow (hc_kernel_instance_id hc)
               (hc_target_instance_id hc) (hc_target_key_id hc) (hc_issued_at hc)
               (hc_expires_at hc) (Some verified_at)]> (handshake_challenges T)) T)
      else Ok (0%Z, T)
  | None => Ok (0%Z, T)
  end.

Definition insert_handshake_sql (digest : bytes) (row : HandshakeRow) (T : Tables) :
  Result PostgresError (Z * Tables) :=
  require (0 <=? hs_verified_at row)%Z
    (check_violation "service_instance_handshakes_verified_at_check");;
  require (hs_verified_at row <? hs_expires_at row)%Z
    (check_violation "service_instance_handshakes_check");;
  require (bool_decide (handshakes T !! digest = None))
    (unique_violation "service_instance_handshakes_pkey");;
  references (handshake_challenges T) digest "service_instance_handshakes_challenge_digest_fkey";;
  references (service_instances T) (hs_target_instance_id row)
    "service_instance_handshakes_target_instance_id_fkey";;
  references (service_instance_keys T) (hs_target_key_id row)
    "service_instance_handshakes_target_key_id_fkey";;
  Ok (1%Z, with_handshakes (<[digest := row]> (handshakes T)) T).

Definition insert_handshake_audit_sql (row : HandshakeAuditRow) (T : Tables) :
  Result PostgresError (Z * Tables) :=
  require (octet_length (hsa_challenge_digest row) =? 32)%Z
    (check_violation "service_instance_handshake_audit_challenge_digest_check");;
  require (bool_decide (hsa_action row ∈ ["issued"; "verified"]))
    (check_violation "service_instance_handshake_audit_action_check");;
  require (0 <=? hsa_recorded_at row)%Z
    (check_violation "service_instance_handshake_audit_recorded_at_check");;
  Ok (1%Z, with_handshake_audit (handshake_audit T ++ [row]) T).

Definition find_fresh_sql (kernel_instance_id target_instance_id : Uuid) (now : Z) (T : Tables) :
  option (bytes * HandshakeRow) :=
  latest (fun kv => hs_verified_at kv.2)
    (select (fun _ hs => bool_decide (hs_kernel_instance_id hs = kernel_instance_id)
               && bool_decide (hs_target_instance_id hs = target_instance_id)
               && (hs_verified_at hs <=? now)%Z && (now <? hs_expires_at hs)%Z) (handshakes T)).

Definition handshake_repository_error (message : string) : HandshakeError :=
  HandshakeError_Repository message.
Definition handshake_query_error (e : PostgresError) : HandshakeError :=
  handshake_repository_error (postgres_error_text e).

Definition append_handshake_audit (digest : bytes) (kernel_instance_id target_instance_id : InstanceId)
  (action : string) (recorded_at : Z) : Db Tables HandshakeError unit :=
  execute handshake_query_error
    (insert_handshake_audit_sql (MkHandshakeAuditRow digest (InstanceId_as_uuid kernel_instance_id)
       (InstanceId_as_uuid target_instance_id) action recorded_at));;
  mret tt.

Definition handshake_from_row (kv : bytes * HandshakeRow) : Result HandshakeError InstanceHandshake :=
  let '(digest, row) := kv in
  digest ← ok_or HandshakeError_InvalidStoredRecord (to_array 32 digest);
  kernel_instance_id ← result_map_err (fun _ => HandshakeError_InvalidStoredRecord)
    (InstanceId_from_str (uuid_print (hs_kernel_instance_id row)));
  target_instance_id ← result_map_err (fun _ => HandshakeError_InvalidStoredRecord)
    (InstanceId_from_str (uuid_print (hs_target_instance_id row)));
  target_key_id ← result_map_err (fun _ => HandshakeError_InvalidStoredRecord)
    (KeyId_from_str (uuid_print (hs_target_key_id row)));
  InstanceHandshake_restore digest kernel_instance_id target_instance_id target_key_id
    (hs_verified_at row) (hs_expires_at row).

Definition challenge_row (challenge : HandshakeChallengeRecord) : HandshakeChallengeRow :=
  MkHandshakeChallengeRow (InstanceId_as_uuid (record_kernel_instance_id challenge))
    (InstanceId_as_uuid (record_target_instance_id challenge))
    (KeyId_as_uuid (record_target_key_id challenge)) (record_issued_at challenge)
    (record_expires_at challenge) None.

Definition handshake_row (handshake : InstanceHandshake) : HandshakeRow :=
  MkHandshakeRow (InstanceId_as_uuid (handshake_kernel_instance_id handshake))
    (InstanceId_as_uuid (handshake_target_instance_id handshake))
    (KeyId_as_uuid (handshake_target_key_id handshake)) (handshake_verified_at handshake)
    (handshake_expires_at handshake).

Definition PostgresHandshake_insert_challenge (challenge : HandshakeChallengeRecord) :
  Db Tables HandshakeError unit :=
  connection handshake_repository_error;;
  transaction handshake_query_error;;
  execute handshake_query_error
    (insert_handshake_challenge_sql (record_digest challenge) (challenge_row challenge));;
  append_handshake_audit (record_digest challenge) (record_kernel_instance_id challenge)
    (record_target_instance_id challenge) "issued" (record_issued_at challenge);;
  commit handshake_query_error.

Definition PostgresHandshake_complete (handshake : InstanceHandshake) :
  Db Tables HandshakeError unit :=
  connection handshake_repository_error;;
  transaction handshake_query_error;;
  rows ← execute handshake_query_error
    (consume_handshake_challenge_sql (handshake_challenge_digest handshake)
      (InstanceId_as_uuid (handshake_kernel_instance_id handshake))
      (InstanceId_as_uuid (handshake_target_instance_id handshake))
      (handshake_verified_at handshake));
  if negb (rows =? 1)%Z then throw HandshakeError_ChallengeAlreadyUsed
  else
    execute handshake_query_error
      (insert_handshake_sql (handshake_challenge_digest handshake) (handshake_row handshake));;
    append_handshake_audit (handshake_challenge_digest handshake)
      (handshake_kernel_instance_id handshake) (handshake_target_instance_id handshake) "verified"
      (handshake_verified_at handshake);;
    commit handshake_query_error.

Definition PostgresHandshake_find_fresh (kernel_instance_id target_instance_id : InstanceId)
  (now : Z) : Db Tables HandshakeError (option InstanceHandshake) :=
  if (now <? 0)%Z then throw HandshakeError_InvalidTimestamp
  else
    connection handshake_repository_error;;
    row ← query handshake_query_error
      (find_fresh_sql (InstanceId_as_uuid kernel_instance_id)
        (InstanceId_as_uuid target_instance_id) now);
    match row with
    | None => mret None
    | Some row => handshake ← lift (handshake_from_row row); mret (Some handshake)
    end.

Definition PostgresHandshakeRepository : HandshakeRepository Tables := {|
  handshakes_insert_challenge := PostgresHandshake_insert_challenge;
  handshakes_complete := PostgresHandshake_complete;
  handshakes_find_fresh := PostgresHandshake_find_fresh |}.

(** The statement of the discovery: the join has one row per instance and key,
    ordered by the text of the instance id. *)
Definition subscribed_instances_sql (now : Z) (T : Tables) : list InstanceDetails :=
  order_by (fun a b => String.leb (details_instance_id a) (details_instance_id b))
    ('(instance_id, si) ←
       select (fun _ si =>
         bool_decide (select (fun _ s => bool_decide (sub_service_id s = si_service_id si)
                                         && bool_decide (sub_disabled_at s = None))
                        (subscriptions T) <> [])
         && bool_decide (si_revoked_at si = None) && (si_registered_at si <=? now)%Z
         && (now <? si_lease_expires_at si)%Z) (service_instances T);
     '(key_id, sik) ←
       select (fun _ sik => bool_decide (sik_instance_id sik = instance_id)
                            && bool_decide (sik_revoked_at sik = None)) (service_instance_keys T);
     [MkInstanceDetails (uuid_print (si_service_id si)) (uuid_print instance_id) (si_endpoint si)
        (si_registered_at si) (si_lease_expires_at si) (si_lease_revision si) (si_revoked_at si)
        (uuid_print key_id) (sik_public_key sik)]).

Definition discovered_instance_from_row (row : InstanceDetails) :
  Result HandshakeError RegisteredInstance :=
  service_id ← result_map_err (fun _ => HandshakeError_InvalidStoredRecord)
    (ActorId_from_str (details_service_id row));
  instance_id ← result_map_err (fun _ => HandshakeError_InvalidStoredRecord)
    (InstanceId_from_str (details_instance_id row));
  key_id ← result_map_err (fun _ => HandshakeError_InvalidStoredRecord)
    (KeyId_from_str (details_key_id row));
  public_key ← ok_or HandshakeError_InvalidStoredRecord
    (to_array PUBLIC_KEY_LENGTH (details_public_key row));
  public_key ← result_map_err (fun _ => HandshakeError_InvalidStoredRecord)
    (InstancePublicKey_restore service_id instance_id key_id public_key);
  result_map_err (fun _ => HandshakeError_InvalidStoredRecord)
    (RegisteredInstance_restore public_key (details_endpoint row) (details_registered_at row)
      (details_lease_expires_at row) (details_lease_revision row) (details_revoked_at row)).

Definition PostgresDiscovery_eligible_subscribed_instances (now : Z) :
  Db Tables HandshakeError (list RegisteredInstance) :=
  if (now <? 0)%Z then throw HandshakeError_InvalidTimestamp
  else
    connection handshake_repository_error;;
    rows ← query handshake_query_error (subscribed_instances_sql now);
    lift (collect discovered_instance_from_row rows).

Definition PostgresSubscribedInstanceDiscovery : SubscribedInstanceDiscovery Tables := {|
  discovery_eligible_subscribed_instances := PostgresDiscovery_eligible_subscribed_instances |}.
End handshakes.

(** ** Histories *)

(** A stored challenge changes only by its first consumption. *)
Definition challenge_succeeds (row row' : HandshakeChallengeRow) : Prop :=
  row' = row \/
  (hc_consumed_at row = None /\ exists t,
     row' = MkHandshakeChallengeRow (hc_kernel_instance_id row) (hc_target_instance_id row)
              (hc_target_key_id row) (hc_issued_at row) (hc_expires_at row) (Some t)).

Definition handshake_history (T T' : Tables) : Prop :=
  (forall d row, handshake_challenges T !! d = Some row ->
     exists row', handshake_challenges T' !! d = Some row' /\ challenge_succeeds row row') /\
  handshakes T ⊆ handshakes T'.

(** Every handshake has consumed its own challenge, in time. *)
Definition handshakes_wf (T : Tables) : Prop :=
  forall d hs, handshakes T !! d = Some hs -> exists hc,
    handshake_challenges T !! d = Some hc /\
    hc_kernel_instance_id hc = hs_kernel_instance_id hs /\
    hc_target_instance_id hc = hs_target_instance_id hs /\
    hc_consumed_at hc = Some (hs_verified_at hs) /\
    (hc_issued_at hc <= hs_verified_at hs < hc_expires_at hc)%Z /\
    (0 <= hs_verified_at hs < hs_expires_at hs)%Z /\ String.length d = 32%nat.

Definition handshake_step (T T' : Tables) : Prop :=
  handshake_history T T' /\ (handshakes_wf T -> handshakes_wf T').

Lemma challenge_succeeds_refl row : challenge_succeeds row row.
Proof. by left. Qed.

#[export] Instance handshake_history_preorder : PreOrder handshake_history.
Proof.
  split.
  - intros T. split; [|done]. intros d row H. exists row. eauto using challenge_succeeds_refl.
  - intros T1 T2 T3 [A1 A2] [B1 B2]. split; [|by etrans].
    intros d row (row2 & (row3 & H3 & Hs3)%B1 & Hs2)%A1. exists row3. split; [done|].
    destruct Hs2 as [-> | (Hn & t & ->)]; [done|].
    destruct Hs3 as [-> | (? & ?)]; [|done]. right. eauto.
Qed.

#[export] Instance handshake_step_preorder : PreOrder handshake_step.
Proof.
  split; [by intros T | intros T1 T2 T3 [? ?] [? ?]]. split; [by etrans | auto].
Qed.

Lemma handshake_history_same T T' :
  handshake_challenges T' = handshake_challenges T -> handshakes T' = handshakes T ->
  handshake_step T T'.
Proof.
  intros H1 H2. split; [split|]; [|by rewrite H2|].
  - intros d row H. rewrite H1. eauto using challenge_succeeds_refl.
  - unfold handshakes_wf. by rewrite H1, H2.
Qed.

Section theory.
Context {P : Platform}.

Definition is_handshake_repository (e : HandshakeError) : Prop :=
  match e with HandshakeError_Repository _ => True | _ => False end.

Lemma insert_challenge_atomic r :
  atomic is_handshake_repository (PostgresHandshake_insert_challenge r).
Proof. unfold PostgresHandshake_insert_challenge, append_handshake_audit. db_walk. Qed.

Lemma complete_atomic h : atomic is_handshake_repository (PostgresHandshake_complete h).
Proof. unfold PostgresHandshake_complete, append_handshake_audit. db_walk. Qed.

Lemma find_fresh_quiet k t now :
  quiet is_handshake_repository (PostgresHandshake_find_fresh k t now).
Proof. unfold PostgresHandshake_find_fresh. db_walk. Qed.

Lemma insert_handshake_audit_Ok row T a T' :
  insert_handshake_audit_sql row T = Ok (a, T') ->
  T' = with_handshake_audit (handshake_audit T ++ [row]) T /\
  String.length (hsa_challenge_digest row) = 32%nat.
Proof.
  unfold insert_handshake_audit_sql, octet_length, len. intros H. result_inv. split; [done|].
  match goal with H : require (_ =? 32)%Z _ = Ok _ |- _ => apply require_Ok, Z.eqb_eq in H; lia end.
Qed.

Lemma append_handshake_audit_run d k t action now T w ns :
  outcome (fun _ c' => String.length d = 32%nat /\
      exists audit, c' = MkConn T (with_handshake_audit audit w) [] ns) T
    (append_handshake_audit d k t action now (MkConn T w [] ns)).
Proof.
  unfold append_handshake_audit. db_case Hi; [|done].
  apply insert_handshake_audit_Ok in Hi as [-> Hd]. split; [done | by eexists].
Qed.

(** What storing a challenge does, without faults *)
Lemma insert_challenge_run r T w ns :
  outcome (fun _ c' => handshake_challenges T !! record_digest r = None /\ exists audit,
      let T' := with_handshake_audit audit
                  (with_handshake_challenges
                     (<[record_digest r := challenge_row r]> (handshake_challenges T)) T) in
      c' = MkConn T' T' [] ns) T
    (PostgresHandshake_insert_challenge r (MkConn T w [] ns)).
Proof.
  unfold PostgresHandshake_insert_challenge. db_case Hi; [|done].
  unfold insert_handshake_challenge_sql in Hi. result_inv.
  eapply outcome_bind; [apply append_handshake_audit_run|].
  intros _ c1 (Hl & audit & ->). db_run. simpl.
  match goal with H : require (bool_decide _) _ = Ok _ |- _ =>
    apply require_Ok, bool_decide_eq_true in H; split; [done | by eexists] end.
Qed.

(** The one way to complete a handshake *)
Definition completes (h : InstanceHandshake) (T T' : Tables) : Prop :=
  exists hc audit,
    handshake_challenges T !! handshake_challenge_digest h = Some hc /\
    hc_kernel_instance_id hc = InstanceId_as_uuid (handshake_kernel_instance_id h) /\
    hc_target_instance_id hc = InstanceId_as_uuid (handshake_target_instance_id h) /\
    hc_consumed_at hc = None /\
    (hc_issued_at hc <= handshake_verified_at h < hc_expires_at hc)%Z /\
    (0 <= handshake_verified_at h < handshake_expires_at h)%Z /\
    handshakes T !! handshake_challenge_digest h = None /\
    String.length (handshake_challenge_digest h) = 32%nat /\
    T' = with_handshake_audit audit
      (with_handshakes (<[handshake_challenge_digest h := handshake_row h]> (handshakes T))
        (with_handshake_challenges
          (<[handshake_challenge_digest h :=
               MkHandshakeChallengeRow (hc_kernel_instance_id hc) (hc_target_instance_id hc)
                 (hc_target_key_id hc) (hc_issued_at hc) (hc_expires_at hc)
                 (Some (handshake_verified_at h))]> (handshake_challenges T)) T)).

Lemma complete_run h T w ns :
  outcome (fun _ c' => exists T', completes h T T' /\ c' = MkConn T' T' [] ns) T
    (PostgresHandshake_complete h (MkConn T w [] ns)).
Proof.
  unfold PostgresHandshake_complete. db_case Hc; [|done].
  unfold consume_handshake_challenge_sql in Hc.
  destruct (handshake_challenges T !! _) as [hc|] eqn:Hhc; [|by result_inv].
  destruct (_ && _) eqn:Hcond; result_inv; [|done]. cbn [negb Z.eqb Pos.eqb].
  db_case Hi; [|done].
  unfold insert_handshake_sql in Hi. result_inv.
  eapply outcome_bind; [apply append_handshake_audit_run|].
  intros _ c1 (Hl & audit & ->). db_run. simpl. eexists. split; [|reflexivity].
  exists hc, audit. simpl in *.
  repeat match goal with H : require _ _ = Ok _ |- _ => apply require_Ok in H end.
  bool_facts. repeat match goal with H : bool_decide _ = true |- _ => apply bool_decide_eq_true in H end.
  split_and!; try done; lia.
Qed.

Lemma insert_challenge_step d row audit T :
  handshake_challenges T !! d = None ->
  handshake_step T (with_handshake_audit audit
    (with_handshake_challenges (<[d := row]> (handshake_challenges T)) T)).
Proof.
  intros Hd. split; [split; [|done]|]; simpl.
  - intros d' row' Hrow. exists row'. rewrite lookup_insert_ne by congruence.
    eauto using challenge_succeeds_refl.
  - intros Hwf d' hs Hhs. destruct (Hwf d' hs Hhs) as (hc & Hhc & ?). exists hc. simpl.
    by rewrite lookup_insert_ne by congruence.
Qed.

Lemma completes_step h T T' : completes h T T' -> handshake_step T T'.
Proof.
  intros (hc & audit & Hhc & Hk & Ht & Hn & Hw & Hv & Hnone & Hl & ->). split; [split|]; simpl.
  - intros d row Hrow. destruct (decide (d = handshake_challenge_digest h)) as [->|Hne].
    + simplify_eq. eexists. rewrite lookup_insert_eq. split; [done|]. right. eauto.
    + exists row. rewrite lookup_insert_ne by done. eauto using challenge_succeeds_refl.
  - by apply insert_subseteq.
  - intros Hwf d hs Hhs. simpl in *.
    destruct (decide (d = handshake_challenge_digest h)) as [->|Hne].
    + rewrite lookup_insert_eq in Hhs. simplify_eq. eexists. rewrite lookup_insert_eq.
      split; [done|]. simpl. split_and!; try done; lia.
    + rewrite lookup_insert_ne in Hhs by done. rewrite lookup_insert_ne by done. by apply Hwf.
Qed.

Lemma handshake_repository_histories :
  (forall r, history handshake_step (PostgresHandshake_insert_challenge r)) /\
  (forall h, history handshake_step (PostgresHandshake_complete h)) /\
  (forall k t now, history handshake_step (PostgresHandshake_find_fresh k t now)).
Proof.
  split_and!; intros.
  - eapply atomic_history; [apply _ | apply insert_challenge_atomic |].
    intros [T w fs ns] Hfs. simpl in *. subst fs. pose proof (insert_challenge_run r T w ns) as H.
    destruct (PostgresHandshake_insert_challenge _ _) as [[u|e] c']; simpl in *; [|by rewrite H].
    destruct H as (Hd & audit & ->). by apply insert_challenge_step.
  - eapply atomic_history; [apply _ | apply complete_atomic |].
    intros [T w fs ns] Hfs. simpl in *. subst fs. pose proof (complete_run h T w ns) as H.
    destruct (PostgresHandshake_complete _ _) as [[u|e] c']; simpl in *; [|by rewrite H].
    destruct H as (T' & Hc & ->). by eapply completes_step.
  - eapply history_quiet; [apply _ | apply find_fresh_quiet].
Qed.

(** Handshakes only accumulate: reconciling and storing, under any faults
    and with any transport that stays away from these tables, never change a
    stored handshake, change a challenge at most by its first consumption, and
    keep every handshake tied to a challenge consumed in time. *)
Theorem handshakes_keep_history kernel discovery transport now :
  (forall t, history handshake_step (discovery_eligible_subscribed_instances discovery t)) ->
  (forall endpoint challenge, history handshake_step (transport_exchange transport endpoint challenge)) ->
  history handshake_step (HandshakeReconciler_reconcile
    (MkHandshakeReconciler Tables kernel discovery PostgresHandshakeRepository transport) now).
Proof.
  intros Hd Ht. destruct handshake_repository_histories as (H1 & H2 & H3).
  assert (forall i, history handshake_step (HandshakeReconciler_reconcile_instance
    (MkHandshakeReconciler Tables kernel discovery PostgresHandshakeRepository transport) i now)) as Hi.
  { intros i. unfold HandshakeReconciler_reconcile_instance, SignedHandshakeChallenge_issue. simpl.
    db_walk; eauto. }
  unfold HandshakeReconciler_reconcile. db_walk.
  induction a as [|i l IH]; simpl; db_walk; eauto.
Qed.

(** A challenge proves possession once: after a completed handshake, no
    handshake can be completed with the same challenge again, whatever happened
    in between and under any faults. *)
Theorem challenge_completes_once h c u c' T h' fs ns :
  PostgresHandshake_complete h c = (Ok u, c') ->
  handshake_history (durable c') T ->
  handshake_challenge_digest h' = handshake_challenge_digest h ->
  refused (PostgresHandshake_complete h') (start T fs ns).
Proof.
  intros Hc [Hh _] Hd. apply (atomic_Ok _ _ _ _ _ (complete_atomic h)) in Hc as (c0 & Hc & Hc').
  destruct c as [d w fs0 ns0]. unfold calm in Hc. simpl in Hc.
  pose proof (complete_run h d w ns0) as Hrun. rewrite Hc in Hrun. simpl in Hrun.
  destruct Hrun as (T' & (hc & audit & _ & _ & _ & _ & _ & _ & _ & _ & HT') & ->). simpl in Hc'.
  rewrite <-Hc', HT' in Hh. simpl in Hh.
  destruct (Hh (handshake_challenge_digest h) _ ltac:(apply lookup_insert_eq)) as (row & Hrow & Hs).
  assert (hc_consumed_at row = Some (handshake_verified_at h)) as Hcons
    by (destruct Hs as [-> | (? & ? & ->)]; done).
  eapply atomic_refused; [apply complete_atomic|]. unfold calm. simpl.
  pose proof (complete_run h' T T ns) as Hrun. unfold refused.
  destruct (PostgresHandshake_complete h' _) as [[|] c2]; simpl in *; [|done].
  destruct Hrun as (T2 & (hc' & ? & Hhc' & _ & _ & Hn & _) & _). rewrite Hd in Hhc'. congruence.
Qed.

Lemma insert_challenge_Ok r c u c' :
  PostgresHandshake_insert_challenge r c = (Ok u, c') ->
  handshake_challenges (durable c') !! record_digest r = Some (challenge_row r).
Proof.
  intros (c0 & Hc & <-)%(atomic_Ok _ _ _ _ _ (insert_challenge_atomic r)).
  destruct c as [d w fs ns]. unfold calm in Hc. simpl in Hc.
  pose proof (insert_challenge_run r d w ns) as Hrun. rewrite Hc in Hrun.
  destruct Hrun as (_ & audit & ->). simpl. apply lookup_insert_eq.
Qed.

Lemma complete_Ok h c u c' :
  PostgresHandshake_complete h c = (Ok u, c') -> completes h (durable c) (durable c').
Proof.
  intros (c0 & Hc & <-)%(atomic_Ok _ _ _ _ _ (complete_atomic h)).
  destruct c as [d w fs ns]. unfold calm in Hc. simpl in Hc.
  pose proof (complete_run h d w ns) as Hrun. rewrite Hc in Hrun.
  by destruct Hrun as (T' & Hcomp & ->).
Qed.

(** What issuing a challenge establishes *)
Lemma issue_Ok {S} kernel target now (c : Conn S) challenge c' :
  SignedHandshakeChallenge_issue kernel target now c = (Ok challenge, c') ->
  (0 <= now)%Z /\ RegisteredInstance_is_eligible_at target now = true /\
  String.length (challenge_nonce challenge) = 32%nat /\
  challenge_kernel_key challenge = credential_public_key kernel /\
  challenge_target_instance_id challenge = public_instance_id (instance_public_key target) /\
  challenge_target_key_id challenge = public_key_id (instance_public_key target) /\
  challenge_issued_at challenge = now /\
  challenge_expires_at challenge =
    Z.min (now + CHALLENGE_LIFETIME_SECONDS) (instance_lease_expires_at target) /\
  (now < challenge_expires_at challenge)%Z /\
  challenge_signature challenge =
    InstanceCredential_sign kernel (SignedHandshakeChallenge_message challenge).
Proof.
  unfold SignedHandshakeChallenge_issue. intros H. db_inv.
  match goal with H : checked_add _ _ = Some _ |- _ => apply checked_add_Some in H as [-> ?] end.
  simpl. bool_facts; done.
Qed.

(** What an accepted response proves *)
Lemma response_verify_Ok response challenge target now u :
  SignedHandshakeResponse_verify response challenge target now = Ok u ->
  (challenge_issued_at challenge <= now < challenge_expires_at challenge)%Z /\
  public_instance_id target = challenge_target_instance_id challenge /\
  public_key_id target = challenge_target_key_id challenge /\
  InstancePublicKey_verify target
    (response_message (public_instance_id (challenge_kernel_key challenge))
       (challenge_target_instance_id challenge) (challenge_target_key_id challenge)
       (SignedHandshakeChallenge_digest challenge))
    (response_signature response) = Ok tt.
Proof.
  unfold SignedHandshakeResponse_verify. intros H. result_inv. destruct u.
  bool_facts; try done.
  repeat match goal with H : bool_decide _ = true |- _ => apply bool_decide_eq_true in H end.
  split_and!; try lia; congruence.
Qed.

(** C23: A handshake is reported as verified only for a live instance that
    signed, with its registered key, the digest of a fresh challenge the kernel
    signed, stored before sending and received back in time; the handshake is
    stored with the challenge consumed, and ends with the lease at the latest. *)
Theorem verified_handshake_is_proven kernel discovery transport instance now c h c' :
  HandshakeReconciler_reconcile_instance
    (MkHandshakeReconciler Tables kernel discovery PostgresHandshakeRepository transport)
    instance now c = (Ok (HandshakeAttemptOutcome_Verified h), c') ->
  let key := instance_public_key instance in
  exists challenge exchange c1 c2,
    let digest := SignedHandshakeChallenge_digest challenge in
    let received := exchange_received_at exchange in
    RegisteredInstance_is_eligible_at instance now = true /\
    challenge_kernel_key challenge = credential_public_key kernel /\
    challenge_signature challenge =
      InstanceCredential_sign kernel (SignedHandshakeChallenge_message challenge) /\
    challenge_issued_at challenge = now /\
    challenge_expires_at challenge =
      Z.min (now + CHALLENGE_LIFETIME_SECONDS) (instance_lease_expires_at instance) /\
    handshake_challenges (durable c1) !! digest =
      Some (challenge_row (HandshakeChallengeRecord_from challenge)) /\
    transport_exchange transport (instance_endpoint instance) challenge c1 = (Ok exchange, c2) /\
    (now <= received < challenge_expires_at challenge)%Z /\
    InstancePublicKey_verify key
      (response_message (public_instance_id (credential_public_key kernel))
         (public_instance_id key) (public_key_id key) digest)
      (response_signature (exchange_response exchange)) = Ok tt /\
    h = MkInstanceHandshake digest (public_instance_id (credential_public_key kernel))
          (public_instance_id key) (public_key_id key) received
          (Z.min (received + HANDSHAKE_LIFETIME_SECONDS) (instance_lease_expires_at instance)) /\
    handshakes (durable c') !! digest = Some (handshake_row h) /\
    exists hc, handshake_challenges (durable c') !! digest = Some hc /\
      hc_consumed_at hc = Some received.
Proof.
  unfold HandshakeReconciler_reconcile_instance. simpl. intros H. db_inv.
  destruct x as [existing|]; db_inv; [done|].
  match goal with H : SignedHandshakeChallenge_issue _ _ _ _ = (Ok ?ch, _) |- _ =>
    rename ch into challenge; apply issue_Ok in H as (? & ? & ? & Hk & Hi & Hkey & Ha & He & ? & Hs)
  end.
  match goal with H : transport_exchange _ _ _ _ = (Ok ?e, _) |- _ => rename e into exchange end.
  match goal with H : PostgresHandshake_insert_challenge _ _ = (Ok _, _) |- _ =>
    apply insert_challenge_Ok in H end.
  match goal with H : SignedHandshakeResponse_verify _ _ _ _ = Ok _ |- _ =>
    apply response_verify_Ok in H as (? & ? & ? & Hv) end.
  match goal with H : checked_add _ _ = Some _ |- _ => apply checked_add_Some in H as [-> ?] end.
  match goal with H : InstanceHandshake_restore _ _ _ _ _ _ = Ok _ |- _ =>
    unfold InstanceHandshake_restore in H; destruct (_ || _); [done|]; injection H as <- end.
  match goal with H : PostgresHandshake_complete _ _ = (Ok _, _) |- _ =>
    apply complete_Ok in H as (hc & audit & _ & _ & _ & _ & _ & _ & _ & _ & HT) end.
  simplify_eq. rewrite Hk, Hi, Hkey in Hv.
  eexists challenge, exchange, _, _. split_and!; try done; try lia.
  - rewrite HT. simpl. apply lookup_insert_eq.
  - rewrite HT. simpl. eexists. rewrite lookup_insert_eq. by split.
Qed.

Context {HP : PlatformLaws P}.

(** A stored handshake that counts at an instant *)
Definition fresh_row (kernel target : InstanceId) (now : Z) (hs : HandshakeRow) : Prop :=
  hs_kernel_instance_id hs = InstanceId_as_uuid kernel /\
  hs_target_instance_id hs = InstanceId_as_uuid target /\
  (hs_verified_at hs <= now < hs_expires_at hs)%Z.

Lemma handshake_from_row_of d hs :
  String.length d = 32%nat -> (0 <= hs_verified_at hs < hs_expires_at hs)%Z ->
  handshake_from_row (d, hs) =
    Ok (MkInstanceHandshake d (MkInstanceId (hs_kernel_instance_id hs))
          (MkInstanceId (hs_target_instance_id hs)) (MkKeyId (hs_target_key_id hs))
          (hs_verified_at hs) (hs_expires_at hs)).
Proof.
  intros Hd Hv. unfold handshake_from_row, to_array, InstanceId_from_str, KeyId_from_str,
    InstanceHandshake_restore.
  rewrite bool_decide_true by done. simpl. rewrite !uuid_parse_print. simpl.
  rewrite (proj2 (Z.ltb_ge _ _)) by lia. rewrite (proj2 (Z.leb_gt _ _)) by lia. done.
Qed.

Lemma find_fresh_In kernel target now T d hs :
  (d, hs) ∈ select (fun _ hs => bool_decide (hs_kernel_instance_id hs = InstanceId_as_uuid kernel)
      && bool_decide (hs_target_instance_id hs = InstanceId_as_uuid target)
      && (hs_verified_at hs <=? now)%Z && (now <? hs_expires_at hs)%Z) (handshakes T) <->
  handshakes T !! d = Some hs /\ fresh_row kernel target now hs.
Proof.
  rewrite select_In, !andb_true_iff, !bool_decide_eq_true, Z.leb_le, Z.ltb_lt.
  unfold fresh_row. naive_solver.
Qed.

Lemma require_fresh_run (R : HandshakeReconciler Tables) id now T ns :
  reconciler_handshakes R = PostgresHandshakeRepository ->
  handshakes_wf T -> (0 <= now)%Z ->
  let kernel := public_instance_id (credential_public_key (reconciler_kernel R)) in
  (exists h, HandshakeReconciler_require_fresh R id now (start T [] ns) = (Ok h, start T [] ns) /\
     handshakes T !! handshake_challenge_digest h = Some (handshake_row h) /\
     handshake_kernel_instance_id h = kernel /\ handshake_target_instance_id h = id /\
     InstanceHandshake_is_fresh_at h now = true /\
     forall d hs, handshakes T !! d = Some hs -> fresh_row kernel id now hs ->
       (hs_verified_at hs <= handshake_verified_at h)%Z) \/
  (HandshakeReconciler_require_fresh R id now (start T [] ns) =
     (Err (HandshakeError_HandshakeRequired id), start T [] ns) /\
   forall d hs, handshakes T !! d = Some hs -> ~ fresh_row kernel id now hs).
Proof.
  intros HR Hwf Hnow kernel. unfold HandshakeReconciler_require_fresh. rewrite HR. simpl.
  unfold PostgresHandshake_find_fresh, start. fold kernel.
  rewrite (proj2 (Z.ltb_ge _ _)) by lia. rewrite !bind_run. db_run. unfold find_fresh_sql.
  destruct (latest _ _) as [[d hs]|] eqn:Hl.
  - apply latest_Some in Hl as [(Hd & Hf)%find_fresh_In Hmax].
    destruct (Hwf _ _ Hd) as (hc & _ & _ & _ & _ & _ & Hv & Hlen).
    rewrite handshake_from_row_of by done. db_run. left. eexists. split; [reflexivity|].
    destruct Hf as (Hk & Ht & Hw). simpl. split_and!.
    + rewrite Hd. by destruct hs.
    + rewrite Hk. by destruct kernel.
    + rewrite Ht. by destruct id.
    + unfold InstanceHandshake_is_fresh_at. simpl. rewrite andb_true_iff, Z.leb_le, Z.ltb_lt. lia.
    + intros d' hs' Hd' Hf'. by apply (Hmax (d', hs')), find_fresh_In.
  - apply latest_None in Hl. db_run. right. split; [done|]. intros d hs Hd Hf.
    assert ((d, hs) ∈ @nil (bytes * HandshakeRow)) as Hin by (rewrite <-Hl; by apply find_fresh_In).
    by apply elem_of_nil in Hin.
Qed.

(** A handshake is required exactly when no stored one counts: looking one up
    answers with the latest stored handshake of the two instances that is fresh
    now, and with [HandshakeRequired] only when there is none. *)
Theorem require_fresh_decides (R : HandshakeReconciler Tables) id now T ns :
  reconciler_handshakes R = PostgresHandshakeRepository ->
  handshakes_wf T -> (0 <= now)%Z ->
  let kernel := public_instance_id (credential_public_key (reconciler_kernel R)) in
  (exists h, HandshakeReconciler_require_fresh R id now (start T [] ns) = (Ok h, start T [] ns) /\
     handshakes T !! handshake_challenge_digest h = Some (handshake_row h) /\
     handshake_kernel_instance_id h = kernel /\ handshake_target_instance_id h = id /\
     InstanceHandshake_is_fresh_at h now = true /\
     forall d hs, handshakes T !! d = Some hs -> fresh_row kernel id now hs ->
       (hs_verified_at hs <= handshake_verified_at h)%Z) \/
  (HandshakeReconciler_require_fresh R id now (start T [] ns) =
     (Err (HandshakeError_HandshakeRequired id), start T [] ns) /\
   forall d hs, handshakes T !! d = Some hs -> ~ fresh_row kernel id now hs).
Proof. apply require_fresh_run. Qed.

Lemma find_fresh_none kernel target now T w ns :
  (0 <= now)%Z -> (forall d hs, handshakes T !! d = Some hs -> ~ fresh_row kernel target now hs) ->
  PostgresHandshake_find_fresh kernel target now (MkConn T w [] ns) = (Ok None, MkConn T T [] ns).
Proof.
  intros Hnow Hno. unfold PostgresHandshake_find_fresh, find_fresh_sql.
  rewrite (proj2 (Z.ltb_ge _ _)) by lia. db_run.
  destruct (latest _ _) as [[d hs]|] eqn:Hl; [|done].
  apply latest_Some in Hl as [(Hd & Hf)%find_fresh_In _]. by destruct (Hno _ _ Hd).
Qed.

(** The transport to an instance that holds [target] and answers at [received] *)
Definition honest_transport (target : InstanceCredential) (received : Z) :
  HandshakeTransport Tables := {|
  transport_exchange _ challenge :=
    response ← lift (SignedHandshakeResponse_sign challenge target);
    mret (MkHandshakeExchange response received) |}.

(** The challenge the kernel issues with a given nonce *)
Definition issued_challenge (kernel : InstanceCredential) (target : RegisteredInstance)
  (now : Z) (nonce : bytes) : SignedHandshakeChallenge :=
  let key := instance_public_key target in
  let expires := Z.min (now + CHALLENGE_LIFETIME_SECONDS) (instance_lease_expires_at target) in
  MkSignedHandshakeChallenge nonce (credential_public_key kernel) (public_instance_id key)
    (public_key_id key) now expires
    (InstanceCredential_sign kernel
       (challenge_message nonce (credential_public_key kernel) (public_instance_id key)
          (public_key_id key) now expires)).

Lemma issue_run {S} kernel target now (d w : S) ns :
  (0 <= now)%Z -> RegisteredInstance_is_eligible_at target now = true ->
  in_i64 (now + CHALLENGE_LIFETIME_SECONDS) ->
  SignedHandshakeChallenge_issue kernel target now (MkConn d w [] ns) =
    (Ok (issued_challenge kernel target now (be_bytes 32 (hd 0%N ns))), MkConn d w [] (tl ns)).
Proof.
  intros Hnow He Hin.
  assert (now < Z.min (now + CHALLENGE_LIFETIME_SECONDS) (instance_lease_expires_at target))%Z as Hlt.
  { unfold RegisteredInstance_is_eligible_at in He. apply andb_true_iff in He as [_ He].
    apply Z.ltb_lt in He. unfold CHALLENGE_LIFETIME_SECONDS. lia. }
  unfold SignedHandshakeChallenge_issue. rewrite He.
  rewrite (proj2 (Z.ltb_ge now 0)) by lia. cbn [negb orb].
  rewrite (proj2 (checked_add_Some _ _ _) (conj eq_refl Hin)). cbn [ok_or]. db_run.
  rewrite (proj2 (Z.leb_gt _ _) Hlt).
  by db_run.
Qed.

Lemma response_verify_signed challenge target received :
  credential_wf target ->
  public_instance_id (credential_public_key target) = challenge_target_instance_id challenge ->
  public_key_id (credential_public_key target) = challenge_target_key_id challenge ->
  (challenge_issued_at challenge <= received < challenge_expires_at challenge)%Z ->
  exists response, SignedHandshakeResponse_sign challenge target = Ok response /\
    SignedHandshakeResponse_verify response challenge (credential_public_key target) received = Ok tt.
Proof.
  intros Hwf Hi Hk Hw. unfold SignedHandshakeResponse_sign.
  rewrite Hi, Hk, !bool_decide_true by done. simpl. eexists. split; [done|].
  unfold SignedHandshakeResponse_verify. simpl.
  rewrite (proj2 (Z.ltb_ge _ _)), (proj2 (Z.leb_gt _ _)) by lia. simpl.
  rewrite Hi, Hk, !bool_decide_true by done. simpl. by rewrite credential_sign_verify.
Qed.

Lemma insert_challenge_succeeds r T w ns :
  String.length (record_digest r) = 32%nat -> (0 <= record_issued_at r < record_expires_at r)%Z ->
  handshake_challenges T !! record_digest r = None ->
  is_Some (service_instances T !! InstanceId_as_uuid (record_target_instance_id r)) ->
  is_Some (service_instance_keys T !! KeyId_as_uuid (record_target_key_id r)) ->
  exists audit,
    let T' := with_handshake_audit audit
                (with_handshake_challenges
                   (<[record_digest r := challenge_row r]> (handshake_challenges T)) T) in
    PostgresHandshake_insert_challenge r (MkConn T w [] ns) = (Ok tt, MkConn T' T' [] ns).
Proof.
  intros Hl Hw Hn Hi Hk. unfold PostgresHandshake_insert_challenge, append_handshake_audit. db_run.
  erewrite execute_run; cycle 1.
  { unfold insert_handshake_challenge_sql, references, require. simpl.
    rewrite octet_length_32, !bool_decide_true by done.
    rewrite (proj2 (Z.leb_le _ _)), (proj2 (Z.ltb_lt _ _)) by lia. reflexivity. }
  db_run. erewrite execute_run; cycle 1.
  { unfold insert_handshake_audit_sql, require. simpl. rewrite octet_length_32 by done.
    rewrite (proj2 (Z.leb_le _ _)) by lia. reflexivity. }
  db_run. by eexists.
Qed.

Lemma complete_succeeds h T w ns hc :
  String.length (handshake_challenge_digest h) = 32%nat ->
  handshake_challenges T !! handshake_challenge_digest h = Some hc ->
  hc_kernel_instance_id hc = InstanceId_as_uuid (handshake_kernel_instance_id h) ->
  hc_target_instance_id hc = InstanceId_as_uuid (handshake_target_instance_id h) ->
  hc_consumed_at hc = None ->
  (hc_issued_at hc <= handshake_verified_at h < hc_expires_at hc)%Z ->
  (0 <= handshake_verified_at h < handshake_expires_at h)%Z ->
  handshakes T !! handshake_challenge_digest h = None ->
  is_Some (service_instances T !! InstanceId_as_uuid (handshake_target_instance_id h)) ->
  is_Some (service_instance_keys T !! KeyId_as_uuid (handshake_target_key_id h)) ->
  exists T', completes h T T' /\
    PostgresHandshake_complete h (MkConn T w [] ns) = (Ok tt, MkConn T' T' [] ns).
Proof.
  intros Hl Hhc Hk Ht Hn Hw Hv Hnone Hi Hkey.
  pose proof (complete_run h T w ns) as Hrun. revert Hrun.
  unfold PostgresHandshake_complete, append_handshake_audit. db_run.
  erewrite execute_run; cycle 1.
  { unfold consume_handshake_challenge_sql, require. rewrite Hhc, !bool_decide_true by done. simpl.
    rewrite (proj2 (Z.ltb_lt _ _)), (proj2 (Z.leb_le _ _)) by lia. reflexivity. }
  cbn [negb Z.eqb Pos.eqb]. db_run. erewrite execute_run; cycle 1.
  { unfold insert_handshake_sql, references, require. simpl.
    rewrite (proj2 (Z.leb_le 0 _)), (proj2 (Z.ltb_lt (handshake_verified_at h) _)) by lia.
    rewrite lookup_insert_eq, !bool_decide_true by eauto. reflexivity. }
  db_run. erewrite execute_run; cycle 1.
  { unfold insert_handshake_audit_sql, require. simpl. rewrite octet_length_32 by done.
    rewrite (proj2 (Z.leb_le 0 _)) by lia. reflexivity. }
  db_run. simpl. intros (T' & Hc & Heq). exists T'. by rewrite Heq.
Qed.

(** The handshake that an exchange with the honest instance ends in *)
Definition honest_handshake (kernel : InstanceCredential) (target : RegisteredInstance)
  (challenge : SignedHandshakeChallenge) (received : Z) : InstanceHandshake :=
  let key := instance_public_key target in
  MkInstanceHandshake (SignedHandshakeChallenge_digest challenge)
    (public_instance_id (credential_public_key kernel)) (public_instance_id key) (public_key_id key)
    received (Z.min (received + HANDSHAKE_LIFETIME_SECONDS) (instance_lease_expires_at target)).

(** The two storage operations of an exchange succeed one after the other. *)
Lemma exchange_stored challenge h T ns :
  handshake_challenge_digest h = SignedHandshakeChallenge_digest challenge ->
  handshake_kernel_instance_id h = public_instance_id (challenge_kernel_key challenge) ->
  handshake_target_instance_id h = challenge_target_instance_id challenge ->
  handshake_target_key_id h = challenge_target_key_id challenge ->
  (0 <= challenge_issued_at challenge <= handshake_verified_at h)%Z ->
  (handshake_verified_at h < challenge_expires_at challenge)%Z ->
  (handshake_verified_at h < handshake_expires_at h)%Z ->
  handshakes_wf T -> handshake_challenges T !! SignedHandshakeChallenge_digest challenge = None ->
  is_Some (service_instances T !! InstanceId_as_uuid (challenge_target_instance_id challenge)) ->
  is_Some (service_instance_keys T !! KeyId_as_uuid (challenge_target_key_id challenge)) ->
  exists T1 T2,
    PostgresHandshake_insert_challenge (HandshakeChallengeRecord_from challenge) (MkConn T T [] ns) =
      (Ok tt, MkConn T1 T1 [] ns) /\
    PostgresHandshake_complete h (MkConn T1 T1 [] ns) = (Ok tt, MkConn T2 T2 [] ns) /\
    handshakes_wf T2 /\
    handshakes T2 !! SignedHandshakeChallenge_digest challenge = Some (handshake_row h).
Proof.
  intros Hd Hki Hti Hty Hca Hce Hexp HT Hnew Hi Hk.
  assert (handshakes T !! SignedHandshakeChallenge_digest challenge = None) as Hnone.
  { destruct (handshakes T !! _) as [hs|] eqn:Hhs; [|done].
    destruct (HT _ _ Hhs) as (? & ? & _). congruence. }
  destruct (insert_challenge_succeeds (HandshakeChallengeRecord_from challenge) T T ns)
    as (audit & Hins); try (simpl; done); [apply sha256_length | simpl; lia |].
  set (T1 := with_handshake_audit _ _) in Hins. cbv zeta in Hins.
  destruct (complete_succeeds h T1 T1 ns (challenge_row (HandshakeChallengeRecord_from challenge)))
    as (T2 & Hcomp & Hrun); try (simpl; rewrite ?Hd, ?Hki, ?Hti, ?Hty; done || lia).
  { rewrite Hd. apply sha256_length. }
  { rewrite Hd. apply lookup_insert_eq. }
  exists T1, T2. split_and!; [done | done | |].
  - apply (proj2 (completes_step _ _ _ Hcomp)).
    by apply (proj2 (insert_challenge_step _ (challenge_row (HandshakeChallengeRecord_from challenge))
                       audit _ Hnew)).
  - destruct Hcomp as (hc & audit' & _ & _ & _ & _ & _ & _ & _ & _ & ->).
    simpl. rewrite Hd. apply lookup_insert_eq.
Qed.

(** Handshakes work: for a live registered instance without a fresh handshake
    that answers in time with its own key, a new challenge leads to a verified
    handshake, and from then until it expires a fresh handshake is found. *)
Theorem honest_instance_completes kernel discovery target instance now received T ns :
  let R := MkHandshakeReconciler Tables kernel discovery PostgresHandshakeRepository
             (honest_transport target received) in
  let kernel_id := public_instance_id (credential_public_key kernel) in
  let id := public_instance_id (instance_public_key instance) in
  let challenge := issued_challenge kernel instance now (be_bytes 32 (hd 0%N ns)) in
  credential_wf target -> instance_public_key instance = credential_public_key target ->
  RegisteredInstance_is_eligible_at instance now = true -> (0 <= now <= received)%Z ->
  (received < challenge_expires_at challenge)%Z ->
  in_i64 (now + CHALLENGE_LIFETIME_SECONDS) -> in_i64 (received + HANDSHAKE_LIFETIME_SECONDS) ->
  handshakes_wf T -> is_Some (service_instances T !! InstanceId_as_uuid id) ->
  is_Some (service_instance_keys T !!
             KeyId_as_uuid (public_key_id (instance_public_key instance))) ->
  (forall d hs, handshakes T !! d = Some hs -> ~ fresh_row kernel_id id now hs) ->
  handshake_challenges T !! SignedHandshakeChallenge_digest challenge = None ->
  exists h c', HandshakeReconciler_reconcile_instance R instance now (start T [] ns) =
      (Ok (HandshakeAttemptOutcome_Verified h), c') /\
    handshake_expires_at h =
      Z.min (received + HANDSHAKE_LIFETIME_SECONDS) (instance_lease_expires_at instance) /\
    forall t ns', (received <= t < handshake_expires_at h)%Z ->
      exists h', HandshakeReconciler_require_fresh R id t (start (durable c') [] ns') =
        (Ok h', start (durable c') [] ns') /\ InstanceHandshake_is_fresh_at h' t = true.
Proof.
  intros R kernel_id id challenge Hwf Hkey He Hnow Hrec Hin Hin' HT Hi Hk Hno Hnew.
  pose proof (issue_run kernel instance now T T ns ltac:(lia) He Hin) as Hissue.
  fold challenge in Hissue.
  assert (challenge_expires_at challenge <= instance_lease_expires_at instance)%Z as Hlease
    by apply Z.le_min_r.
  set (h := honest_handshake kernel instance challenge received).
  assert (received < handshake_expires_at h)%Z as Hexp
    by (simpl; unfold HANDSHAKE_LIFETIME_SECONDS; lia).
  destruct (exchange_stored challenge h T (tl ns)) as (T1 & T2 & Hins & Hrun & HT2 & Hrow);
    try done; try (change (challenge_issued_at challenge) with now; simpl; lia).
  destruct (response_verify_signed challenge target received) as (response & Hsign & Hver);
    [done | by rewrite <-Hkey | by rewrite <-Hkey |
     change (challenge_issued_at challenge) with now; lia |].
  exists h, (MkConn T2 T2 [] (tl ns)). split_and!; [| done |].
  - unfold HandshakeReconciler_reconcile_instance, start. cbn [reconciler_kernel reconciler_handshakes
      reconciler_transport handshakes_find_fresh handshakes_insert_challenge handshakes_complete
      transport_exchange PostgresHandshakeRepository honest_transport R].
    fold kernel_id id. rewrite bind_run, (find_fresh_none kernel_id id now T T ns) by (done || lia).
    rewrite bind_run, Hissue, bind_run, Hins. db_run. rewrite Hsign. db_run.
    cbn [exchange_response exchange_received_at]. rewrite Hkey, Hver. db_run.
    rewrite (proj2 (checked_add_Some _ _ _) (conj eq_refl Hin')). cbn [ok_or]. db_run.
    unfold InstanceHandshake_restore. rewrite (proj2 (Z.ltb_ge received 0)) by lia.
    rewrite (proj2 (Z.leb_gt _ received)) by done. cbn [orb]. db_run. rewrite <-Hkey.
    change (MkInstanceHandshake _ _ _ _ _ _) with h. by rewrite Hrun.
  - intros t ns' Ht. cbn [durable].
    destruct (require_fresh_run R id t T2 ns') as [(h' & Hr & _ & _ & _ & Hf & _)|[_ Hn]];
      [done | done | lia | by exists h' |].
    destruct (Hn _ _ Hrow). split; [done | split; [done | exact Ht]].
Qed.

(** What the discovery is for: a live instance with an unrevoked key, of a
    service with an active subscription *)
Record subscribed_instance (T : Tables) (now : Z) (id : Uuid) (si : InstanceRow) (key_id : Uuid)
  (sik : InstanceKeyRow) : Prop := {
  subscribed_row : service_instances T !! id = Some si;
  subscribed_active : exists sub_id sub, subscriptions T !! sub_id = Some sub /\
    sub_service_id sub = si_service_id si /\ sub_disabled_at sub = None;
  subscribed_live : si_revoked_at si = None;
  subscribed_window : (si_registered_at si <= now < si_lease_expires_at si)%Z;
  subscribed_key : service_instance_keys T !! key_id = Some sik;
  subscribed_key_instance : sik_instance_id sik = id;
  subscribed_key_live : sik_revoked_at sik = None;
}.

Definition instance_details (id : Uuid) (si : InstanceRow) (key_id : Uuid) (sik : InstanceKeyRow) :
  InstanceDetails :=
  MkInstanceDetails (uuid_print (si_service_id si)) (uuid_print id) (si_endpoint si)
    (si_registered_at si) (si_lease_expires_at si) (si_lease_revision si) (si_revoked_at si)
    (uuid_print key_id) (sik_public_key sik).

Lemma active_subscription_nonempty T service :
  select (fun _ s => bool_decide (sub_service_id s = service)
                     && bool_decide (sub_disabled_at s = None)) (subscriptions T) <> [] <->
  exists sub_id sub, subscriptions T !! sub_id = Some sub /\ sub_service_id sub = service /\
    sub_disabled_at sub = None.
Proof.
  split.
  - intros Hne. destruct (select _ _) as [|[k s] l] eqn:Hl; [done|].
    assert ((k, s) ∈ (k, s) :: l) as Hin by left. rewrite <-Hl in Hin.
    apply select_In in Hin as [Hk Hf]. rewrite andb_true_iff, !bool_decide_eq_true in Hf.
    destruct Hf as [? ?]. by exists k, s.
  - intros (k & s & Hk & Hs & Hd) Hnil.
    assert ((k, s) ∈ @nil (Uuid * SubscriptionRow)) as Hin.
    { rewrite <-Hnil. apply select_In. by rewrite Hs, Hd, !bool_decide_true. }
    by apply elem_of_nil in Hin.
Qed.

Lemma subscribed_instances_In now T d :
  d ∈ subscribed_instances_sql now T <->
  exists id si key_id sik, subscribed_instance T now id si key_id sik /\
    d = instance_details id si key_id sik.
Proof.
  unfold subscribed_instances_sql. rewrite order_by_In, list_elem_of_bind. split.
  - intros ([id si] & Hd & [Hi Hf]%select_In).
    apply list_elem_of_bind in Hd as ([key_id sik] & Hd & [Hk Hg]%select_In).
    apply list_elem_of_singleton in Hd as ->.
    rewrite !andb_true_iff, !bool_decide_eq_true, active_subscription_nonempty in Hf.
    rewrite Z.leb_le, Z.ltb_lt in Hf. rewrite andb_true_iff, !bool_decide_eq_true in Hg.
    destruct Hf as [[[? ?] ?] ?], Hg as [? ?].
    exists id, si, key_id, sik. by split.
  - intros (id & si & key_id & sik & [? Ha ? [? ?] ? <- ?] & ->). exists (sik_instance_id sik, si).
    split.
    + apply list_elem_of_bind. exists (key_id, sik). split; [by apply list_elem_of_singleton|].
      apply select_In. split; [done|]. by rewrite !bool_decide_true.
    + apply select_In. split; [done|].
      rewrite !andb_true_iff, !bool_decide_eq_true, active_subscription_nonempty, Z.leb_le, Z.ltb_lt.
      done.
Qed.

Lemma discovered_instance_Ok id si key_id sik i :
  discovered_instance_from_row (instance_details id si key_id sik) = Ok i ->
  i = MkRegisteredInstance
        (MkInstancePublicKey (MkActorId (si_service_id si)) (MkInstanceId id) (MkKeyId key_id)
           (sik_public_key sik))
        (trim (si_endpoint si)) (si_registered_at si) (si_lease_expires_at si)
        (si_lease_revision si) (si_revoked_at si).
Proof.
  unfold discovered_instance_from_row, instance_details, InstancePublicKey_restore,
    RegisteredInstance_restore, validate_endpoint, to_array, ActorId_from_str,
    InstanceId_from_str, KeyId_from_str. simpl. rewrite !uuid_parse_print. simpl.
  intros H. case_bool_decide; [|done]. result_inv. simplify_eq.
  repeat match goal with H : (if ?b then _ else _) = Ok _ |- _ => destruct b; [try discriminate H|try discriminate H] end.
  by simplify_eq/=.
Qed.

(** Discovery finds exactly the instances a handshake is for: it answers, for
    every live instance of a service with an active subscription and for each of
    its unrevoked keys, with the stored registration, and with nothing else; and
    everything it finds is eligible for a handshake now. *)
Theorem discovery_is_exact now c l c' :
  PostgresDiscovery_eligible_subscribed_instances now c = (Ok l, c') ->
  durable c' = durable c /\
  (forall i, i ∈ l <-> exists id si key_id sik,
     subscribed_instance (durable c) now id si key_id sik /\
     i = MkRegisteredInstance
           (MkInstancePublicKey (MkActorId (si_service_id si)) (MkInstanceId id) (MkKeyId key_id)
              (sik_public_key sik))
           (trim (si_endpoint si)) (si_registered_at si) (si_lease_expires_at si)
           (si_lease_revision si) None) /\
  forall i, i ∈ l -> RegisteredInstance_is_eligible_at i now = true.
Proof.
  unfold PostgresDiscovery_eligible_subscribed_instances. intros H. db_inv.
  match goal with H : collect _ _ = Ok _ |- _ => rename H into Hl end.
  assert (forall i, i ∈ l <-> exists id si key_id sik,
     subscribed_instance (durable c) now id si key_id sik /\
     i = MkRegisteredInstance
           (MkInstancePublicKey (MkActorId (si_service_id si)) (MkInstanceId id) (MkKeyId key_id)
              (sik_public_key sik))
           (trim (si_endpoint si)) (si_registered_at si) (si_lease_expires_at si)
           (si_lease_revision si) None) as Hin.
  { intros i. rewrite (collect_elem_of _ _ _ _ Hl). setoid_rewrite subscribed_instances_In. split.
    - intros (d & (id & si & key_id & sik & Hs & ->) & Hi%discovered_instance_Ok).
      exists id, si, key_id, sik. split; [done|]. by rewrite Hi, (subscribed_live _ _ _ _ _ _ Hs).
    - intros (id & si & key_id & sik & Hs & ->).
      assert (instance_details id si key_id sik ∈ subscribed_instances_sql now (durable c)) as Hd
        by (apply subscribed_instances_In; eauto 8).
      apply collect_Ok in Hl. apply list_elem_of_lookup in Hd as [n Hn].
      destruct (Forall2_lookup_l _ _ _ _ _ Hl Hn) as (i & _ & Hi).
      exists (instance_details id si key_id sik). split; [by eauto 8|]. rewrite Hi. f_equal.
      apply discovered_instance_Ok in Hi as ->. by rewrite (subscribed_live _ _ _ _ _ _ Hs). }
  split; [done|]. split; [done|]. intros i (id & si & key_id & sik & Hs & ->)%Hin.
  destruct Hs as [_ _ _ [? ?] _ _ _]. unfold RegisteredInstance_is_eligible_at. simpl.
  by rewrite (proj2 (Z.leb_le _ _)), (proj2 (Z.ltb_lt _ _)).
Qed.
End theory.
