(* ===== verification/Enrollment.v ===== *)
(** * Enrollment: how a workload becomes a registered instance

    [src/kernel/enrollment.rs] and
    [src/infrastructure/postgres_enrollment_binding_repository.rs], with the tables
    of migration 0003, and the reading of a token review in
    [src/infrastructure/kubernetes_token_reviewer.rs]. The request to the
    Kubernetes API is an interface. *)

From S2P Require Import Prelude Text Platform Database Schema Identity InstanceKeys.
From S2P Require Import InstanceRegistry.
From Stdlib Require Import Ascii.

Definition ENROLLMENT_AUDIENCE : string := "infernal-law-enrollment".
Definition ENROLLMENT_CHALLENGE_LIFETIME_SECONDS : Z := 30.
Definition PROOF_CONTEXT : bytes := "infernal-law/enrollment/v1".
Definition CHALLENGE_LENGTH : nat := 32.
Definition MAX_NAME_LENGTH : Z := 253.
Definition MAX_UID_LENGTH : Z := 253.
Definition MAX_TOKEN_LENGTH : Z := 32 * 1024.

Inductive EnrollmentError :=
| EnrollmentError_AudienceMismatch
| EnrollmentError_BindingDisabled
| EnrollmentError_BindingNotFound
| EnrollmentError_ChallengeRejected
| EnrollmentError_InvalidField
| EnrollmentError_InvalidProof
| EnrollmentError_PodMismatch
| EnrollmentError_Repository (message : string)
| EnrollmentError_Registry (error : InstanceRegistryError)
| EnrollmentError_ServiceMismatch
| EnrollmentError_TokenRejected.

Record EnrollmentChallenge := MkEnrollmentChallenge { EnrollmentChallenge_as_bytes : bytes }.

(** [EnrollmentChallenge::generate]; a failing random source ends the thread
    before anything is stored, which is not modelled. *)
Definition EnrollmentChallenge_generate {S E} : Db S E EnrollmentChallenge :=
  value ← random;
  mret (MkEnrollmentChallenge (be_bytes CHALLENGE_LENGTH value)).

Definition NUL : ascii := "000"%char.

Definition validate_field (value : string) (max : Z) : Result EnrollmentError string :=
  let value := trim value in
  if is_empty value || (max <? len value)%Z || contains (String NUL EmptyString) value
  then Err EnrollmentError_InvalidField
  else Ok value.

Definition validate_enrollment_endpoint (value : string) : Result EnrollmentError string :=
  endpoint ← validate_field value 2048;
  if String.eqb endpoint "https://" || negb (starts_with "https://" endpoint)
  then Err EnrollmentError_InvalidField
  else Ok endpoint.

Record VerifiedWorkload := MkVerifiedWorkload {
  workload_namespace : string;
  workload_service_account : string;
  workload_service_account_uid : string;
  workload_pod_name : string;
  workload_pod_uid : string;
  workload_audiences : list string;
}.

Definition VerifiedWorkload_new (namespace service_account service_account_uid pod_name pod_uid : string)
  (audiences : list string) : Result EnrollmentError VerifiedWorkload :=
  namespace ← validate_field namespace MAX_NAME_LENGTH;
  service_account ← validate_field service_account MAX_NAME_LENGTH;
  service_account_uid ← validate_field service_account_uid MAX_UID_LENGTH;
  pod_name ← validate_field pod_name MAX_NAME_LENGTH;
  pod_uid ← validate_field pod_uid MAX_UID_LENGTH;
  Ok (MkVerifiedWorkload namespace service_account service_account_uid pod_name pod_uid audiences).

Record EnrollmentBinding := MkEnrollmentBinding {
  binding_service_id : ActorId;
  binding_namespace : string;
  binding_service_account : string;
  binding_service_account_uid : string;
  binding_enabled : bool;
}.

Definition EnrollmentBinding_restore (service_id : ActorId)
  (namespace service_account service_account_uid : string) (enabled : bool) :
  Result EnrollmentError EnrollmentBinding :=
  namespace ← validate_field namespace MAX_NAME_LENGTH;
  service_account ← validate_field service_account MAX_NAME_LENGTH;
  service_account_uid ← validate_field service_account_uid MAX_UID_LENGTH;
  Ok (MkEnrollmentBinding service_id namespace service_account service_account_uid enabled).

Definition EnrollmentBinding_new_disabled (service_id : ActorId)
  (namespace service_account service_account_uid : string) :
  Result EnrollmentError EnrollmentBinding :=
  EnrollmentBinding_restore service_id namespace service_account service_account_uid false.

Record EnrollmentRequest := MkEnrollmentRequest {
  enrollment_challenge : EnrollmentChallenge;
  enrollment_public_key : InstancePublicKey;
  enrollment_endpoint : string;
  enrollment_claimed_pod_uid : string;
  enrollment_workload_token : string;
  enrollment_signature : InstanceSignature;
}.

(** ** The traits and the service *)

Record WorkloadTokenReviewer (S : Type) := MkWorkloadTokenReviewer {
  reviewer_review : string -> string -> Db S EnrollmentError VerifiedWorkload;
}.
Arguments reviewer_review {S}.

Record EnrollmentBindingRepository (S : Type) := MkEnrollmentBindingRepository {
  bindings_insert_disabled : EnrollmentBinding -> Db S EnrollmentError unit;
  bindings_set_enabled : ActorId -> bool -> Db S EnrollmentError unit;
  bindings_find_workload : string -> string -> string ->
    Db S EnrollmentError (option EnrollmentBinding);
  bindings_insert_challenge : ActorId -> EnrollmentChallenge -> Z -> Db S EnrollmentError unit;
  bindings_consume_challenge : ActorId -> EnrollmentChallenge -> Z -> Db S EnrollmentError unit;
}.
Arguments bindings_insert_disabled {S}.
Arguments bindings_set_enabled {S}.
Arguments bindings_find_workload {S}.
Arguments bindings_insert_challenge {S}.
Arguments bindings_consume_challenge {S}.

Record EnrollmentService (S : Type) := MkEnrollmentService {
  enrollment_reviewer : WorkloadTokenReviewer S;
  enrollment_bindings_repository : EnrollmentBindingRepository S;
  enrollment_registry : InstanceRegistryRepository S;
  enrollment_lease_policy : LeasePolicy;
}.
Arguments enrollment_reviewer {S}.
Arguments enrollment_bindings_repository {S}.
Arguments enrollment_registry {S}.
Arguments enrollment_lease_policy {S}.

Definition EnrollmentService_issue_challenge {S} (E : EnrollmentService S) (service_id : ActorId)
  (now : Z) : Db S EnrollmentError EnrollmentChallenge :=
  if (now <? 0)%Z then throw EnrollmentError_InvalidField
  else
    expires_at ← lift (ok_or EnrollmentError_InvalidField
                         (checked_add now ENROLLMENT_CHALLENGE_LIFETIME_SECONDS));
    challenge ← EnrollmentChallenge_generate;
    bindings_insert_challenge (enrollment_bindings_repository E) service_id challenge expires_at;;
    mret challenge.

Definition EnrollmentService_issue_challenge_for_workload {S} (E : EnrollmentService S)
  (workload_token claimed_pod_uid : string) (now : Z) :
  Db S EnrollmentError (ActorId * EnrollmentChallenge) :=
  claimed_pod_uid ← lift (validate_field claimed_pod_uid MAX_UID_LENGTH);
  workload ← reviewer_review (enrollment_reviewer E) workload_token ENROLLMENT_AUDIENCE;
  if negb (bool_decide (ENROLLMENT_AUDIENCE ∈ workload_audiences workload))
  then throw EnrollmentError_AudienceMismatch
  else if negb (String.eqb (workload_pod_uid workload) claimed_pod_uid)
  then throw EnrollmentError_PodMismatch
  else
    found ← bindings_find_workload (enrollment_bindings_repository E) (workload_namespace workload)
      (workload_service_account workload) (workload_service_account_uid workload);
    binding ← lift (ok_or EnrollmentError_BindingNotFound found);
    if negb (binding_enabled binding) then throw EnrollmentError_BindingDisabled
    else
      challenge ← EnrollmentService_issue_challenge E (binding_service_id binding) now;
      mret (binding_service_id binding, challenge).

Section enrollment.
Context {P : Platform}.

Definition proof_message (challenge : EnrollmentChallenge) (public_key : InstancePublicKey)
  (endpoint pod_uid token : string) : bytes :=
  encode_fields [
    PROOF_CONTEXT;
    EnrollmentChallenge_as_bytes challenge;
    uuid_as_bytes (ActorId_as_uuid (public_service_id public_key));
    uuid_as_bytes (InstanceId_as_uuid (public_instance_id public_key));
    uuid_as_bytes (KeyId_as_uuid (public_key_id public_key));
    public_key_bytes public_key;
    endpoint;
    pod_uid;
    sha256 token].

Definition EnrollmentRequest_sign (credential : InstanceCredential) (challenge : EnrollmentChallenge)
  (endpoint claimed_pod_uid workload_token : string) : Result EnrollmentError EnrollmentRequest :=
  endpoint ← validate_enrollment_endpoint endpoint;
  claimed_pod_uid ← validate_field claimed_pod_uid MAX_UID_LENGTH;
  if is_empty workload_token || (MAX_TOKEN_LENGTH <? len workload_token)%Z
  then Err EnrollmentError_InvalidField
  else
    let public_key := credential_public_key credential in
    let message := proof_message challenge public_key endpoint claimed_pod_uid workload_token in
    Ok (MkEnrollmentRequest challenge public_key endpoint claimed_pod_uid workload_token
          (InstanceCredential_sign credential message)).

Definition EnrollmentRequest_restore (challenge : EnrollmentChallenge) (public_key : InstancePublicKey)
  (endpoint claimed_pod_uid workload_token : string) (signature : InstanceSignature) :
  Result EnrollmentError EnrollmentRequest :=
  endpoint ← validate_enrollment_endpoint endpoint;
  claimed_pod_uid ← validate_field claimed_pod_uid MAX_UID_LENGTH;
  if is_empty workload_token || (MAX_TOKEN_LENGTH <? len workload_token)%Z
  then Err EnrollmentError_InvalidField
  else Ok (MkEnrollmentRequest challenge public_key endpoint claimed_pod_uid workload_token signature).

Definition EnrollmentService_authenticate_and_register {S} (E : EnrollmentService S)
  (request : EnrollmentRequest) (now : Z) : Db S EnrollmentError RegisteredInstance :=
  let public_key := enrollment_public_key request in
  let message := proof_message (enrollment_challenge request) public_key
                   (enrollment_endpoint request) (enrollment_claimed_pod_uid request)
                   (enrollment_workload_token request) in
  lift (result_map_err (fun _ => EnrollmentError_InvalidProof)
          (InstancePublicKey_verify public_key message (enrollment_signature request)));;
  workload ← reviewer_review (enrollment_reviewer E) (enrollment_workload_token request)
               ENROLLMENT_AUDIENCE;
  if negb (bool_decide (ENROLLMENT_AUDIENCE ∈ workload_audiences workload))
  then throw EnrollmentError_AudienceMismatch
  else if negb (String.eqb (workload_pod_uid workload) (enrollment_claimed_pod_uid request))
  then throw EnrollmentError_PodMismatch
  else
    found ← bindings_find_workload (enrollment_bindings_repository E) (workload_namespace workload)
      (workload_service_account workload) (workload_service_account_uid workload);
    binding ← lift (ok_or EnrollmentError_BindingNotFound found);
    if negb (binding_enabled binding) then throw EnrollmentError_BindingDisabled
    else if negb (bool_decide (binding_service_id binding = public_service_id public_key))
    then throw EnrollmentError_ServiceMismatch
    else
      bindings_consume_challenge (enrollment_bindings_repository E) (public_service_id public_key)
        (enrollment_challenge request) now;;
      map_err EnrollmentError_Registry
        (InstanceRegistryService_register_verified (enrollment_registry E)
           (enrollment_lease_policy E) public_key (enrollment_endpoint request) now).

Definition EnrollmentError_to_string (e : EnrollmentError) : string :=
  match e with
  | EnrollmentError_AudienceMismatch => "workload token audience was not accepted"
  | EnrollmentError_BindingDisabled => "workload enrollment binding is disabled"
  | EnrollmentError_BindingNotFound => "workload has no enrollment binding"
  | EnrollmentError_ChallengeRejected =>
      "enrollment challenge is unknown, expired, or already consumed"
  | EnrollmentError_InvalidField => "enrollment request contains an invalid field"
  | EnrollmentError_InvalidProof => "instance enrollment proof is invalid"
  | EnrollmentError_PodMismatch => "verified Pod does not match the signed enrollment proof"
  | EnrollmentError_Repository message => "enrollment binding repository failed: " +:+ message
  | EnrollmentError_Registry error => InstanceRegistryError_to_string error
  | EnrollmentError_ServiceMismatch => "workload is not bound to the proposed service identity"
  | EnrollmentError_TokenRejected => "workload token was rejected"
  end.

(** ** The PostgreSQL adapter *)

Definition enrollment_name_ok (value : string) : bool :=
  (1 <=? chars_count (btrim value))%Z && (chars_count (btrim value) <=? 253)%Z.

(** The rows of a workload: UNIQUE (namespace, service_account, service_account_uid)
    allows at most one. *)
Definition bindings_of_workload (namespace service_account service_account_uid : string)
  (T : Tables) : list (Uuid * BindingRow) :=
  select (fun _ b => String.eqb (seb_namespace b) namespace
                     && String.eqb (seb_service_account b) service_account
                     && String.eqb (seb_service_account_uid b) service_account_uid)
    (enrollment_bindings T).

Definition insert_binding_sql (service_id : Uuid) (namespace service_account uid : string)
  (T : Tables) : Result PostgresError (Z * Tables) :=
  require (enrollment_name_ok namespace)
    (check_violation "service_enrollment_bindings_namespace_check");;
  require (enrollment_name_ok service_account)
    (check_violation "service_enrollment_bindings_service_account_check");;
  require (enrollment_name_ok uid)
    (check_violation "service_enrollment_bindings_service_account_uid_check");;
  require (bool_decide (enrollment_bindings T !! service_id = None))
    (unique_violation "service_enrollment_bindings_pkey");;
  require (bool_decide (bindings_of_workload namespace service_account uid T = []))
    (unique_violation "service_enrollment_bindings_namespace_service_account_service_a_key");;
  references (identities T) service_id "service_enrollment_bindings_service_id_fkey";;
  Ok (1%Z, with_enrollment_bindings
    (<[service_id := MkBindingRow namespace service_account uid false]> (enrollment_bindings T)) T).

Definition set_binding_enabled_sql (service_id : Uuid) (enabled : bool) (T : Tables) :
  Result PostgresError (Z * Tables) :=
  match enrollment_bindings T !! service_id with
  | Some b => Ok (1%Z, with_enrollment_bindings
      (<[service_id := MkBindingRow (seb_namespace b) (seb_service_account b)
           (seb_service_account_uid b) enabled]> (enrollment_bindings T)) T)
  | None => Ok (0%Z, T)
  end.

Definition insert_enrollment_challenge_sql (digest : bytes) (service_id : Uuid) (expires_at : Z)
  (T : Tables) : Result PostgresError (Z * Tables) :=
  require (octet_length digest =? 32)%Z
    (check_violation "service_enrollment_challenges_challenge_digest_check");;
  require (0 <=? expires_at)%Z (check_violation "service_enrollment_challenges_expires_at_check");;
  require (bool_decide (enrollment_challenges T !! digest = None))
    (unique_violation "service_enrollment_challenges_pkey");;
  references (identities T) service_id "service_enrollment_challenges_service_id_fkey";;
  Ok (1%Z, with_enrollment_challenges
    (<[digest := MkEnrollmentChallengeRow service_id expires_at None]> (enrollment_challenges T)) T).

Definition consume_enrollment_challenge_sql (digest : bytes) (service_id : Uuid) (now : Z)
  (T : Tables) : Result PostgresError (Z * Tables) :=
  match enrollment_challenges T !! digest with
  | Some row =>
      if bool_decide (sec_service_id row = service_id) && bool_decide (sec_consumed_at row = None)
         && (now <? sec_expires_at row)%Z
      then
        require (0 <=? now)%Z (check_violation "service_enrollment_challenges_consumed_at_check");;
        Ok (1%Z, with_enrollment_challenges
          (<[digest := MkEnrollmentChallengeRow (sec_service_id row) (sec_expires_at row) (Some now)]>
             (enrollment_challenges T)) T)
      else Ok (0%Z, T)
  | None => Ok (0%Z, T)
  end.

Definition enrollment_repository_error (message : string) : EnrollmentError :=
  EnrollmentError_Repository message.
Definition enrollment_query_error (e : PostgresError) : EnrollmentError :=
  enrollment_repository_error (postgres_error_text e).

Definition PostgresEnrollment_insert_disabled (binding : EnrollmentBinding) :
  Db Tables EnrollmentError unit :=
  connection enrollment_repository_error;;
  autocommit
    (fun error =>
       if is_unique_violation error
       then EnrollmentError_Repository "enrollment binding already exists"
       else if is_foreign_key_violation error
       then EnrollmentError_Repository "service identity was not found"
       else enrollment_query_error error)
    (insert_binding_sql (ActorId_as_uuid (binding_service_id binding)) (binding_namespace binding)
      (binding_service_account binding) (binding_service_account_uid binding));;
  mret tt.

Definition PostgresEnrollment_set_enabled (service_id : ActorId) (enabled : bool) :
  Db Tables EnrollmentError unit :=
  connection enrollment_repository_error;;
  rows ← autocommit enrollment_query_error
    (set_binding_enabled_sql (ActorId_as_uuid service_id) enabled);
  if negb (rows =? 1)%Z then throw EnrollmentError_BindingNotFound else mret tt.

Definition binding_from_row (row : Uuid * BindingRow) : Result EnrollmentError EnrollmentBinding :=
  service_id ← result_map_err
    (fun error => EnrollmentError_Repository
       ("invalid stored service ID: " +:+ IdentityError_to_string error))
    (ActorId_from_str (uuid_print row.1));
  result_map_err
    (fun _ => EnrollmentError_Repository "stored enrollment binding is invalid")
    (EnrollmentBinding_restore service_id (seb_namespace row.2) (seb_service_account row.2)
       (seb_service_account_uid row.2) (seb_enabled row.2)).

Definition PostgresEnrollment_find_workload (namespace service_account service_account_uid : string) :
  Db Tables EnrollmentError (option EnrollmentBinding) :=
  connection enrollment_repository_error;;
  row ← query enrollment_query_error
    (fun T => head (bindings_of_workload namespace service_account service_account_uid T));
  match row with
  | None => mret None
  | Some row => binding ← lift (binding_from_row row); mret (Some binding)
  end.

Definition PostgresEnrollment_insert_challenge (service_id : ActorId)
  (challenge : EnrollmentChallenge) (expires_at : Z) : Db Tables EnrollmentError unit :=
  let digest := sha256 (EnrollmentChallenge_as_bytes challenge) in
  connection enrollment_repository_error;;
  autocommit enrollment_query_error
    (insert_enrollment_challenge_sql digest (ActorId_as_uuid service_id) expires_at);;
  mret tt.

Definition PostgresEnrollment_consume_challenge (service_id : ActorId)
  (challenge : EnrollmentChallenge) (now : Z) : Db Tables EnrollmentError unit :=
  let digest := sha256 (EnrollmentChallenge_as_bytes challenge) in
  connection enrollment_repository_error;;
  rows ← autocommit enrollment_query_error
    (consume_enrollment_challenge_sql digest (ActorId_as_uuid service_id) now);
  if negb (rows =? 1)%Z then throw EnrollmentError_ChallengeRejected else mret tt.

Definition PostgresEnrollmentBindingRepository : EnrollmentBindingRepository Tables := {|
  bindings_insert_disabled := PostgresEnrollment_insert_disabled;
  bindings_set_enabled := PostgresEnrollment_set_enabled;
  bindings_find_workload := PostgresEnrollment_find_workload;
  bindings_insert_challenge := PostgresEnrollment_insert_challenge;
  bindings_consume_challenge := PostgresEnrollment_consume_challenge |}.
End enrollment.

(** ** Reading a token review *)

Record TokenReviewUser := MkTokenReviewUser {
  review_username : string;
  review_uid : string;
  review_extra : gmap string (list string);
}.

Record TokenReviewStatus := MkTokenReviewStatus {
  review_authenticated : bool;
  review_audiences : list string;
  review_user : option TokenReviewUser;
}.

Record TokenReviewResponse := MkTokenReviewResponse { review_status : option TokenReviewStatus }.

Definition single_extra (extra : gmap string (list string)) (key : string) :
  Result EnrollmentError string :=
  match extra !! key with
  | None => Err EnrollmentError_TokenRejected
  | Some [value] => Ok value
  | Some _ => Err EnrollmentError_TokenRejected
  end.

Definition parse_review (review : TokenReviewResponse) (audience : string) :
  Result EnrollmentError VerifiedWorkload :=
  status ← ok_or EnrollmentError_TokenRejected (review_status review);
  if negb (review_authenticated status) then Err EnrollmentError_TokenRejected
  else if negb (bool_decide (audience ∈ review_audiences status))
  then Err EnrollmentError_AudienceMismatch
  else
    user ← ok_or EnrollmentError_TokenRejected (review_user status);
    account ← ok_or EnrollmentError_TokenRejected
      (strip_prefix "system:serviceaccount:" (review_username user));
    '(namespace, service_account) ← ok_or EnrollmentError_TokenRejected (split_once ":" account);
    pod_name ← single_extra (review_extra user) "authentication.kubernetes.io/pod-name";
    pod_uid ← single_extra (review_extra user) "authentication.kubernetes.io/pod-uid";
    VerifiedWorkload_new namespace service_account (review_uid user) pod_name pod_uid
      (review_audiences status).

(** ** Histories *)

(** A stored challenge changes only by its first consumption. *)
Definition enrollment_challenge_succeeds (row row' : EnrollmentChallengeRow) : Prop :=
  row' = row \/
  (sec_consumed_at row = None /\ exists t,
     row' = MkEnrollmentChallengeRow (sec_service_id row) (sec_expires_at row) (Some t)).

Definition enrollment_history (T T' : Tables) : Prop :=
  forall d row, enrollment_challenges T !! d = Some row ->
    exists row', enrollment_challenges T' !! d = Some row' /\ enrollment_challenge_succeeds row row'.

#[export] Instance enrollment_history_preorder : PreOrder enrollment_history.
Proof.
  split.
  - intros T d row H. exists row. split; [done | by left].
  - intros T1 T2 T3 A B d row (row2 & (row3 & H3 & Hs3)%B & Hs2)%A. exists row3. split; [done|].
    destruct Hs2 as [-> | (Hn & t & ->)]; [done|].
    destruct Hs3 as [-> | (? & ?)]; [|done]. right. eauto.
Qed.

Lemma enrollment_history_same T T' :
  enrollment_challenges T' = enrollment_challenges T -> enrollment_history T T'.
Proof. intros H d row Hrow. rewrite H. exists row. split; [done | by left]. Qed.

Section theory.
Context {P : Platform}.

Definition is_enrollment_repository (e : EnrollmentError) : Prop :=
  match e with EnrollmentError_Repository _ => True | _ => False end.

Lemma insert_enrollment_challenge_history d s e T a T' :
  insert_enrollment_challenge_sql d s e T = Ok (a, T') -> enrollment_history T T'.
Proof.
  unfold insert_enrollment_challenge_sql. intros H. result_inv.
  repeat match goal with H : require (bool_decide _) _ = Ok _ |- _ =>
    apply require_Ok, bool_decide_eq_true in H end.
  intros d' row Hrow. exists row. simpl. rewrite lookup_insert_ne by congruence.
  split; [done | by left].
Qed.

Lemma consume_enrollment_challenge_Ok d s now T a T' :
  consume_enrollment_challenge_sql d s now T = Ok (a, T') ->
  (a = 0%Z /\ T' = T) \/
  (a = 1%Z /\ exists row, enrollment_challenges T !! d = Some row /\ sec_service_id row = s /\
     sec_consumed_at row = None /\ (0 <= now < sec_expires_at row)%Z /\
     T' = with_enrollment_challenges
       (<[d := MkEnrollmentChallengeRow s (sec_expires_at row) (Some now)]>
          (enrollment_challenges T)) T).
Proof.
  unfold consume_enrollment_challenge_sql. destruct (_ !! _) as [row|] eqn:Hrow; intros H;
    [|result_inv; auto].
  destruct (_ && _) eqn:Hc; result_inv; [right | auto]. split; [done|]. exists row.
  rewrite !andb_true_iff, !bool_decide_eq_true, Z.ltb_lt in Hc. destruct Hc as [[<- ?] ?].
  match goal with H : require _ _ = Ok _ |- _ => apply require_Ok, Z.leb_le in H end.
  done.
Qed.

Lemma consume_enrollment_challenge_history d s now T a T' :
  consume_enrollment_challenge_sql d s now T = Ok (a, T') -> enrollment_history T T'.
Proof.
  intros [[_ ->]|(_ & row & Hrow & <- & Hn & _ & ->)]%consume_enrollment_challenge_Ok; [done|].
  intros d' row' Hrow'. simpl. destruct (decide (d' = d)) as [->|Hne].
  - simplify_eq. eexists. rewrite lookup_insert_eq. split; [done | right; eauto].
  - exists row'. rewrite lookup_insert_ne by done. split; [done | by left].
Qed.

Lemma registry_insert_enrollment_history i :
  history enrollment_history (PostgresInstanceRegistry_insert i).
Proof.
  eapply atomic_history; [apply _ | apply registry_insert_atomic |].
  intros [T w fs ns] Hfs. simpl in *. subst fs. pose proof (registry_insert_run i T w ns) as H.
  destruct (PostgresInstanceRegistry_insert _ _) as [[u|e] c']; simpl in *; [|by rewrite H].
  destruct H as (T' & (_ & _ & _ & audit & ->) & ->). by apply enrollment_history_same.
Qed.

Lemma binding_histories :
  (forall b, history enrollment_history (PostgresEnrollment_insert_disabled b)) /\
  (forall s e, history enrollment_history (PostgresEnrollment_set_enabled s e)) /\
  (forall n a u, history enrollment_history (PostgresEnrollment_find_workload n a u)) /\
  (forall s ch e, history enrollment_history (PostgresEnrollment_insert_challenge s ch e)) /\
  (forall s ch now, history enrollment_history (PostgresEnrollment_consume_challenge s ch now)).
Proof.
  unfold PostgresEnrollment_insert_disabled, PostgresEnrollment_set_enabled,
    PostgresEnrollment_find_workload, PostgresEnrollment_insert_challenge,
    PostgresEnrollment_consume_challenge.
  split_and!; intros; db_walk;
    eauto using insert_enrollment_challenge_history, consume_enrollment_challenge_history.
  - match goal with H : insert_binding_sql _ _ _ _ _ = _ |- _ =>
      unfold insert_binding_sql in H; result_inv; by apply enrollment_history_same end.
  - match goal with H : set_binding_enabled_sql _ _ _ = _ |- _ =>
      unfold set_binding_enabled_sql in H; destruct (_ !! _); result_inv;
      by apply enrollment_history_same end.
Qed.

Lemma consume_challenge_atomic s ch now :
  atomic is_enrollment_repository (PostgresEnrollment_consume_challenge s ch now).
Proof. unfold PostgresEnrollment_consume_challenge. db_walk. Qed.

Lemma find_workload_quiet n a u :
  quiet is_enrollment_repository (PostgresEnrollment_find_workload n a u).
Proof. unfold PostgresEnrollment_find_workload. db_walk. Qed.

Lemma generate_Ok {S E} (c : Conn S) ch c' :
  EnrollmentChallenge_generate (E:=E) c = (Ok ch, c') -> sees c' (durable c) (working c).
Proof. unfold EnrollmentChallenge_generate. intros H. db_inv. by split. Qed.

Lemma insert_enrollment_challenge_Ok d s e T a T' :
  insert_enrollment_challenge_sql d s e T = Ok (a, T') ->
  enrollment_challenges T !! d = None /\
  T' = with_enrollment_challenges
    (<[d := MkEnrollmentChallengeRow s e None]> (enrollment_challenges T)) T.
Proof.
  unfold insert_enrollment_challenge_sql. intros H. result_inv.
  repeat match goal with H : require (bool_decide _) _ = Ok _ |- _ =>
    apply require_Ok, bool_decide_eq_true in H end.
  done.
Qed.

Lemma enrollment_insert_Ok s ch e c u c' :
  PostgresEnrollment_insert_challenge s ch e c = (Ok u, c') ->
  enrollment_challenges (durable c) !! sha256 (EnrollmentChallenge_as_bytes ch) = None /\
  durable c' = with_enrollment_challenges
    (<[sha256 (EnrollmentChallenge_as_bytes ch) :=
         MkEnrollmentChallengeRow (ActorId_as_uuid s) e None]>
       (enrollment_challenges (durable c))) (durable c).
Proof.
  unfold PostgresEnrollment_insert_challenge. intros H. db_inv.
  by match goal with H : insert_enrollment_challenge_sql _ _ _ _ = Ok _ |- _ =>
    apply insert_enrollment_challenge_Ok in H end.
Qed.

(** A consumption that succeeds *)
Lemma consume_challenge_Ok s ch now c u c' :
  PostgresEnrollment_consume_challenge s ch now c = (Ok u, c') ->
  exists row, enrollment_challenges (durable c) !! sha256 (EnrollmentChallenge_as_bytes ch) = Some row /\
    sec_service_id row = ActorId_as_uuid s /\ sec_consumed_at row = None /\
    (0 <= now < sec_expires_at row)%Z /\
    durable c' = with_enrollment_challenges
      (<[sha256 (EnrollmentChallenge_as_bytes ch) :=
           MkEnrollmentChallengeRow (ActorId_as_uuid s) (sec_expires_at row) (Some now)]>
         (enrollment_challenges (durable c))) (durable c).
Proof.
  unfold PostgresEnrollment_consume_challenge. intros H. db_inv.
  match goal with H : consume_enrollment_challenge_sql _ _ _ _ = Ok _ |- _ =>
    apply consume_enrollment_challenge_Ok in H as [[-> _]|(_ & row & Hrow)] end; [done|].
  by exists row.
Qed.

Context {HP : PlatformLaws P}.

(** A lookup that finds a binding *)
Lemma find_workload_Some n a u c b c' :
  PostgresEnrollment_find_workload n a u c = (Ok (Some b), c') ->
  durable c' = durable c /\ exists row,
    enrollment_bindings (durable c) !! ActorId_as_uuid (binding_service_id b) = Some row /\
    seb_namespace row = n /\ seb_service_account row = a /\ seb_service_account_uid row = u /\
    seb_enabled row = binding_enabled b.
Proof.
  unfold PostgresEnrollment_find_workload. intros H. db_inv.
  match goal with H : _ = head ?l |- _ =>
    destruct (head l) as [[sid row]|] eqn:Hh; subst; db_inv; [|done] end.
  simplify_eq. split; [congruence|]. exists row.
  unfold bindings_of_workload in Hh. destruct (select _ _) as [|kv l] eqn:Hl; [done|].
  injection Hh as ->. assert ((sid, row) ∈ (sid, row) :: l) as Hin by left.
  rewrite <-Hl in Hin. apply select_In in Hin as [Hrow Hf].
  rewrite !andb_true_iff, !String.eqb_eq in Hf. destruct Hf as [[? ?] ?].
  match goal with H : binding_from_row _ = Ok _ |- _ =>
    unfold binding_from_row, EnrollmentBinding_restore, ActorId_from_str in H; simpl in H;
    rewrite uuid_parse_print in H; result_inv end.
  simplify_eq/=. done.
Qed.

(** Reads the parts of a concrete service. *)
Ltac enrollment_projections :=
  cbn [enrollment_reviewer enrollment_bindings_repository enrollment_registry
       enrollment_lease_policy bindings_find_workload bindings_insert_challenge
       bindings_consume_challenge PostgresEnrollmentBindingRepository].

(** What a registration rests on: the proof, the reviewed workload and its enabled
    binding, the consumed challenge, and the stored registration *)
Definition authorized_enrollment (reviewer : WorkloadTokenReviewer Tables) (policy : LeasePolicy)
  (request : EnrollmentRequest) (now : Z) (c : Conn Tables) (i : RegisteredInstance)
  (c' : Conn Tables) : Prop :=
  let key := enrollment_public_key request in
  let service := ActorId_as_uuid (public_service_id key) in
  let digest := sha256 (EnrollmentChallenge_as_bytes (enrollment_challenge request)) in
  InstancePublicKey_verify key
    (proof_message (enrollment_challenge request) key (enrollment_endpoint request)
       (enrollment_claimed_pod_uid request) (enrollment_workload_token request))
    (enrollment_signature request) = Ok tt /\
  (exists workload c1 binding challenge,
    reviewer_review reviewer (enrollment_workload_token request) ENROLLMENT_AUDIENCE c =
      (Ok workload, c1) /\
    ENROLLMENT_AUDIENCE ∈ workload_audiences workload /\
    workload_pod_uid workload = enrollment_claimed_pod_uid request /\
    enrollment_bindings (durable c1) !! service = Some binding /\ seb_enabled binding = true /\
    seb_namespace binding = workload_namespace workload /\
    seb_service_account binding = workload_service_account workload /\
    seb_service_account_uid binding = workload_service_account_uid workload /\
    enrollment_challenges (durable c1) !! digest = Some challenge /\
    sec_service_id challenge = service /\ sec_consumed_at challenge = None /\
    (0 <= now < sec_expires_at challenge)%Z /\
    enrollment_challenges (durable c') !! digest =
      Some (MkEnrollmentChallengeRow service (sec_expires_at challenge) (Some now)) /\
    service_instances (durable c1) !! InstanceId_as_uuid (public_instance_id key) = None) /\
  instance_public_key i = key /\ instance_registered_at i = now /\
  instance_lease_expires_at i = (now + lease_duration_seconds policy)%Z /\
  service_instances (durable c') !! InstanceId_as_uuid (public_instance_id key) =
    Some (MkInstanceRow service (instance_endpoint i) now (now + lease_duration_seconds policy) 1 None) /\
  service_instance_keys (durable c') !! KeyId_as_uuid (public_key_id key) =
    Some (MkInstanceKeyRow (InstanceId_as_uuid (public_instance_id key)) ALGORITHM
            (public_key_bytes key) (InstancePublicKey_fingerprint key) now None).

Lemma registered_is_authorized reviewer policy request now c i c' :
  EnrollmentService_authenticate_and_register
    (MkEnrollmentService Tables reviewer PostgresEnrollmentBindingRepository
       PostgresInstanceRegistry policy) request now c = (Ok i, c') ->
  authorized_enrollment reviewer policy request now c i c'.
Proof.
  unfold authorized_enrollment, EnrollmentService_authenticate_and_register. enrollment_projections. intros H. db_inv. subst.
  match goal with H : PostgresEnrollment_find_workload _ _ _ _ = _ |- _ =>
    apply find_workload_Some in H as (Hd & row & ? & ? & ? & ? & ?) end.
  match goal with H : PostgresEnrollment_consume_challenge _ _ _ _ = (Ok _, _) |- _ =>
    apply consume_challenge_Ok in H as (ch & ? & ? & ? & ? & Hd') end.
  match goal with H : InstanceRegistryService_register_verified _ _ _ _ _ _ = _ |- _ =>
    apply register_verified_Ok in H as (? & (Hi & Hk & Hs & audit & Ht) & e & He & ->) end.
  bool_facts. repeat match goal with
  | H : bool_decide _ = true |- _ => apply bool_decide_eq_true in H
  | H : String.eqb _ _ = true |- _ => apply String.eqb_eq in H
  | u : unit |- _ => destruct u
  end.
  match goal with H : binding_service_id ?b = _ |- _ => rewrite H in * end.
  rewrite Hd, Hd' in *. simpl in *.
  split; [done|]. split; [|rewrite Ht; simpl; rewrite !lookup_insert_eq; by split_and!].
  do 4 eexists. split; [done|]. rewrite Ht. simpl. rewrite lookup_insert_eq.
  split_and!; try done; try lia; congruence.
Qed.

(** C22: An instance is registered only for a workload entitled to it: the key
    signed this very enrollment, the reviewer vouched for the token, its audience
    and the pod, the workload has an enabled binding to the service of the key, an
    unconsumed, unexpired challenge of that service was consumed, and the new
    registration is exactly the key's, with a lease of the policy's length. *)
Theorem enrollment_is_authorized reviewer policy request now c i c' :
  EnrollmentService_authenticate_and_register
    (MkEnrollmentService Tables reviewer PostgresEnrollmentBindingRepository
       PostgresInstanceRegistry policy) request now c = (Ok i, c') ->
  authorized_enrollment reviewer policy request now c i c'.
Proof. apply registered_is_authorized. Qed.

(** C29: A challenge enrolls once: after it has registered an instance, every
    enrollment with the same challenge is refused and changes nothing, whoever
    asks, whatever happened in between and under any faults. *)
Theorem enrollment_challenge_used_once reviewer policy request now c i c'
  reviewer' policy' request' now' T fs ns :
  EnrollmentService_authenticate_and_register
    (MkEnrollmentService Tables reviewer PostgresEnrollmentBindingRepository
       PostgresInstanceRegistry policy) request now c = (Ok i, c') ->
  enrollment_challenge request' = enrollment_challenge request ->
  enrollment_history (durable c') T ->
  (forall token audience, history eq (reviewer_review reviewer' token audience)) ->
  refused (EnrollmentService_authenticate_and_register
    (MkEnrollmentService Tables reviewer' PostgresEnrollmentBindingRepository
       PostgresInstanceRegistry policy') request' now') (start T fs ns).
Proof.
  unfold EnrollmentService_authenticate_and_register. enrollment_projections. intros H Hch Hh Hrev.
  db_inv. subst. match goal with H : PostgresEnrollment_consume_challenge _ _ _ _ = (Ok _, _) |- _ =>
    apply consume_challenge_Ok in H as (row & _ & _ & _ & _ & Hd) end.
  match goal with H : InstanceRegistryService_register_verified _ _ _ _ _ _ = _ |- _ =>
    apply register_verified_Ok in H as (_ & (_ & _ & _ & audit & Ht) & _) end.
  rewrite Hd in Ht. rewrite Ht in Hh. simpl in Hh.
  destruct (Hh _ _ ltac:(apply lookup_insert_eq)) as (row' & Hrow' & Hs).
  assert (sec_consumed_at row' <> None) as Hcons by (destruct Hs as [-> | (? & ? & ->)]; done).
  apply refused_after; [apply pure_history_eq, pure_lift|]. intros _ c1 Hc1.
  apply refused_after; [apply Hrev|]. intros w c2 Hc2.
  do 2 refuse_guard.
  apply refused_after; [eapply quiet_history_eq, find_workload_quiet|]. intros b c3 Hc3.
  apply refused_after; [apply pure_history_eq, pure_lift|]. intros b' c4 Hc4.
  do 2 refuse_guard.
  apply refused_bind. eapply atomic_refused; [apply consume_challenge_atomic|].
  destruct c4 as [d w4 fs4 ns4]. simpl in *. rewrite Hc4, Hc3, Hc2, Hc1. unfold calm, start. simpl.
  unfold refused. destruct (PostgresEnrollment_consume_challenge _ _ _ _) as [[[]|e] c5] eqn:Hc.
  - apply consume_challenge_Ok in Hc as (r & Hr & _ & Hn & _). simpl in Hr. rewrite Hch in Hr. congruence.
  - split; [done|]. revert Hc. unfold PostgresEnrollment_consume_challenge. db_run.
    match goal with |- context [autocommit ?h ?f (MkConn ?d ?w [] ?ns)] =>
      destruct (autocommit_cases d w ns h f) as [(a & T' & Hf & ->)|(? & Hf & ->)] end;
      [|by intros [= _ <-]].
    apply consume_enrollment_challenge_Ok in Hf as [[-> ->]|(-> & r & Hr & _ & Hn & _)].
    + db_run. cbn [negb Z.eqb]. db_run. by intros [= _ <-].
    + rewrite Hch in Hr. congruence.
Qed.

(** A workload is challenged only as the service it is bound to: the issued
    challenge belongs to the service of the workload's enabled binding, never to
    one the caller names, is stored unconsumed and expires after its lifetime. *)
Theorem challenge_only_for_bound_workload reviewer policy registry token pod now c s ch c' :
  EnrollmentService_issue_challenge_for_workload
    (MkEnrollmentService Tables reviewer PostgresEnrollmentBindingRepository registry policy)
    token pod now c = (Ok (s, ch), c') ->
  exists workload c1 binding,
    reviewer_review reviewer token ENROLLMENT_AUDIENCE c = (Ok workload, c1) /\
    ENROLLMENT_AUDIENCE ∈ workload_audiences workload /\ workload_pod_uid workload = trim pod /\
    enrollment_bindings (durable c1) !! ActorId_as_uuid s = Some binding /\
    seb_enabled binding = true /\ seb_namespace binding = workload_namespace workload /\
    seb_service_account binding = workload_service_account workload /\
    seb_service_account_uid binding = workload_service_account_uid workload /\
    enrollment_challenges (durable c1) !! sha256 (EnrollmentChallenge_as_bytes ch) = None /\
    durable c' = with_enrollment_challenges
      (<[sha256 (EnrollmentChallenge_as_bytes ch) :=
           MkEnrollmentChallengeRow (ActorId_as_uuid s)
             (now + ENROLLMENT_CHALLENGE_LIFETIME_SECONDS) None]>
         (enrollment_challenges (durable c1))) (durable c1).
Proof.
  unfold EnrollmentService_issue_challenge_for_workload, EnrollmentService_issue_challenge.
  enrollment_projections. intros H. db_inv. subst. simplify_eq.
  match goal with H : PostgresEnrollment_find_workload _ _ _ _ = _ |- _ =>
    apply find_workload_Some in H as (Hd' & row & ? & ? & ? & ? & ?) end.
  match goal with H : checked_add _ _ = Some _ |- _ => apply checked_add_Some in H as [-> _] end.
  match goal with H : validate_field _ _ = Ok _ |- _ =>
    unfold validate_field in H; result_inv end.
  match goal with H : EnrollmentChallenge_generate _ = _ |- _ => apply generate_Ok in H as [Hg _] end.
  match goal with H : PostgresEnrollment_insert_challenge _ _ _ _ = _ |- _ =>
    apply enrollment_insert_Ok in H as [Hn Hi] end.
  rewrite Hg, Hd' in Hn, Hi.
  repeat match goal with
  | H : negb _ = false |- _ => apply negb_false_iff in H
  | H : String.eqb _ _ = true |- _ => apply String.eqb_eq in H
  | H : bool_decide _ = true |- _ => apply bool_decide_eq_true in H
  end.
  do 3 eexists. split; [done|]. split_and!; try done; congruence.
Qed.

(** A reviewer that knows one workload *)
Definition constant_reviewer (workload : VerifiedWorkload) : WorkloadTokenReviewer Tables := {|
  reviewer_review _ _ := mret workload |}.

(** The workload is bound to a service: the only row of its names, enabled *)
Definition bound_workload (T : Tables) (workload : VerifiedWorkload) (service : Uuid) : Prop :=
  let row := MkBindingRow (workload_namespace workload) (workload_service_account workload)
               (workload_service_account_uid workload) true in
  bindings_of_workload (workload_namespace workload) (workload_service_account workload)
    (workload_service_account_uid workload) T = [(service, row)] /\
  is_ok (EnrollmentBinding_restore (MkActorId service) (workload_namespace workload)
           (workload_service_account workload) (workload_service_account_uid workload) true) = true.

Lemma find_workload_run T w ns workload service :
  bound_workload T workload service ->
  exists b, binding_service_id b = MkActorId service /\ binding_enabled b = true /\
    PostgresEnrollment_find_workload (workload_namespace workload)
      (workload_service_account workload) (workload_service_account_uid workload)
      (MkConn T w [] ns) = (Ok (Some b), MkConn T T [] ns).
Proof.
  intros [Hrow Hok]. unfold PostgresEnrollment_find_workload. 
  destruct (EnrollmentBinding_restore _ _ _ _ _) as [b|] eqn:Hb; [|done].
  exists b. pose proof Hb as Hb'. unfold EnrollmentBinding_restore in Hb'. result_inv. simpl.
  split; [done|]. split; [done|]. db_run. rewrite Hrow. simpl. unfold binding_from_row, ActorId_from_str.
  simpl. rewrite uuid_parse_print. simpl. by rewrite Hb.
Qed.

Lemma enrollment_insert_run s ch e T w ns :
  (0 <= e)%Z -> is_Some (identities T !! ActorId_as_uuid s) ->
  enrollment_challenges T !! sha256 (EnrollmentChallenge_as_bytes ch) = None ->
  let T' := with_enrollment_challenges
    (<[sha256 (EnrollmentChallenge_as_bytes ch) :=
         MkEnrollmentChallengeRow (ActorId_as_uuid s) e None]> (enrollment_challenges T)) T in
  PostgresEnrollment_insert_challenge s ch e (MkConn T w [] ns) = (Ok tt, MkConn T' T' [] ns).
Proof.
  intros He Hs Hn. cbv zeta. unfold PostgresEnrollment_insert_challenge. db_run.
  erewrite autocommit_run; [done|].
  unfold insert_enrollment_challenge_sql, references, require.
  rewrite octet_length_32 by apply sha256_length.
  by rewrite (proj2 (Z.leb_le 0 e)), !bool_decide_true by done.
Qed.

Lemma consume_challenge_run s ch now row T w ns :
  enrollment_challenges T !! sha256 (EnrollmentChallenge_as_bytes ch) = Some row ->
  sec_service_id row = ActorId_as_uuid s -> sec_consumed_at row = None ->
  (0 <= now < sec_expires_at row)%Z ->
  let T' := with_enrollment_challenges
    (<[sha256 (EnrollmentChallenge_as_bytes ch) :=
         MkEnrollmentChallengeRow (sec_service_id row) (sec_expires_at row) (Some now)]>
       (enrollment_challenges T)) T in
  PostgresEnrollment_consume_challenge s ch now (MkConn T w [] ns) = (Ok tt, MkConn T' T' [] ns).
Proof.
  intros Hrow Hs Hn Hw. cbv zeta. unfold PostgresEnrollment_consume_challenge. db_run.
  erewrite autocommit_run; cycle 1.
  { unfold consume_enrollment_challenge_sql, require. rewrite Hrow, !bool_decide_true by done.
    rewrite (proj2 (Z.ltb_lt now _)), (proj2 (Z.leb_le 0 now)) by lia. reflexivity. }
  done.
Qed.

(** The instance is new: its ids and key are not registered yet. *)
Definition new_instance (T : Tables) (key : InstancePublicKey) : Prop :=
  let id := InstanceId_as_uuid (public_instance_id key) in
  service_instances T !! id = None /\
  service_instance_keys T !! KeyId_as_uuid (public_key_id key) = None /\
  key_of_instance id T = None /\
  select (fun _ row => bool_decide (sik_fingerprint row = InstancePublicKey_fingerprint key))
    (service_instance_keys T) = [].

Lemma enrollment_sign_plain cred ch endpoint pod token :
  plain_endpoint endpoint -> all_bytes is_graphic pod = true ->
  (0 < len pod <= MAX_UID_LENGTH)%Z -> (0 < len token <= MAX_TOKEN_LENGTH)%Z ->
  contains (String NUL EmptyString) endpoint = false ->
  contains (String NUL EmptyString) pod = false ->
  let key := credential_public_key cred in
  EnrollmentRequest_sign cred ch endpoint pod token =
    Ok (MkEnrollmentRequest ch key endpoint pod token
          (InstanceCredential_sign cred (proof_message ch key endpoint pod token))).
Proof.
  intros (Hg & Hs & Hl) Hp Hpl Htl Hc Hc'.
  unfold EnrollmentRequest_sign, validate_enrollment_endpoint, validate_field.
  rewrite !trim_graphic, Hc, Hc' by done.
  assert (is_empty endpoint = false) as -> by (destruct endpoint; [done | done]).
  assert (is_empty pod = false) as -> by (destruct pod; [unfold len in Hpl; simpl in Hpl; lia | done]).
  assert (is_empty token = false) as -> by (destruct token; [unfold len in Htl; simpl in Htl; lia | done]).
  unfold MAX_ENDPOINT_LENGTH in Hl.
  rewrite (proj2 (Z.ltb_ge 2048 _)), (proj2 (Z.ltb_ge MAX_UID_LENGTH _)),
    (proj2 (Z.ltb_ge MAX_TOKEN_LENGTH _)) by lia.
  cbn [orb]. rewrite result_bind_run.
  destruct (String.eqb_spec endpoint "https://") as [->|Hne]; [unfold len in Hl; simpl in Hl; lia|].
  by rewrite Hs.
Qed.

Lemma validate_graphic_field pod maximum :
  all_bytes is_graphic pod = true -> contains (String NUL EmptyString) pod = false ->
  (0 < len pod <= maximum)%Z -> validate_field pod maximum = Ok pod.
Proof.
  intros Hg Hgc Hgl. unfold validate_field. rewrite trim_graphic, Hgc by done.
  rewrite (proj2 (Z.ltb_ge maximum _)) by lia. destruct pod eqn:Hp; [|done].
  unfold len in Hgl. simpl in Hgl. lia.
Qed.

(** A bound workload gets a challenge. *)
Lemma challenge_for_workload_run reviewer workload policy (s : ActorId) token now T ns :
  let E := MkEnrollmentService Tables reviewer
             PostgresEnrollmentBindingRepository PostgresInstanceRegistry policy in
  let ch := MkEnrollmentChallenge (be_bytes CHALLENGE_LENGTH (hd 0%N ns)) in
  let T1 := with_enrollment_challenges
    (<[sha256 (EnrollmentChallenge_as_bytes ch) :=
         MkEnrollmentChallengeRow (ActorId_as_uuid s) (now + ENROLLMENT_CHALLENGE_LIFETIME_SECONDS)
           None]> (enrollment_challenges T)) T in
  (forall c, reviewer_review reviewer token ENROLLMENT_AUDIENCE c = (Ok workload, c)) ->
  validate_field (workload_pod_uid workload) MAX_UID_LENGTH = Ok (workload_pod_uid workload) ->
  ENROLLMENT_AUDIENCE ∈ workload_audiences workload ->
  bound_workload T workload (ActorId_as_uuid s) -> is_Some (identities T !! ActorId_as_uuid s) ->
  enrollment_challenges T !! sha256 (EnrollmentChallenge_as_bytes ch) = None ->
  (0 <= now)%Z -> in_i64 (now + ENROLLMENT_CHALLENGE_LIFETIME_SECONDS) ->
  EnrollmentService_issue_challenge_for_workload E token (workload_pod_uid workload) now
    (start T [] ns) = (Ok (s, ch), MkConn T1 T1 [] (tl ns)).
Proof.
  intros E ch T1 Hreview Hpod Haud Hb Hid Hch Hnow Hin.
  assert (EnrollmentChallenge_generate (E:=EnrollmentError) (MkConn T T [] ns) =
    (Ok ch, MkConn T T [] (tl ns))) as Hgen
    by (unfold EnrollmentChallenge_generate, random, mbind, db_bind; by destruct ns).
  destruct (find_workload_run T T ns workload _ Hb) as (b & Hbs & Hbe & Hfind).
  unfold EnrollmentService_issue_challenge_for_workload, EnrollmentService_issue_challenge, start, E.
  enrollment_projections. db_run. rewrite Hpod. db_run. rewrite Hreview.
  rewrite bool_decide_true by done. rewrite String.eqb_refl. cbn [negb].
  rewrite bind_run, Hfind. cbn [ok_or]. db_run. rewrite Hbe. cbn [negb].
  rewrite (proj2 (Z.ltb_ge now 0)) by lia. rewrite bind_run, bind_run.
  rewrite (proj2 (checked_add_Some _ _ _) (conj eq_refl Hin)). cbn [ok_or]. db_run.
  rewrite Hgen. db_run. rewrite Hbs.
  replace (MkActorId (ActorId_as_uuid s)) with s by (by destruct s).
  by rewrite (enrollment_insert_run s ch) by (done || unfold ENROLLMENT_CHALLENGE_LIFETIME_SECONDS; lia).
Qed.

(** A signed request with an open challenge registers its instance. *)
Lemma authenticate_run workload policy cred ch endpoint token now row T ns :
  let E := MkEnrollmentService Tables (constant_reviewer workload)
             PostgresEnrollmentBindingRepository PostgresInstanceRegistry policy in
  let key := credential_public_key cred in
  let service := ActorId_as_uuid (public_service_id key) in
  let pod := workload_pod_uid workload in
  let signature := InstanceCredential_sign cred (proof_message ch key endpoint pod token) in
  ENROLLMENT_AUDIENCE ∈ workload_audiences workload -> bound_workload T workload service ->
  credential_wf cred -> String.length (public_key_bytes key) = 32%nat -> new_instance T key ->
  is_Some (identities T !! service) ->
  enrollment_challenges T !! sha256 (EnrollmentChallenge_as_bytes ch) = Some row ->
  sec_service_id row = service -> sec_consumed_at row = None -> (0 <= now < sec_expires_at row)%Z ->
  plain_endpoint endpoint -> (0 < lease_duration_seconds policy)%Z ->
  in_i64 (now + lease_duration_seconds policy) ->
  exists T2,
    EnrollmentService_authenticate_and_register E
      (MkEnrollmentRequest ch key endpoint pod token signature) now (start T [] ns) =
    (Ok (MkRegisteredInstance key endpoint now (now + lease_duration_seconds policy) 1 None),
     MkConn T2 T2 [] ns).
Proof.
  intros E key service pod signature Haud Hb Hwf Hkl (Hn1 & Hn2 & Hn3 & Hn4) Hid Hrow Hs Hc Hnow
    He Hpol Hin.
  destruct (find_workload_run T T ns workload service Hb) as (b & Hbs & Hbe & Hfind).
  pose proof (consume_challenge_run (public_service_id key) ch now row T T ns Hrow Hs Hc Hnow) as Hcons.
  cbv zeta in Hcons. set (T1 := with_enrollment_challenges _ T) in Hcons.
  destruct (register_verified_succeeds policy key endpoint now T1 ns) as (T2 & _ & Hreg);
    try done; [lia|].
  exists T2. unfold EnrollmentService_authenticate_and_register, start, E. enrollment_projections.
  cbn [enrollment_public_key enrollment_challenge enrollment_endpoint enrollment_claimed_pod_uid
       enrollment_workload_token enrollment_signature]. db_run. unfold signature.
  change (InstancePublicKey_verify key)
    with (InstancePublicKey_verify (credential_public_key cred)).
  rewrite credential_sign_verify by done. cbn [result_map_err constant_reviewer reviewer_review].
  db_run. rewrite bool_decide_true by done. fold pod. rewrite String.eqb_refl. cbn [negb].
  rewrite bind_run, Hfind. cbn [ok_or]. db_run. rewrite Hbe, Hbs. cbn [negb].
  rewrite bool_decide_true by (unfold service; by destruct (public_service_id key)). cbn [negb].
  rewrite bind_run, Hcons. unfold map_err. by rewrite Hreg.
Qed.

(** C40: Enrollment works: a workload with an enabled binding is given a challenge
    for its service, and an instance that signs it in time with a new key is
    registered with a lease of the policy's length. *)
Theorem enrollment_works workload policy cred endpoint token now later T ns :
  let E := MkEnrollmentService Tables (constant_reviewer workload)
             PostgresEnrollmentBindingRepository PostgresInstanceRegistry policy in
  let key := credential_public_key cred in
  let service := ActorId_as_uuid (public_service_id key) in
  let pod := workload_pod_uid workload in
  let ch := MkEnrollmentChallenge (be_bytes CHALLENGE_LENGTH (hd 0%N ns)) in
  ENROLLMENT_AUDIENCE ∈ workload_audiences workload -> bound_workload T workload service ->
  credential_wf cred -> String.length (public_key_bytes key) = 32%nat -> new_instance T key ->
  is_Some (identities T !! service) ->
  enrollment_challenges T !! sha256 (EnrollmentChallenge_as_bytes ch) = None ->
  plain_endpoint endpoint -> contains (String NUL EmptyString) endpoint = false ->
  all_bytes is_graphic pod = true -> (0 < len pod <= MAX_UID_LENGTH)%Z ->
  contains (String NUL EmptyString) pod = false -> (0 < len token <= MAX_TOKEN_LENGTH)%Z ->
  (0 <= now <= later)%Z -> (later < now + ENROLLMENT_CHALLENGE_LIFETIME_SECONDS)%Z ->
  in_i64 (now + ENROLLMENT_CHALLENGE_LIFETIME_SECONDS) ->
  (0 < lease_duration_seconds policy)%Z -> in_i64 (later + lease_duration_seconds policy) ->
  exists T1 T2 request,
    EnrollmentService_issue_challenge_for_workload E token pod now (start T [] ns) =
      (Ok (public_service_id key, ch), MkConn T1 T1 [] (tl ns)) /\
    EnrollmentRequest_sign cred ch endpoint pod token = Ok request /\
    EnrollmentService_authenticate_and_register E request later (start T1 [] (tl ns)) =
      (Ok (MkRegisteredInstance key endpoint later (later + lease_duration_seconds policy) 1 None),
       MkConn T2 T2 [] (tl ns)).
Proof.
  intros E key service pod ch Haud Hb Hwf Hkl Hnew Hid Hch He Hec Hg Hgl Hgc Htl
    Hnow Hlater Hin Hpol Hin'.
  pose proof (challenge_for_workload_run (constant_reviewer workload) workload policy
    (public_service_id key) token now T ns (fun _ => eq_refl) (validate_graphic_field _ _ Hg Hgc Hgl) Haud Hb Hid Hch ltac:(lia) Hin) as Hissue.
  cbv zeta in Hissue. set (T1 := with_enrollment_challenges _ T) in Hissue.
  destruct (authenticate_run workload policy cred ch endpoint token later
    (MkEnrollmentChallengeRow service (now + ENROLLMENT_CHALLENGE_LIFETIME_SECONDS) None) T1 (tl ns))
    as (T2 & Hreg); try done; [apply lookup_insert_eq | simpl; lia |].
  exists T1, T2. eexists. split; [exact Hissue|]. split; [by apply enrollment_sign_plain | exact Hreg].
Qed.
End theory.
