(* ===== verification/TokenReviewer.v ===== *)
(** * TokenReviewer: the Kubernetes TokenReview client

    [src/infrastructure/kubernetes_token_reviewer.rs]: where the reviewer's credential
    comes from, the request it sends and what it makes of the answer. The reading of
    the answer, [parse_review], is in [Enrollment]. *)

From S2P Require Import Prelude Text Platform Process Database Schema Identity InstanceKeys.
From S2P Require Import InstanceRegistry Enrollment.
From Stdlib Require Import Ascii.

Definition API_URL_ENV : string := "KUBERNETES_API_URL".
Definition REVIEWER_TOKEN_PATH_ENV : string := "KUBERNETES_REVIEWER_TOKEN_PATH".
Definition CA_PATH_ENV : string := "KUBERNETES_CA_PATH".
Definition DEFAULT_API_URL : string := "https://kubernetes.default.svc".
Definition DEFAULT_TOKEN_PATH : string := "/var/run/secrets/infernal-law-kubernetes/token".
Definition DEFAULT_CA_PATH : string := "/var/run/secrets/infernal-law-kubernetes/ca.crt".

Record TokenReviewSpec := MkTokenReviewSpec {
  review_spec_token : string;
  review_spec_audiences : list string;
}.

Record TokenReviewRequest := MkTokenReviewRequest {
  review_api_version : string;
  review_kind : string;
  review_spec : TokenReviewSpec;
}.

Definition configuration_error (label error : string) : EnrollmentError :=
  EnrollmentError_Repository ("Kubernetes " +:+ label +:+ " configuration failed: " +:+ error).

Section reviewer.
(** A POST request with a bearer token and a JSON body, of a client built with the
    cluster's CA; the answer's body is decoded as a TokenReview. *)
Context {Client : Type}
  (post_json : Client -> string -> string -> TokenReviewRequest ->
               Result string (ApiResponse TokenReviewResponse)).

Record KubernetesTokenReviewer := MkKubernetesTokenReviewer {
  reviewer_client : Client;
  reviewer_endpoint : string;
  reviewer_token : string;
}.

Definition KubernetesTokenReviewer_new (env : Process Client) (api_url token_path ca_path : string) :
  Result EnrollmentError KubernetesTokenReviewer :=
  reviewer_token ← result_map_err (configuration_error "reviewer token")
    (process_read_to_string env token_path);
  let reviewer_token := trim reviewer_token in
  if is_empty reviewer_token then Err (configuration_error "reviewer token" "file is empty")
  else
    ca ← result_map_err (configuration_error "cluster CA") (process_read env ca_path);
    certificate ← result_map_err (configuration_error "cluster CA")
      (process_certificate_from_pem env ca);
    client ← result_map_err (configuration_error "HTTP client") (process_build_client env certificate);
    Ok (MkKubernetesTokenReviewer client
          (trim_end_slashes api_url +:+ "/apis/authentication.k8s.io/v1/tokenreviews") reviewer_token).

Definition KubernetesTokenReviewer_from_env (env : Process Client) :
  Result EnrollmentError KubernetesTokenReviewer :=
  let api_url := var_or env API_URL_ENV DEFAULT_API_URL in
  let token_path := var_or env REVIEWER_TOKEN_PATH_ENV DEFAULT_TOKEN_PATH in
  let ca_path := var_or env CA_PATH_ENV DEFAULT_CA_PATH in
  KubernetesTokenReviewer_new env api_url token_path ca_path.

Definition review_request (token audience : string) : TokenReviewRequest :=
  MkTokenReviewRequest "authentication.k8s.io/v1" "TokenReview" (MkTokenReviewSpec token [audience]).

Definition KubernetesTokenReviewer_review (R : KubernetesTokenReviewer) (token audience : string) :
  Result EnrollmentError VerifiedWorkload :=
  response ← result_map_err (fun _ => EnrollmentError_TokenRejected)
    (post_json (reviewer_client R) (reviewer_endpoint R) (reviewer_token R)
       (review_request token audience));
  if negb (is_success (response_status response)) then Err EnrollmentError_TokenRejected
  else
    review ← result_map_err (fun _ => EnrollmentError_TokenRejected) (response_json response);
    parse_review review audience.

(** impl WorkloadTokenReviewer for KubernetesTokenReviewer *)
Definition kubernetes_reviewer {S} (R : KubernetesTokenReviewer) : WorkloadTokenReviewer S :=
  MkWorkloadTokenReviewer S (fun token audience => lift (KubernetesTokenReviewer_review R token audience)).

(** ** What an accepted token rests on *)

(** The API confirmed the token for the audience as the service account token of
    one pod of the workload. *)
Record confirmed (R : KubernetesTokenReviewer) (token audience : string) (w : VerifiedWorkload)
  (namespace account uid pod : string) : Prop := {
  confirmed_answer : exists response status user,
    post_json (reviewer_client R) (reviewer_endpoint R) (reviewer_token R)
      (review_request token audience) = Ok response /\
    (200 <= response_status response < 300)%Z /\
    response_json response = Ok (MkTokenReviewResponse (Some status)) /\
    review_authenticated status = true /\ audience ∈ review_audiences status /\
    review_user status = Some user /\
    review_username user = "system:serviceaccount:" +:+ namespace +:+ ":" +:+ account /\
    review_uid user = uid /\
    free_of ":" namespace /\ review_extra user !! "authentication.kubernetes.io/pod-uid" = Some [pod];
  confirmed_workload : workload_namespace w = trim namespace /\
    workload_service_account w = trim account /\ workload_service_account_uid w = trim uid /\
    workload_pod_uid w = trim pod;
}.

Lemma single_extra_Ok extra key v : single_extra extra key = Ok v <-> extra !! key = Some [v].
Proof. unfold single_extra. destruct (extra !! key) as [[|? [|? ?]]|]; naive_solver. Qed.

Lemma validate_field_trim value max v : validate_field value max = Ok v -> v = trim value.
Proof. unfold validate_field. cbv zeta. destruct (_ || _); naive_solver. Qed.

Lemma review_confirmed R token audience w :
  KubernetesTokenReviewer_review R token audience = Ok w ->
  exists namespace account uid pod, confirmed R token audience w namespace account uid pod.
Proof.
  unfold KubernetesTokenReviewer_review, parse_review, VerifiedWorkload_new. intros H. result_inv.
  bool_facts.
  repeat match goal with
  | H : validate_field _ _ = Ok _ |- _ => apply validate_field_trim in H
  | H : result_map_err _ ?r = Ok _ |- _ => destruct r eqn:?; [|discriminate H]; simpl in H
  | H : single_extra _ _ = Ok _ |- _ => apply single_extra_Ok in H
  | H : strip_prefix _ _ = Some _ |- _ => apply strip_prefix_Some in H
  | H : split_once _ _ = Some _ |- _ =>
      pose proof (split_once_free _ _ _ _ H); apply split_once_Some in H
  | H : is_success _ = true |- _ => apply is_success_range in H
  | H : bool_decide _ = true |- _ => apply bool_decide_eq_true in H
  end; subst.
  match goal with H : review_status ?x = _ |- _ => destruct x; simpl in H; subst end.
  match goal with
  | Hp : review_extra ?u !! "authentication.kubernetes.io/pod-uid" = Some [?p],
    Hn : review_username ?u = _ +:+ ?n +:+ _ +:+ ?a |- _ => exists n, a, (review_uid u), p
  end.
  constructor; [|done]. do 3 eexists. split_and!; try done; lia.
Qed.
End reviewer.

Section enrollment.
Context {P : Platform} {HP : PlatformLaws P} {Client : Type}
  (post_json : Client -> string -> string -> TokenReviewRequest ->
               Result string (ApiResponse TokenReviewResponse)).

(** With the Kubernetes reviewer an instance is registered only on the word of
    the cluster: the API answered the review of the very token that was submitted,
    for the enrollment audience and nothing else, with success; it named the token
    authenticated for that audience, as the service account token of one pod, the
    pod that was claimed; and the account, under its uid, is the one the service's
    binding is enabled for. *)
Theorem kubernetes_enrollment_is_confirmed R policy request now c i c' :
  EnrollmentService_authenticate_and_register
    (MkEnrollmentService Tables (kubernetes_reviewer post_json R) PostgresEnrollmentBindingRepository
       PostgresInstanceRegistry policy) request now c = (Ok i, c') ->
  exists w namespace account uid pod,
    confirmed post_json R (enrollment_workload_token request) ENROLLMENT_AUDIENCE w
      namespace account uid pod /\
    enrollment_claimed_pod_uid request = trim pod /\
    enrollment_bindings (durable c) !! ActorId_as_uuid (public_service_id (enrollment_public_key request)) =
      Some (MkBindingRow (trim namespace) (trim account) (trim uid) true) /\
    instance_public_key i = enrollment_public_key request.
Proof.
  intros (_ & (w & c1 & binding & ch & Hr & _ & Hp & Hb & He & Hns & Hac & Hu & _) & Hk & _)%registered_is_authorized.
  simpl in Hr. apply lift_Ok in Hr as [Hr ->]. apply review_confirmed in Hr as (ns & account & uid & pod & Hc).
  exists w, ns, account, uid, pod. destruct (confirmed_workload _ _ _ _ _ _ _ _ _ Hc) as (H1 & H2 & H3 & H4).
  split_and!; [done | congruence | | done].
  rewrite Hb. destruct binding; simpl in *. congruence.
Qed.
End enrollment.
