(* ===== verification/HttpText.v ===== *)
(** * HttpText: the [str] operations of the HTTP boundary

    What [src/http.rs] uses of Rust's standard library beyond [Text]: the check
    that bytes are UTF-8, slices by position, and the splits of a request head,
    with what they do to the plain text of a well-formed head. *)

From S2P Require Import Prelude Text.
From Stdlib Require Import Ascii.

(** ** UTF-8 *)

Definition continuation : ascii -> bool := in_range 128 191.

(** [std::str::from_utf8(..).is_ok()]: the well-formed byte sequences of Unicode,
    without overlong forms, surrogates and values above U+10FFFF *)
Fixpoint utf8_valid (s : string) : bool :=
  match s with
  | EmptyString => true
  | String a s1 =>
      if in_range 0 127 a then utf8_valid s1
      else match s1 with
      | String b s2 =>
          if in_range 194 223 a then continuation b && utf8_valid s2
          else match s2 with
          | String c s3 =>
              if (in_range 224 224 a && in_range 160 191 b)
                 || (in_range 225 236 a && continuation b)
                 || (in_range 237 237 a && in_range 128 159 b)
                 || (in_range 238 239 a && continuation b)
              then continuation c && utf8_valid s3
              else match s3 with
              | String d s4 =>
                  ((in_range 240 240 a && in_range 144 191 b)
                   || (in_range 241 243 a && continuation b)
                   || (in_range 244 244 a && in_range 128 143 b))
                  && continuation c && continuation d && utf8_valid s4
              | EmptyString => false
              end
          | EmptyString => false
          end
      | EmptyString => false
      end
  end.

Lemma utf8_valid_ascii s : all_bytes (in_range 0 127) s = true -> utf8_valid s = true.
Proof.
  induction s as [|c s IH]; [done|]. cbn [all_bytes utf8_valid].
  intros [-> Hs]%andb_true_iff. by apply IH.
Qed.

(** ** Slices *)

(** [&s[..n]] *)
Fixpoint str_take (n : nat) (s : string) : string :=
  match n, s with
  | O, _ | _, EmptyString => EmptyString
  | S n, String c s => String c (str_take n s)
  end.

(** [&s[n..]] *)
Fixpoint str_drop (n : nat) (s : string) : string :=
  match n, s with
  | O, _ => s
  | _, EmptyString => EmptyString
  | S n, String _ s => str_drop n s
  end.

Lemma take_drop_str n s : str_take n s +:+ str_drop n s = s.
Proof. revert s; induction n as [|n IH]; intros [|c s]; try done. cbn. by rewrite app_cons, IH. Qed.

Lemma length_take_str n s : String.length (str_take n s) = Nat.min n (String.length s).
Proof. revert s; induction n as [|n IH]; intros [|c s]; try done. cbn. by rewrite IH. Qed.

Lemma length_drop_str n s : String.length (str_drop n s) = String.length s - n.
Proof. revert s; induction n as [|n IH]; intros [|c s]; try done. cbn. by rewrite IH. Qed.

Lemma take_app_le n a b : n <= String.length a -> str_take n (a +:+ b) = str_take n a.
Proof.
  revert n; induction a as [|c a IH]; intros [|n] H; try done; simpl in H; [lia|].
  rewrite app_cons. cbn. rewrite IH by lia. done.
Qed.

Lemma drop_app_le n a b : n <= String.length a -> str_drop n (a +:+ b) = str_drop n a +:+ b.
Proof.
  revert n; induction a as [|c a IH]; intros [|n] H; try done; simpl in H; [lia|].
  rewrite app_cons. cbn. apply IH. lia.
Qed.

Lemma take_app_length a b : str_take (String.length a) (a +:+ b) = a.
Proof. induction a as [|c a IH]; [done|]. rewrite app_cons. cbn. by rewrite IH. Qed.

Lemma drop_app_length a b : str_drop (String.length a) (a +:+ b) = b.
Proof. induction a as [|c a IH]; [done|]. rewrite app_cons. cbn. done. Qed.

Lemma take_all s : str_take (String.length s) s = s.
Proof. rewrite <-(app_empty_r s) at 2. apply take_app_length. Qed.

Lemma drop_drop_str m n s : str_drop m (str_drop n s) = str_drop (n + m) s.
Proof. revert s; induction n as [|n IH]; intros [|c s]; try done; [by destruct m|]. apply IH. Qed.

Lemma len_app a b : len (a +:+ b) = (len a + len b)%Z.
Proof. unfold len. rewrite length_string_app. lia. Qed.

Lemma len_nonneg s : (0 <= len s)%Z.
Proof. unfold len. lia. Qed.

Lemma len_pos s : s <> EmptyString -> (0 < len s)%Z.
Proof. unfold len. destruct s; [done | simpl; lia]. Qed.

(** ** Splits *)

Definition push (c : ascii) (pieces : list string) : list string :=
  match pieces with p :: ps => String c p :: ps | [] => [String c EmptyString] end.

Definition carriage_return : ascii := "013"%char.

(** [str::split] on CR LF *)
Fixpoint split_crlf (s : string) : list string :=
  match s with
  | EmptyString => [EmptyString]
  | String a s1 =>
      if Ascii.eqb a carriage_return then
        match s1 with
        | String b s2 =>
            if Ascii.eqb b newline_char then EmptyString :: split_crlf s2
            else push a (split_crlf s1)
        | EmptyString => push a (split_crlf s1)
        end
      else push a (split_crlf s1)
  end.

(** Cut at every whitespace character; one that is not whitespace is at least one byte. *)
Fixpoint split_white_fuel (fuel : nat) (s : string) : list string :=
  match fuel with
  | O => [s]
  | S fuel =>
      match strip_white_space s with
      | Some r => EmptyString :: split_white_fuel fuel r
      | None =>
          match s with
          | EmptyString => [EmptyString]
          | String c s => push c (split_white_fuel fuel s)
          end
      end
  end.

(** [str::split_whitespace]: no empty pieces *)
Definition split_whitespace (s : string) : list string :=
  List.filter (fun p => negb (is_empty p)) (split_white_fuel (String.length s) s).

Lemma split_crlf_plain s : free_of carriage_return s -> split_crlf s = [s].
Proof.
  unfold free_of. induction s as [|c s IH]; [done|]. cbn [all_bytes split_crlf].
  intros [Hc%negb_true_iff Hs]%andb_true_iff. by rewrite Hc, IH.
Qed.

Lemma split_crlf_app l r : free_of carriage_return l -> split_crlf (l +:+ crlf +:+ r) = l :: split_crlf r.
Proof.
  unfold free_of. induction l as [|c l IH]; [done|]. rewrite app_cons. cbn [all_bytes split_crlf].
  intros [Hc%negb_true_iff Hs]%andb_true_iff. by rewrite Hc, IH.
Qed.

Lemma split_white_word fuel w r :
  all_bytes is_graphic w = true -> String.length w < fuel ->
  split_white_fuel fuel (w +:+ String " "%char r) =
  w :: split_white_fuel (fuel - String.length w - 1) r.
Proof.
  revert fuel; induction w as [|c w IH]; intros [|fuel] Hw Hf; simpl in Hf; try lia.
  - rewrite app_empty_l. cbn. by rewrite Nat.sub_0_r.
  - cbn [all_bytes] in Hw. apply andb_true_iff in Hw as [Hc Hw]. rewrite app_cons.
    cbn [split_white_fuel String.length]. rewrite strip_white_space_graphic by done.
    rewrite IH by (done || lia). done.
Qed.

Lemma split_white_last fuel w :
  all_bytes is_graphic w = true -> String.length w <= fuel -> split_white_fuel fuel w = [w].
Proof.
  revert fuel; induction w as [|c w IH]; intros [|fuel] Hw Hf; try (done || (simpl in Hf; lia)).
  simpl in Hf. cbn [all_bytes] in Hw. apply andb_true_iff in Hw as [Hc Hw]. cbn [split_white_fuel].
  rewrite strip_white_space_graphic by done. by rewrite IH by (done || lia).
Qed.

(** The three words of a request line *)
Lemma split_whitespace_three a b c :
  all_bytes is_graphic a = true -> all_bytes is_graphic b = true -> all_bytes is_graphic c = true ->
  is_empty a = false -> is_empty b = false -> is_empty c = false ->
  split_whitespace (a +:+ String " "%char (b +:+ String " "%char c)) = [a; b; c].
Proof.
  intros Ha Hb Hc Ea Eb Ec. unfold split_whitespace.
  rewrite !length_string_app. cbn [String.length]. rewrite length_string_app. cbn [String.length].
  rewrite split_white_word by (done || lia). rewrite split_white_word by (done || lia).
  rewrite split_white_last by (done || lia). cbn [List.filter]. by rewrite Ea, Eb, Ec.
Qed.

(** A header value that needs no trimming, after one space *)
Lemma trim_space_before v : trim v = v -> trim (String " "%char v) = v.
Proof.
  intros Hv. rewrite <-Hv at 2. done.
Qed.

(** *** Printable text *)

Definition is_printable : ascii -> bool := in_range 32 126.

Lemma graphic_printable c : is_graphic c = true -> is_printable c = true.
Proof. unfold is_graphic, is_printable. rewrite !in_range_spec. lia. Qed.

Lemma printable_free c s : is_printable c = false -> all_bytes is_printable s = true -> free_of c s.
Proof. apply free_of_class. Qed.

Lemma strip_printable c s r :
  is_printable c = true -> strip_white_space (String c s) = Some r -> r = s.
Proof.
  unfold is_printable. rewrite in_range_spec. intros H. unfold strip_white_space.
  destruct (in_range 9 13 c || in_range 32 32 c); [by intros [= ->]|].
  rewrite (proj2 (in_range_false 194 194 c)), (proj2 (in_range_false 225 225 c)),
    (proj2 (in_range_false 226 226 c)), (proj2 (in_range_false 227 227 c)) by lia. simpl.
  by destruct s as [|? [|? ?]].
Qed.

Lemma trim_start_last fuel u z :
  all_bytes is_printable u = true -> is_graphic z = true ->
  is_empty (trim_start_fuel fuel (u +:+ String z EmptyString)) = false.
Proof.
  intros Hu Hz. revert u Hu; induction fuel as [|fuel IH]; intros u Hu; [by destruct u|].
  cbn [trim_start_fuel]. destruct u as [|c u].
  - rewrite app_empty_l, strip_white_space_graphic by done. done.
  - cbn [all_bytes] in Hu. apply andb_true_iff in Hu as [Hc Hu]. rewrite app_cons.
    destruct (strip_white_space _) as [r|] eqn:Hr; [|done].
    apply strip_printable in Hr as ->; [|done]. by apply IH.
Qed.

Lemma trim_end_last u z :
  all_bytes is_printable u = true -> is_graphic z = true ->
  trim_end (u +:+ String z EmptyString) = u +:+ String z EmptyString.
Proof.
  intros Hu Hz. induction u as [|c u IH].
  - rewrite app_empty_l. cbn [trim_end]. by rewrite all_white_space_graphic.
  - pose proof (trim_start_last (String.length (String c u +:+ String z EmptyString)) _ z Hu Hz) as Hw.
    cbn [all_bytes] in Hu. apply andb_true_iff in Hu as [Hc Hu].
    rewrite app_cons in *. cbn [trim_end]. unfold all_white_space, trim_start. rewrite Hw.
    by rewrite IH.
Qed.

(** Printable text between two graphic characters is not trimmed. *)
Lemma trim_between a u z :
  is_graphic a = true -> all_bytes is_printable u = true -> is_graphic z = true ->
  trim (String a u +:+ String z EmptyString) = String a u +:+ String z EmptyString.
Proof.
  intros Ha Hu Hz. unfold trim. rewrite app_cons. unfold trim_start.
  cbn [String.length trim_start_fuel]. rewrite strip_white_space_graphic by done.
  rewrite <-app_cons. apply trim_end_last; [|done]. cbn [all_bytes].
  by rewrite graphic_printable, Hu.
Qed.

Lemma parse_show_usize z : (0 <= z <= usize_max)%Z -> parse_usize (show_i64 z) = Some z.
Proof.
  intros Hz. destruct (uint_of_show z) as (d & Hd & Hv); [lia|].
  pose proof (show_i64_digits z ltac:(lia)) as Hdig. pose proof (show_i64_not_empty z) as Hne.
  unfold parse_usize. destruct (show_i64 z) as [|c r]; [done|].
  simpl in Hdig. apply andb_true_iff in Hdig as [Hc _].
  destruct (digit_not_sign c Hc) as [-> _]. rewrite Hd. simpl. rewrite Hv.
  by rewrite (proj2 (Z.leb_le z _)) by lia.
Qed.
