(* ===== verification/HttpParsing.v ===== *)
(** * HttpParsing: from the bytes of a connection to a parsed request

    [read_request] of [src/http.rs] with its helpers, over a stream that gives
    the bytes of the peer in arbitrary portions, and the way from a parsed request
    to a signed one ([as_governed], [into_signed]). *)

From S2P Require Import Prelude Text HttpText Platform InstanceKeys Identity InstanceRegistry.
From S2P Require Import ServiceRequests.
From Stdlib Require Import Ascii.

Definition MAX_HEADER_BYTES : Z := 8 * 1024.
Definition MAX_ENROLLMENT_BODY_BYTES : Z := 40 * 1024.
Definition BUFFER_BYTES : Z := 4096.

(** ** The stream: what each [read] can return *)

Inductive Segment :=
| Data (b : bytes)
| ReadError.
Definition Stream : Type := list Segment.

(** [stream.read(&mut buffer[..n])]: at most [n] bytes, none at the end *)
Definition stream_read (n : nat) (stream : Stream) : option bytes * Stream :=
  match stream with
  | [] => (Some EmptyString, [])
  | ReadError :: stream => (None, stream)
  | Data b :: stream =>
      if String.length b <=? n then (Some b, stream)
      else (Some (str_take n b), Data (str_drop n b) :: stream)
  end.

Inductive RequestReadError := RequestReadError_Malformed | RequestReadError_PayloadTooLarge.

#[export] Instance RequestReadError_eq_dec : EqDecision RequestReadError.
Proof. solve_decision. Defined.

Record ParsedRequest := MkParsedRequest {
  parsed_method : string;
  parsed_path : string;
  parsed_authority : option string;
  parsed_content_type : option string;
  parsed_content_digest : option string;
  parsed_service_id : option string;
  parsed_instance_id : option string;
  parsed_request_id : option string;
  parsed_signature_input : option string;
  parsed_signature : option string;
  parsed_body : bytes;
}.

(** ** The head *)

Definition header_terminator : bytes := crlf +:+ crlf.

Fixpoint find_header_end (bytes : string) : option nat :=
  if starts_with header_terminator bytes then Some 0%nat
  else match bytes with
       | EmptyString => None
       | String _ bytes => S <$> find_header_end bytes
       end.

Definition header_name_char (c : ascii) : bool :=
  is_ascii_alphanumeric c
  || is_char "!" c || is_char "#" c || is_char "$" c || is_char "%" c || is_char "&" c
  || is_char "'" c || is_char "*" c || is_char "+" c || is_char "-" c || is_char "." c
  || is_char "^" c || is_char "_" c || is_char "`" c || is_char "|" c || is_char "~" c.

Definition valid_header_name (name : string) : bool :=
  negb (is_empty name) && all_bytes header_name_char name.

Definition set_header (target : option string) (value : string) :
  Result RequestReadError (option string) :=
  match target with
  | Some _ => Err RequestReadError_Malformed
  | None => if is_empty value then Err RequestReadError_Malformed else Ok (Some value)
  end.

(** The variables the header loop assigns *)
Record Headers := MkHeaders {
  header_content_length : option Z;
  header_authority : option string;
  header_content_type : option string;
  header_content_digest : option string;
  header_service_id : option string;
  header_instance_id : option string;
  header_request_id : option string;
  header_signature_input : option string;
  header_signature : option string;
}.

Definition no_headers : Headers := MkHeaders None None None None None None None None None.

(** One iteration of the header loop *)
Definition read_header_line (h : Headers) (line : string) : Result RequestReadError Headers :=
  '(name, value) ← ok_or RequestReadError_Malformed (split_once ":" line);
  let 'MkHeaders length authority type digest service instance request input signature := h in
  if negb (valid_header_name name) then Err RequestReadError_Malformed
  else
    let value := trim value in
    if eq_ignore_ascii_case name "content-length" then
      match length with
      | Some _ => Err RequestReadError_Malformed
      | None =>
          n ← ok_or RequestReadError_Malformed (parse_usize value);
          Ok (MkHeaders (Some n) authority type digest service instance request input signature)
      end
    else if eq_ignore_ascii_case name "content-type" then
      type ← set_header type value;
      Ok (MkHeaders length authority type digest service instance request input signature)
    else if eq_ignore_ascii_case name "host" then
      authority ← set_header authority value;
      Ok (MkHeaders length authority type digest service instance request input signature)
    else if eq_ignore_ascii_case name "content-digest" then
      digest ← set_header digest value;
      Ok (MkHeaders length authority type digest service instance request input signature)
    else if eq_ignore_ascii_case name "infernal-service-id" then
      service ← set_header service value;
      Ok (MkHeaders length authority type digest service instance request input signature)
    else if eq_ignore_ascii_case name "infernal-instance-id" then
      instance ← set_header instance value;
      Ok (MkHeaders length authority type digest service instance request input signature)
    else if eq_ignore_ascii_case name "infernal-request-id" then
      request ← set_header request value;
      Ok (MkHeaders length authority type digest service instance request input signature)
    else if eq_ignore_ascii_case name "signature-input" then
      input ← set_header input value;
      Ok (MkHeaders length authority type digest service instance request input signature)
    else if eq_ignore_ascii_case name "signature" then
      signature ← set_header signature value;
      Ok (MkHeaders length authority type digest service instance request input signature)
    else if eq_ignore_ascii_case name "transfer-encoding" then Err RequestReadError_Malformed
    else Ok h.

Fixpoint read_header_lines (h : Headers) (lines : list string) : Result RequestReadError Headers :=
  match lines with
  | [] => Ok h
  | line :: lines => h ← read_header_line h line; read_header_lines h lines
  end.

Definition read_request_line (line : string) : Result RequestReadError (string * string) :=
  match split_whitespace line with
  | [method; path; version] =>
      if negb (String.eqb version "HTTP/1.1") || negb (starts_with "/" path)
      then Err RequestReadError_Malformed
      else Ok (method, path)
  | _ => Err RequestReadError_Malformed
  end.

(** The head between the two reading loops: the method, the path, the headers
    and the length of the body *)
Definition read_head (head : bytes) :
  Result RequestReadError (string * string * Headers * Z) :=
  if negb (utf8_valid head) then Err RequestReadError_Malformed
  else match split_crlf head with
  | [] => Err RequestReadError_Malformed
  | request_line :: lines =>
      '(method, path) ← read_request_line request_line;
      h ← read_header_lines no_headers lines;
      let content_length := default 0%Z (header_content_length h) in
      if String.eqb method "POST" && String.eqb path "/v1/enrollments" && (content_length =? 0)%Z
      then Err RequestReadError_Malformed
      else if (MAX_ENROLLMENT_BODY_BYTES <? content_length)%Z
      then Err RequestReadError_PayloadTooLarge
      else Ok (method, path, h, content_length)
  end.

Definition parsed_request (method path : string) (h : Headers) (body : bytes) : ParsedRequest :=
  MkParsedRequest method path (header_authority h) (header_content_type h)
    (header_content_digest h) (header_service_id h) (header_instance_id h) (header_request_id h)
    (header_signature_input h) (header_signature h) body.

(** ** The two reading loops and the whole *)

(** [None] is a loop that has not ended: [read_request] has fuel for every stream. *)
Definition Reading (A : Type) : Type := option (Result RequestReadError A * Stream).

Fixpoint read_header_bytes (fuel : nat) (stream : Stream) (bytes : string) :
  Reading (nat * string) :=
  match fuel with
  | O => None
  | S fuel =>
      match find_header_end bytes with
      | Some position =>
          if (MAX_HEADER_BYTES <? Z.of_nat position)%Z
          then Some (Err RequestReadError_Malformed, stream)
          else Some (Ok (position, bytes), stream)
      | None =>
          if (MAX_HEADER_BYTES <? len bytes)%Z then Some (Err RequestReadError_Malformed, stream)
          else match stream_read (Z.to_nat BUFFER_BYTES) stream with
               | (None, stream) | (Some EmptyString, stream) =>
                   Some (Err RequestReadError_Malformed, stream)
               | (Some chunk, stream) => read_header_bytes fuel stream (bytes +:+ chunk)
               end
      end
  end.

Fixpoint read_body_bytes (fuel : nat) (stream : Stream) (bytes : string)
  (body_start : nat) (content_length : Z) : Reading string :=
  match fuel with
  | O => None
  | S fuel =>
      let received := Z.max 0 (len bytes - Z.of_nat body_start) in
      if (received <? content_length)%Z then
        let remaining := (content_length - received)%Z in
        match stream_read (Z.to_nat (Z.min remaining BUFFER_BYTES)) stream with
        | (None, stream) | (Some EmptyString, stream) =>
            Some (Err RequestReadError_Malformed, stream)
        | (Some chunk, stream) =>
            read_body_bytes fuel stream (bytes +:+ chunk) body_start content_length
        end
      else Some (Ok bytes, stream)
  end.

Definition read_request_fuel (header_fuel body_fuel : nat) (stream : Stream) :
  Reading ParsedRequest :=
  '(header, stream) ← read_header_bytes header_fuel stream EmptyString;
  match header with
  | Err e => Some (Err e, stream)
  | Ok (header_end, bytes) =>
      match read_head (str_take header_end bytes) with
      | Err e => Some (Err e, stream)
      | Ok (method, path, h, content_length) =>
          let body_start := (header_end + 4)%nat in
          '(body, stream) ← read_body_bytes body_fuel stream bytes body_start content_length;
          Some (bytes ← body;
                Ok (parsed_request method path h
                      (str_take (Z.to_nat content_length) (str_drop body_start bytes))), stream)
      end
  end.

(** Every iteration reads at least one byte, up to the limits. *)
Definition header_fuel : nat := Z.to_nat (MAX_HEADER_BYTES + 2).
Definition body_fuel : nat := Z.to_nat (MAX_ENROLLMENT_BODY_BYTES + 1).

Definition read_request (stream : Stream) : Reading ParsedRequest :=
  read_request_fuel header_fuel body_fuel stream.

(** ** From a parsed request to a signed one *)

Record GovernedHttpRequest := MkGovernedHttpRequest {
  governed_method : string;
  governed_authority : string;
  governed_path_and_query : string;
  governed_content_type : string;
  governed_body : bytes;
  governed_service_id : string;
  governed_instance_id : string;
  governed_request_id : string;
  governed_content_digest : string;
  governed_signature_input : string;
  governed_signature : string;
}.

Definition ParsedRequest_as_governed (r : ParsedRequest) : option GovernedHttpRequest :=
  authority ← parsed_authority r;
  content_type ← parsed_content_type r;
  service_id ← parsed_service_id r;
  instance_id ← parsed_instance_id r;
  request_id ← parsed_request_id r;
  content_digest ← parsed_content_digest r;
  signature_input ← parsed_signature_input r;
  signature ← parsed_signature r;
  Some (MkGovernedHttpRequest (parsed_method r) authority (parsed_path r) content_type
          (parsed_body r) service_id instance_id request_id content_digest signature_input
          signature).

Definition GovernedHttpRequest_into_signed {P : Platform} (r : GovernedHttpRequest) :
  Result ServiceRequestAuthenticationError SignedServiceRequest :=
  request_id ← ok_or Authentication_Malformed (uuid_parse (governed_request_id r));
  parts ← ServiceRequestParts_new (governed_method r) (governed_authority r)
            (governed_path_and_query r) (governed_content_type r) (governed_body r) request_id;
  SignedServiceRequest_from_wire parts (governed_service_id r) (governed_instance_id r)
    (governed_content_digest r) (governed_signature_input r) (governed_signature r).

(** ** Where the head ends *)

Lemma find_header_end_Some s p :
  find_header_end s = Some p -> s = str_take p s +:+ header_terminator +:+ str_drop (p + 4) s.
Proof.
  revert p; induction s as [|c s IH]; intros p; cbn [find_header_end].
  - by vm_compute.
  - destruct (starts_with header_terminator (String c s)) eqn:Hs.
    + intros [= <-]. apply starts_with_spec in Hs as [r Hr]. rewrite Hr. by rewrite app_empty_l.
    + intros (q & Hq & ->)%fmap_Some. cbn [str_take]. rewrite app_cons. cbn [Nat.add str_drop].
      f_equal. by apply IH.
Qed.

Lemma find_header_end_length s p : find_header_end s = Some p -> p + 4 <= String.length s.
Proof.
  intros H%find_header_end_Some. apply (f_equal String.length) in H.
  rewrite !length_string_app, length_take_str, length_drop_str in H.
  change (String.length header_terminator) with 4 in H. lia.
Qed.

Lemma starts_with_app p s t : starts_with p s = true -> starts_with p (s +:+ t) = true.
Proof.
  rewrite !starts_with_spec. intros [r ->]. exists (r +:+ t). by rewrite string_app_assoc.
Qed.

Lemma starts_with_app_long p s t :
  String.length p <= String.length s -> starts_with p (s +:+ t) = starts_with p s.
Proof.
  revert s; induction p as [|a p IH]; intros [|b s] Hl; try done; [simpl in Hl; lia|].
  simpl in Hl. rewrite app_cons. unfold starts_with in *. cbn [strip_prefix].
  destruct (Ascii.eqb a b); [|done]. apply IH. lia.
Qed.

Lemma find_header_end_more s t p :
  find_header_end s = Some p -> find_header_end (s +:+ t) = Some p.
Proof.
  revert p; induction s as [|c s IH]; intros p; cbn [find_header_end]; [by vm_compute|].
  rewrite app_cons. cbn [find_header_end].
  destruct (starts_with header_terminator (String c s)) eqn:Hs.
  - intros [= <-]. apply (starts_with_app _ _ t) in Hs. rewrite app_cons in Hs. by rewrite Hs.
  - intros (q & Hq & ->)%fmap_Some. pose proof (find_header_end_length _ _ Hq).
    pose proof (starts_with_app_long header_terminator (String c s) t) as Hl.
    rewrite app_cons, Hs in Hl. rewrite Hl by (simpl; lia). by rewrite (IH q).
Qed.

Lemma find_header_end_less s t p :
  find_header_end (s +:+ t) = Some p -> p + 4 <= String.length s -> find_header_end s = Some p.
Proof.
  revert p; induction s as [|c s IH]; intros p; [simpl; lia|].
  rewrite app_cons. cbn [find_header_end String.length]. intros H Hl.
  pose proof (starts_with_app_long header_terminator (String c s) t) as Hs.
  rewrite app_cons in Hs. rewrite Hs in H by (simpl; lia).
  destruct (starts_with header_terminator (String c s)); [done|].
  apply fmap_Some in H as (q & Hq & ->). rewrite (IH q) by (done || lia). done.
Qed.

(** ** Streams *)

Definition segment_bytes (s : Segment) : bytes := match s with Data b => b | ReadError => EmptyString end.

(** All bytes a stream can still give *)
Fixpoint stream_bytes (stream : Stream) : bytes :=
  match stream with [] => EmptyString | s :: stream => segment_bytes s +:+ stream_bytes stream end.

(** A peer that sends [data] in portions of its choice and then closes *)
Definition delivers (stream : Stream) (data : bytes) : Prop :=
  Forall (fun s => exists b, s = Data b /\ b <> EmptyString) stream /\ stream_bytes stream = data.

Lemma stream_read_bytes n stream o stream' :
  stream_read n stream = (o, stream') ->
  match o with
  | Some chunk => stream_bytes stream = chunk +:+ stream_bytes stream' /\ String.length chunk <= n
  | None => stream_bytes stream = stream_bytes stream'
  end.
Proof.
  unfold stream_read. destruct stream as [|[b|] stream]; [intros [= <- <-]; simpl; split; [done|lia] | |].
  - destruct (Nat.leb_spec (String.length b) n); intros [= <- <-]; [done|].
    simpl. rewrite <-string_app_assoc, take_drop_str, length_take_str. split; [done|lia].
  - by intros [= <- <-].
Qed.

Lemma stream_read_delivers n stream data :
  0 < n -> delivers stream data ->
  (data = EmptyString /\ stream_read n stream = (Some EmptyString, [])) \/
  exists c chunk stream' data', stream_read n stream = (Some (String c chunk), stream') /\
    data = String c chunk +:+ data' /\ delivers stream' data'.
Proof.
  intros Hn [Hf Hd]. destruct stream as [|s stream]; [left; by subst | right].
  apply Forall_cons_1 in Hf as [(b & -> & Hb) Hf]. destruct b as [|c b]; [done|].
  unfold stream_read. destruct (Nat.leb_spec (String.length (String c b)) n).
  - exists c, b, stream, (stream_bytes stream). split; [done|]. split; [by rewrite <-Hd | done].
  - exists c, (str_take (n - 1) b), (Data (str_drop n (String c b)) :: stream),
      (str_drop n (String c b) +:+ stream_bytes stream).
    destruct n as [|n]; [lia|]. cbn [str_take str_drop]. rewrite Nat.sub_succ, Nat.sub_0_r.
    split; [done|]. split.
    + rewrite <-Hd. simpl. rewrite !app_cons, <-string_app_assoc. by rewrite take_drop_str.
    + split; [|done]. constructor; [|done]. eexists. split; [done|]. intros He.
      apply (f_equal String.length) in He. rewrite length_drop_str in He. simpl in *. lia.
Qed.

(** ** The loops end, within their limits *)

Definition ends {A} (r : Reading A) (Q : Result RequestReadError A -> Stream -> Prop) : Prop :=
  exists a stream', r = Some (a, stream') /\ Q a stream'.

(** At most [n] bytes are taken from the stream. *)
Definition takes (stream stream' : Stream) (n : Z) : Prop :=
  (len (stream_bytes stream) <= len (stream_bytes stream') + n)%Z.

Lemma takes_refl stream n : (0 <= n)%Z -> takes stream stream n.
Proof. unfold takes. lia. Qed.

Lemma takes_more stream stream' n n' : takes stream stream' n -> (n <= n')%Z -> takes stream stream' n'.
Proof. unfold takes. lia. Qed.

(** What one reading step leaves for the rest of a loop *)
Lemma read_step n stream o stream' :
  (0 <= n)%Z -> stream_read (Z.to_nat n) stream = (o, stream') ->
  takes stream stream' (len (default EmptyString o)) /\ (len (default EmptyString o) <= n)%Z /\
  stream_bytes stream = default EmptyString o +:+ stream_bytes stream'.
Proof.
  intros Hn H%stream_read_bytes. unfold takes. destruct o as [chunk|]; simpl.
  - destruct H as [Hs Hl]. rewrite Hs, len_app. unfold len. split_and!; [lia | lia | done].
  - rewrite H. unfold len. simpl. split_and!; [lia | lia | done].
Qed.

Lemma header_loop_ends fuel stream bytes :
  0 < fuel -> (MAX_HEADER_BYTES + 1 < len bytes + Z.of_nat fuel)%Z ->
  ends (read_header_bytes fuel stream bytes) (fun r stream' =>
    takes stream stream' (Z.max 0 (MAX_HEADER_BYTES + BUFFER_BYTES - len bytes)) /\
    forall p bytes', r = Ok (p, bytes') ->
      find_header_end bytes' = Some p /\ (Z.of_nat p <= MAX_HEADER_BYTES)%Z /\
      bytes +:+ stream_bytes stream = bytes' +:+ stream_bytes stream').
Proof.
  revert stream bytes; induction fuel as [|fuel IH]; intros stream bytes H0 Hf; [lia|].
  cbn [read_header_bytes]. destruct (find_header_end bytes) as [p|] eqn:Hp.
  { destruct (Z.ltb_spec MAX_HEADER_BYTES (Z.of_nat p)); do 2 eexists; (split; [done|]);
      (split; [apply takes_refl; lia|]); intros p' bytes' Heq; [done|].
    injection Heq as <- <-. done. }
  destruct (Z.ltb_spec MAX_HEADER_BYTES (len bytes)).
  { do 2 eexists. split; [done|]. split; [apply takes_refl; lia | done]. }
  destruct (stream_read _ stream) as [o stream1] eqn:Hr.
  apply read_step in Hr as (Ht & Hl & Hb); [|done].
  destruct o as [[|c chunk]|]; simpl in Ht, Hl, Hb.
  1, 3: do 2 eexists; (split; [done|]); split; [eapply takes_more; [exact Ht | unfold len; simpl; lia] | done].
  pose proof (len_pos (String c chunk) ltac:(done)).
  destruct (IH stream1 (bytes +:+ String c chunk)) as (r & stream' & -> & Ht' & HQ);
    [lia | rewrite len_app; lia |].
  exists r, stream'. split; [done|]. rewrite len_app in Ht'. unfold takes, BUFFER_BYTES in *.
  split; [lia|]. intros p bytes' Heq. destruct (HQ p bytes' Heq) as (? & ? & Hs).
  split; [done|]. split; [done|]. by rewrite Hb, <-string_app_assoc.
Qed.

Lemma body_loop_ends fuel stream bytes start n :
  0 < fuel -> (n < Z.max 0 (len bytes - Z.of_nat start) + Z.of_nat fuel)%Z ->
  (Z.of_nat start <= len bytes)%Z ->
  ends (read_body_bytes fuel stream bytes start n) (fun r stream' =>
    takes stream stream' (Z.max 0 (n - (len bytes - Z.of_nat start))) /\
    forall bytes', r = Ok bytes' ->
      (n <= len bytes' - Z.of_nat start)%Z /\
      exists more, bytes' = bytes +:+ more /\ stream_bytes stream = more +:+ stream_bytes stream').
Proof.
  revert stream bytes; induction fuel as [|fuel IH]; intros stream bytes H0 Hf Hs; [lia|].
  cbn [read_body_bytes]. destruct (Z.ltb_spec (Z.max 0 (len bytes - Z.of_nat start)) n).
  2:{ do 2 eexists. split; [done|]. split; [apply takes_refl; lia|]. intros ? [= <-]. split; [lia|].
    exists EmptyString. by rewrite app_empty_r. }
  destruct (stream_read _ stream) as [o stream1] eqn:Hr.
  apply read_step in Hr as (Ht & Hl & Hb); [|unfold BUFFER_BYTES; lia].
  destruct o as [[|c chunk]|]; simpl in Ht, Hl, Hb.
  1, 3: do 2 eexists; (split; [done|]); split; [eapply takes_more; [exact Ht | unfold len; simpl; lia] | done].
  pose proof (len_pos (String c chunk) ltac:(done)).
  destruct (IH stream1 (bytes +:+ String c chunk)) as (r & stream' & -> & Ht' & HQ);
    [lia | rewrite len_app; lia | rewrite len_app; lia |].
  exists r, stream'. split; [done|]. rewrite len_app in Ht'. unfold takes in *.
  split; [lia|]. intros bytes' Heq. destruct (HQ bytes' Heq) as (? & more & -> & Hs').
  split; [done|]. exists (String c chunk +:+ more). by rewrite Hb, Hs', !string_app_assoc.
Qed.

Lemma parse_usize_nonneg s z : parse_usize s = Some z -> (0 <= z <= usize_max)%Z.
Proof.
  unfold parse_usize. rewrite option_bind_Some. intros (x & Hx & H).
  destruct (Z.leb_spec x usize_max); [|done]. injection H as <-. split; [|done].
  destruct s as [|c s]; [done|]. unfold Z.of_uint in Hx.
  destruct (is_char "+" c); apply fmap_Some in Hx as (d & _ & ->); lia.
Qed.

Definition headers_wf (h : Headers) : Prop := forall n, header_content_length h = Some n -> (0 <= n)%Z.

Lemma read_header_line_wf h line h' : read_header_line h line = Ok h' -> headers_wf h -> headers_wf h'.
Proof.
  unfold read_header_line, headers_wf. destruct h as [len' a t d s i q g w]. intros H Hwf.
  repeat first [progress result_inv
               | match goal with H : (match ?o with _ => _ end) = Ok _ |- _ =>
                                   destruct o eqn:?; try discriminate H end];
    subst; simpl; try done; simpl in *; try (by apply Hwf).
  intros n [= <-].
  match goal with H : parse_usize _ = Some _ |- _ => by apply parse_usize_nonneg in H as [? _] end.
Qed.

Lemma read_header_lines_wf lines h h' :
  read_header_lines h lines = Ok h' -> headers_wf h -> headers_wf h'.
Proof.
  revert h; induction lines as [|line lines IH]; intros h; simpl; [by intros [= ->]|].
  intros (h1 & H1 & H)%result_bind_Ok Hwf. eapply IH; [exact H|].
  by eapply read_header_line_wf.
Qed.

Lemma read_head_Ok head method path h n :
  read_head head = Ok (method, path, h, n) ->
  (0 <= n <= MAX_ENROLLMENT_BODY_BYTES)%Z /\ starts_with "/" path = true.
Proof.
  unfold read_head. destruct (negb _); [done|]. destruct (split_crlf head) as [|line lines]; [done|].
  intros ([m p] & Hl & H)%result_bind_Ok.
  apply result_bind_Ok in H as (h1 & Hh & H). apply read_header_lines_wf in Hh as Hwf; [|done].
  result_inv. bool_facts.
  match goal with H : Ok _ = Ok _ |- _ => injection H as <- <- <- <- | _ => idtac end.
  split.
  - unfold headers_wf in Hwf. destruct (header_content_length h) as [k|]; simpl in *; [|lia].
    specialize (Hwf k eq_refl). lia.
  - unfold read_request_line in Hl.
    destruct (split_whitespace line) as [|? [|? [|? [|? ?]]]]; try discriminate Hl.
    result_inv. bool_facts. simplify_eq. done.
Qed.

Lemma read_header_bytes_more fuel k stream bytes x :
  read_header_bytes fuel stream bytes = Some x -> read_header_bytes (fuel + k) stream bytes = Some x.
Proof.
  revert stream bytes; induction fuel as [|fuel IH]; intros stream bytes; [done|].
  cbn [read_header_bytes Nat.add]. destruct (find_header_end bytes); [done|].
  destruct (_ <? _)%Z; [done|]. destruct (stream_read _ stream) as [[[|c chunk]|] stream']; [done | apply IH | done].
Qed.

Lemma read_body_bytes_more fuel k stream bytes start n x :
  read_body_bytes fuel stream bytes start n = Some x ->
  read_body_bytes (fuel + k) stream bytes start n = Some x.
Proof.
  revert stream bytes; induction fuel as [|fuel IH]; intros stream bytes; [done|].
  cbn [read_body_bytes Nat.add]. destruct (_ <? _)%Z; [|done].
  destruct (stream_read _ stream) as [[[|c chunk]|] stream']; [done | apply IH | done].
Qed.

Lemma read_request_more n m stream x :
  header_fuel <= n -> body_fuel <= m ->
  read_request stream = Some x -> read_request_fuel n m stream = Some x.
Proof.
  intros Hn Hm. unfold read_request, read_request_fuel.
  replace n with (header_fuel + (n - header_fuel)) by lia.
  replace m with (body_fuel + (m - body_fuel)) by lia.
  generalize (n - header_fuel), (m - body_fuel). intros n' m'. clear Hn Hm.
  intros H. apply option_bind_Some in H as ([header s1] & Hh & H).
  rewrite (read_header_bytes_more _ n' _ _ _ Hh). cbn [mbind option_bind].
  destruct header as [[p bytes]|e]; [|done].
  destruct (read_head _) as [[[[method path] h] l]|e]; [|done].
  apply option_bind_Some in H as ([body s2] & Hb & H).
  rewrite (read_body_bytes_more _ m' _ _ _ _ _ Hb). done.
Qed.

(** The whole reading, by its two loops: what it takes and what it returns *)
Lemma read_request_spec stream :
  ends (read_request stream) (fun r stream' =>
    takes stream stream' (MAX_HEADER_BYTES + BUFFER_BYTES + MAX_ENROLLMENT_BODY_BYTES) /\
    forall request, r = Ok request ->
      exists head method path h rest,
        stream_bytes stream = head +:+ header_terminator +:+ parsed_body request +:+ rest /\
        find_header_end (stream_bytes stream) = Some (String.length head) /\
        (len head <= MAX_HEADER_BYTES)%Z /\
        read_head head = Ok (method, path, h, len (parsed_body request)) /\
        request = parsed_request method path h (parsed_body request)).
Proof.
  unfold read_request, read_request_fuel.
  destruct (header_loop_ends header_fuel stream EmptyString) as (r & s1 & -> & Ht & HQ).
  { unfold header_fuel, MAX_HEADER_BYTES. lia. }
  { unfold header_fuel, MAX_HEADER_BYTES. change (len EmptyString) with 0%Z. lia. }
  cbn [mbind option_bind]. change (len EmptyString) with 0%Z in Ht.
  destruct r as [[p bytes]|e].
  2:{ do 2 eexists. split; [done|]. split; [eapply takes_more; [exact Ht | by vm_compute] | done]. }
  destruct (HQ p bytes eq_refl) as (Hp & Hmax & Hs). rewrite app_empty_l in Hs.
  destruct (read_head _) as [[[[method path] h] l]|e] eqn:Hh.
  2:{ do 2 eexists. split; [done|]. split; [eapply takes_more; [exact Ht | by vm_compute] | done]. }
  apply read_head_Ok in Hh as Hl. destruct Hl as [Hl _].
  pose proof (find_header_end_length _ _ Hp) as Hlen.
  destruct (body_loop_ends body_fuel s1 bytes (p + 4) l) as (r & s2 & -> & Ht' & HQ').
  { unfold body_fuel, MAX_ENROLLMENT_BODY_BYTES. lia. }
  { unfold body_fuel, MAX_ENROLLMENT_BODY_BYTES in *. lia. }
  { unfold len. lia. }
  cbn [mbind option_bind]. do 2 eexists. split; [done|]. split.
  { unfold takes, MAX_HEADER_BYTES, BUFFER_BYTES, MAX_ENROLLMENT_BODY_BYTES in *. unfold len in *. lia. }
  intros request H. apply result_bind_Ok in H as (bytes' & -> & [= <-]).
  destruct (HQ' bytes' eq_refl) as (Hn & more & -> & Hs'). simpl.
  rewrite Hs, Hs', <-string_app_assoc. pose proof (find_header_end_more _ more _ Hp) as Hp'.
  revert Hh. rewrite <-(take_app_le p bytes more) by lia. intros Hh.
  assert (len (str_take (Z.to_nat l) (str_drop (p + 4) (bytes +:+ more))) = l) as Hll.
  { unfold len. rewrite length_take_str, length_drop_str. unfold len in Hn. lia. }
  exists (str_take p (bytes +:+ more)), method, path, h,
    (str_drop (Z.to_nat l) (str_drop (p + 4) (bytes +:+ more)) +:+ stream_bytes s2).
  rewrite Hll. rewrite <-!(string_app_assoc _ _ (stream_bytes s2)), take_drop_str.
  assert (String.length (str_take p (bytes +:+ more)) = p) as Hlp.
  { rewrite length_take_str, length_string_app. lia. }
  split_and!; [| | | done | done].
  - rewrite (find_header_end_Some _ _ Hp') at 1. by rewrite !string_app_assoc.
  - rewrite Hlp. by apply find_header_end_more.
  - unfold len. by rewrite Hlp.
Qed.

(** C34: Whatever a peer sends and however it is cut into portions, reading a
    request ends: with any fuel from the fixed amounts on there is an answer, it is
    the answer of [read_request], and no more than the two limits and one buffer
    are taken from the connection. *)
Theorem read_request_terminates n m stream :
  header_fuel <= n -> body_fuel <= m ->
  exists r stream', read_request_fuel n m stream = Some (r, stream') /\
    read_request stream = Some (r, stream') /\
    takes stream stream' (MAX_HEADER_BYTES + BUFFER_BYTES + MAX_ENROLLMENT_BODY_BYTES).
Proof.
  intros Hn Hm. destruct (read_request_spec stream) as (r & stream' & H & Ht & _).
  exists r, stream'. split; [|done]. by apply read_request_more.
Qed.

(** C35: A request is what was received: it was read from a head of at most
    [MAX_HEADER_BYTES] that ends at the first empty line, followed by exactly the
    declared number of bytes, at most [MAX_ENROLLMENT_BODY_BYTES]; its path is
    absolute. *)
Theorem read_request_bounds stream request stream' :
  read_request stream = Some (Ok request, stream') ->
  starts_with "/" (parsed_path request) = true /\
  (len (parsed_body request) <= MAX_ENROLLMENT_BODY_BYTES)%Z /\
  exists head method path h rest,
    stream_bytes stream = head +:+ header_terminator +:+ parsed_body request +:+ rest /\
    find_header_end (stream_bytes stream) = Some (String.length head) /\
    (len head <= MAX_HEADER_BYTES)%Z /\
    read_head head = Ok (method, path, h, len (parsed_body request)) /\
    request = parsed_request method path h (parsed_body request).
Proof.
  intros H. destruct (read_request_spec stream) as (r & s' & H' & _ & HQ).
  rewrite H in H'. injection H' as <- <-.
  destruct (HQ request eq_refl) as (head & method & path & h & rest & Hs & Hf & Hl & Hh & Hr).
  apply read_head_Ok in Hh as Hb. destruct Hb as [Hb Hp].
  split; [by rewrite Hr|]. split; [lia|]. by exists head, method, path, h, rest.
Qed.

(** ** The answer does not depend on the portions *)

(** The whole buffer at once *)
Definition parse_request (data : bytes) : Result RequestReadError ParsedRequest :=
  match find_header_end data with
  | None => Err RequestReadError_Malformed
  | Some p =>
      if (MAX_HEADER_BYTES <? Z.of_nat p)%Z then Err RequestReadError_Malformed
      else
        '(method, path, h, n) ← read_head (str_take p data);
        let rest := str_drop (p + 4) data in
        if (len rest <? n)%Z then Err RequestReadError_Malformed
        else Ok (parsed_request method path h (str_take (Z.to_nat n) rest))
  end.

(** The head is clearly within its limit or clearly beyond it: its end is not
    one of the last three positions that are still allowed. *)
Definition clear_of_limit (data : bytes) : Prop :=
  forall p, find_header_end data = Some p ->
    (Z.of_nat p + 3 <= MAX_HEADER_BYTES \/ MAX_HEADER_BYTES < Z.of_nat p)%Z.

Lemma header_loop_delivers fuel stream bytes rest :
  0 < fuel -> (MAX_HEADER_BYTES + 1 < len bytes + Z.of_nat fuel)%Z ->
  delivers stream rest -> clear_of_limit (bytes +:+ rest) ->
  exists r stream', read_header_bytes fuel stream bytes = Some (r, stream') /\
    match r with
    | Ok (p, bytes') =>
        find_header_end (bytes +:+ rest) = Some p /\ (Z.of_nat p <= MAX_HEADER_BYTES)%Z /\
        p + 4 <= String.length bytes' /\
        exists rest', delivers stream' rest' /\ bytes +:+ rest = bytes' +:+ rest'
    | Err e =>
        e = RequestReadError_Malformed /\
        forall p, find_header_end (bytes +:+ rest) = Some p -> (MAX_HEADER_BYTES < Z.of_nat p)%Z
    end.
Proof.
  revert stream bytes rest; induction fuel as [|fuel IH]; intros stream bytes rest H0 Hf Hd Hc; [lia|].
  cbn [read_header_bytes]. destruct (find_header_end bytes) as [p|] eqn:Hp.
  { pose proof (find_header_end_more _ rest _ Hp) as Hm. pose proof (find_header_end_length _ _ Hp).
    destruct (Z.ltb_spec MAX_HEADER_BYTES (Z.of_nat p)); do 2 eexists; (split; [done|]).
    - split; [done|]. intros q Hq. congruence.
    - split_and!; [done | lia | lia |]. by exists rest. }
  destruct (Z.ltb_spec MAX_HEADER_BYTES (len bytes)).
  { do 2 eexists. split; [done|]. split; [done|]. intros p Hq.
    destruct (Hc p Hq) as [Hs|Hs]; [|done].
    rewrite (find_header_end_less _ _ _ Hq) in Hp; [done|]. unfold len in *. lia. }
  destruct (stream_read_delivers (Z.to_nat BUFFER_BYTES) stream rest) as
    [(-> & ->)|(c & chunk & s' & rest' & -> & -> & Hd')]; [unfold BUFFER_BYTES; lia | done | |].
  { do 2 eexists. split; [done|]. split; [done|]. rewrite app_empty_r, Hp. done. }
  pose proof (len_pos (String c chunk) ltac:(done)).
  rewrite <-string_app_assoc in *. apply IH; [lia | rewrite len_app; lia | done | done].
Qed.

Lemma body_loop_delivers fuel stream bytes rest start n :
  0 < fuel -> (n < Z.max 0 (len bytes - Z.of_nat start) + Z.of_nat fuel)%Z ->
  (Z.of_nat start <= len bytes)%Z -> delivers stream rest ->
  exists r stream', read_body_bytes fuel stream bytes start n = Some (r, stream') /\
    match r with
    | Ok bytes' => (n <= len bytes' - Z.of_nat start)%Z /\
        exists rest', bytes +:+ rest = bytes' +:+ rest'
    | Err e => e = RequestReadError_Malformed /\ (len (bytes +:+ rest) - Z.of_nat start < n)%Z
    end.
Proof.
  revert stream bytes rest; induction fuel as [|fuel IH]; intros stream bytes rest H0 Hf Hs Hd; [lia|].
  cbn [read_body_bytes]. destruct (Z.ltb_spec (Z.max 0 (len bytes - Z.of_nat start)) n).
  2:{ do 2 eexists. split; [done|]. split; [lia|]. by exists rest. }
  destruct (stream_read_delivers (Z.to_nat (Z.min (n - Z.max 0 (len bytes - Z.of_nat start)) BUFFER_BYTES))
    stream rest) as [(-> & ->)|(c & chunk & s' & rest' & -> & -> & Hd')];
    [unfold BUFFER_BYTES; lia | done | |].
  { do 2 eexists. split; [done|]. split; [done|]. rewrite app_empty_r. lia. }
  pose proof (len_pos (String c chunk) ltac:(done)).
  rewrite <-string_app_assoc in *. apply IH; [lia | rewrite len_app; lia | rewrite len_app; lia | done].
Qed.

Lemma read_request_parses stream data :
  delivers stream data -> clear_of_limit data ->
  exists stream', read_request stream = Some (parse_request data, stream').
Proof.
  intros Hd Hc. unfold read_request, read_request_fuel, parse_request.
  destruct (header_loop_delivers header_fuel stream EmptyString data) as (r & s1 & -> & Hr);
    [unfold header_fuel, MAX_HEADER_BYTES; lia
    | unfold header_fuel, MAX_HEADER_BYTES; change (len EmptyString) with 0%Z; lia | done | done |].
  rewrite app_empty_l in Hr. cbn [mbind option_bind]. destruct r as [[p bytes]|e].
  2:{ destruct Hr as [-> Hp]. eexists. destruct (find_header_end data) as [p|]; [|done].
      by rewrite (proj2 (Z.ltb_lt _ _) (Hp p eq_refl)). }
  destruct Hr as (Hp & Hmax & Hl & rest & Hd' & ->).
  rewrite Hp, (proj2 (Z.ltb_ge _ _) Hmax), take_app_le by lia.
  destruct (read_head _) as [[[[method path] h] n]|e] eqn:Hh; [|by eexists].
  apply read_head_Ok in Hh as [Hn _]. cbn [mbind result_bind].
  destruct (body_loop_delivers body_fuel s1 bytes rest (p + 4) n) as (r & s2 & -> & Hr).
  { unfold body_fuel, MAX_ENROLLMENT_BODY_BYTES. lia. }
  { unfold body_fuel, MAX_ENROLLMENT_BODY_BYTES in *. lia. }
  { unfold len. lia. }
  { done. }
  cbn [mbind option_bind]. exists s2. f_equal. f_equal.
  assert (len (str_drop (p + 4) (bytes +:+ rest)) = len (bytes +:+ rest) - Z.of_nat (p + 4))%Z as Hlen.
  { unfold len. rewrite length_drop_str, length_string_app. lia. }
  rewrite Hlen. destruct r as [bytes'|e].
  - destruct Hr as (Hb & rest' & Hrest). rewrite Hrest, len_app in *.
    pose proof (len_nonneg rest').
    rewrite (proj2 (Z.ltb_ge _ n)) by lia. cbn [mbind result_bind]. f_equal. f_equal.
    unfold len in *. rewrite drop_app_le, take_app_le; [done | rewrite length_drop_str; lia | lia].
  - destruct Hr as [-> Hb]. by rewrite (proj2 (Z.ltb_lt _ n)) by lia.
Qed.

(** C33: Segmentation does not matter: a peer that sends some bytes and closes gets
    the answer of parsing them as a whole, however they arrive, unless the head
    ends within three bytes of its limit. *)
Theorem read_request_is_parse stream data :
  delivers stream data -> clear_of_limit data ->
  exists stream', read_request stream = Some (parse_request data, stream').
Proof. apply read_request_parses. Qed.

(** A head of exactly the limit: its request line fills 8192 bytes. *)
Definition limit_request : bytes :=
  "GET /" +:+ String.string_of_list_ascii (repeat "a"%char (Z.to_nat (MAX_HEADER_BYTES - 14)))
  +:+ " HTTP/1.1" +:+ header_terminator.

(** [data] in portions of the given lengths, then the rest *)
Fixpoint portions (lengths : list Z) (data : bytes) : Stream :=
  match lengths with
  | [] => [Data data]
  | n :: lengths =>
      Data (str_take (Z.to_nat n) data) :: portions lengths (str_drop (Z.to_nat n) data)
  end.

(** Within three bytes of the limit the portions decide: the same bytes, with a
    head that fills the limit, are a request when its last bytes arrive together
    and malformed when the first of them arrives alone. *)
Theorem header_limit_depends_on_portions :
  let whole := portions [4096; 4096]%Z limit_request in
  let split := portions [4096; 4096; 1]%Z limit_request in
  stream_bytes whole = limit_request /\ stream_bytes split = limit_request /\
  (exists request s, read_request whole = Some (Ok request, s)) /\
  (exists s, read_request split = Some (Err RequestReadError_Malformed, s)).
Proof.
  cbv zeta. split; [by vm_compute|]. split; [by vm_compute|]. split.
  - do 2 eexists. vm_compute. reflexivity.
  - eexists. vm_compute. reflexivity.
Qed.
