(* ===== verification/HttpWire.v ===== *)
(** * HttpWire: a signed request over the wire

    The HTTP/1.1 text of a signed request, as a client writes it (the format the
    tests of [src/http.rs] use), and its way through [read_request],
    [as_governed] and [into_signed]. *)

From S2P Require Import Prelude Text HttpText Platform Identity InstanceKeys ServiceRequests.
From S2P Require Import HttpParsing.
From Stdlib Require Import Ascii.

Definition header_line (name value : string) : string := name +:+ ": " +:+ value.

Fixpoint join_lines (line : string) (lines : list string) : string :=
  match lines with
  | [] => line
  | next :: lines => line +:+ crlf +:+ join_lines next lines
  end.

(** ** Lines *)

Definition plain_line (line : string) : Prop :=
  all_bytes is_printable line = true /\ line <> EmptyString.

Lemma plain_line_free line : plain_line line -> free_of carriage_return line.
Proof. intros [H _]. by apply (printable_free carriage_return). Qed.

Lemma split_join_lines line lines :
  Forall plain_line (line :: lines) -> split_crlf (join_lines line lines) = line :: lines.
Proof.
  revert line; induction lines as [|next lines IH]; intros line H;
    apply Forall_cons_1 in H as [Hl H]; cbn [join_lines].
  - apply split_crlf_plain. by apply plain_line_free.
  - rewrite split_crlf_app by by apply plain_line_free. f_equal. by apply IH.
Qed.

Lemma join_lines_ascii line lines :
  Forall plain_line (line :: lines) -> all_bytes (in_range 0 127) (join_lines line lines) = true.
Proof.
  assert (forall l, plain_line l -> all_bytes (in_range 0 127) l = true) as Hp.
  { intros l [H _]. revert H. apply all_bytes_mono. unfold is_printable. intros c.
    rewrite !in_range_spec. lia. }
  revert line; induction lines as [|next lines IH]; intros line H;
    apply Forall_cons_1 in H as [Hl H]; cbn [join_lines]; [by apply Hp|].
  rewrite !all_bytes_app, (Hp _ Hl), (IH _ H). done.
Qed.

Lemma not_terminator c s : c <> carriage_return -> starts_with header_terminator (String c s) = false.
Proof.
  intros Hc. unfold starts_with, header_terminator, crlf. rewrite app_cons. cbn [strip_prefix].
  rewrite ascii_eqb_spec, bool_decide_false; [done|]. by unfold carriage_return in Hc.
Qed.

Lemma find_past_line l s :
  free_of carriage_return l ->
  find_header_end (l +:+ s) = Nat.add (String.length l) <$> find_header_end s.
Proof.
  unfold free_of. induction l as [|c l IH]; intros H.
  - rewrite app_empty_l. simpl. by destruct (find_header_end s).
  - cbn [all_bytes] in H. apply andb_true_iff in H as [Hc%negb_true_iff Hl].
    rewrite ascii_eqb_spec in Hc. apply bool_decide_eq_false in Hc.
    rewrite app_cons. cbn [find_header_end]. rewrite not_terminator, IH by done.
    by destruct (find_header_end s).
Qed.

Lemma find_past_crlf c s :
  c <> carriage_return ->
  find_header_end (crlf +:+ String c s) = Nat.add 2 <$> find_header_end (String c s).
Proof.
  intros Hc. unfold crlf, nl. rewrite !app_cons, app_empty_l.
  transitivity (S <$> find_header_end (String newline_char (String c s))).
  - cbn [find_header_end]. replace (starts_with header_terminator _) with false; [done|].
    symmetry. unfold starts_with. replace (strip_prefix _ _) with (@None string); [done|].
    symmetry. unfold header_terminator, crlf, nl. rewrite !app_cons, app_empty_l.
    cbn [strip_prefix]. change (Ascii.eqb "013" "013") with true.
    change (Ascii.eqb newline_char newline_char) with true. cbn iota.
    rewrite ascii_eqb_spec, bool_decide_false; [done|]. by unfold carriage_return in Hc.
  - change (String newline_char (String c s)) with (String newline_char EmptyString +:+ String c s).
    rewrite (find_past_line (String newline_char EmptyString) (String c s)) by done.
    by destruct (find_header_end (String c s)).
Qed.

Lemma plain_line_first line : plain_line line -> exists c r, line = String c r /\ c <> carriage_return.
Proof.
  intros [H Hn]. destruct line as [|c r]; [done|]. exists c, r. split; [done|]. intros ->. by vm_compute in H.
Qed.

Lemma join_lines_first line lines :
  plain_line line -> exists c r, join_lines line lines = String c r /\ c <> carriage_return.
Proof.
  intros (c & r & -> & Hc)%plain_line_first.
  destruct lines; cbn [join_lines]; rewrite ?app_cons; eauto.
Qed.

(** The head of joined lines ends where the lines end. *)
Lemma find_join_lines line lines body :
  Forall plain_line (line :: lines) ->
  find_header_end (join_lines line lines +:+ header_terminator +:+ body) =
  Some (String.length (join_lines line lines)).
Proof.
  revert line; induction lines as [|next lines IH]; intros line H;
    apply Forall_cons_1 in H as [Hl H]; cbn [join_lines].
  - rewrite find_past_line by by apply plain_line_free.
    unfold header_terminator, crlf, nl. rewrite !app_cons. simpl. f_equal. lia.
  - rewrite !string_app_assoc, find_past_line by by apply plain_line_free.
    apply Forall_cons_1 in H as Hn. destruct Hn as [Hn _].
    destruct (join_lines_first next lines Hn) as (c & r & Hj & Hc).
    rewrite Hj, app_cons, find_past_crlf, <-app_cons, <-Hj, IH by done. simpl. f_equal.
    rewrite !length_string_app. simpl. lia.
Qed.

(** ** The request *)

Section wire.
Context {P : Platform}.

Definition wire_request_line (r : SignedServiceRequest) : string :=
  parts_method (signed_parts r) +:+ " " +:+ parts_path_and_query (signed_parts r)
  +:+ " " +:+ "HTTP/1.1".

Definition wire_lines (r : SignedServiceRequest) : list string :=
  let parts := signed_parts r in [
    header_line "Host" (parts_authority parts);
    header_line "Content-Type" (parts_content_type parts);
    header_line "Content-Length" (show_i64 (len (parts_body parts)));
    header_line "Content-Digest" (signed_content_digest r);
    header_line "Infernal-Service-Id" (ActorId_to_string (signed_service_id r));
    header_line "Infernal-Instance-Id" (InstanceId_to_string (signed_instance_id r));
    header_line "Infernal-Request-Id" (uuid_print (parts_request_id parts));
    header_line "Signature-Input" (signed_signature_input r);
    header_line "Signature" (signed_signature r)].

Definition wire_head (r : SignedServiceRequest) : bytes :=
  join_lines (wire_request_line r) (wire_lines r).

Definition wire_request (r : SignedServiceRequest) : bytes :=
  wire_head r +:+ header_terminator +:+ parts_body (signed_parts r).

(** A header value that arrives as it was sent *)
Definition value_ok (v : string) : Prop :=
  v <> EmptyString /\ trim v = v /\ all_bytes is_printable v = true.

Lemma value_ok_graphic v : v <> EmptyString -> all_bytes is_graphic v = true -> value_ok v.
Proof.
  intros Hn Hg. split; [done|]. split; [by apply trim_graphic|].
  revert Hg. apply all_bytes_mono, graphic_printable.
Qed.

Lemma header_line_plain name value :
  all_bytes is_printable name = true -> value_ok value -> plain_line (header_line name value).
Proof.
  intros Hn (_ & _ & Hv). unfold header_line. split.
  - by rewrite !all_bytes_app, Hn, Hv.
  - destruct name; [|done]. rewrite app_empty_l. done.
Qed.

(** A header line read back *)
Lemma split_header_line name value :
  free_of ":" name -> value_ok value ->
  split_once ":" (header_line name value) = Some (name, String " " value) /\
  trim (String " " value) = value /\ is_empty value = false.
Proof.
  intros Hn (Hv & Ht & _). split; [|split].
  - unfold header_line.
    change (name +:+ ": " +:+ value) with (name +:+ String ":" EmptyString +:+ String " " value).
    by apply split_once_first.
  - by apply trim_space_before.
  - by destruct value.
Qed.

Lemma parts_wf_values p :
  parts_wf p ->
  ServiceRequestParts_new (parts_method p) (parts_authority p) (parts_path_and_query p)
    (parts_content_type p) (parts_body p) (parts_request_id p) = Ok p /\
  (all_bytes is_graphic (parts_method p) = true /\ parts_method p <> EmptyString) /\
  (all_bytes is_graphic (parts_path_and_query p) = true /\
   starts_with "/" (parts_path_and_query p) = true) /\
  value_ok (parts_authority p) /\ value_ok (parts_content_type p).
Proof.
  intros (m & a & q & t & b & i & H). unfold ServiceRequestParts_new in H |- *.
  destruct (_ || _) eqn:Hg in H; [done|]. injection H as <-. simpl. rewrite Hg.
  rewrite !orb_false_iff, !negb_false_iff in Hg.
  destruct Hg as [[[[[[[Hm1 Hm2] Ha] _] Hs] _] Hq] Ht].
  unfold valid_uri_value, valid_header_value in *. rewrite !andb_true_iff, !negb_true_iff in *.
  rewrite bool_decide_eq_true in Ht. destruct Ha as [Ha1 Ha2], Hq as [Hq1 Hq2], Ht as [[Ht1 Ht2] Ht3].
  split_and!; try done.
  - revert Hm2. apply all_bytes_mono. unfold is_ascii_uppercase, is_graphic. intros c.
    rewrite !in_range_spec. lia.
  - by intros ->.
  - apply value_ok_graphic; [by intros -> | done].
  - split; [by intros ->|]. split; [done|]. exact Ht3.
Qed.

Lemma request_line_read method path :
  all_bytes is_graphic method = true -> method <> EmptyString ->
  all_bytes is_graphic path = true -> starts_with "/" path = true ->
  read_request_line (method +:+ " " +:+ path +:+ " " +:+ "HTTP/1.1") = Ok (method, path).
Proof.
  intros Hm Hm' Hp Hs. unfold read_request_line.
  change (method +:+ " " +:+ path +:+ " " +:+ "HTTP/1.1")
    with (method +:+ String " "%char (path +:+ String " "%char "HTTP/1.1")).
  rewrite split_whitespace_three; try done; [by rewrite Hs | by destruct method | by destruct path].
Qed.

Context {HP : PlatformLaws P}.

Lemma uuid_value_ok u : value_ok (uuid_print u).
Proof.
  apply value_ok_graphic.
  - intros H. pose proof (uuid_print_length u) as Hl. by rewrite H in Hl.
  - eapply all_bytes_mono; [|apply uuid_print_chars]. intros c.
    unfold uuid_char, is_ascii_digit, is_graphic, is_char. rewrite !orb_true_iff, !in_range_spec.
    rewrite ascii_eqb_spec, bool_decide_eq_true. intros [[?|?]|<-]; [lia | lia | by vm_compute].
Qed.

Lemma show_value_ok z : (0 <= z)%Z -> value_ok (show_i64 z).
Proof.
  intros Hz. apply value_ok_graphic; [apply show_i64_not_empty|].
  eapply all_bytes_mono; [|by apply show_i64_digits]. intros c.
  unfold is_ascii_digit, is_graphic. rewrite !in_range_spec. lia.
Qed.

Lemma base64_printable b : all_bytes is_printable (base64_encode b) = true.
Proof.
  eapply all_bytes_mono; [|apply base64_encode_chars]. intros c.
  unfold base64_char, is_ascii_alphanumeric, is_ascii_alphabetic, is_ascii_uppercase,
    is_ascii_lowercase, is_ascii_digit, is_printable, is_char.
  rewrite !orb_true_iff, !in_range_spec, !ascii_eqb_spec, !bool_decide_eq_true.
  intros [[[[[?|?]|?]|<-]|<-]|<-]; (lia || by vm_compute).
Qed.

(** The fields a client's signature adds *)
Lemma digest_value_ok body : value_ok (content_digest body).
Proof.
  unfold content_digest. rewrite <-string_app_assoc. split; [done|].
  change ("sha-256=:" +:+ base64_encode (sha256 body)) with
    (String "s"%char ("ha-256=:" +:+ base64_encode (sha256 body))).
  split.
  - apply trim_between; [done | by rewrite all_bytes_app, base64_printable | done].
  - cbn [all_bytes]. rewrite app_cons. cbn [all_bytes].
    by rewrite !all_bytes_app, base64_printable.
Qed.

Lemma signature_value_ok signature :
  value_ok (SIGNATURE_LABEL +:+ "=:" +:+ base64_encode signature +:+ ":").
Proof.
  change (SIGNATURE_LABEL +:+ "=:" +:+ base64_encode signature +:+ ":")
    with ("sig1=:" +:+ base64_encode signature +:+ ":").
  rewrite <-string_app_assoc. split; [done|].
  change ("sig1=:" +:+ base64_encode signature)
    with (String "s"%char ("ig1=:" +:+ base64_encode signature)).
  split.
  - apply trim_between; [done | by rewrite all_bytes_app, base64_printable | done].
  - rewrite app_cons. cbn [all_bytes]. by rewrite !all_bytes_app, base64_printable.
Qed.

Lemma input_value_ok created expires nonce key_id :
  (0 <= created)%Z -> (0 <= expires)%Z -> all_bytes nonce_char nonce = true ->
  value_ok (SIGNATURE_LABEL +:+ "=" +:+ signature_parameters created expires nonce key_id).
Proof.
  intros Hc He Hn.
  assert (all_bytes is_printable nonce = true) as Hn'.
  { revert Hn. apply all_bytes_mono. intros c.
    unfold nonce_char, is_ascii_alphanumeric, is_ascii_alphabetic, is_ascii_uppercase,
      is_ascii_lowercase, is_ascii_digit, is_printable, is_char.
    rewrite !orb_true_iff, !in_range_spec, !ascii_eqb_spec, !bool_decide_eq_true.
    intros [[[[?|?]|?]|<-]|<-]; (lia || by vm_compute). }
  destruct (show_value_ok created Hc) as (_ & _ & H1), (show_value_ok expires He) as (_ & _ & H2).
  destruct (uuid_value_ok (KeyId_as_uuid key_id)) as (_ & _ & H3).
  set (u := "ig1=" +:+ COVERED_COMPONENTS +:+ ";created=" +:+ show_i64 created +:+ ";expires="
    +:+ show_i64 expires +:+ (";nonce=" +:+ dq) +:+ nonce +:+ (dq +:+ ";keyid=" +:+ dq)
    +:+ KeyId_to_string key_id +:+ (dq +:+ ";alg=" +:+ dq) +:+ "ed25519").
  assert (SIGNATURE_LABEL +:+ "=" +:+ signature_parameters created expires nonce key_id =
    String "s"%char u +:+ String quote_char EmptyString) as ->.
  { change (String "s"%char u +:+ String quote_char EmptyString)
      with (String "s"%char (u +:+ dq)).
    subst u. unfold signature_parameters. by rewrite !string_app_assoc. }
  assert (all_bytes is_printable u = true) as Hu.
  { subst u. rewrite !all_bytes_app, H1, H2, Hn'. unfold KeyId_to_string. by rewrite H3. }
  split; [done|]. split; [by apply trim_between|].
  rewrite all_bytes_app. cbn [all_bytes]. by rewrite Hu.
Qed.

(** ** The round trip *)

(** What has to hold of a signed request for the wire *)
Record wire_wf (r : SignedServiceRequest) : Prop := {
  wire_parts : parts_wf (signed_parts r);
  wire_digest : value_ok (signed_content_digest r);
  wire_input : value_ok (signed_signature_input r);
  wire_signature : value_ok (signed_signature r);
  wire_body : (len (parts_body (signed_parts r)) <= MAX_ENROLLMENT_BODY_BYTES)%Z;
  wire_short : (len (wire_head r) + 3 <= MAX_HEADER_BYTES)%Z;
  wire_path : parts_path_and_query (signed_parts r) <> "/v1/enrollments";
}.

Lemma read_header_step h line lines h' :
  read_header_line h line = Ok h' ->
  read_header_lines h (line :: lines) = read_header_lines h' lines.
Proof. intros H. cbn [read_header_lines]. by rewrite H. Qed.

(** Reads one header line of the head that the client wrote. *)
Ltac read_line Hv :=
  erewrite read_header_step; cycle 1;
  [ match goal with
    | |- read_header_line _ (header_line ?name ?value) = _ =>
        destruct (split_header_line name value) as (Hsp & Htr & Hne);
          [by vm_compute | exact Hv |];
        unfold read_header_line; rewrite Hsp; cbn [ok_or mbind result_bind];
        change (negb (valid_header_name name)) with false; cbn iota; rewrite Htr;
        repeat match goal with
        | |- context [eq_ignore_ascii_case name ?b] =>
            let v := eval vm_compute in (eq_ignore_ascii_case name b) in
            change (eq_ignore_ascii_case name b) with v
        end; cbn iota; unfold set_header; rewrite ?Hne
    end |].

Lemma wire_plain_lines r :
  wire_wf r -> Forall plain_line (wire_request_line r :: wire_lines r).
Proof.
  intros [Hp Hd Hi Hs Hb _ Hpath]. apply parts_wf_values in Hp as (_ & [Hm Hm'] & [Hq Hq'] & Ha & Ht).
  pose proof (show_value_ok _ (len_nonneg (parts_body (signed_parts r)))) as Hl.
  pose proof uuid_value_ok as Hu. constructor.
  - unfold wire_request_line. split.
    + rewrite !all_bytes_app.
      by rewrite (all_bytes_mono _ _ _ graphic_printable Hm), (all_bytes_mono _ _ _ graphic_printable Hq).
    + destruct (parts_method (signed_parts r)); [done|]. by rewrite app_cons.
  - unfold wire_lines. repeat (constructor; [apply header_line_plain; [done | done || apply Hu]|]). constructor.
Qed.

Lemma read_head_wire r :
  wire_wf r ->
  read_head (wire_head r) = Ok (parts_method (signed_parts r), parts_path_and_query (signed_parts r),
    MkHeaders (Some (len (parts_body (signed_parts r)))) (Some (parts_authority (signed_parts r)))
      (Some (parts_content_type (signed_parts r))) (Some (signed_content_digest r))
      (Some (ActorId_to_string (signed_service_id r))) (Some (InstanceId_to_string (signed_instance_id r)))
      (Some (uuid_print (parts_request_id (signed_parts r)))) (Some (signed_signature_input r))
      (Some (signed_signature r)),
    len (parts_body (signed_parts r))).
Proof.
  intros Hwf. pose proof Hwf as [Hp Hd Hi Hs Hb _ Hpath].
  apply parts_wf_values in Hp as (_ & [Hm Hm'] & [Hq Hq'] & Ha & Ht).
  pose proof (len_nonneg (parts_body (signed_parts r))) as Hlen.
  pose proof (show_value_ok _ Hlen) as Hl.
  pose proof (uuid_value_ok (ActorId_as_uuid (signed_service_id r))) as H1.
  pose proof (uuid_value_ok (InstanceId_as_uuid (signed_instance_id r))) as H2.
  pose proof (uuid_value_ok (parts_request_id (signed_parts r))) as H3.
  pose proof (wire_plain_lines _ Hwf) as Hplain. unfold wire_head.
  unfold read_head. rewrite utf8_valid_ascii by by apply join_lines_ascii. cbn [negb].
  rewrite split_join_lines by done. unfold wire_request_line, wire_lines.
  rewrite request_line_read by done. cbn [mbind result_bind].
  unfold no_headers.
  assert (parse_usize (show_i64 (len (parts_body (signed_parts r)))) =
    Some (len (parts_body (signed_parts r)))) as Hn.
  { apply parse_show_usize. unfold MAX_ENROLLMENT_BODY_BYTES, usize_max in *. lia. }
  read_line Ha; [reflexivity|]. read_line Ht; [reflexivity|].
  read_line Hl; [rewrite Hn; reflexivity|]. read_line Hd; [reflexivity|].
  read_line H1; [reflexivity|]. read_line H2; [reflexivity|]. read_line H3; [reflexivity|].
  read_line Hi; [reflexivity|]. read_line Hs; [reflexivity|].
  cbn [read_header_lines mbind result_bind header_content_length default]. unfold id.
  rewrite (proj2 (String.eqb_neq _ _) Hpath), andb_false_r.
  by rewrite (proj2 (Z.ltb_ge _ _) Hb).
Qed.

Lemma sign_wire_wf parts credential created expires nonce r :
  parts_wf parts -> SignedServiceRequest_sign parts credential created expires nonce = Ok r ->
  (len (parts_body parts) <= MAX_ENROLLMENT_BODY_BYTES)%Z ->
  (len (wire_head r) + 3 <= MAX_HEADER_BYTES)%Z ->
  parts_path_and_query parts <> "/v1/enrollments" -> wire_wf r.
Proof.
  intros Hp H Hb Hl Hpath. unfold SignedServiceRequest_sign in H.
  apply result_bind_Ok in H as (u & [Ht Hn]%signature_metadata_spec & [= <-]).
  constructor; simpl; [done | apply digest_value_ok | apply input_value_ok; [lia | lia | done] |
    apply signature_value_ok | done..].
Qed.

Lemma signed_arrives parts credential created expires nonce r stream :
  parts_wf parts -> SignedServiceRequest_sign parts credential created expires nonce = Ok r ->
  (len (parts_body parts) <= MAX_ENROLLMENT_BODY_BYTES)%Z ->
  (len (wire_head r) + 3 <= MAX_HEADER_BYTES)%Z ->
  parts_path_and_query parts <> "/v1/enrollments" ->
  delivers stream (wire_request r) ->
  exists request stream' governed,
    read_request stream = Some (Ok request, stream') /\
    ParsedRequest_as_governed request = Some governed /\
    GovernedHttpRequest_into_signed governed = Ok r /\
    parsed_method request = parts_method parts /\ parsed_path request = parts_path_and_query parts.
Proof.
  intros Hparts Hsign Hb Hl Hpath Hd.
  pose proof (sign_wire_wf _ _ _ _ _ _ Hparts Hsign Hb Hl Hpath) as Hwf.
  pose proof (read_head_wire _ Hwf) as Hh.
  assert (find_header_end (wire_request r) = Some (String.length (wire_head r))) as Hf.
  { unfold wire_request. apply find_join_lines. apply wire_plain_lines; done. }
  assert (parse_request (wire_request r) = Ok (parsed_request (parts_method (signed_parts r))
    (parts_path_and_query (signed_parts r))
    (MkHeaders (Some (len (parts_body (signed_parts r)))) (Some (parts_authority (signed_parts r)))
      (Some (parts_content_type (signed_parts r))) (Some (signed_content_digest r))
      (Some (ActorId_to_string (signed_service_id r))) (Some (InstanceId_to_string (signed_instance_id r)))
      (Some (uuid_print (parts_request_id (signed_parts r)))) (Some (signed_signature_input r))
      (Some (signed_signature r))) (parts_body (signed_parts r)))) as Hparse.
  { unfold parse_request. rewrite Hf. unfold len in Hl. rewrite (proj2 (Z.ltb_ge _ _)) by lia.
    unfold wire_request. rewrite take_app_length, Hh. cbn [mbind result_bind].
    replace (String.length (wire_head r) + 4)
      with (String.length (wire_head r +:+ header_terminator)) by by rewrite length_string_app.
    rewrite <-string_app_assoc, drop_app_length, Z.ltb_irrefl. unfold len.
    by rewrite Nat2Z.id, take_all. }
  destruct (read_request_parses stream (wire_request r)) as (stream' & Hr); [done| |].
  { intros p Hp. rewrite Hf in Hp. injection Hp as <-. left. exact Hl. }
  rewrite Hparse in Hr. do 3 eexists. split; [exact Hr|]. split; [reflexivity|].
  assert (signed_parts r = parts) as Hsame.
  { unfold SignedServiceRequest_sign in Hsign. by result_inv. }
  split; [|by rewrite <-Hsame].
  unfold GovernedHttpRequest_into_signed, SignedServiceRequest_from_wire. simpl.
  rewrite uuid_parse_print. cbn [ok_or mbind result_bind].
  destruct (parts_wf_values _ (wire_parts _ Hwf)) as [-> _]. cbn [mbind result_bind].
  unfold ActorId_from_str, ActorId_to_string, InstanceId_from_str, InstanceId_to_string.
  rewrite !uuid_parse_print. simpl. destruct r as [? [] [] ? ? ?]. done.
Qed.

(** C39: A signed request arrives as it was signed: what a client signs and writes
    to a connection, in whatever portions it is delivered, is read, has all its
    governed fields, and becomes the same signed request again. *)
Theorem signed_request_arrives parts credential created expires nonce r stream :
  parts_wf parts -> SignedServiceRequest_sign parts credential created expires nonce = Ok r ->
  (len (parts_body parts) <= MAX_ENROLLMENT_BODY_BYTES)%Z ->
  (len (wire_head r) + 3 <= MAX_HEADER_BYTES)%Z ->
  parts_path_and_query parts <> "/v1/enrollments" ->
  delivers stream (wire_request r) ->
  exists request stream' governed,
    read_request stream = Some (Ok request, stream') /\
    ParsedRequest_as_governed request = Some governed /\
    GovernedHttpRequest_into_signed governed = Ok r /\
    parsed_method request = parts_method parts /\ parsed_path request = parts_path_and_query parts.
Proof. apply signed_arrives. Qed.
End wire.
