(* ===== verification/HttpDto.v ===== *)
(** * HttpDto: the wire formats of the HTTP boundary

    The data transfer objects of [src/http/] with their conversions. Encoding and
    decoding JSON is [serde]'s: the class [Serde] is what the derived instances
    offer, and nothing is assumed of it. *)

From S2P Require Import Prelude Text Platform Identity InstanceKeys InstanceRegistry RequestNames.
From S2P Require Import Authority Subscriptions Requests WorkClaims Enrollment.

(** ** Bodies that are read *)

Record CreateSubscriptionRequest := MkCreateSubscriptionRequest { create_event_type : string }.

Record SubmitRequestRequest := MkSubmitRequestRequest {
  submit_action : string;
  submit_scope : string;
  submit_artifact_schema_version_id : string;
  submit_permission_policy_schema_version_id : string;
}.

Record PublishSchemaRequest := MkPublishSchemaRequest {
  publish_kind : string;
  publish_name : string;
  publish_content_digest : string;
}.

Record ClaimRequest := MkClaimRequest { claim_lease_seconds : Z }.
Record RenewRequest := MkRenewRequest { renew_fencing_token : Z; renew_lease_seconds : Z }.
Record FencedActionRequest := MkFencedActionRequest { fenced_fencing_token : Z }.
Record InstanceRenewalRequest := MkInstanceRenewalRequest { renewal_expected_revision : Z }.

Record WorkloadChallengeRequest := MkWorkloadChallengeRequest {
  challenge_pod_uid : string;
  challenge_workload_token : string;
}.

Record EnrollmentSubmissionRequest := MkEnrollmentSubmissionRequest {
  submission_service_id : string;
  submission_instance_id : string;
  submission_key_id : string;
  submission_algorithm : string;
  submission_public_key : string;
  submission_challenge : string;
  submission_endpoint : string;
  submission_pod_uid : string;
  submission_workload_token : string;
  submission_signature : string;
}.

(** ** Bodies that are written *)

Record GovernedErrorResponse := MkGovernedErrorResponse {
  error_code : string;
  error_message : string;
}.

Record SubscriptionResponse := MkSubscriptionResponse {
  subr_id : string;
  subr_service_id : string;
  subr_event_type : string;
  subr_created_at : Z;
  subr_disabled_at : option Z;
  subr_active : bool;
}.

Record RouteResponse := MkRouteResponse {
  router_route_id : string;
  router_request_id : string;
  router_subscription_id : string;
  router_destination_service_id : string;
  router_created_at : Z;
}.

Record AcceptedRequestResponse := MkAcceptedRequestResponse {
  acc_request_id : string;
  acc_source_service_id : string;
  acc_action : string;
  acc_scope : string;
  acc_artifact_schema_version_id : string;
  acc_permission_policy_schema_version_id : string;
  acc_accepted_at : Z;
}.

Record SchemaVersionResponse := MkSchemaVersionResponse {
  svr_schema_version_id : string;
  svr_kind : string;
  svr_name : string;
  svr_version : Z;
  svr_owner_service_id : string;
  svr_content_digest : string;
  svr_predecessor_id : option string;
  svr_published_at : Z;
  svr_status : string;
}.

Record WorkClaimResponse := MkWorkClaimResponse {
  wcr_claim_id : string;
  wcr_route_id : string;
  wcr_worker_service_id : string;
  wcr_worker_instance_id : string;
  wcr_fencing_token : Z;
  wcr_status : string;
  wcr_claimed_at : Z;
  wcr_lease_expires_at : Z;
}.

Record EnrollmentChallengeResponse := MkEnrollmentChallengeResponse {
  ecr_service_id : string;
  ecr_challenge : string;
  ecr_audience : string;
  ecr_expires_at : Z;
}.

Record EnrollmentSuccessResponse := MkEnrollmentSuccessResponse {
  esr_service_id : string;
  esr_instance_id : string;
  esr_key_id : string;
  esr_algorithm : string;
  esr_endpoint : string;
  esr_registered_at : Z;
  esr_lease_expires_at : Z;
  esr_lease_revision : Z;
}.

Record KernelIdentityResponse := MkKernelIdentityResponse {
  kir_algorithm : string;
  kir_instance_id : string;
  kir_key_id : string;
  kir_public_key : string;
  kir_fingerprint : string;
}.

(** Everything [json_response] is called with *)
Inductive Dto :=
| Dto_error (e : GovernedErrorResponse)   (* also the enrollment and malformed-request errors *)
| Dto_subscription (s : SubscriptionResponse)
| Dto_subscriptions (s : list SubscriptionResponse)
| Dto_routes (r : list RouteResponse)
| Dto_request (r : AcceptedRequestResponse)
| Dto_schema (s : SchemaVersionResponse)
| Dto_claim (c : WorkClaimResponse)
| Dto_challenge (c : EnrollmentChallengeResponse)
| Dto_instance (i : EnrollmentSuccessResponse)
| Dto_identity (k : KernelIdentityResponse).

(** [serde_json::to_string] and [serde_json::from_slice] at the types above *)
Class Serde := {
  serde_to_string : Dto -> option string;
  from_slice_create_subscription : bytes -> option CreateSubscriptionRequest;
  from_slice_submit_request : bytes -> option SubmitRequestRequest;
  from_slice_publish_schema : bytes -> option PublishSchemaRequest;
  from_slice_claim : bytes -> option ClaimRequest;
  from_slice_renew : bytes -> option RenewRequest;
  from_slice_fenced_action : bytes -> option FencedActionRequest;
  from_slice_instance_renewal : bytes -> option InstanceRenewalRequest;
  from_slice_workload_challenge : bytes -> option WorkloadChallengeRequest;
  from_slice_enrollment_submission : bytes -> option EnrollmentSubmissionRequest;
}.

(** ** Conversions *)

Definition CreateSubscriptionRequest_event_type (dto : CreateSubscriptionRequest) :
  Result SubscriptionError EventType := EventType_new (create_event_type dto).

(** [now.checked_add(self.lease_seconds).filter(|value| *value > now)] *)
Definition lease_deadline (lease_seconds now : Z) : option Z :=
  match checked_add now lease_seconds with
  | Some value => if (now <? value)%Z then Some value else None
  | None => None
  end.

Definition ClaimRequest_lease_expires_at (dto : ClaimRequest) (now : Z) : option Z :=
  lease_deadline (claim_lease_seconds dto) now.
Definition RenewRequest_lease_expires_at (dto : RenewRequest) (now : Z) : option Z :=
  lease_deadline (renew_lease_seconds dto) now.

Inductive PublishSchemaRequestError :=
| PublishSchemaRequestError_InvalidKind
| PublishSchemaRequestError_InvalidName
| PublishSchemaRequestError_InvalidContentDigest.

Definition PublishSchemaRequest_kind (dto : PublishSchemaRequest) :
  Result PublishSchemaRequestError SchemaKind :=
  if String.eqb (publish_kind dto) "artifact" then Ok SchemaKind_Artifact
  else if String.eqb (publish_kind dto) "permission_policy" then Ok SchemaKind_PermissionPolicy
  else Err PublishSchemaRequestError_InvalidKind.

Definition PublishSchemaRequest_name (dto : PublishSchemaRequest) :
  Result PublishSchemaRequestError SchemaName :=
  result_map_err (fun _ => PublishSchemaRequestError_InvalidName) (SchemaName_new (publish_name dto)).

Inductive SubmitRequestRequestError :=
| SubmitRequestRequestError_InvalidScope
| SubmitRequestRequestError_InvalidSchemaVersionId
| SubmitRequestRequestError_InvalidAction.

Inductive EnrollmentDtoError :=
| EnrollmentDtoError_InvalidChallenge
| EnrollmentDtoError_InvalidEncoding
| EnrollmentDtoError_InvalidEnrollment
| EnrollmentDtoError_InvalidInstanceId
| EnrollmentDtoError_InvalidKeyId
| EnrollmentDtoError_InvalidPublicKey
| EnrollmentDtoError_InvalidServiceId
| EnrollmentDtoError_InvalidSignature
| EnrollmentDtoError_InvalidTimestamp
| EnrollmentDtoError_UnsupportedAlgorithm.

Definition work_claim_status_str (status : WorkClaimStatus) : string :=
  match status with
  | WorkClaimStatus_Active => "active"
  | WorkClaimStatus_Completed => "completed"
  | WorkClaimStatus_Released => "released"
  | WorkClaimStatus_Expired => "expired"
  end.

Definition schema_kind_str (kind : SchemaKind) : string :=
  match kind with
  | SchemaKind_Artifact => "artifact"
  | SchemaKind_PermissionPolicy => "permission_policy"
  end.

Definition schema_status_str (status : SchemaStatus) : string :=
  match status with
  | SchemaStatus_Published => "published"
  | SchemaStatus_Active => "active"
  | SchemaStatus_Suspended => "suspended"
  | SchemaStatus_Superseded => "superseded"
  | SchemaStatus_Retired => "retired"
  end.

Definition EnrollmentErrorResponse_malformed_request : GovernedErrorResponse :=
  MkGovernedErrorResponse "invalid_enrollment_request" "enrollment request is invalid".

Definition EnrollmentErrorResponse_from_enrollment_error (error : EnrollmentError) :
  GovernedErrorResponse :=
  match error with
  | EnrollmentError_AudienceMismatch
  | EnrollmentError_BindingDisabled
  | EnrollmentError_BindingNotFound
  | EnrollmentError_ChallengeRejected
  | EnrollmentError_InvalidProof
  | EnrollmentError_PodMismatch
  | EnrollmentError_ServiceMismatch
  | EnrollmentError_TokenRejected =>
      MkGovernedErrorResponse "enrollment_rejected" "enrollment authentication was rejected"
  | EnrollmentError_InvalidField => EnrollmentErrorResponse_malformed_request
  | EnrollmentError_Registry _ | EnrollmentError_Repository _ =>
      MkGovernedErrorResponse "internal_error" "enrollment could not be completed"
  end.

Section conversions.
Context {P : Platform}.

Definition SubmitRequestRequest_into_request (dto : SubmitRequestRequest) (source_service : ActorId)
  (request_id : RequestId) : Result SubmitRequestRequestError Request :=
  scope ← result_map_err (fun _ => SubmitRequestRequestError_InvalidScope)
    (Scope_new (submit_scope dto));
  artifact ← result_map_err (fun _ => SubmitRequestRequestError_InvalidSchemaVersionId)
    (SchemaVersionId_from_str (submit_artifact_schema_version_id dto));
  permission_policy ← result_map_err (fun _ => SubmitRequestRequestError_InvalidSchemaVersionId)
    (SchemaVersionId_from_str (submit_permission_policy_schema_version_id dto));
  result_map_err (fun _ => SubmitRequestRequestError_InvalidAction)
    (Request_restore request_id source_service (submit_action dto) scope
       (MkSchemaVersionRefs artifact permission_policy)).

Definition PublishSchemaRequest_content_digest (dto : PublishSchemaRequest) :
  Result PublishSchemaRequestError ContentDigest :=
  decoded ← ok_or PublishSchemaRequestError_InvalidContentDigest
    (base64url_decode (publish_content_digest dto));
  bytes ← ok_or PublishSchemaRequestError_InvalidContentDigest (to_array 32 decoded);
  Ok (MkContentDigest bytes).

Definition SubscriptionResponse_from (s : Subscription) : SubscriptionResponse :=
  MkSubscriptionResponse (SubscriptionId_to_string (subscription_id s))
    (ActorId_to_string (subscription_service_id s))
    (EventType_as_str (subscription_event_type s)) (subscription_created_at s)
    (subscription_disabled_at s) (Subscription_is_active s).

Definition RouteResponse_from (route : Route) : RouteResponse :=
  MkRouteResponse (RouteId_to_string (route_id route)) (RequestId_to_string (route_request_id route))
    (SubscriptionId_to_string (route_subscription_id route))
    (ActorId_to_string (route_destination_service route)) (route_created_at route).

Definition AcceptedRequestResponse_from (record : AcceptedRequest) : AcceptedRequestResponse :=
  let request := accepted_request record in
  MkAcceptedRequestResponse (RequestId_to_string (request_id request))
    (ActorId_to_string (request_source_service request))
    (ActionName_as_str (request_action request)) (Scope_as_str (request_scope request))
    (SchemaVersionId_to_string (refs_artifact (request_schema_versions request)))
    (SchemaVersionId_to_string (refs_permission_policy (request_schema_versions request)))
    (accepted_at record).

Definition SchemaVersionResponse_from (record : SchemaRecord) : SchemaVersionResponse :=
  let version := record_version record in
  MkSchemaVersionResponse (SchemaVersionId_to_string (schema_id version))
    (schema_kind_str (schema_kind version)) (SchemaName_as_str (schema_name version))
    (schema_version version) (ActorId_to_string (schema_owner version))
    (base64url_encode (ContentDigest_as_bytes (schema_content_digest version)))
    (SchemaVersionId_to_string <$> schema_predecessor version) (schema_published_at version)
    (schema_status_str (record_status record)).

Definition WorkClaimResponse_from (claim : WorkClaim) : WorkClaimResponse :=
  MkWorkClaimResponse (ClaimId_to_string (claim_id claim)) (RouteId_to_string (claim_route_id claim))
    (ActorId_to_string (claim_worker_service claim))
    (InstanceId_to_string (claim_worker_instance claim)) (claim_fencing_token claim)
    (work_claim_status_str (claim_status claim)) (claim_claimed_at claim)
    (claim_lease_expires_at claim).

Definition EnrollmentSuccessResponse_from (instance : RegisteredInstance) :
  EnrollmentSuccessResponse :=
  let key := instance_public_key instance in
  MkEnrollmentSuccessResponse (ActorId_to_string (public_service_id key))
    (InstanceId_to_string (public_instance_id key)) (KeyId_to_string (public_key_id key)) ALGORITHM
    (instance_endpoint instance) (instance_registered_at instance)
    (instance_lease_expires_at instance) (instance_lease_revision instance).

Definition KernelIdentityResponse_from (key : InstancePublicKey) : KernelIdentityResponse :=
  MkKernelIdentityResponse ALGORITHM (InstanceId_to_string (public_instance_id key))
    (KeyId_to_string (public_key_id key)) (base64url_encode (public_key_bytes key))
    (base64url_encode (InstancePublicKey_fingerprint key)).

Definition EnrollmentChallengeResponse_new (service_id : ActorId) (challenge : EnrollmentChallenge)
  (issued_at : Z) : Result EnrollmentDtoError EnrollmentChallengeResponse :=
  expires_at ← ok_or EnrollmentDtoError_InvalidTimestamp
    (checked_add issued_at ENROLLMENT_CHALLENGE_LIFETIME_SECONDS);
  if (issued_at <? 0)%Z then Err EnrollmentDtoError_InvalidTimestamp
  else Ok (MkEnrollmentChallengeResponse (ActorId_to_string service_id)
             (base64url_encode (EnrollmentChallenge_as_bytes challenge)) ENROLLMENT_AUDIENCE
             expires_at).

Definition decode_fixed (n : nat) (value : string) : Result EnrollmentDtoError bytes :=
  decoded ← ok_or EnrollmentDtoError_InvalidEncoding (base64url_decode value);
  ok_or EnrollmentDtoError_InvalidEncoding (to_array n decoded).

Definition EnrollmentSubmissionRequest_into_domain (dto : EnrollmentSubmissionRequest) :
  Result EnrollmentDtoError EnrollmentRequest :=
  if negb (String.eqb (submission_algorithm dto) ALGORITHM)
  then Err EnrollmentDtoError_UnsupportedAlgorithm
  else
    service_id ← result_map_err (fun _ => EnrollmentDtoError_InvalidServiceId)
      (ActorId_from_str (submission_service_id dto));
    instance_id ← result_map_err (fun _ => EnrollmentDtoError_InvalidInstanceId)
      (InstanceId_from_str (submission_instance_id dto));
    key_id ← result_map_err (fun _ => EnrollmentDtoError_InvalidKeyId)
      (KeyId_from_str (submission_key_id dto));
    key_bytes ← result_map_err (fun _ => EnrollmentDtoError_InvalidPublicKey)
      (decode_fixed PUBLIC_KEY_LENGTH (submission_public_key dto));
    public_key ← result_map_err (fun _ => EnrollmentDtoError_InvalidPublicKey)
      (InstancePublicKey_restore service_id instance_id key_id key_bytes);
    challenge ← result_map_err (fun _ => EnrollmentDtoError_InvalidChallenge)
      (decode_fixed 32 (submission_challenge dto));
    signature ← result_map_err (fun _ => EnrollmentDtoError_InvalidSignature)
      (decode_fixed SIGNATURE_LENGTH (submission_signature dto));
    result_map_err (fun _ => EnrollmentDtoError_InvalidEnrollment)
      (EnrollmentRequest_restore (MkEnrollmentChallenge challenge) public_key
         (submission_endpoint dto) (submission_pod_uid dto) (submission_workload_token dto)
         (MkInstanceSignature signature)).

Definition EnrollmentSubmissionRequest_from_domain (request : EnrollmentRequest) :
  EnrollmentSubmissionRequest :=
  let key := enrollment_public_key request in
  MkEnrollmentSubmissionRequest (ActorId_to_string (public_service_id key))
    (InstanceId_to_string (public_instance_id key)) (KeyId_to_string (public_key_id key)) ALGORITHM
    (base64url_encode (public_key_bytes key))
    (base64url_encode (EnrollmentChallenge_as_bytes (enrollment_challenge request)))
    (enrollment_endpoint request) (enrollment_claimed_pod_uid request)
    (enrollment_workload_token request)
    (base64url_encode (InstanceSignature_as_bytes (enrollment_signature request))).

Definition EnrollmentSubmissionRequest_sign (credential : InstanceCredential)
  (challenge : EnrollmentChallenge) (endpoint pod_uid workload_token : string) :
  Result EnrollmentDtoError EnrollmentSubmissionRequest :=
  request ← result_map_err (fun _ => EnrollmentDtoError_InvalidEnrollment)
    (EnrollmentRequest_sign credential challenge endpoint pod_uid workload_token);
  Ok (EnrollmentSubmissionRequest_from_domain request).
End conversions.
