(* ===== verification/PolicyClient.v ===== *)
(** * PolicyClient: the policy evaluator as a remote service

    [src/infrastructure/http_policy_evaluator.rs]: the implementation of
    [PolicyEvaluator] that signs a request with the kernel's credential, sends it
    and reads the answer. The client crate and the JSON codec are the records
    [InfernalClient] and [EvaluateCodec]. *)

From S2P Require Import Prelude Text Platform Identity InstanceKeys RequestNames Authority.

Definition EVALUATE_PATH : string := "/v1/authority/evaluate".
Definition EVALUATE_VALIDITY_SECONDS : Z := 30.

Record EvaluateGrant := MkEvaluateGrant {
  eg_grant_id : string;
  eg_source_service_id : string;
  eg_action : string;
  eg_scope : string;
  eg_artifact_schema_version_id : string;
  eg_permission_policy_schema_version_id : string;
  eg_destination_service_id : option string;
  eg_valid_from : Z;
  eg_valid_until : option Z;
}.

Record EvaluateRequest := MkEvaluateRequest {
  er_source_service_id : string;
  er_action : string;
  er_scope : string;
  er_artifact_schema_version_id : string;
  er_permission_policy_schema_version_id : string;
  er_destination_service_id : option string;
  er_grants : list EvaluateGrant;
}.

Record EvaluateResponse := MkEvaluateResponse {
  evaluate_verdict : string;
  evaluate_policy_bundle_version : string;
}.

(** [serde_json] on the two wire types; the error is its message *)
Record EvaluateCodec := MkEvaluateCodec {
  evaluate_to_vec : EvaluateRequest -> Result string bytes;
  evaluate_from_slice : bytes -> Result string EvaluateResponse;
}.

(** The crate [infernal_client]: its values are abstract, its errors are shown
    with [to_string]. *)
Record InfernalClient := MkInfernalClient {
  Client : Type;
  ClientPublicKey : Type;
  ClientRequestParts : Type;
  ClientSignedRequest : Type;
  Client_new : Result string Client;
  Client_with_extra_root_certificate : bytes -> Result string Client;
  ClientPublicKey_restore : Uuid -> Uuid -> Uuid -> bytes -> Result string ClientPublicKey;
  RequestParts_new : string -> string -> string -> string -> bytes -> Uuid ->
    Result string ClientRequestParts;
  SignedRequest_sign_with : ClientRequestParts -> ClientPublicKey -> Z -> Z -> string ->
    (bytes -> bytes) -> Result string ClientSignedRequest;
  Client_send : Client -> ClientSignedRequest -> Result string (Z * bytes);
}.

(** What one evaluation draws: a request id, a nonce (which can fail) and the time *)
Record EvaluationDraws := MkEvaluationDraws {
  draw_request_id : Uuid;
  draw_nonce : Result string string;
  draw_unix_time : Z;
}.

Definition evaluator_error {A} (r : Result string A) : Result AuthorityError A :=
  result_map_err AuthorityError_Evaluator r.

Definition EvaluateResponse_into_evaluation (r : EvaluateResponse) :
  Result AuthorityError PolicyEvaluation :=
  verdict ←
    (if String.eqb (evaluate_verdict r) "allow" then Ok Verdict_Allow
     else if String.eqb (evaluate_verdict r) "deny" then Ok Verdict_Deny
     else Err (AuthorityError_Evaluator ("unknown verdict: " +:+ evaluate_verdict r)));
  policy_bundle_version ← result_map_err
    (fun _ => AuthorityError_Evaluator "invalid policy bundle version")
    (PolicyBundleVersion_new (evaluate_policy_bundle_version r));
  Ok (MkPolicyEvaluation verdict policy_bundle_version).

Section client.
Context {P : Platform} (J : EvaluateCodec) (I : InfernalClient).

Definition EvaluateGrant_from (grant : Grant) : EvaluateGrant :=
  MkEvaluateGrant (GrantId_to_string (grant_id grant)) (ActorId_to_string (grant_source grant))
    (ActionName_as_str (grant_action grant)) (Scope_as_str (grant_scope grant))
    (SchemaVersionId_to_string (refs_artifact (grant_schema_versions grant)))
    (SchemaVersionId_to_string (refs_permission_policy (grant_schema_versions grant)))
    (ActorId_to_string <$> grant_destination grant) (grant_valid_from grant)
    (grant_valid_until grant).

Definition EvaluateRequest_from_facts_and_grants (facts : PolicyFacts) (grants : list Grant) :
  EvaluateRequest :=
  MkEvaluateRequest (ActorId_to_string (facts_source facts))
    (ActionName_as_str (facts_action facts)) (Scope_as_str (facts_scope facts))
    (SchemaVersionId_to_string (refs_artifact (facts_schema_versions facts)))
    (SchemaVersionId_to_string (refs_permission_policy (facts_schema_versions facts)))
    (ActorId_to_string <$> facts_destination facts) (map EvaluateGrant_from grants).

Record HttpPolicyEvaluator := MkHttpPolicyEvaluator {
  evaluator_client : Client I;
  evaluator_credential : InstanceCredential;
  evaluator_authority : string;
}.

Definition HttpPolicyEvaluator_new (credential : InstanceCredential) (authority : string) :
  Result AuthorityError HttpPolicyEvaluator :=
  client ← evaluator_error (Client_new I);
  Ok (MkHttpPolicyEvaluator client credential authority).

Definition HttpPolicyEvaluator_with_extra_root_certificate (credential : InstanceCredential)
  (authority : string) (extra_root_certificate_pem : bytes) :
  Result AuthorityError HttpPolicyEvaluator :=
  client ← evaluator_error (Client_with_extra_root_certificate I extra_root_certificate_pem);
  Ok (MkHttpPolicyEvaluator client credential authority).

Definition client_public_key (public_key : InstancePublicKey) :
  Result AuthorityError (ClientPublicKey I) :=
  evaluator_error (ClientPublicKey_restore I (ActorId_as_uuid (public_service_id public_key))
    (InstanceId_as_uuid (public_instance_id public_key))
    (KeyId_as_uuid (public_key_id public_key)) (public_key_bytes public_key)).

(** [now + SIGNATURE_VALIDITY_SECONDS] wraps in a release build. *)
Definition build_signed_request (credential : InstanceCredential) (authority : string)
  (draws : EvaluationDraws) (facts : PolicyFacts) (grants : list Grant) :
  Result AuthorityError (ClientSignedRequest I) :=
  body ← evaluator_error (evaluate_to_vec J (EvaluateRequest_from_facts_and_grants facts grants));
  let request_id := draw_request_id draws in
  nonce ← evaluator_error (draw_nonce draws);
  let now := draw_unix_time draws in
  parts ← evaluator_error
    (RequestParts_new I "POST" authority EVALUATE_PATH "application/json" body request_id);
  public_key ← client_public_key (credential_public_key credential);
  evaluator_error
    (SignedRequest_sign_with I parts public_key now (wrapping_add now EVALUATE_VALIDITY_SECONDS)
       nonce (fun message => InstanceSignature_as_bytes (InstanceCredential_sign credential message))).

Definition parse_response (status : Z) (body : bytes) : Result AuthorityError PolicyEvaluation :=
  if negb ((200 <=? status) && (status <? 300))%Z
  then Err (AuthorityError_Evaluator ("policy evaluator returned status " +:+ show_i64 status))
  else
    parsed ← evaluator_error (evaluate_from_slice J body);
    EvaluateResponse_into_evaluation parsed.

Definition HttpPolicyEvaluator_evaluate (E : HttpPolicyEvaluator) (draws : EvaluationDraws) :
  PolicyEvaluator := fun facts grants =>
  signed ← build_signed_request (evaluator_credential E) (evaluator_authority E) draws facts grants;
  '(status, body) ← evaluator_error (Client_send I (evaluator_client E) signed);
  parse_response status body.

(** ** What it promises *)

(** The remote evaluator permits only what it was answered: an evaluation is
    the verdict of a successful response to the request that was signed for these
    facts and grants; a failed transport, another status, an answer that cannot be
    read, an unknown verdict or an invalid bundle version is an error. *)
Theorem evaluate_only_answered E draws facts grants evaluation :
  HttpPolicyEvaluator_evaluate E draws facts grants = Ok evaluation ->
  exists signed status body answer,
    build_signed_request (evaluator_credential E) (evaluator_authority E) draws facts grants = Ok signed /\
    Client_send I (evaluator_client E) signed = Ok (status, body) /\ (200 <= status < 300)%Z /\
    evaluate_from_slice J body = Ok answer /\
    (evaluation_verdict evaluation = Verdict_Allow <-> evaluate_verdict answer = "allow") /\
    (evaluation_verdict evaluation = Verdict_Deny <-> evaluate_verdict answer = "deny") /\
    PolicyBundleVersion_as_str (evaluation_policy_bundle_version evaluation) =
      evaluate_policy_bundle_version answer /\
    (0 < len (evaluate_policy_bundle_version answer) <= MAX_POLICY_BUNDLE_VERSION_LENGTH)%Z.
Proof.
  unfold HttpPolicyEvaluator_evaluate, parse_response. intros H.
  apply result_bind_Ok in H as (signed & Hs & H).
  apply result_bind_Ok in H as ([status body] & Hsend & H).
  apply result_map_err_Ok in Hsend.
  destruct (negb _) eqn:Hst; [done|]. apply result_bind_Ok in H as (answer & Hp & H).
  apply result_map_err_Ok in Hp.
  exists signed, status, body, answer. bool_facts.
  split; [done|]. split; [done|]. split; [lia|]. split; [done|].
  unfold EvaluateResponse_into_evaluation in H. apply result_bind_Ok in H as (v & Hv & H).
  apply result_bind_Ok in H as (b & Hb & [= <-]). apply result_map_err_Ok in Hb.
  unfold PolicyBundleVersion_new in Hb. destruct (_ || _) eqn:Hg in Hb; [done|].
  injection Hb as <-. simpl. apply orb_false_iff in Hg as [He Hl].
  apply Z.ltb_ge in Hl.
  assert (0 < len (evaluate_policy_bundle_version answer))%Z as Hpos.
  { destruct (evaluate_policy_bundle_version answer); [done|]. unfold len. simpl. lia. }
  destruct (String.eqb_spec (evaluate_verdict answer) "allow") as [Ha|Ha].
  - injection Hv as <-. rewrite Ha. split_and!; try done.
  - destruct (String.eqb_spec (evaluate_verdict answer) "deny") as [Hd|Hd]; [|done].
    injection Hv as <-. split_and!; try done.
Qed.
End client.
