(* ===== verification/Wiring.v ===== *)
(** * Wiring: the process-wide services

    [src/wiring.rs]: which repositories the services of the deployed kernel use.
    The database handle is the state every repository runs on. *)

From S2P Require Import Prelude Text Platform Database Schema Identity InstanceKeys.
From S2P Require Import InstanceRegistry ServiceRequests ReplayProtection Admission RequestGate.
From S2P Require Import Authority PostgresAuthority Subscriptions Requests WorkClaims Handshakes.
From S2P Require Import Enrollment PolicyClient.

Record Application := MkApplication {
  application_admission : AdmissionRepository Tables;
  application_identities : IdentityRepository Tables;
  application_instance_credential : InstanceCredential;
  application_instance_registry : InstanceRegistryService Tables;
  application_subscriptions : SubscriptionRepository Tables;
  application_schemas : SchemaRepository Tables;
  application_replay_protection : ReplayProtectionRepository Tables;
  application_requests : RequestRepository Tables;
  application_routes : RouteRepository Tables;
  application_work_claims : WorkClaimRepository Tables;
}.

Section wiring.
Context {P : Platform} (J : EvaluateCodec) (I : InfernalClient).

(** [Application::new], after the migrations, with the credential it generates *)
Definition Application_new (instance_credential : InstanceCredential) : Application :=
  MkApplication PostgresAdmissionRepository PostgresIdentityRepository instance_credential
    (MkInstanceRegistryService _ PostgresInstanceRegistry LeasePolicy_default)
    PostgresSubscriptionRepository PostgresSchemaRepository PostgresReplayProtection
    PostgresRequestRepository PostgresRouteRepository PostgresWorkClaimRepository.

Definition Application_instance_public_key (application : Application) : InstancePublicKey :=
  credential_public_key (application_instance_credential application).

Definition Application_sign_as_instance (application : Application) (message : bytes) :
  InstanceSignature :=
  InstanceCredential_sign (application_instance_credential application) message.

Definition Application_service_request_gate (application : Application) :
  ServiceRequestGate (InstanceRegistryService Tables) (ReplayProtectionRepository Tables)
    (AdmissionRepository Tables) :=
  MkServiceRequestGate _ _ _ (application_instance_registry application)
    (application_replay_protection application) (application_admission application).

Definition Application_authority_service (application : Application) (evaluator_authority : string)
  (evaluator_id : ActorId) (evaluator_ca_cert_pem : option bytes) (draws : EvaluationDraws) :
  Result AuthorityError (AuthorityService Tables) :=
  evaluator ←
    match evaluator_ca_cert_pem with
    | Some pem => HttpPolicyEvaluator_with_extra_root_certificate I
        (application_instance_credential application) evaluator_authority pem
    | None => HttpPolicyEvaluator_new I (application_instance_credential application)
        evaluator_authority
    end;
  Ok (MkAuthorityService _ PostgresAuthorityRepository
        (HttpPolicyEvaluator_evaluate J I evaluator draws) evaluator_id PostgresDecisionRecorder).

Definition Application_handshake_reconciler (application : Application)
  (transport : HandshakeTransport Tables) : HandshakeReconciler Tables :=
  MkHandshakeReconciler _ (application_instance_credential application)
    PostgresSubscribedInstanceDiscovery PostgresHandshakeRepository transport.

Definition Application_enrollment_service (application : Application)
  (reviewer : WorkloadTokenReviewer Tables) : EnrollmentService Tables :=
  MkEnrollmentService _ reviewer PostgresEnrollmentBindingRepository
    (registry_service_repository (application_instance_registry application))
    (registry_service_lease_policy (application_instance_registry application)).
End wiring.
