(* ===== verification/Http.v ===== *)
(** * Http: the governed endpoints and the dispatcher

    [src/http.rs] between a parsed request and its response: the error responses,
    the queries that compose components, one definition per handler, and
    [dispatch]. A handler is a computation whose errors are the responses it
    returns early with. JSON is [Serde]'s, the environment and the two clients of
    other systems are parameters. *)

From S2P Require Import Prelude Text Platform Database Schema Identity InstanceKeys.
From S2P Require Import InstanceRegistry ServiceRequests ReplayProtection Admission RequestGate.
From S2P Require Import RequestNames Authority PostgresAuthority Subscriptions Requests.
From S2P Require Import WorkClaims Enrollment HttpParsing HttpDto PolicyClient Wiring.
From Stdlib Require Import Ascii.

Record Response := MkResponse {
  response_status : string;
  response_content_type : string;
  response_body : string;
}.

(** ** The interfaces the handlers are generic over *)

(** [trait GovernedRequestAuthenticator] *)
Class GovernedRequestAuthenticator (S A : Type) :=
  authenticate_governed : A -> SignedServiceRequest -> Z ->
    Db S ServiceRequestGateError AdmittedServiceRequest.

#[export] Instance gate_authenticates {S V R A} `{SignatureVerification S V, ReplayReserver S R,
    CommunicationAdmissionCheck S A} :
  GovernedRequestAuthenticator S (ServiceRequestGate V R A) := ServiceRequestGate_admit.

(** [trait EnrollmentAuthenticator], [trait WorkloadChallengeIssuer] *)
Class EnrollmentAuthenticator (S A : Type) :=
  authenticate_enrollment_request : A -> EnrollmentRequest -> Z ->
    Db S EnrollmentError RegisteredInstance.
Class WorkloadChallengeIssuer (S A : Type) :=
  issue_challenge_for_workload : A -> string -> string -> Z ->
    Db S EnrollmentError (ActorId * EnrollmentChallenge).

#[export] Instance enrollment_authenticates {P : Platform} {S} :
  EnrollmentAuthenticator S (EnrollmentService S) := EnrollmentService_authenticate_and_register.
#[export] Instance enrollment_issues {S} :
  WorkloadChallengeIssuer S (EnrollmentService S) := EnrollmentService_issue_challenge_for_workload.

(** [trait SubscriptionAuthorizer]: an invalid literal panics *)
Class SubscriptionAuthorizer (S A : Type) :=
  authorize_subscription_action : A -> ActorId -> string -> Z ->
    Db S AuthorityError AuthorityDecision.

#[export] Instance authority_authorizes_subscriptions {S} :
  SubscriptionAuthorizer S (AuthorityService S) := fun authority service_id action now =>
  match ActionName_new action with
  | Err _ => throw (AuthorityError_Evaluator "subscription action must be a valid literal")
  | Ok action =>
      AuthorityService_authorize authority
        (PolicyFacts_for_request_acceptance service_id action Scope_wildcard
           no_artifact_schema_versions) now
  end.

(** [trait RequestAuthorizer] *)
Class RequestAuthorizer (S A : Type) :=
  authorize_request : A -> PolicyFacts -> Z -> Db S AuthorityError AuthorityDecision.

#[export] Instance authority_authorizes_requests {S} :
  RequestAuthorizer S (AuthorityService S) := AuthorityService_authorize.

(** [trait RequestRouter] *)
Class RequestRouter (S R : Type) :=
  materialize_routes : R -> ActorId -> RequestId -> ActionName -> Z ->
    Db S RequestError (list Route).

Record SubscriptionRouter (S : Type) := MkSubscriptionRouter {
  router_subscriptions : SubscriptionRepository S;
  router_routes : RouteRepository S;
}.
Arguments router_subscriptions {S}.
Arguments router_routes {S}.

(** [iter.map(f).collect::<Result<Vec<_>, _>>()] with effects: stops at an error *)
Fixpoint traverse {S E A B} (f : A -> Db S E B) (l : list A) : Db S E (list B) :=
  match l with
  | [] => mret []
  | a :: l => b ← f a; bs ← traverse f l; mret (b :: bs)
  end.

Definition is_inclusive (s : Subscription) : bool :=
  match subscription_delivery_mode s with DeliveryMode_Inclusive => true end.

(** ** Time *)

(** Seconds since the epoch, from the supply: a [u64] cut at [i64::MAX] *)
Definition unix_time {S E} : Db S E Z :=
  n ← random; mret (Z.min (Z.of_N (n mod 2 ^ 64)) i64_max).

(** ** Responses *)

Definition text_response (status body : string) : Response :=
  MkResponse status "text/plain" body.

(** [std::str::split('?').next()] *)
Definition path_of (path_and_query : string) : string :=
  default path_and_query (head (split_char "?" path_and_query)).

Definition is_json_content_type (value : string) : bool :=
  match head (split_char ";" value) with
  | Some media_type => eq_ignore_ascii_case (trim media_type) "application/json"
  | None => false
  end.

(** [content_type.as_deref().is_some_and(is_json_content_type)] *)
Definition has_json_content_type (content_type : option string) : bool :=
  match content_type with Some value => is_json_content_type value | None => false end.

Definition is_claim_action_path (path : string) : bool :=
  starts_with "/v1/claims/" path
  && (ends_with "/renew" path || ends_with "/release" path || ends_with "/complete" path).

Definition is_governed_route (path : string) : bool :=
  let path := path_of path in
  String.eqb path "/v1/subscriptions"
  || starts_with "/v1/subscriptions/" path
  || String.eqb path "/v1/authority/schemas"
  || String.eqb path "/v1/requests"
  || starts_with "/v1/requests/" path
  || String.eqb path "/v1/routes/eligible"
  || (starts_with "/v1/routes/" path && ends_with "/claims" path)
  || (starts_with "/v1/routes/" path && ends_with "/request" path)
  || is_claim_action_path path
  || String.eqb path "/v1/instances/renew".

Definition is_supported_governed_method (method path : string) : bool :=
  let path := path_of path in
  (String.eqb path "/v1/subscriptions" && (String.eqb method "GET" || String.eqb method "POST"))
  || (starts_with "/v1/subscriptions/" path && String.eqb method "DELETE")
  || (String.eqb path "/v1/authority/schemas" && String.eqb method "POST")
  || (String.eqb path "/v1/requests" && String.eqb method "POST")
  || (starts_with "/v1/requests/" path && String.eqb method "GET")
  || (String.eqb path "/v1/routes/eligible" && String.eqb method "GET")
  || (starts_with "/v1/routes/" path && ends_with "/claims" path && String.eqb method "POST")
  || (starts_with "/v1/routes/" path && ends_with "/request" path && String.eqb method "GET")
  || (is_claim_action_path path && String.eqb method "POST")
  || (String.eqb path "/v1/instances/renew" && String.eqb method "POST").

Definition route (path : string) : Response :=
  if String.eqb path "/" then
    MkResponse "200 OK" "application/json"
      ("{" +:+ quoted "service" +:+ ":" +:+ quoted "infernal-law" +:+ "}" +:+ nl)
  else if String.eqb path "/health/live" then text_response "200 OK" ("ok" +:+ nl)
  else text_response "404 Not Found" ("not found" +:+ nl).

Definition readiness_response (database_ready : bool) : Response :=
  if database_ready then text_response "200 OK" ("ok" +:+ nl)
  else text_response "503 Service Unavailable" ("database unavailable" +:+ nl).

Definition method_not_allowed : Response :=
  text_response "405 Method Not Allowed" ("method not allowed" +:+ nl).

(** [GovernedErrorResponse]'s constants *)
Definition error_authentication_rejected :=
  MkGovernedErrorResponse "request_rejected" "request authentication failed".
Definition error_communication_disabled :=
  MkGovernedErrorResponse "communication_disabled" "service communication is disabled".
Definition error_unavailable :=
  MkGovernedErrorResponse "security_boundary_unavailable" "request security checks are unavailable".
Definition error_invalid_subscription_request :=
  MkGovernedErrorResponse "invalid_subscription_request" "subscription request is invalid".
Definition error_subscription_not_found :=
  MkGovernedErrorResponse "subscription_not_found" "subscription was not found".
Definition error_subscription_conflict :=
  MkGovernedErrorResponse "subscription_conflict" "subscription already exists in that state".
Definition error_internal_error :=
  MkGovernedErrorResponse "internal_error" "request could not be completed".
Definition error_subscription_not_authorized :=
  MkGovernedErrorResponse "subscription_not_authorized" "subscription action is not authorized".
Definition error_invalid_instance_renewal_request :=
  MkGovernedErrorResponse "invalid_instance_renewal_request" "instance renewal request is invalid".
Definition error_instance_lease_conflict :=
  MkGovernedErrorResponse "instance_lease_conflict"
    "instance lease revision does not match the current lease".
Definition error_instance_not_found :=
  MkGovernedErrorResponse "instance_not_found" "instance was not found".
Definition error_invalid_schema_request :=
  MkGovernedErrorResponse "invalid_schema_request" "schema request is invalid".
Definition error_schema_namespace_conflict :=
  MkGovernedErrorResponse "schema_namespace_conflict" "schema name is owned by a different service".
Definition error_invalid_request :=
  MkGovernedErrorResponse "invalid_request" "request submission is invalid".
Definition error_request_conflict :=
  MkGovernedErrorResponse "request_conflict" "request ID is bound to different content".
Definition error_request_not_found :=
  MkGovernedErrorResponse "request_not_found" "request was not found".
Definition error_invalid_route_id :=
  MkGovernedErrorResponse "invalid_route_id" "route ID must be a UUID".
Definition error_request_not_authorized :=
  MkGovernedErrorResponse "request_not_authorized" "request is not authorized".
Definition error_invalid_work_claim_request :=
  MkGovernedErrorResponse "invalid_work_claim_request" "work claim request is invalid".
Definition error_claim_not_found :=
  MkGovernedErrorResponse "claim_not_found" "claim or route was not found".
Definition error_route_already_claimed :=
  MkGovernedErrorResponse "route_already_claimed" "route already has an active claim".
Definition error_route_already_completed :=
  MkGovernedErrorResponse "route_already_completed" "route has already been completed".
Definition error_claim_fenced :=
  MkGovernedErrorResponse "claim_fenced" "fencing token does not match the current active claim".

(** [MalformedRequestResponse]'s constants *)
Definition error_malformed_request :=
  MkGovernedErrorResponse "malformed_request" "the HTTP request could not be parsed".
Definition error_payload_too_large :=
  MkGovernedErrorResponse "payload_too_large"
    "the request body exceeds the maximum accepted size".

Section responses.
Context {J : Serde}.

Definition json_response (status : string) (value : Dto) : Response :=
  match serde_to_string value with
  | Some body => MkResponse status "application/json" (body +:+ nl)
  | None =>
      MkResponse "500 Internal Server Error" "application/json"
        ("{" +:+ quoted "code" +:+ ":" +:+ quoted "internal_error" +:+ "," +:+ quoted "message"
         +:+ ":" +:+ quoted "response serialization failed" +:+ "}" +:+ nl)
  end.

Definition json_error (status : string) (error : GovernedErrorResponse) : Response :=
  json_response status (Dto_error error).

Definition authentication_rejected : Response :=
  json_error "401 Unauthorized" error_authentication_rejected.

Definition internal_unavailable : Response :=
  json_error "503 Service Unavailable" error_internal_error.

Definition gate_error_response (error : ServiceRequestGateError) : Response :=
  match error with
  | GateError_Admission (AdmissionError_Disabled _) =>
      json_error "403 Forbidden" error_communication_disabled
  | GateError_Signature (Authentication_Registry (InstanceRegistryError_Repository _))
  | GateError_Replay (ReplayProtectionError_Repository _)
  | GateError_Admission (AdmissionError_Repository _)
  | GateError_Admission AdmissionError_InvalidStoredRecord =>
      json_error "503 Service Unavailable" error_unavailable
  | _ => authentication_rejected
  end.

Definition subscription_error_response (error : SubscriptionError) : Response :=
  match error with
  | SubscriptionError_InvalidEventType
  | SubscriptionError_InvalidSubscriptionId
  | SubscriptionError_InvalidTimestamp =>
      json_error "400 Bad Request" error_invalid_subscription_request
  | SubscriptionError_NotFound _ => json_error "404 Not Found" error_subscription_not_found
  | SubscriptionError_AlreadyDisabled _ | SubscriptionError_DuplicateActive _ _ =>
      json_error "409 Conflict" error_subscription_conflict
  | SubscriptionError_UnknownService _ => authentication_rejected
  | SubscriptionError_AlreadyExists _ | SubscriptionError_Repository _ => internal_unavailable
  end.

Definition request_error_response (error : RequestError) : Response :=
  match error with
  | RequestError_InvalidRequestId
  | RequestError_InvalidActionName
  | RequestError_InvalidAcceptedAt => json_error "400 Bad Request" error_invalid_request
  | RequestError_RequestIdConflict _ => json_error "409 Conflict" error_request_conflict
  | RequestError_UnknownSource _ => authentication_rejected
  | RequestError_UnknownSchemaVersion
  | RequestError_UnknownSubscription
  | RequestError_InvalidRouteId
  | RequestError_Repository _ => internal_unavailable
  end.

Definition schema_error_response (error : AuthorityError) : Response :=
  match error with
  | AuthorityError_InvalidSchemaName | AuthorityError_InvalidSchemaVersion =>
      json_error "400 Bad Request" error_invalid_schema_request
  | AuthorityError_SchemaNamespaceConflict _ =>
      json_error "409 Conflict" error_schema_namespace_conflict
  | _ => internal_unavailable
  end.

Definition instance_renewal_error_response (error : InstanceRegistryError) : Response :=
  match error with
  | InstanceRegistryError_RevisionConflict _ => json_error "409 Conflict" error_instance_lease_conflict
  | InstanceRegistryError_NotFound _ | InstanceRegistryError_Revoked _ | InstanceRegistryError_Expired _ =>
      json_error "404 Not Found" error_instance_not_found
  | _ => internal_unavailable
  end.

Definition work_claim_error_response (error : WorkClaimError) : Response :=
  match error with
  | WorkClaimError_InvalidClaimId
  | WorkClaimError_InvalidFencingToken
  | WorkClaimError_InvalidLease
  | WorkClaimError_InvalidTimestamp => json_error "400 Bad Request" error_invalid_work_claim_request
  | WorkClaimError_RouteNotFound _ | WorkClaimError_NotFound _ =>
      json_error "404 Not Found" error_claim_not_found
  | WorkClaimError_AlreadyClaimed _ => json_error "409 Conflict" error_route_already_claimed
  | WorkClaimError_AlreadyCompleted _ => json_error "409 Conflict" error_route_already_completed
  | WorkClaimError_Fenced => json_error "409 Conflict" error_claim_fenced
  | WorkClaimError_Repository _ => internal_unavailable
  end.

(** The status of an enrollment failure, by the code of its response *)
Definition enrollment_failure (error : EnrollmentError) : Response :=
  let response := EnrollmentErrorResponse_from_enrollment_error error in
  let status :=
    if String.eqb (error_code response) "enrollment_rejected" then "401 Unauthorized"
    else if String.eqb (error_code response) "invalid_enrollment_request" then "400 Bad Request"
    else "503 Service Unavailable" in
  json_error status response.
End responses.

(** ** Queries that compose components *)

Section queries.
Context {P : Platform} {S : Type}.

#[export] Instance SubscriptionRouter_routes : RequestRouter S (SubscriptionRouter S) :=
  fun router source_service request_id action now =>
    event_type ← lift (result_map_err
      (fun _ => RequestError_Repository "action is not a valid event type")
      (EventType_new (ActionName_as_str action)));
    matching ← map_err (fun error => RequestError_Repository (SubscriptionError_to_string error))
      (SubscriptionService_find_active_by_event_type (router_subscriptions router) event_type);
    traverse (fun subscription =>
        RouteService_materialize (router_routes router) source_service request_id
          (subscription_id subscription) (subscription_service_id subscription) now)
      (List.filter is_inclusive matching).

Record EligibleRouteQuery := MkEligibleRouteQuery {
  eligible_routes : RouteRepository S;
  eligible_work_claims : WorkClaimRepository S;
}.

Definition EligibleRouteQuery_eligible_for (query : EligibleRouteQuery)
  (destination_service : ActorId) (now : Z) : Db S RequestError (list Route) :=
  routes ← RouteService_list_for_destination (eligible_routes query) destination_service;
  let route_ids := map route_id routes in
  claimed ← map_err (fun error => RequestError_Repository (WorkClaimError_to_string error))
    (WorkClaimService_active_route_ids (eligible_work_claims query) route_ids now);
  completed ← map_err (fun error => RequestError_Repository (WorkClaimError_to_string error))
    (WorkClaimService_completed_route_ids (eligible_work_claims query) route_ids);
  mret (List.filter (fun route => negb (bool_decide (route_id route ∈ claimed))
                                  && negb (bool_decide (route_id route ∈ completed))) routes).

Record RoutedRequestQuery := MkRoutedRequestQuery {
  routed_routes : RouteRepository S;
  routed_requests : RequestRepository S;
}.

Definition RoutedRequestQuery_find_for_destination (query : RoutedRequestQuery) (caller : ActorId)
  (route_id : RouteId) : Db S RequestError (option AcceptedRequest) :=
  found ← RouteService_find (routed_routes query) route_id;
  match found with
  | Some route =>
      if bool_decide (route_destination_service route = caller) then
        RequestService_find (routed_requests query) (route_source_service route)
          (route_request_id route)
      else mret None
  | None => mret None
  end.
End queries.
Arguments EligibleRouteQuery S : clear implicits.
Arguments RoutedRequestQuery S : clear implicits.

(** ** The handlers *)

Section handlers.
Context {P : Platform} {J : Serde} {S : Type}.

Definition authenticate_governed_request {A} `{GovernedRequestAuthenticator S A}
  (request : GovernedHttpRequest) (authenticator : A) (now : Z) :
  Db S Response AdmittedServiceRequest :=
  signed ← lift (result_map_err (fun _ => authentication_rejected)
                   (GovernedHttpRequest_into_signed request));
  map_err gate_error_response (authenticate_governed authenticator signed now).

Definition check_authorized {A E} `{SubscriptionAuthorizer S A} (authority : A)
  (service_id : ActorId) (action : string) : Db S E (option Response) :=
  now ← unix_time;
  result ← attempt (authorize_subscription_action authority service_id action now);
  mret match result with
       | Ok decision =>
           if AuthorityDecision_is_allowed decision then None
           else Some (json_error "403 Forbidden" error_subscription_not_authorized)
       | Err _ => Some internal_unavailable
       end.

(** [if let Some(response) = .. { return response; }] *)
Definition return_if (response : option Response) : Db S Response unit :=
  match response with Some response => throw response | None => mret tt end.

Definition create_subscription {A} `{SubscriptionAuthorizer S A} (request : ParsedRequest)
  (service_id : ActorId) (subscriptions : SubscriptionRepository S) (authority : A) :
  Db S Response Response :=
  if negb (has_json_content_type (parsed_content_type request))
  then throw (json_error "415 Unsupported Media Type" error_invalid_subscription_request)
  else
    dto ← lift (ok_or (json_error "400 Bad Request" error_invalid_subscription_request)
                  (from_slice_create_subscription (parsed_body request)));
    event_type ← lift (result_map_err subscription_error_response
                         (CreateSubscriptionRequest_event_type dto));
    response ← check_authorized authority service_id "subscription.create";
    return_if response;;
    now ← unix_time;
    subscription ← map_err subscription_error_response
      (SubscriptionService_create subscriptions service_id event_type DeliveryMode_Inclusive now);
    mret (json_response "201 Created" (Dto_subscription (SubscriptionResponse_from subscription))).

Definition list_subscriptions (path_and_query : string) (service_id : ActorId)
  (subscriptions : SubscriptionRepository S) : Db S Response Response :=
  let active_only :=
    match split_once "?" path_and_query with
    | Some (_, query) => existsb (fun pair => String.eqb pair "active=true") (split_char "&" query)
    | None => false
    end in
  values ← map_err subscription_error_response
    (if active_only then SubscriptionService_list_active subscriptions service_id
     else SubscriptionService_list subscriptions service_id);
  mret (json_response "200 OK" (Dto_subscriptions (map SubscriptionResponse_from values))).

Definition disable_subscription {A} `{SubscriptionAuthorizer S A} (id : string)
  (service_id : ActorId) (subscriptions : SubscriptionRepository S) (authority : A) :
  Db S Response Response :=
  subscription_id ← lift (result_map_err
    (fun _ => json_error "400 Bad Request" error_invalid_subscription_request)
    (SubscriptionId_from_str id));
  response ← check_authorized authority service_id "subscription.disable";
  return_if response;;
  now ← unix_time;
  subscription ← map_err subscription_error_response
    (SubscriptionService_disable subscriptions service_id subscription_id now);
  mret (json_response "200 OK" (Dto_subscription (SubscriptionResponse_from subscription))).

Definition subscription_route {A} `{SubscriptionAuthorizer S A} (request : ParsedRequest)
  (service_id : ActorId) (subscriptions : SubscriptionRepository S) (authority : A) :
  Db S Response Response :=
  let path := path_of (parsed_path request) in
  if String.eqb path "/v1/subscriptions" then
    if String.eqb (parsed_method request) "POST"
    then create_subscription request service_id subscriptions authority
    else if String.eqb (parsed_method request) "GET"
    then list_subscriptions (parsed_path request) service_id subscriptions
    else mret method_not_allowed
  else match strip_prefix "/v1/subscriptions/" path with
       | Some id => disable_subscription id service_id subscriptions authority
       | None => mret (text_response "404 Not Found" ("not found" +:+ nl))
       end.

Definition submit_request {A R} `{RequestAuthorizer S A, RequestRouter S R}
  (request : ParsedRequest) (service_id : ActorId) (envelope_request_id : RequestId)
  (requests : RequestRepository S) (authority : A) (router : R) : Db S Response Response :=
  if negb (has_json_content_type (parsed_content_type request))
  then throw (json_error "415 Unsupported Media Type" error_invalid_request)
  else
    dto ← lift (ok_or (json_error "400 Bad Request" error_invalid_request)
                  (from_slice_submit_request (parsed_body request)));
    submitted ← lift (result_map_err (fun _ => json_error "400 Bad Request" error_invalid_request)
      (SubmitRequestRequest_into_request dto service_id envelope_request_id));
    now ← unix_time;
    let facts := PolicyFacts_for_request_acceptance service_id (request_action submitted)
                   (request_scope submitted) (request_schema_versions submitted) in
    decision ← map_err (fun _ => internal_unavailable) (authorize_request authority facts now);
    if negb (AuthorityDecision_is_allowed decision)
    then throw (json_error "403 Forbidden" error_request_not_authorized)
    else
      let fingerprint := Request_fingerprint submitted in
      acceptance ← map_err request_error_response
        (RequestService_accept requests submitted fingerprint);
      let '(status, record) := match acceptance with
        | RequestAcceptance_Accepted record => ("201 Created", record)
        | RequestAcceptance_SafeRetry record => ("200 OK", record)
        end in
      attempt (materialize_routes router (request_source_service (accepted_request record))
                 (request_id (accepted_request record)) (request_action (accepted_request record)) now);;
      mret (json_response status (Dto_request (AcceptedRequestResponse_from record))).

Definition find_request (id : string) (service_id : ActorId) (requests : RequestRepository S) :
  Db S Response Response :=
  request_id ← lift (result_map_err (fun _ => json_error "400 Bad Request" error_invalid_request)
                       (RequestId_from_str id));
  found ← map_err request_error_response (RequestService_find requests service_id request_id);
  mret match found with
       | Some record => json_response "200 OK" (Dto_request (AcceptedRequestResponse_from record))
       | None => json_error "404 Not Found" error_request_not_found
       end.

Definition request_route {A R} `{RequestAuthorizer S A, RequestRouter S R}
  (request : ParsedRequest) (service_id : ActorId) (envelope_request_id : RequestId)
  (requests : RequestRepository S) (authority : A) (router : R) : Db S Response Response :=
  let path := path_of (parsed_path request) in
  if String.eqb path "/v1/requests" then
    if String.eqb (parsed_method request) "POST"
    then submit_request request service_id envelope_request_id requests authority router
    else mret method_not_allowed
  else match strip_prefix "/v1/requests/" path with
       | Some id => find_request id service_id requests
       | None => mret (text_response "404 Not Found" ("not found" +:+ nl))
       end.

Definition publish_schema (request : ParsedRequest) (service_id : ActorId)
  (schemas : SchemaRepository S) : Db S Response Response :=
  let invalid := json_error "400 Bad Request" error_invalid_schema_request in
  if negb (has_json_content_type (parsed_content_type request))
  then throw (json_error "415 Unsupported Media Type" error_invalid_schema_request)
  else
    dto ← lift (ok_or invalid (from_slice_publish_schema (parsed_body request)));
    kind ← lift (result_map_err (fun _ => invalid) (PublishSchemaRequest_kind dto));
    name ← lift (result_map_err (fun _ => invalid) (PublishSchemaRequest_name dto));
    content_digest ← lift (result_map_err (fun _ => invalid)
                             (PublishSchemaRequest_content_digest dto));
    now ← unix_time;
    record ← map_err schema_error_response
      (SchemaService_publish schemas kind name service_id content_digest now);
    mret (json_response "201 Created" (Dto_schema (SchemaVersionResponse_from record))).

Definition list_eligible_routes (service_id : ActorId) (routes : RouteRepository S)
  (work_claims : WorkClaimRepository S) : Db S Response Response :=
  now ← unix_time;
  values ← map_err request_error_response
    (EligibleRouteQuery_eligible_for (MkEligibleRouteQuery routes work_claims) service_id now);
  mret (json_response "200 OK" (Dto_routes (map RouteResponse_from values))).

Definition find_routed_request (id : string) (service_id : ActorId) (routes : RouteRepository S)
  (requests : RequestRepository S) : Db S Response Response :=
  route_id ← lift (result_map_err (fun _ => json_error "400 Bad Request" error_invalid_route_id)
                     (RouteId_from_str id));
  found ← map_err request_error_response
    (RoutedRequestQuery_find_for_destination (MkRoutedRequestQuery routes requests) service_id
       route_id);
  mret match found with
       | Some record => json_response "200 OK" (Dto_request (AcceptedRequestResponse_from record))
       | None => json_error "404 Not Found" error_claim_not_found
       end.

Definition invalid_claim_request : Response :=
  json_error "400 Bad Request" error_invalid_work_claim_request.
Definition unsupported_claim_request : Response :=
  json_error "415 Unsupported Media Type" error_invalid_work_claim_request.

Definition claim_route (request : ParsedRequest) (worker_service : ActorId)
  (worker_instance : InstanceId) (id : string) (claims : WorkClaimRepository S) :
  Db S Response Response :=
  route_id ← lift (result_map_err (fun _ => invalid_claim_request) (RouteId_from_str id));
  if negb (has_json_content_type (parsed_content_type request)) then throw unsupported_claim_request
  else
    dto ← lift (ok_or invalid_claim_request (from_slice_claim (parsed_body request)));
    now ← unix_time;
    lease_expires_at ← lift (ok_or invalid_claim_request (ClaimRequest_lease_expires_at dto now));
    claim ← map_err work_claim_error_response
      (WorkClaimService_claim claims route_id worker_service worker_instance lease_expires_at now);
    mret (json_response "201 Created" (Dto_claim (WorkClaimResponse_from claim))).

Definition renew_claim_route (request : ParsedRequest) (id : string)
  (claims : WorkClaimRepository S) : Db S Response Response :=
  claim_id ← lift (result_map_err (fun _ => invalid_claim_request) (ClaimId_from_str id));
  if negb (has_json_content_type (parsed_content_type request)) then throw unsupported_claim_request
  else
    dto ← lift (ok_or invalid_claim_request (from_slice_renew (parsed_body request)));
    now ← unix_time;
    lease_expires_at ← lift (ok_or invalid_claim_request (RenewRequest_lease_expires_at dto now));
    claim ← map_err work_claim_error_response
      (WorkClaimService_renew claims claim_id (renew_fencing_token dto) lease_expires_at now);
    mret (json_response "200 OK" (Dto_claim (WorkClaimResponse_from claim))).

Definition parse_fenced_action (id : string) (request : ParsedRequest) :
  Result Response (ClaimId * FencedActionRequest) :=
  claim_id ← result_map_err (fun _ => invalid_claim_request) (ClaimId_from_str id);
  if negb (has_json_content_type (parsed_content_type request)) then Err unsupported_claim_request
  else
    dto ← ok_or invalid_claim_request (from_slice_fenced_action (parsed_body request));
    Ok (claim_id, dto).

Definition release_claim_route (request : ParsedRequest) (id : string)
  (claims : WorkClaimRepository S) : Db S Response Response :=
  '(claim_id, dto) ← lift (parse_fenced_action id request);
  now ← unix_time;
  claim ← map_err work_claim_error_response
    (WorkClaimService_release claims claim_id (fenced_fencing_token dto) now);
  mret (json_response "200 OK" (Dto_claim (WorkClaimResponse_from claim))).

Definition complete_claim_route (request : ParsedRequest) (id : string)
  (claims : WorkClaimRepository S) : Db S Response Response :=
  '(claim_id, dto) ← lift (parse_fenced_action id request);
  now ← unix_time;
  claim ← map_err work_claim_error_response
    (WorkClaimService_complete claims claim_id (fenced_fencing_token dto) now);
  mret (json_response "200 OK" (Dto_claim (WorkClaimResponse_from claim))).

Definition renew_instance_route (request : ParsedRequest) (instance_id : InstanceId)
  (instances : InstanceRegistryService S) : Db S Response Response :=
  if negb (has_json_content_type (parsed_content_type request))
  then throw (json_error "415 Unsupported Media Type" error_invalid_instance_renewal_request)
  else
    dto ← lift (ok_or (json_error "400 Bad Request" error_invalid_instance_renewal_request)
                  (from_slice_instance_renewal (parsed_body request)));
    now ← unix_time;
    instance ← map_err instance_renewal_error_response
      (InstanceRegistryService_renew (registry_service_repository instances)
         (registry_service_lease_policy instances) instance_id (renewal_expected_revision dto) now);
    mret (json_response "200 OK" (Dto_instance (EnrollmentSuccessResponse_from instance))).

(** ** Enrollment endpoints *)

Definition malformed_enrollment (status : string) : Response :=
  json_error status EnrollmentErrorResponse_malformed_request.

Definition parse_enrollment_request (content_type : option string) (body : bytes) :
  Result Response EnrollmentRequest :=
  if (MAX_ENROLLMENT_BODY_BYTES <? len body)%Z then Err (malformed_enrollment "413 Payload Too Large")
  else if negb (has_json_content_type content_type)
  then Err (malformed_enrollment "415 Unsupported Media Type")
  else
    dto ← ok_or (malformed_enrollment "400 Bad Request") (from_slice_enrollment_submission body);
    result_map_err (fun _ => malformed_enrollment "400 Bad Request")
      (EnrollmentSubmissionRequest_into_domain dto).

Definition parse_workload_challenge_request (content_type : option string) (body : bytes) :
  Result Response WorkloadChallengeRequest :=
  if (MAX_ENROLLMENT_BODY_BYTES <? len body)%Z then Err (malformed_enrollment "413 Payload Too Large")
  else if negb (has_json_content_type content_type)
  then Err (malformed_enrollment "415 Unsupported Media Type")
  else ok_or (malformed_enrollment "400 Bad Request") (from_slice_workload_challenge body).

Definition issue_workload_challenge {A} `{WorkloadChallengeIssuer S A}
  (request : WorkloadChallengeRequest) (service : A) (now : Z) : Db S Response Response :=
  '(service_id, challenge) ← map_err enrollment_failure
    (issue_challenge_for_workload service (challenge_workload_token request)
       (challenge_pod_uid request) now);
  mret match EnrollmentChallengeResponse_new service_id challenge now with
       | Ok body => json_response "201 Created" (Dto_challenge body)
       | Err _ => json_error "503 Service Unavailable"
                    (EnrollmentErrorResponse_from_enrollment_error EnrollmentError_InvalidField)
       end.

Definition authenticate_enrollment {A} `{EnrollmentAuthenticator S A} (request : EnrollmentRequest)
  (authenticator : A) (now : Z) : Db S Response Response :=
  registered ← map_err enrollment_failure
    (authenticate_enrollment_request authenticator request now);
  mret (json_response "201 Created" (Dto_instance (EnrollmentSuccessResponse_from registered))).

Definition enrollment_response {A} `{EnrollmentAuthenticator S A} (content_type : option string)
  (body : bytes) (authenticator : A) (now : Z) : Db S Response Response :=
  request ← lift (parse_enrollment_request content_type body);
  authenticate_enrollment request authenticator now.
End handlers.

(** ** The dispatcher *)

Definition POLICY_EVALUATOR_AUTHORITY_ENV : string := "POLICY_EVALUATOR_AUTHORITY".
Definition POLICY_EVALUATOR_ID_ENV : string := "POLICY_EVALUATOR_ID".
Definition POLICY_EVALUATOR_CA_CERT_PATH_ENV : string := "POLICY_EVALUATOR_CA_CERT_PATH".

(** The process around a request: variables, files, the Kubernetes client of this
    environment, and what a call of the policy evaluator draws *)
Record Environment := MkEnvironment {
  env_var : string -> option string;
  fs_read : string -> option bytes;
  token_reviewer_from_env : Result EnrollmentError (WorkloadTokenReviewer Tables);
  evaluation_draws : EvaluationDraws;
}.

Section dispatcher.
Context {P : Platform} {J : Serde} (EJ : EvaluateCodec) (I : InfernalClient) (env : Environment).

Definition policy_evaluator_from_env (application : Application) :
  Result Response (AuthorityService Tables) :=
  evaluator_authority ← ok_or internal_unavailable (env_var env POLICY_EVALUATOR_AUTHORITY_ENV);
  evaluator_id ← ok_or internal_unavailable
    (value ← env_var env POLICY_EVALUATOR_ID_ENV;
     match ActorId_from_str value with Ok id => Some id | Err _ => None end);
  evaluator_ca_cert ←
    match env_var env POLICY_EVALUATOR_CA_CERT_PATH_ENV with
    | Some path => Some <$> ok_or internal_unavailable (fs_read env path)
    | None => Ok None
    end;
  result_map_err (fun _ => internal_unavailable)
    (Application_authority_service EJ I application evaluator_authority evaluator_id
       evaluator_ca_cert (evaluation_draws env)).

(** [Database::check_connection] *)
Definition check_connection : Db Tables unit unit :=
  connection (fun _ => tt);;
  query (fun _ => tt) (fun _ => tt).

Definition dispatch_enrollment_challenge (request : ParsedRequest) (application : Application) :
  Db Tables Response Response :=
  if negb (String.eqb (parsed_method request) "POST") then mret method_not_allowed
  else
    challenge_request ← lift (parse_workload_challenge_request (parsed_content_type request)
                                (parsed_body request));
    reviewer ← lift (result_map_err
      (fun error => json_error "503 Service Unavailable"
                      (EnrollmentErrorResponse_from_enrollment_error error))
      (token_reviewer_from_env env));
    let service := Application_enrollment_service application reviewer in
    now ← unix_time;
    issue_workload_challenge challenge_request service now.

Definition dispatch_enrollment (request : ParsedRequest) (application : Application) :
  Db Tables Response Response :=
  if negb (String.eqb (parsed_method request) "POST") then mret method_not_allowed
  else
    enrollment_request ← lift (parse_enrollment_request (parsed_content_type request)
                                 (parsed_body request));
    reviewer ← lift (result_map_err
      (fun error => json_error "503 Service Unavailable"
                      (EnrollmentErrorResponse_from_enrollment_error error))
      (token_reviewer_from_env env));
    let service := Application_enrollment_service application reviewer in
    now ← unix_time;
    authenticate_enrollment enrollment_request service now.

(** The endpoint of an admitted request *)
Definition dispatch_admitted (request : ParsedRequest) (application : Application)
  (verified : VerifiedServiceRequest) : Db Tables Response Response :=
  let service_id := verified_service_id verified in
  let path := path_of (parsed_path request) in
  if String.eqb path "/v1/authority/schemas" then
    publish_schema request service_id (application_schemas application)
  else if String.eqb path "/v1/routes/eligible" then
    list_eligible_routes service_id (application_routes application)
      (application_work_claims application)
  else match strip_prefix "/v1/routes/" path ≫= strip_suffix "/claims" with
  | Some route_id =>
      claim_route request service_id (verified_instance_id verified) route_id
        (application_work_claims application)
  | None =>
  match strip_prefix "/v1/routes/" path ≫= strip_suffix "/request" with
  | Some route_id =>
      find_routed_request route_id service_id (application_routes application)
        (application_requests application)
  | None =>
  match strip_prefix "/v1/claims/" path ≫= strip_suffix "/renew" with
  | Some claim_id => renew_claim_route request claim_id (application_work_claims application)
  | None =>
  match strip_prefix "/v1/claims/" path ≫= strip_suffix "/release" with
  | Some claim_id => release_claim_route request claim_id (application_work_claims application)
  | None =>
  match strip_prefix "/v1/claims/" path ≫= strip_suffix "/complete" with
  | Some claim_id => complete_claim_route request claim_id (application_work_claims application)
  | None =>
    if String.eqb path "/v1/instances/renew" then
      renew_instance_route request (verified_instance_id verified)
        (application_instance_registry application)
    else
      authority ← lift (policy_evaluator_from_env application);
      if String.eqb path "/v1/requests" || starts_with "/v1/requests/" path then
        let envelope_request_id := MkRequestId (verified_request_id verified) in
        let router := MkSubscriptionRouter _ (application_subscriptions application)
                        (application_routes application) in
        request_route request service_id envelope_request_id (application_requests application)
          authority router
      else subscription_route request service_id (application_subscriptions application) authority
  end end end end end.

Definition dispatch_governed (request : ParsedRequest) (application : Application) :
  Db Tables Response Response :=
  if negb (is_supported_governed_method (parsed_method request) (parsed_path request))
  then mret method_not_allowed
  else match ParsedRequest_as_governed request with
  | None => mret authentication_rejected
  | Some governed =>
      let gate := Application_service_request_gate application in
      now ← unix_time;
      admitted ← authenticate_governed_request governed gate now;
      dispatch_admitted request application (admitted_verified admitted)
  end.

Definition dispatch (request : ParsedRequest) (application : Application) :
  Db Tables Response Response :=
  let path := parsed_path request in
  if String.eqb path "/v1/enrollments/challenges" then
    dispatch_enrollment_challenge request application
  else if String.eqb path "/v1/enrollments" then dispatch_enrollment request application
  else if is_governed_route path then dispatch_governed request application
  else if String.eqb path "/health/ready" then
    ready ← attempt check_connection;
    mret (readiness_response (is_ok ready))
  else if String.eqb path "/v1/kernel-identity" then
    if negb (String.eqb (parsed_method request) "GET") then mret method_not_allowed
    else mret (json_response "200 OK"
                 (Dto_identity (KernelIdentityResponse_from
                                  (Application_instance_public_key application))))
  else mret (route path).

(** ** The connection *)

(** The response of a handler, returned early or not *)
Definition respond (m : Db Tables Response Response) (c : Conn Tables) : Response * Conn Tables :=
  match m c with (Ok response, c) | (Err response, c) => (response, c) end.

(** [write_response]: what is written to the stream *)
Definition write_response (response : Response) : bytes :=
  "HTTP/1.1 " +:+ response_status response +:+ crlf
  +:+ "Content-Type: " +:+ response_content_type response +:+ crlf
  +:+ "Content-Length: " +:+ show_i64 (len (response_body response)) +:+ crlf
  +:+ "Connection: close" +:+ crlf +:+ crlf +:+ response_body response.

(** [handle_connection] on a request that was read, or was not *)
Definition answer (read : Result RequestReadError ParsedRequest) (application : Application) :
  Db Tables Response Response :=
  match read with
  | Ok request => dispatch request application
  | Err RequestReadError_PayloadTooLarge =>
      mret (json_error "413 Payload Too Large" error_payload_too_large)
  | Err RequestReadError_Malformed => mret (json_error "400 Bad Request" error_malformed_request)
  end.

Definition handle_connection (stream : Stream) (application : Application) (c : Conn Tables) :
  option (bytes * Conn Tables) :=
  '(read, _) ← read_request stream;
  let '(response, c) := respond (answer read application) c in
  Some (write_response response, c).
End dispatcher.
