(* ===== verification/HttpHistory.v ===== *)
(** * HttpHistory: the endpoints as runs of the operations below them

    What the operations of the repositories may do to the tables, an endpoint may do,
    a sequence of operations being one: the walk through the handlers of [Http], the
    gate and the dispatcher, for any relation between tables that the operations
    respect. [HttpSafety] and [Serving] state two such relations. *)

From S2P Require Import Prelude Text Platform Database Schema Identity InstanceKeys.
From S2P Require Import InstanceRegistry ServiceRequests ReplayProtection Admission RequestGate.
From S2P Require Import RequestNames Authority PostgresAuthority Subscriptions Requests.
From S2P Require Import WorkClaims Enrollment HttpParsing HttpDto PolicyClient Wiring Http.

Lemma history_traverse {S E A B} (R : relation S) `{!PreOrder R} (f : A -> Db S E B) l :
  (forall a, a ∈ l -> history R (f a)) -> history R (traverse f l).
Proof.
  induction l as [|a l IH]; simpl; intros Hf; db_walk; [apply Hf; left|].
  apply IH. intros a' Ha'. apply Hf. by right.
Qed.

Lemma history_unix_time {S E} (R : relation S) `{!PreOrder R} : history R (unix_time (S:=S) (E:=E)).
Proof. unfold unix_time. db_walk. Qed.

Lemma history_return_if {S} (R : relation S) `{!PreOrder R} response : history R (return_if (S:=S) response).
Proof. unfold return_if. db_walk. Qed.

(** The value of a pure step is known to what follows. *)
Lemma history_lift_bind {S E A B} (R : relation S) `{!PreOrder R} (r : Result E A) (k : A -> Db S E B) :
  (forall a, r = Ok a -> history R (k a)) -> history R (lift r ≫= k).
Proof.
  intros Hk c. rewrite bind_run. unfold lift. destruct r as [a|e]; [by apply Hk | done].
Qed.

(** What follows a successful run *)
Lemma history_bind_Ok {S E A B} (R : relation S) `{!PreOrder R} (m : Db S E A) (k : A -> Db S E B) :
  history R m -> (forall a c c', m c = (Ok a, c') -> history R (k a)) -> history R (m ≫= k).
Proof.
  intros Hm Hk c. rewrite bind_run. specialize (Hm c).
  destruct (m c) as [[a|e] c1] eqn:H; simpl in *; [|done]. etrans; [exact Hm | by eapply Hk].
Qed.

(** The tables at a step are known to what follows. *)
Lemma run_step {S E A B} (R : relation S) `{!PreOrder R} (m : Db S E A) (k : A -> Db S E B) c :
  R (durable c) (durable (m c).2) ->
  (forall a c1, m c = (Ok a, c1) -> R (durable c1) (durable (k a c1).2)) ->
  R (durable c) (durable ((m ≫= k) c).2).
Proof.
  intros Hm Hk. rewrite bind_run. destruct (m c) as [[a|e] c1]; simpl in *; [|done].
  etrans; [exact Hm | by apply Hk].
Qed.

Lemma run_quiet {S E A B} P' (R : relation S) `{!PreOrder R} (m : Db S E A) (k : A -> Db S E B) c :
  quiet P' m ->
  (forall a c1, m c = (Ok a, c1) -> durable c1 = durable c -> R (durable c1) (durable (k a c1).2)) ->
  R (durable c) (durable ((m ≫= k) c).2).
Proof.
  intros Hm Hk. destruct (Hm c) as [Hd _]. apply run_step; [apply _ | by rewrite Hd|].
  intros a c1 Hrun. apply Hk; [done|]. by rewrite Hrun in Hd.
Qed.

Lemma map_err_durable {S E E' A} (f : E -> E') (m : Db S E A) c :
  durable (map_err f m c).2 = durable (m c).2.
Proof. unfold map_err. by destruct (m c). Qed.

Lemma quiet_unix_time {S E} : quiet (fun _ => True) (unix_time (S:=S) (E:=E)).
Proof. unfold unix_time. db_walk; apply quiet_random. Qed.

(** ** Decisions *)

(** The database holds a decision that allows these facts. *)
Definition allowed (T : Tables) (facts : PolicyFacts) : Prop := exists decision,
  authority_decisions T !! DecisionId_as_uuid (decision_id decision) = Some (decision_row decision) /\
  decision_facts decision = facts /\ AuthorityDecision_is_allowed decision = true.

(** What a subscription action is decided on *)
Definition subscription_facts (service : ActorId) (action : string) (facts : PolicyFacts) : Prop :=
  exists name, ActionName_new action = Ok name /\
    facts = PolicyFacts_for_request_acceptance service name Scope_wildcard no_artifact_schema_versions.

(** What the acceptance of a request is decided on *)
Definition request_facts (request : Request) : PolicyFacts :=
  PolicyFacts_for_request_acceptance (request_source_service request) (request_action request)
    (request_scope request) (request_schema_versions request).

(** ** The operations on behalf of a caller *)

(** The request names the claim in its path and the token in its body, to renew, release
    or complete the claim. *)
Definition presents {P : Platform} {J : Serde} (request : ParsedRequest) (claim : ClaimId) (token : Z) : Prop :=
  let path := path_of (parsed_path request) in
  exists id, ClaimId_from_str id = Ok claim /\
    ((strip_prefix "/v1/claims/" path ≫= strip_suffix "/renew" = Some id /\
      exists dto, from_slice_renew (parsed_body request) = Some dto /\ renew_fencing_token dto = token) \/
     ((strip_prefix "/v1/claims/" path ≫= strip_suffix "/release" = Some id \/
       strip_prefix "/v1/claims/" path ≫= strip_suffix "/complete" = Some id) /\
      exists dto, from_slice_fenced_action (parsed_body request) = Some dto /\
        fenced_fencing_token dto = token)).

(** The relation [R] allows whatever the operations do that the endpoints call for an
    instance of a service, on a request that presents these claims with these tokens. *)
Class CallerOperations {P : Platform} (R : relation Tables) (service : ActorId)
  (instance : InstanceId) (presented : ClaimId -> Z -> Prop) : Prop := {
  caller_reserve r : reservation_service_id r = service -> reservation_instance_id r = instance ->
    history R (PostgresReplayProtection_reserve r);
  caller_create event_type mode now facts c :
    subscription_facts service "subscription.create" facts -> allowed (durable c) facts ->
    R (durable c) (durable (SubscriptionService_create PostgresSubscriptionRepository service
                              event_type mode now c).2);
  caller_disable id now facts c :
    subscription_facts service "subscription.disable" facts -> allowed (durable c) facts ->
    R (durable c) (durable (SubscriptionService_disable PostgresSubscriptionRepository service
                              id now c).2);
  caller_accept request fingerprint c : request_source_service request = service ->
    allowed (durable c) (request_facts request) ->
    R (durable c) (durable (PostgresRequest_accept request fingerprint c).2);
  caller_materialize request_id subscription_id destination now :
    history R (RouteService_materialize PostgresRouteRepository service request_id subscription_id
                 destination now);
  caller_authorize evaluator evaluator_id facts now : facts_source facts = service ->
    history R (AuthorityService_authorize (postgres_authority evaluator evaluator_id) facts now);
  caller_publish kind name digest now :
    history R (SchemaService_publish PostgresSchemaRepository kind name service digest now);
  caller_renew_instance policy revision now :
    history R (InstanceRegistryService_renew PostgresInstanceRegistry policy instance revision now);
  caller_claim route lease now :
    history R (WorkClaimService_claim PostgresWorkClaimRepository route service instance lease now);
  caller_renew_claim id token lease now : presented id token ->
    history R (WorkClaimService_renew PostgresWorkClaimRepository id token lease now);
  caller_release id token now : presented id token ->
    history R (WorkClaimService_release PostgresWorkClaimRepository id token now);
  caller_complete id token now : presented id token ->
    history R (WorkClaimService_complete PostgresWorkClaimRepository id token now);
}.

(** The listings and lookups change nothing. *)
Lemma reads_history {P : Platform} (R : relation Tables) `{!PreOrder R} :
  (forall e, history R (PostgresSubscription_find_active_by_event_type e)) /\
  (forall a s, history R (Subscriptions.list_subscriptions s a)) /\
  (forall s id, history R (PostgresRequest_find s id)) /\
  (forall id, history R (PostgresRoute_find id)) /\
  (forall s, history R (PostgresRoute_list_for_destination s)) /\
  (forall l now, history R (WorkClaimService_active_route_ids PostgresWorkClaimRepository l now)) /\
  (forall l, history R (WorkClaimService_completed_route_ids PostgresWorkClaimRepository l)).
Proof.
  unfold PostgresSubscription_find_active_by_event_type, Subscriptions.list_subscriptions,
    PostgresRequest_find, PostgresRoute_find, PostgresRoute_list_for_destination,
    WorkClaimService_active_route_ids, WorkClaimService_completed_route_ids. simpl.
  unfold PostgresWorkClaim_active_route_ids, PostgresWorkClaim_completed_route_ids.
  split_and!; db_walk.
Qed.

(** ** The handlers *)

Section handlers.
Context {P : Platform} {HP : PlatformLaws P} {J : Serde} (R : relation Tables) `{!PreOrder R} (service : ActorId)
  (instance : InstanceId) (presented : ClaimId -> Z -> Prop)
  `{HR : !CallerOperations R service instance presented}.
Context (evaluator : PolicyEvaluator) (evaluator_id : ActorId).
#[local] Notation authority := (postgres_authority evaluator evaluator_id).
#[local] Notation router :=
  (MkSubscriptionRouter _ PostgresSubscriptionRepository PostgresRouteRepository).

(** The promise about an operation, found by the operation's name *)
Ltac caller_op :=
  lazymatch goal with
  | |- history _ unix_time => apply history_unix_time, _
  | |- history _ (return_if _) => apply history_return_if, _
  | |- history _ (RouteService_materialize _ _ _ _ _ _) => apply caller_materialize
  | |- history _ (AuthorityService_authorize _ _ _) => by apply caller_authorize
  | |- history _ (SchemaService_publish _ _ _ _ _ _) => apply caller_publish
  | |- history _ (InstanceRegistryService_renew _ _ _ _ _) =>
      apply caller_renew_instance
  | |- history _ (WorkClaimService_claim _ _ _ _ _ _) => apply caller_claim
  | |- history _ _ => apply reads_history, _
  end.
#[local] Hint Extern 0 (history _ _) => caller_op : db.

Lemma authorize_allowed facts now c decision c' :
  AuthorityService_authorize authority facts now c = (Ok decision, c') ->
  AuthorityDecision_is_allowed decision = true -> allowed (durable c') facts.
Proof. intros (_ & Hd & Hf & _)%authorize_recorded Ha. by exists decision. Qed.

Lemma check_authorized_history {E} action :
  history R (check_authorized (E:=E) authority service action).
Proof.
  unfold check_authorized, authorize_subscription_action, authority_authorizes_subscriptions.
  db_walk.
Qed.

Lemma check_authorized_allowed {E} action c c' :
  check_authorized (E:=E) authority service action c = (Ok None, c') ->
  exists facts, subscription_facts service action facts /\ allowed (durable c') facts.
Proof.
  unfold check_authorized, authorize_subscription_action, authority_authorizes_subscriptions.
  intros (now & c1 & _ & H)%db_bind_Ok. apply db_bind_Ok in H as (result & c2 & Hrun & [Hr ->]%mret_Ok).
  unfold attempt in Hrun. destruct (ActionName_new action) as [name|] eqn:Hname.
  - destruct (AuthorityService_authorize _ _ _ c1) as [rd c3] eqn:Ha. injection Hrun as <- <-.
    destruct rd as [decision|]; [|done]. destruct (AuthorityDecision_is_allowed decision) eqn:Hd; [|done].
    eexists. split; [by exists name | by eapply authorize_allowed].
  - by injection Hrun as <- <-.
Qed.

(** Past the check, the action is allowed on the record. *)
Lemma checked_history {B} action (k : unit -> Db Tables Response B) :
  (forall facts c, subscription_facts service action facts -> allowed (durable c) facts ->
     R (durable c) (durable (k tt c).2)) ->
  history R (response ← check_authorized authority service action; return_if response;; k tt).
Proof.
  intros Hk c. apply run_step; [apply _ | apply check_authorized_history|].
  intros [response|] c1 Hrun; [reflexivity|].
  apply check_authorized_allowed in Hrun as (facts & Hf & Ha). by apply (Hk facts).
Qed.

Lemma create_subscription_history request :
  history R (create_subscription request service PostgresSubscriptionRepository authority).
Proof.
  unfold create_subscription. destruct (negb _); [db_walk|].
  do 2 (apply history_bind; [apply _ | db_walk | intros ?]).
  apply (checked_history "subscription.create" (fun _ => _)). intros facts c Hf Ha.
  apply (run_quiet (fun _ => True)); [apply _ | apply quiet_unix_time|]. intros now c1 _ Hd.
  apply run_step; [apply _| |intros s c2 _; reflexivity].
  rewrite map_err_durable. apply (caller_create _ _ _ facts); [done | by rewrite Hd].
Qed.

Lemma disable_subscription_history id :
  history R (disable_subscription id service PostgresSubscriptionRepository authority).
Proof.
  unfold disable_subscription. apply history_bind; [apply _ | db_walk | intros ?].
  apply (checked_history "subscription.disable" (fun _ => _)). intros facts c Hf Ha.
  apply (run_quiet (fun _ => True)); [apply _ | apply quiet_unix_time|]. intros now c1 _ Hd.
  apply run_step; [apply _| |intros s c2 _; reflexivity].
  rewrite map_err_durable. apply (caller_disable _ _ facts); [done | by rewrite Hd].
Qed.

Lemma subscription_route_history request :
  history R (subscription_route request service PostgresSubscriptionRepository authority).
Proof.
  unfold subscription_route. destruct (String.eqb _ _).
  - destruct (String.eqb _ _); [apply create_subscription_history|].
    unfold Http.list_subscriptions, SubscriptionService_list_active, SubscriptionService_list. simpl.
    db_walk.
  - destruct (strip_prefix _ _); [apply disable_subscription_history | db_walk].
Qed.

Lemma routing_history request_id action now :
  history R (SubscriptionRouter_routes router service request_id action now).
Proof.
  unfold SubscriptionRouter_routes, SubscriptionService_find_active_by_event_type. simpl.
  db_walk. apply history_traverse; [apply _|]. intros s _. apply caller_materialize.
Qed.

Lemma into_request_source dto request_id request :
  SubmitRequestRequest_into_request dto service request_id = Ok request ->
  request_source_service request = service /\ Requests.request_id request = request_id.
Proof.
  unfold SubmitRequestRequest_into_request, Request_restore. intros H. result_inv. done.
Qed.

Lemma publish_schema_history request :
  history R (publish_schema request service PostgresSchemaRepository).
Proof. unfold publish_schema. db_walk. Qed.

Lemma list_eligible_routes_history :
  history R (list_eligible_routes service PostgresRouteRepository PostgresWorkClaimRepository).
Proof.
  unfold list_eligible_routes, EligibleRouteQuery_eligible_for, RouteService_list_for_destination.
  cbn [eligible_routes eligible_work_claims route_repository_list_for_destination
    PostgresRouteRepository]. db_walk.
Qed.

Lemma find_routed_request_history id :
  history R (find_routed_request id service PostgresRouteRepository PostgresRequestRepository).
Proof.
  unfold find_routed_request, RoutedRequestQuery_find_for_destination, RouteService_find,
    RequestService_find. simpl. db_walk.
Qed.

Lemma claim_route_history request id :
  history R (claim_route request service instance id PostgresWorkClaimRepository).
Proof. unfold claim_route. db_walk. Qed.

Lemma renew_claim_route_history request id :
  (forall claim dto, ClaimId_from_str id = Ok claim ->
     from_slice_renew (parsed_body request) = Some dto -> presented claim (renew_fencing_token dto)) ->
  history R (renew_claim_route request id PostgresWorkClaimRepository).
Proof.
  intros Hp. unfold renew_claim_route. apply history_lift_bind; [apply _|]. intros claim Hc.
  destruct (ClaimId_from_str id) as [claim'|] eqn:Hid; [|done]. injection Hc as ->.
  destruct (negb _); [db_walk|]. apply history_lift_bind; [apply _|]. intros dto Hd%ok_or_Ok.
  db_walk. by apply caller_renew_claim, Hp.
Qed.

Lemma fenced_action_presented request id claim dto :
  parse_fenced_action id request = Ok (claim, dto) ->
  ClaimId_from_str id = Ok claim /\ from_slice_fenced_action (parsed_body request) = Some dto.
Proof.
  unfold parse_fenced_action. destruct (ClaimId_from_str id) as [c|] eqn:Hid; [|done]. simpl.
  destruct (negb _); [done|]. destruct (from_slice_fenced_action _) as [d|]; [|done]. by intros [= <- <-].
Qed.

Lemma fenced_claim_routes_history request id :
  (forall claim dto, ClaimId_from_str id = Ok claim ->
     from_slice_fenced_action (parsed_body request) = Some dto ->
     presented claim (fenced_fencing_token dto)) ->
  history R (release_claim_route request id PostgresWorkClaimRepository) /\
  history R (complete_claim_route request id PostgresWorkClaimRepository).
Proof.
  intros Hp. unfold release_claim_route, complete_claim_route.
  split; (apply history_lift_bind; [apply _|]; intros [claim dto] [Hc Hd]%fenced_action_presented; db_walk);
    [by apply caller_release, Hp | by apply caller_complete, Hp].
Qed.

Lemma renew_instance_route_history request :
  history R (renew_instance_route request instance
                  (MkInstanceRegistryService _ PostgresInstanceRegistry LeasePolicy_default)).
Proof. unfold renew_instance_route. db_walk. Qed.

Lemma submit_request_history request envelope :
  history R (submit_request request service envelope PostgresRequestRepository authority router).
Proof.
  unfold submit_request. destruct (negb _); [db_walk|].
  apply history_bind; [apply _ | db_walk | intros dto].
  apply history_lift_bind; [apply _|]. intros submitted Hs.
  assert (request_source_service submitted = service) as Hsource.
  { destruct (SubmitRequestRequest_into_request _ _ _) eqn:H; [|done]. injection Hs as ->.
    by apply into_request_source in H as [? _]. }
  apply history_bind; [apply _ | db_walk | intros now].
  intros c. apply run_step; [apply _| |].
  { rewrite map_err_durable. by apply caller_authorize. }
  intros decision c1 Hrun%map_err_Ok. destruct (AuthorityDecision_is_allowed decision) eqn:Hd; [|reflexivity].
  cbn [negb]. apply run_step; [apply _| |].
  { rewrite map_err_durable. apply caller_accept; [done|]. unfold request_facts. rewrite Hsource.
    by eapply authorize_allowed. }
  intros acceptance c2 Ha%map_err_Ok%accept_source. rewrite Hsource in Ha.
  destruct acceptance as [record|record]; simpl in Ha; rewrite Ha;
    (apply run_step; [apply _ | apply history_attempt, routing_history | reflexivity]).
Qed.

Lemma request_route_history request envelope :
  history R (request_route request service envelope PostgresRequestRepository authority router).
Proof.
  unfold request_route. destruct (String.eqb _ _).
  - destruct (String.eqb _ _); [apply submit_request_history | db_walk].
  - destruct (strip_prefix _ _) as [id|]; [|db_walk].
    unfold find_request, RequestService_find. simpl. db_walk.
Qed.
End handlers.

(** ** The gate and the dispatcher *)

Section dispatcher.
Context {P : Platform} {HP : PlatformLaws P} {J : Serde} (EJ : EvaluateCodec) (I : InfernalClient) (env : Environment)
  (credential : InstanceCredential) (R : relation Tables) `{!PreOrder R}.
#[local] Notation kernel := (Application_new credential).

Lemma policy_evaluator_postgres authority :
  policy_evaluator_from_env EJ I env kernel = Ok authority ->
  exists evaluator evaluator_id, authority = postgres_authority evaluator evaluator_id.
Proof.
  unfold policy_evaluator_from_env, Application_authority_service. intros H. result_inv. eauto.
Qed.

Lemma dispatch_admitted_history request verified
  (HR : CallerOperations R (verified_service_id verified) (verified_instance_id verified) (presents request)) :
  history R (dispatch_admitted EJ I env request kernel verified).
Proof.
  unfold dispatch_admitted. cbv zeta.
  destruct (String.eqb _ _); [eapply publish_schema_history; first [apply _ | exact HR]|].
  destruct (String.eqb _ _); [eapply list_eligible_routes_history; first [apply _ | exact HR]|].
  destruct (strip_prefix _ _ ≫= _) as [id|]; [eapply claim_route_history; first [apply _ | exact HR]|].
  destruct (strip_prefix _ _ ≫= _) as [id|]; [eapply find_routed_request_history; first [apply _ | exact HR]|].
  destruct (strip_prefix _ _ ≫= _) as [id|] eqn:Hrenew.
  { apply (renew_claim_route_history R _ _ _ (HR:=HR)). intros claim dto Hid Hdto. exists id. eauto 8. }
  clear Hrenew. destruct (strip_prefix _ _ ≫= _) as [id|] eqn:Hrelease.
  { refine (proj1 (fenced_claim_routes_history R _ _ _ (HR:=HR) request id _)).
    intros claim dto Hid Hdto. exists id. eauto 8. }
  clear Hrelease. destruct (strip_prefix _ _ ≫= _) as [id|] eqn:Hcomplete.
  { refine (proj2 (fenced_claim_routes_history R _ _ _ (HR:=HR) request id _)).
    intros claim dto Hid Hdto. exists id. eauto 8. }
  clear Hcomplete.
  destruct (String.eqb _ _); [eapply renew_instance_route_history; first [apply _ | exact HR]|].
  apply history_lift_bind; [apply _|].
  intros authority (evaluator & evaluator_id & ->)%policy_evaluator_postgres.
  destruct (_ || _); [eapply request_route_history; first [apply _ | exact HR] | by eapply subscription_route_history].
Qed.

Lemma gate_history policy signed now presented
  (HR : CallerOperations R (signed_service_id signed) (signed_instance_id signed) presented) :
  history R (ServiceRequestGate_admit (kernel_gate policy) signed now).
Proof.
  unfold ServiceRequestGate_admit, verify_signature, verifier_signatures, reserve_replay,
    service_replay, require_communication, service_admission. simpl.
  apply history_bind_Ok; [apply _| |].
  { by apply history_map_err, (history_quiet _ any_error), verify_quiet. }
  intros verified c c' Hv%map_err_Ok.
  pose proof (verify_instance_id _ _ _ _ _ _ Hv) as Hi. apply verify_service_id in Hv.
  apply history_bind; [apply _| |intros d].
  - apply history_map_err. unfold ReplayProtectionService_protect. apply history_lift_bind; [apply _|].
    intros r Hr. apply caller_reserve.
    all: unfold ReplayReservation_from_verified in Hr; by result_inv.
  - unfold AdmissionService_require_enabled. simpl. unfold PostgresAdmissionRepository_find. db_walk.
Qed.

Lemma governed_history request
  (HR : forall service instance, CallerOperations R service instance (presents request)) :
  history R (dispatch_governed EJ I env request kernel).
Proof.
  unfold dispatch_governed. destruct (negb _); [db_walk|].
  destruct (ParsedRequest_as_governed request) as [governed|]; [|db_walk].
  apply history_bind; [apply _ | apply history_unix_time, _ | intros now].
  unfold authenticate_governed_request. apply history_bind; [apply _| |].
  - apply history_bind; [apply _ | db_walk | intros signed].
    apply history_map_err. eapply gate_history, HR.
  - intros admitted. apply dispatch_admitted_history, HR.
Qed.
End dispatcher.
