(* ===== verification/HttpSafety.v ===== *)
(** * HttpSafety: what a request can do, and to whom

    The safety of [Http]: only admitted requests act, and an admitted request
    changes nothing that is not the caller's. *)

From S2P Require Import Prelude Text Platform Database Schema Identity InstanceKeys.
From S2P Require Import InstanceRegistry ServiceRequests ReplayProtection Admission RequestGate.
From S2P Require Import RequestNames Authority PostgresAuthority Subscriptions Requests.
From S2P Require Import WorkClaims Enrollment HttpParsing HttpDto PolicyClient Wiring Http HttpHistory.

(** ** Changes that belong to a caller *)

(** Every row that differs is a new version that belongs to the caller. *)
Definition owned_changes `{Countable K} {A} (own : K -> A -> Prop) (m m' : gmap K A) : Prop :=
  forall k, m' !! k = m !! k \/ exists row, m' !! k = Some row /\ own k row.

#[export] Instance owned_changes_preorder `{Countable K} {A} (own : K -> A -> Prop) :
  PreOrder (owned_changes own).
Proof.
  split; [by left|]. intros m1 m2 m3 H1 H2 k.
  destruct (H2 k) as [E2|?]; [|by right]. destruct (H1 k) as [E1|?]; [left; congruence|].
  right. by rewrite E2.
Qed.

Lemma owned_insert `{Countable K} {A} (own : K -> A -> Prop) (m : gmap K A) k row :
  own k row -> owned_changes own m (<[k := row]> m).
Proof.
  intros Ho k'. destruct (decide (k = k')) as [->|Hk]; [right | left].
  - exists row. by rewrite lookup_insert_eq.
  - by rewrite lookup_insert_ne.
Qed.

(** No row is deleted; the rows that are new satisfy the one condition, those that
    changed the other, of the row before and after. *)
Definition rows_step `{Countable K} {A} (new : K -> A -> Prop) (change : K -> A -> A -> Prop)
  (m m' : gmap K A) : Prop :=
  forall k, match m !! k, m' !! k with
  | Some row, Some row' => row' = row \/ change k row row'
  | Some _, None => False
  | None, Some row' => new k row'
  | None, None => True
  end.

(** The change of a row that is never changed *)
Definition never {K A} (_ : K) (_ _ : A) : Prop := False.

(** An audit trail grows by rows that satisfy the condition. *)
Definition appended {A} (own : A -> Prop) (trail trail' : list A) : Prop :=
  exists rows, trail' = trail ++ rows /\ Forall own rows.

Section rows.
Context `{Countable K} {A : Type}.
Implicit Types (m : gmap K A) (new : K -> A -> Prop) (change : K -> A -> A -> Prop).

Lemma rows_step_refl new change m : rows_step new change m m.
Proof. intros k. destruct (m !! k); [by left | done]. Qed.

Lemma rows_step_trans new1 change1 new2 change2 new change m1 m2 m3 :
  rows_step new1 change1 m1 m2 -> rows_step new2 change2 m2 m3 ->
  (forall k row, new1 k row -> new k row) -> (forall k row, new2 k row -> new k row) ->
  (forall k row row', change1 k row row' -> change k row row') ->
  (forall k row row', change2 k row row' -> change k row row') ->
  (forall k row row', new1 k row -> change2 k row row' -> new k row') ->
  (forall k row1 row2 row3, change1 k row1 row2 -> change2 k row2 row3 -> change k row1 row3) ->
  rows_step new change m1 m3.
Proof.
  intros H1 H2 ?????? k. specialize (H1 k). specialize (H2 k).
  destruct (m1 !! k), (m2 !! k), (m3 !! k); try done; destruct_or?; subst; eauto.
Qed.

Lemma rows_step_insert new change m k row :
  match m !! k with Some old => change k old row | None => new k row end ->
  rows_step new change m (<[k := row]> m).
Proof.
  intros Hk k'. destruct (decide (k = k')) as [<-|Hne].
  - rewrite lookup_insert_eq. destruct (m !! k); [by right | done].
  - rewrite lookup_insert_ne by done. apply rows_step_refl.
Qed.

#[export] Instance rows_never_preorder new : PreOrder (rows_step new never).
Proof.
  split; [intros m; apply rows_step_refl|]. intros m1 m2 m3 H1 H2. by eapply rows_step_trans.
Qed.

Lemma rows_never_kept new m m' k row : rows_step new never m m' -> m !! k = Some row -> m' !! k = Some row.
Proof. intros Hs Hk. specialize (Hs k). rewrite Hk in Hs. destruct (m' !! k); [|done]. by destruct Hs as [->|[]]. Qed.
End rows.

#[export] Instance appended_preorder {A} (own : A -> Prop) : PreOrder (appended own).
Proof.
  split; [intros l; exists []; by rewrite app_nil_r|].
  intros l1 l2 l3 (r & -> & Hr) (r' & -> & Hr'). exists (r ++ r'). rewrite app_assoc. split; [done|].
  by apply Forall_app.
Qed.

Lemma appended_one {A} (own : A -> Prop) trail row : own row -> appended own trail (trail ++ [row]).
Proof. intros Ho. exists [row]. by rewrite Forall_singleton. Qed.

Lemma appended_mono {A} (own own' : A -> Prop) trail trail' :
  (forall row, own row -> own' row) -> appended own trail trail' -> appended own' trail trail'.
Proof. intros Ho (rows & -> & Hr). exists rows. split; [done | by eapply Forall_impl]. Qed.

(** The route leads to the service. *)
Definition destined (T : Tables) (service route : Uuid) : Prop := exists row,
  request_routes T !! route = Some row /\ rr_destination_service_id row = service.

(** The caller's rights over the tables. It adds rows of its own, and nothing is deleted;
    what it changes is the lease of its instance, its subscriptions, and claims: those it
    presents with their tokens, whoever holds them, and those of routes that lead to it,
    when they have expired. An audit trail is only added to, by rows about the caller. *)
Record acts_as (service instance : Uuid) (presented : Uuid -> Z -> Prop) (T T' : Tables) : Prop := {
  acts_identities : identities T' = identities T;
  acts_keys : service_instance_keys T' = service_instance_keys T;
  acts_bindings : enrollment_bindings T' = enrollment_bindings T;
  acts_challenges : enrollment_challenges T' = enrollment_challenges T;
  acts_handshake_challenges : handshake_challenges T' = handshake_challenges T;
  acts_handshakes : handshakes T' = handshakes T;
  acts_handshake_trail : handshake_audit T' = handshake_audit T;
  acts_admission : admission T' = admission T;
  acts_grants : authority_grants T' = authority_grants T;
  acts_instances :
    rows_step (fun _ _ => False) (fun id row row' => id = instance /\ instance_succeeds row row')
      (service_instances T) (service_instances T');
  acts_registry_trail :
    appended (fun row => sira_instance_id row = instance /\ exists i,
        service_instances T' !! instance = Some i /\ si_service_id i = sira_service_id row)
      (registry_audit T) (registry_audit T');
  acts_nonces :
    rows_step (fun _ row => rn_service_id row = service /\ rn_instance_id row = instance) never
      (request_nonces T) (request_nonces T');
  acts_request_ids : rows_step (fun key _ => key.1 = service) never (request_ids T) (request_ids T');
  acts_replay_trail :
    appended (fun row => ra_service_id row = service /\ ra_instance_id row = instance)
      (replay_audit T) (replay_audit T');
  acts_subscriptions :
    rows_step (fun _ row => sub_service_id row = service)
      (fun _ row row' => sub_service_id row = service /\ subscription_succeeds row row')
      (subscriptions T) (subscriptions T');
  acts_subscription_trail :
    appended (fun row => suba_service_id row = service) (subscription_audit T) (subscription_audit T');
  acts_requests :
    rows_step (fun key _ => key.1 = service) never (accepted_requests T) (accepted_requests T');
  acts_acceptance_trail :
    appended (fun row => aa_source_service_id row = service) (acceptance_audit T) (acceptance_audit T');
  acts_schemas :
    rows_step (fun _ row => sv_owner_service_id row = service) never
      (schema_versions T) (schema_versions T');
  acts_decisions :
    rows_step (fun _ row => dec_source_service_id row = service) never
      (authority_decisions T) (authority_decisions T');
  acts_routes :
    rows_step (fun _ row => rr_source_service_id row = service) never
      (request_routes T) (request_routes T');
  acts_claims :
    rows_step (fun _ row => wc_worker_service_id row = service /\ wc_worker_instance_id row = instance /\
                 destined T' service (wc_route_id row))
      (fun id row row' => claim_succeeds row row' /\
         (presented id (wc_fencing_token row) \/
          (wc_status row' = "expired" /\ destined T' service (wc_route_id row))))
      (work_claims T) (work_claims T');
}.

Lemma destined_kept new T T' service route :
  rows_step new never (request_routes T) (request_routes T') ->
  destined T service route -> destined T' service route.
Proof. intros Hr (row & Hrow & Hd). exists row. split; [by eapply rows_never_kept | done]. Qed.

#[export] Instance acts_as_preorder service instance presented :
  PreOrder (acts_as service instance presented).
Proof.
  split.
  { intros T. constructor; first [reflexivity | apply rows_step_refl]. }
  intros T1 T2 T3 [] []. constructor; try congruence; try (etrans; eassumption).
  - eapply rows_step_trans; [eassumption.. | | | | | |]; try naive_solver.
    intros k row1 row2 row3 [? ?] [_ ?]. split; [done | by eapply instance_succeeds_trans].
  - etrans; [|eassumption]. eapply appended_mono; [|eassumption]. intros row (Hi & i & Hrow & Hs).
    split; [done|]. specialize (acts_instances1 instance). rewrite Hrow in acts_instances1.
    destruct (service_instances T3 !! instance) as [i'|]; [|done]. exists i'. split; [done|].
    destruct acts_instances1 as [->|[_ (-> & _)]]; done.
  - eapply rows_step_trans; [eassumption.. | | | | | |]; try naive_solver.
    + intros k row row' Hs [_ [->|(_ & t & _ & ->)]]; done.
    + intros k row1 row2 row3 [? ?] [_ ?]. split; [done | by eapply subscription_succeeds_trans].
  - assert (forall route, destined T2 service route -> destined T3 service route) as Hd
      by (intros route; by eapply destined_kept).
    eapply rows_step_trans; [exact acts_claims0 | exact acts_claims1 | | | | | |].
    + naive_solver.
    + done.
    + naive_solver.
    + done.
    + intros k row row' (? & ? & ?) [[] _]. split_and!; try congruence.
      match goal with H : wc_route_id row' = _ |- _ => rewrite H end. auto.
    + intros k row1 row2 row3 [Hs Hp] [Hs' Hp']. split; [by etrans|].
      destruct Hp as [?|[He ?]]; [by left|].
      assert (row3 = row2) as -> by (apply Hs'; by rewrite He). right. auto.
Qed.

(** One table changes; the rest of the record is as it was. *)
Ltac acts_step :=
  constructor; simpl; first
    [ reflexivity | apply rows_step_refl
    | apply appended_one; done
    | apply rows_step_insert;
        repeat match goal with H : _ !! _ = None |- _ => rewrite H end; done
    | idtac ].

Section statements.
Context (service instance : Uuid) (presented : Uuid -> Z -> Prop).
#[local] Notation acts := (acts_as service instance presented).

Lemma acts_insert_nonce k n row T a T' :
  rn_service_id row = service -> rn_instance_id row = instance ->
  insert_nonce_sql k n row T = Ok (a, T') -> acts T T'.
Proof. intros Hr Hi [(_ & -> & _)|(_ & Hn & ->)]%insert_nonce_Ok; [done | acts_step]. Qed.

Lemma acts_insert_request_id i f t T a T' :
  insert_request_id_sql service i f t T = Ok (a, T') -> acts T T'.
Proof. intros [(_ & -> & _)|(_ & Hn & ->)]%insert_request_id_Ok; [done | acts_step]. Qed.

Lemma acts_select_fingerprint i T f T' :
  select_fingerprint_sql service i T = Ok (f, T') -> acts T T'.
Proof. by intros [-> _]%select_fingerprint_Ok. Qed.

Lemma acts_replay_audit row T a T' :
  ra_service_id row = service -> ra_instance_id row = instance ->
  insert_replay_audit_sql row T = Ok (a, T') -> acts T T'.
Proof. intros Hs Hi ->%insert_replay_audit_Ok. acts_step. Qed.

Lemma acts_insert_subscription id e m t T n T' :
  insert_subscription_sql id service e m t T = Ok (n, T') -> acts T T'.
Proof. intros (_ & Hn & _ & ->)%insert_subscription_Ok. acts_step. Qed.

Lemma acts_disable_subscription id t T o T' :
  disable_subscription_sql id service t T = Ok (o, T') ->
  acts T T' /\ forall kv, o = Some kv -> sub_service_id kv.2 = service.
Proof.
  intros [(-> & ->)|(row & Hrow & Hs & Hd & Ht & -> & ->)]%disable_subscription_Ok; [done|].
  split; [|by intros ? [= <-]]. acts_step. apply rows_step_insert. rewrite Hrow. split; [done|].
  right. split; [done|]. by exists t.
Qed.

Lemma acts_subscription_audit row T n T' :
  suba_service_id row = service -> insert_subscription_audit_sql row T = Ok (n, T') -> acts T T'.
Proof. intros Hs ->%insert_subscription_audit_Ok. acts_step. Qed.

Lemma acts_insert_accepted_request id row T o T' :
  insert_accepted_request_sql service id row T = Ok (o, T') -> acts T T'.
Proof. intros [(_ & -> & _)|(_ & Hn & ->)]%insert_accepted_request_Ok; [done | acts_step]. Qed.

Lemma acts_acceptance_audit row T n T' :
  aa_source_service_id row = service -> insert_acceptance_audit_sql row T = Ok (n, T') -> acts T T'.
Proof. intros Hs [_ ->]%insert_acceptance_audit_Ok. acts_step. Qed.

Lemma acts_insert_route id row T o T' :
  rr_source_service_id row = service -> insert_route_sql id row T = Ok (o, T') -> acts T T'.
Proof. intros Hr [(_ & ->)|(_ & _ & Hn & ->)]%insert_route_Ok; [done | acts_step]. Qed.

Lemma acts_insert_decision id row T n T' :
  dec_source_service_id row = service -> insert_decision_sql id row T = Ok (n, T') -> acts T T'.
Proof. intros Hr (_ & Hn & ->)%insert_decision_Ok. acts_step. Qed.

Lemma acts_publish id k n d t T kv T' :
  publish_schema_version_sql id k n service d t T = Ok (kv, T') -> acts T T'.
Proof. intros (row & -> & -> & Hn & _ & _ & Ho & _)%publish_schema_version_Ok. acts_step. Qed.

Lemma acts_renew_instance e n l T a T' : renew_instance_sql instance e n l T = Ok (a, T') -> acts T T'.
Proof.
  intros H. pose proof (renew_instance_history _ _ _ _ _ _ _ H) as Hh.
  apply renew_instance_Ok in H as [[_ ->]|(_ & row & Hrow & _ & _ & _ & ->)]; [done|].
  acts_step. apply rows_step_insert. rewrite Hrow. split; [done|].
  destruct (Hh instance row Hrow) as (row' & Hrow' & Hs). simpl in Hrow'.
  rewrite lookup_insert_eq in Hrow'. by injection Hrow' as ->.
Qed.

Lemma acts_registry_audit s k a l t i T n T' :
  service_instances T !! instance = Some i -> si_service_id i = s ->
  insert_registry_audit_sql s instance k a l t T = Ok (n, T') -> acts T T'.
Proof.
  intros Hrow Hs. unfold insert_registry_audit_sql. intros H. result_inv. acts_step.
  apply appended_one. eauto.
Qed.

Lemma acts_insert_claim id rt t n l T kv T' :
  destined T service rt ->
  insert_claim_sql id rt service instance t n l T = Ok (kv, T') -> acts T T'.
Proof. intros Hd (_ & Hn & _ & ->)%insert_claim_Ok. acts_step. Qed.

Lemma acts_update_claim set id T o T' old :
  work_claims T !! id = Some old ->
  (presented id (wc_fencing_token old) \/
   (wc_status (set old) = "expired" /\ destined T service (wc_route_id old))) ->
  update_claim_sql set id T = Ok (o, T') -> acts T T'.
Proof.
  intros Hid Hp Hu%update_claim_Ok. rewrite Hid in Hu.
  destruct Hu as (_ & (_ & Hs & _)%protect_work_claim_Ok & _ & ->).
  acts_step. apply rows_step_insert. by rewrite Hid.
Qed.

Lemma acts_query_one_claim set id T row T' old :
  work_claims T !! id = Some old -> presented id (wc_fencing_token old) ->
  query_one (update_claim_sql set id) T = Ok (row, T') -> acts T T'.
Proof.
  unfold query_one. intros Hid Hp ([o T1] & Hu & H)%result_bind_Ok.
  destruct o; [|done]. injection H as <- <-. eapply acts_update_claim; [exact Hid | by left | exact Hu].
Qed.
End statements.

(** ** The operations of the repositories *)

Create HintDb acts.
#[export] Hint Resolve acts_insert_nonce acts_insert_request_id acts_select_fingerprint
  acts_replay_audit acts_insert_subscription acts_insert_accepted_request acts_insert_route acts_insert_decision
  acts_publish acts_renew_instance acts_registry_audit : acts.
#[export] Hint Extern 1 (acts_as _ _ _ _ _) =>
  eapply acts_subscription_audit; [|eassumption]; reflexivity : acts.
#[export] Hint Extern 1 (acts_as _ _ _ _ _) =>
  eapply acts_acceptance_audit; [|eassumption]; reflexivity : acts.

Section operations.
Context {P : Platform} {HP : PlatformLaws P} (service : ActorId) (instance : InstanceId)
  (presented : ClaimId -> Z -> Prop).
#[local] Notation presented_row :=
  (fun id token => exists claim, ClaimId_as_uuid claim = id /\ presented claim token).
#[local] Notation acts := (acts_as (ActorId_as_uuid service) (InstanceId_as_uuid instance) presented_row).

Ltac op_walk := db_walk; eauto with acts.

(** The same from a state of which more is known *)
Ltac at_walk := apply evolves_at_any; op_walk.
(** A step of a transaction, and what follows it *)
Ltac at_bind := apply evolves_at_bind; [apply _| |].

Lemma acts_reserve r :
  reservation_service_id r = service -> reservation_instance_id r = instance ->
  history acts (PostgresReplayProtection_reserve r).
Proof.
  intros Hr Hi. unfold PostgresReplayProtection_reserve, append_replay_audit. rewrite Hr.
  db_walk; first [by eauto with acts
    | eapply acts_insert_nonce; [..|eassumption]; simpl; by rewrite ?Hr, ?Hi
    | eapply acts_replay_audit; [..|eassumption]; simpl; by rewrite ?Hr, ?Hi].
Qed.

Lemma acts_subscription_insert s :
  subscription_service_id s = service -> history acts (PostgresSubscription_insert s).
Proof.
  intros Hs. unfold PostgresSubscription_insert, append_subscription_audit. rewrite Hs. op_walk.
Qed.

Lemma acts_subscription_create event_type mode now :
  history acts (SubscriptionService_create PostgresSubscriptionRepository service event_type mode now).
Proof.
  unfold SubscriptionService_create. apply history_bind; [apply _ | op_walk|]. intros id.
  apply history_lift_bind; [apply _|]. intros s Hs. unfold Subscription_create, Subscription_restore in Hs.
  destruct (_ || _) in Hs; [done|]. injection Hs as <-. apply history_bind; [apply _| |op_walk].
  by apply acts_subscription_insert.
Qed.

Lemma subscription_from_row_service kv s :
  subscription_from_row kv = Ok s -> ActorId_as_uuid (subscription_service_id s) = sub_service_id kv.2.
Proof.
  destruct kv as [id row]. unfold subscription_from_row, Subscription_restore, ActorId_from_str.
  intros H. result_inv. rewrite uuid_parse_print in *. simpl in *.
  repeat match goal with H : result_map_err _ _ = Ok _ |- _ => apply result_map_err_Ok in H end. result_inv.
  done.
Qed.

Lemma acts_subscription_disable id now :
  history acts (SubscriptionService_disable PostgresSubscriptionRepository service id now).
Proof.
  unfold SubscriptionService_disable. simpl. destruct (_ <? _)%Z; [op_walk|].
  unfold PostgresSubscription_disable. destruct (_ <? _)%Z; [op_walk|].
  apply history_connection_at; [apply _|]. intros c.
  at_bind; [at_walk|]. intros [] c1 _.
  at_bind.
  { apply evolves_at_execute; [apply _|]. intros o T' H. by eapply acts_disable_subscription in H as [H _]. }
  intros [row|] c2 (w & H & _)%execute_Ok;
    [|unfold classify_failed_disable; at_walk].
  apply (acts_disable_subscription _ (InstanceId_as_uuid instance) presented_row) in H as [_ Hs].
  specialize (Hs row eq_refl).
  at_bind; [at_walk|].
  intros s c3 [Hrow _]%lift_Ok. apply subscription_from_row_service in Hrow.
  unfold append_subscription_audit. refine ((_ : evolves _ _) c3). op_walk.
  eapply acts_subscription_audit; [|eassumption]. simpl. congruence.
Qed.

Lemma acts_request_accept request fingerprint :
  request_source_service request = service -> history acts (PostgresRequest_accept request fingerprint).
Proof.
  intros Hr. unfold PostgresRequest_accept, append_acceptance_audit. rewrite Hr. op_walk.
Qed.

Lemma acts_materialize request_id subscription_id destination now :
  history acts (RouteService_materialize PostgresRouteRepository service request_id subscription_id
                  destination now).
Proof.
  unfold RouteService_materialize. apply history_bind; [apply _ | op_walk|]. intros id.
  apply history_lift_bind; [apply _|]. intros r Hr. unfold Route_create, Route_restore in Hr.
  destruct (_ : bool) in Hr; [done|]. injection Hr as <-. simpl. unfold PostgresRoute_materialize.
  op_walk. eapply acts_insert_route; [|exact H]. done.
Qed.

Lemma acts_authorize evaluator evaluator_id facts now :
  facts_source facts = service ->
  history acts (AuthorityService_authorize (postgres_authority evaluator evaluator_id) facts now).
Proof.
  intros Hf. unfold AuthorityService_authorize. simpl.
  unfold PostgresAuthority_matching_grants, PostgresAuthority_record. op_walk;
    (eapply acts_insert_decision; [|done]; simpl; by rewrite Hf).
Qed.

Lemma acts_schema_publish kind name digest now :
  history acts (SchemaService_publish PostgresSchemaRepository kind name service digest now).
Proof. unfold SchemaService_publish. simpl. unfold PostgresAuthority_publish. op_walk. Qed.

(** The instance that is read is the one that was asked for. *)
Lemma instance_read i T row T' registered :
  query_one_instance i T = Ok (row, T') -> instance_from_row row = Ok registered ->
  T' = T /\ public_instance_id (instance_public_key registered) = i /\
  exists stored, service_instances T !! InstanceId_as_uuid i = Some stored /\
    si_service_id stored = ActorId_as_uuid (public_service_id (instance_public_key registered)).
Proof.
  intros [-> Hf]%query_one_instance_Ok (Hs & Hi & _)%instance_from_row_Ok. split; [done|].
  unfold find_instance_sql in Hf. apply bind_Some in Hf as (stored & Hrow & Hf).
  apply bind_Some in Hf as ([key_id sik] & _ & [= <-]). simpl in Hs, Hi.
  unfold ActorId_from_str, InstanceId_from_str in Hs, Hi. rewrite uuid_parse_print in Hs, Hi.
  injection Hs as <-. injection Hi as <-. split; [by destruct i | eauto].
Qed.

Lemma acts_instance_renew policy revision now :
  history acts (InstanceRegistryService_renew PostgresInstanceRegistry policy instance revision now).
Proof.
  unfold InstanceRegistryService_renew. simpl. op_walk. unfold PostgresInstanceRegistry_renew.
  destruct (_ || _); [op_walk|]. apply history_connection_at; [apply _|]. intros c.
  at_bind; [at_walk|]. intros [] c1 _.
  at_bind; [at_walk|]. intros rows c2 _.
  destruct (rows =? 0)%Z; [unfold classify_failed_renewal; at_walk|].
  destruct (negb _); [at_walk|].
  at_bind.
  { apply evolves_at_execute; [apply _|]. by intros row T' [-> _]%query_one_instance_Ok. }
  intros row c3 (w & Hq & _ & Hw)%execute_Ok.
  at_bind; [at_walk|].
  intros registered c4 [Hr ->]%lift_Ok.
  destruct (instance_read _ _ _ _ _ Hq Hr) as (-> & Hi & stored & Hstored & Hs).
  unfold append_registry_audit. rewrite Hi.
  at_bind; [| intros ? c5 _; at_walk].
  at_bind; [| intros ? c5 _; at_walk].
  apply evolves_at_execute; [apply _|]. intros n T' H. rewrite Hw in H |- *.
  by eapply acts_registry_audit; [exact Hstored | exact Hs|].
Qed.

Lemma claim_from_row_Ok id row claim :
  claim_from_row (id, row) = Ok claim ->
  ClaimId_as_uuid (claim_id claim) = id /\ claim_fencing_token claim = wc_fencing_token row.
Proof.
  unfold claim_from_row, WorkClaim_restore, ClaimId_from_str. rewrite uuid_parse_print. intros H.
  result_inv. repeat match goal with H : result_map_err _ _ = Ok _ |- _ => apply result_map_err_Ok in H end.
  result_inv. done.
Qed.

Lemma acts_claim route lease now :
  history acts (WorkClaimService_claim PostgresWorkClaimRepository route service instance lease now).
Proof.
  unfold WorkClaimService_claim. destruct (_ || _); [op_walk|].
  change (history acts (PostgresWorkClaim_claim route service instance lease now)). unfold PostgresWorkClaim_claim.
  apply history_connection_at; [apply _|]. intros c.
  at_bind; [at_walk|]. intros [] c1 _.
  at_bind; [at_walk|]. intros destination c2 [Hd [_ Hw2]]%query_Ok.
  at_bind; [at_walk|]. intros owns c3 Howns.
  destruct owns; cbn [negb]; [|at_walk].
  assert (c3 = c2 /\ destined (working c1) (ActorId_as_uuid service) (RouteId_as_uuid route)) as [-> Hdest].
  { unfold route_destination_sql in Hd. destruct destination as [u|]; [|by db_inv].
    symmetry in Hd. apply fmap_Some in Hd as (row & Hrow & ->).
    unfold ActorId_from_str in Howns. rewrite uuid_parse_print in Howns.
    apply db_bind_Ok in Howns as (a & c' & [Ha ->]%lift_Ok & [Ho ->]%mret_Ok). simpl in Ha. injection Ha as <-.
    symmetry in Ho. apply bool_decide_eq_true in Ho as <-. split; [done|]. by exists row. }
  rewrite <-Hw2 in Hdest. clear Hd Howns destination Hw2.
  at_bind; [at_walk|]. intros latest c4 [Hl [_ Hw4]]%query_Ok.
  rewrite <-Hw4 in Hl, Hdest. clear Hw4 c2.
  at_bind; [at_walk|]. intros claim c5 [Hclaim ->]%lift_Ok.
  assert (forall c6 token, destined (working c6) (ActorId_as_uuid service) (RouteId_as_uuid route) ->
    evolves_at acts (id ← new_uuid;
      row ← execute work_claim_query_error
        (insert_claim_sql id (RouteId_as_uuid route) (ActorId_as_uuid service)
           (InstanceId_as_uuid instance) token now lease);
      claim ← lift (claim_from_row row); commit work_claim_query_error;; mret claim) c6) as Hinsert.
  { intros c6 token Hd. at_bind; [at_walk|].
    intros id c7 [_ Hw]%new_uuid_Ok. rewrite <-Hw in Hd.
    at_bind; [| intros row c8 _; at_walk].
    apply evolves_at_execute; [apply _|]. intros row T' H. by eapply acts_insert_claim. }
  destruct claim as [claim|]; cbn [optional_claim] in Hclaim.
  - destruct latest as [[id row]|]; [|done]. cbn [optional_claim] in Hclaim.
    apply result_bind_Ok in Hclaim as (claim' & [Hid _]%claim_from_row_Ok & [= ->]).
    symmetry in Hl. apply latest_claim_Some in Hl as (Hrow & Hroute & _).
    destruct (WorkClaim_is_current _ _); [at_bind; done|].
    assert (evolves_at acts (token ← mret (wrapping_add (claim_fencing_token claim) 1);
      id ← new_uuid;
      row ← execute work_claim_query_error
        (insert_claim_sql id (RouteId_as_uuid route) (ActorId_as_uuid service)
           (InstanceId_as_uuid instance) token now lease);
      claim ← lift (claim_from_row row); commit work_claim_query_error;; mret claim) c4) as Hnext.
    { at_bind; [done|]. intros token c5 [_ ->]%mret_Ok. by apply Hinsert. }
    destruct (claim_status claim); [|at_bind; done|exact Hnext|exact Hnext].
    assert (forall T' kv, expire_sql (ClaimId_as_uuid (claim_id claim)) (working c4) = Ok (kv, T') ->
      acts (working c4) T') as Hexpire.
    { intros T' kv H. rewrite Hid in H. eapply acts_update_claim; [exact Hrow| |exact H]. right.
      split; [done|]. by rewrite Hroute. }
    at_bind.
    + at_bind; [| intros ? c5 _; at_walk].
      apply evolves_at_execute; [apply _|]. intros kv T' H. by eapply Hexpire.
    + intros token c5 (kv & c6 & (w & H & _ & Hw)%execute_Ok & [_ ->]%mret_Ok)%db_bind_Ok.
      apply Hinsert. rewrite Hw. eapply destined_kept; [|exact Hdest]. by eapply acts_routes, Hexpire.
  - at_bind; [done|]. intros token c5 [_ ->]%mret_Ok. by apply Hinsert.
Qed.

Lemma lock_current_Ok id token now c claim c' :
  lock_current id token now c = (Ok claim, c') ->
  sees c' (durable c) (working c) /\ ClaimId_as_uuid (claim_id claim) = ClaimId_as_uuid id /\
  exists row, work_claims (working c) !! ClaimId_as_uuid id = Some row /\ wc_fencing_token row = token.
Proof.
  unfold lock_current, lock_claim_sql. intros (row & c1 & [-> Hs]%query_Ok & H)%db_bind_Ok.
  apply db_bind_Ok in H as ([u r] & c2 & [Hr%ok_or_Ok ->]%lift_Ok & H).
  apply fmap_Some in Hr as (row & Hrow & [= -> ->]).
  apply db_bind_Ok in H as (claim' & c3 & [[Hid Ht]%claim_from_row_Ok ->]%lift_Ok & H).
  destruct (_ || _) eqn:Hc; [done|]. apply mret_Ok in H as [-> ->]. split; [done|]. split; [done|].
  exists row. split; [done|]. apply orb_false_iff in Hc as [Hc%negb_false_iff%Z.eqb_eq _]. congruence.
Qed.

(** Both renewal and transition *)
Lemma acts_claim_update {A} id token now set (k : Uuid * WorkClaimRow -> Db Tables WorkClaimError A) :
  presented id token -> (forall row, evolves acts (k row)) ->
  history acts (connection work_claim_repository_error;;
    transaction work_claim_query_error;;
    current ← lock_current id token now;
    row ← execute work_claim_query_error
      (query_one (update_claim_sql set (ClaimId_as_uuid (claim_id current))));
    k row).
Proof.
  intros Hp Hk. apply history_connection_at; [apply _|]. intros c.
  at_bind; [at_walk|]. intros [] c1 _.
  at_bind; [unfold lock_current; at_walk|].
  intros current c2 ([_ Hw] & Hid & row & Hrow & Ht)%lock_current_Ok. rewrite Hid.
  at_bind; [| intros r c3 _; apply evolves_at_any, Hk].
  apply evolves_at_execute; [apply _|]. rewrite Hw. intros r T' H.
  eapply acts_query_one_claim; [exact Hrow| |exact H]. exists id. by rewrite Ht.
Qed.

Lemma acts_claim_updates id token :
  presented id token ->
  (forall lease now, history acts (WorkClaimService_renew PostgresWorkClaimRepository id token lease now)) /\
  (forall now, history acts (WorkClaimService_release PostgresWorkClaimRepository id token now)) /\
  (forall now, history acts (WorkClaimService_complete PostgresWorkClaimRepository id token now)).
Proof.
  intros Hp. unfold WorkClaimService_renew, WorkClaimService_release, WorkClaimService_complete. simpl.
  split_and!; intros; (case_match; [op_walk|]); apply acts_claim_update; try done; intros; op_walk.
Qed.

(** What the endpoints call, they call on the caller's behalf. *)
#[export] Instance acts_operations : CallerOperations acts service instance presented.
Proof.
  constructor.
  - exact acts_reserve.
  - intros event_type mode now facts c _ _. apply acts_subscription_create.
  - intros id now facts c _ _. apply acts_subscription_disable.
  - intros request fingerprint c Hs _. by apply acts_request_accept.
  - exact acts_materialize.
  - exact acts_authorize.
  - exact acts_schema_publish.
  - exact acts_instance_renew.
  - exact acts_claim.
  - intros id token lease now Hp. exact (proj1 (acts_claim_updates id token Hp) lease now).
  - intros id token now Hp. exact (proj1 (proj2 (acts_claim_updates id token Hp)) now).
  - intros id token now Hp. exact (proj2 (proj2 (acts_claim_updates id token Hp)) now).
Qed.
End operations.

(** ** The dispatcher *)

Section dispatcher.
Context {P : Platform} {HP : PlatformLaws P} {J : Serde} (EJ : EvaluateCodec) (I : InfernalClient)
  (env : Environment) (credential : InstanceCredential).
#[local] Notation kernel := (Application_new credential).

Lemma unix_time_Ok {S E} (c : Conn S) r c' :
  unix_time (E:=E) c = (r, c') -> exists now, r = Ok now /\ in_i64 now /\ durable c' = durable c.
Proof.
  unfold unix_time, random. rewrite bind_run.
  assert (forall n, in_i64 (Z.min (Z.of_N (n mod 2 ^ 64)) i64_max)) as Hin.
  { intros n. generalize (n mod 2 ^ 64)%N. intros m. unfold in_i64, i64_min, i64_max. lia. }
  destruct (entropy c); intros [= <- <-]; eexists; (split; [done|]); split; done || apply Hin.
Qed.

End dispatcher.
