(* ===== verification/HttpServices.v ===== *)
(** * HttpServices: what the composed endpoints promise

    Submission, routing, the eligible-route listing and the routed-request lookup
    of [Http] compose several components; here are the promises of the
    composition. *)

From S2P Require Import Prelude Text Platform Database Schema Identity InstanceKeys.
From S2P Require Import InstanceRegistry ServiceRequests ReplayProtection Admission RequestGate.
From S2P Require Import RequestNames Authority PostgresAuthority Subscriptions Requests.
From S2P Require Import WorkClaims HttpParsing HttpDto Wiring Http HttpHistory HttpSafety.

(** ** Submissions *)

(** Nothing changes in one part of the tables. *)
Definition keeps {X} (part : Tables -> X) (T T' : Tables) : Prop := part T' = part T.

#[export] Instance keeps_preorder {X} (part : Tables -> X) : PreOrder (keeps part).
Proof. unfold keeps. split; [done | intros T1 T2 T3; congruence]. Qed.

(** Every changed accepted request is filed under [key] with the content of [request]. *)
Definition accepts_only (request : Request) (fp : RequestFingerprint) (T T' : Tables) : Prop :=
  owned_changes
    (fun key row =>
       key = (ActorId_as_uuid (request_source_service request), RequestId_as_uuid (request_id request)) /\
       exists at_, row = accepted_row request fp at_)
    (accepted_requests T) (accepted_requests T').

#[export] Instance accepts_only_preorder request fp : PreOrder (accepts_only request fp).
Proof. unfold accepts_only. split; [by intros T; left | intros T1 T2 T3; by etrans]. Qed.

Section submissions.
Context {P : Platform} {HP : PlatformLaws P} {J : Serde} (service : ActorId)
  (evaluator : PolicyEvaluator) (evaluator_id : ActorId).
#[local] Notation authority := (postgres_authority evaluator evaluator_id).
#[local] Notation router :=
  (MkSubscriptionRouter _ PostgresSubscriptionRepository PostgresRouteRepository).

Lemma authorize_keeps facts now :
  history (keeps accepted_requests) (AuthorityService_authorize authority facts now).
Proof.
  unfold AuthorityService_authorize. simpl.
  unfold PostgresAuthority_matching_grants, PostgresAuthority_record.
  db_walk; by match goal with H : insert_decision_sql _ _ _ = Ok _ |- _ =>
    apply insert_decision_Ok in H as (_ & _ & ->) end.
Qed.

Lemma accept_keeps request fp :
  history (keeps authority_decisions) (RequestService_accept PostgresRequestRepository request fp) /\
  history (accepts_only request fp) (RequestService_accept PostgresRequestRepository request fp).
Proof.
  unfold RequestService_accept. simpl. unfold PostgresRequest_accept, append_acceptance_audit.
  split; db_walk; match goal with
    | H : insert_accepted_request_sql _ _ _ _ = Ok _ |- _ =>
        apply insert_accepted_request_Ok in H as [(_ & -> & _)|(_ & _ & ->)]
    | H : insert_acceptance_audit_sql _ _ = Ok _ |- _ =>
        apply insert_acceptance_audit_Ok in H as [_ ->]
    end; try done; try (intros k; by left).
  apply owned_insert. eauto.
Qed.

Lemma routing_keeps {X} (part : Tables -> X) source request_id action now :
  (forall T routes, part (with_request_routes routes T) = part T) ->
  history (keeps part) (SubscriptionRouter_routes router source request_id action now).
Proof.
  intros Hpart. unfold SubscriptionRouter_routes, SubscriptionService_find_active_by_event_type. simpl.
  unfold PostgresSubscription_find_active_by_event_type. db_walk.
  apply history_traverse; [apply _|]. intros s _. unfold RouteService_materialize. simpl.
  unfold PostgresRoute_materialize. db_walk.
  match goal with H : insert_route_sql _ _ _ = Ok _ |- _ =>
    apply insert_route_Ok in H as [[_ ->]|(_ & _ & _ & ->)] end; [done | apply Hpart].
Qed.

(** What follows an allow decision *)
Lemma acceptance_history request fp now (respond : string -> AcceptedRequest -> Response) :
  let steps :=
    acceptance ← map_err request_error_response
      (RequestService_accept PostgresRequestRepository request fp);
    let '(status, record) := match acceptance with
      | RequestAcceptance_Accepted record => ("201 Created", record)
      | RequestAcceptance_SafeRetry record => ("200 OK", record)
      end in
    attempt (materialize_routes router (request_source_service (accepted_request record))
               (Requests.request_id (accepted_request record))
               (request_action (accepted_request record)) now);;
    mret (respond status record) in
  history (keeps authority_decisions) steps /\ history (accepts_only request fp) steps.
Proof.
  cbv zeta. destruct (accept_keeps request fp) as [Hd Ha].
  assert (forall source id action, history (accepts_only request fp)
    (SubscriptionRouter_routes router source id action now)) as Hr.
  { intros source id action c k. left.
    by rewrite (routing_keeps accepted_requests source id action now (fun _ _ => eq_refl) c). }
  split; (apply history_bind; [apply _ | by apply history_map_err | intros acceptance]);
    destruct acceptance; (apply history_bind; [apply _ | apply history_attempt | db_walk]);
    try apply Hr; by apply routing_keeps.
Qed.

(** C5: A request is accepted only on a recorded allow decision: whatever faults
    occur and whatever is answered, a request that a submission adds to the
    store is filed under the caller and the request id of the envelope, and a
    decision is newly stored, on exactly its action, scope and schema
    versions, that the evaluator had given as allow on grants all permitting
    those facts at that time. *)
Theorem submissions_are_authorized request envelope c key row :
  let '(_, c') :=
    submit_request request service envelope PostgresRequestRepository authority router c in
  accepted_requests (durable c) !! key = None -> accepted_requests (durable c') !! key = Some row ->
  key = (ActorId_as_uuid service, RequestId_as_uuid envelope) /\
  exists decision grants evaluation,
    authority_decisions (durable c) !! DecisionId_as_uuid (decision_id decision) = None /\
    authority_decisions (durable c') !! DecisionId_as_uuid (decision_id decision) =
      Some (decision_row decision) /\
    let facts := decision_facts decision in
    facts_source facts = service /\ facts_destination facts = None /\
    ActionName_as_str (facts_action facts) = ar_action row /\
    Scope_as_str (facts_scope facts) = ar_scope row /\
    SchemaVersionId_as_uuid (refs_artifact (facts_schema_versions facts)) =
      ar_artifact_schema_version_id row /\
    SchemaVersionId_as_uuid (refs_permission_policy (facts_schema_versions facts)) =
      ar_permission_policy_schema_version_id row /\
    (forall g, g ∈ grants -> Grant_permits g facts (decision_decided_at decision) = true) /\
    evaluator facts grants = Ok evaluation /\ evaluation_verdict evaluation = Verdict_Allow.
Proof.
  destruct (submit_request _ _ _ _ _ _ c) as [r c'] eqn:Hrun. intros Hnone Hsome.
  assert (accepted_requests (durable c') = accepted_requests (durable c) -> False) as Hsame
    by (intros Heq; congruence).
  unfold submit_request in Hrun. destruct (negb _); [injection Hrun as <- <-; by destruct Hsame|].
  rewrite bind_run, lift_run in Hrun.
  destruct (ok_or _ _) as [dto|]; [|injection Hrun as <- <-; by destruct Hsame].
  rewrite bind_run, lift_run in Hrun.
  destruct (SubmitRequestRequest_into_request _ _ _) as [submitted|] eqn:Hs; simpl in Hrun;
    [|injection Hrun as <- <-; by destruct Hsame].
  apply into_request_source in Hs as [Hsource Hid].
  rewrite bind_run in Hrun. destruct (unix_time c) as [n c0] eqn:Hn.
  apply unix_time_Ok in Hn as (now & -> & _ & Hd0). rewrite bind_run in Hrun.
  unfold map_err in Hrun at 1.
  pose proof (authorize_keeps (PolicyFacts_for_request_acceptance service (request_action submitted)
    (request_scope submitted) (request_schema_versions submitted)) now c0) as Hk.
  unfold keeps in Hk. rewrite Hd0 in Hk.
  change (authorize_request authority) with (AuthorityService_authorize authority) in Hrun.
  destruct (AuthorityService_authorize _ _ _ c0) as [[d|e] c1] eqn:Hauth; simpl in Hrun, Hk;
    [|injection Hrun as <- <-; by destruct Hsame].
  destruct (AuthorityDecision_is_allowed d) eqn:Hallow; simpl in Hrun;
    [|injection Hrun as <- <-; by destruct Hsame].
  destruct (acceptance_history submitted (Request_fingerprint submitted) now
    (fun status record => json_response status (Dto_request (AcceptedRequestResponse_from record))))
    as [Hdec Hacc].
  specialize (Hdec c1). specialize (Hacc c1 key).
  match type of Hrun with ?run = _ =>
    match type of Hacc with context [durable (snd ?run')] => change run' with run in Hacc, Hdec end end.
  rewrite Hrun in Hacc, Hdec. simpl in Hacc, Hdec. unfold keeps in Hdec.
  destruct Hacc as [Heq|(row' & Hrow & -> & at_ & ->)]; [by destruct Hsame; congruence|].
  split; [by rewrite Hsource, Hid|]. rewrite Hsome in Hrow. injection Hrow as ->.
  apply authorize_recorded in Hauth as (Hn & Hd & Hf & Ht & grants & Hg & Hv).
  destruct (evaluator _ grants) as [evaluation|e] eqn:He; [|destruct Hv; congruence].
  destruct Hv as [Hv _]. exists d, grants, evaluation. cbv zeta. rewrite Hf, Ht, Hdec, <-Hd0.
  unfold AuthorityDecision_is_allowed in Hallow. rewrite Hv in Hallow.
  split_and!; try done. by destruct (evaluation_verdict evaluation).
Qed.
End submissions.

(** ** Listings *)

Section listings.
Context {P : Platform} {HP : PlatformLaws P} (service : ActorId).

(** A claim on the route would be granted at [now]. *)
Definition claimable (T : Tables) (now : Z) (route_id : Uuid) : bool :=
  is_ok (lock_claim (route_state T route_id) route_id now now).

Lemma list_for_destination_run T ns :
  routes_wf T ->
  PostgresRoute_list_for_destination service (start T [] ns) =
    (Ok (uncurry route_of <$>
           list_routes_sql (fun row => bool_decide (rr_destination_service_id row = ActorId_as_uuid service)) T),
     start T [] ns).
Proof.
  intros [_ Hc]. unfold PostgresRoute_list_for_destination, start. db_run. f_equal.
  set (rows := list_routes_sql _ T).
  assert (forall id row, (id, row) ∈ rows -> (0 <= rr_created_at row)%Z) as Hrows.
  { intros id row Hin. apply (Hc id). unfold rows, list_routes_sql in Hin.
    by apply order_by_In, select_In in Hin as [? _]. }
  clearbody rows. induction rows as [|[id row] rows IH]; [done|]. cbn [collect].
  rewrite route_from_row_of by (apply (Hrows id); left). simpl.
  rewrite IH; [done|]. intros ???. eapply Hrows. by right.
Qed.

Lemma filter_fmap {A B} (f : A -> B) (p : A -> bool) (q : B -> bool) l :
  (forall a, a ∈ l -> q (f a) = p a) -> List.filter q (f <$> l) = f <$> List.filter p l.
Proof.
  induction l as [|a l IH]; [done|]. intros Hpq. cbn [List.filter fmap list_fmap].
  rewrite (Hpq a), IH by (left || (intros; apply Hpq; by right)). by destruct (p a).
Qed.

(** C31: The eligible routes of a service are exactly the ones it can claim: the
    listing succeeds without changing anything, and it is the stored routes to
    the caller, in the order of their creation, kept when a claim made at that
    time would be granted. *)
Theorem eligible_routes_are_claimable T ns now :
  routes_wf T -> claims_wf T -> (0 <= now)%Z ->
  EligibleRouteQuery_eligible_for
    (MkEligibleRouteQuery PostgresRouteRepository PostgresWorkClaimRepository) service now
    (start T [] ns) =
  (Ok (uncurry route_of <$>
         List.filter (fun kv => claimable T now kv.1)
           (list_routes_sql (fun row => bool_decide (rr_destination_service_id row =
                                                     ActorId_as_uuid service)) T)),
   start T [] ns).
Proof.
  intros Hr Hc Hnow. unfold EligibleRouteQuery_eligible_for, RouteService_list_for_destination.
  cbn [eligible_routes eligible_work_claims route_repository_list_for_destination
    PostgresRouteRepository]. rewrite bind_run, list_for_destination_run by done.
  set (rows := list_routes_sql _ T). set (ids := map route_id (uncurry route_of <$> rows)).
  destruct (active_route_ids_run ids now T ns Hnow) as (claimed & Hrun & Hclaimed).
  rewrite bind_run, (proj2 (map_err_Ok _ _ _ _ _) Hrun).
  destruct (completed_route_ids_run ids T ns) as (completed & Hrun' & Hcompleted).
  rewrite bind_run, (proj2 (map_err_Ok _ _ _ _ _) Hrun'), mret_run.
  rewrite (filter_fmap _ (fun kv => claimable T now kv.1)); [done|]. intros [id row] Hin. simpl.
  assert (MkRouteId id ∈ ids) as Hid.
  { unfold ids. apply list_elem_of_fmap. exists (route_of id row). split; [done|].
    apply list_elem_of_fmap. by exists (id, row). }
  apply eq_true_iff_eq. unfold claimable. rewrite lockable_iff by done.
  rewrite andb_true_iff, !negb_true_iff, !bool_decide_eq_false, Hclaimed, Hcompleted by done. done.
Qed.
End listings.

(** ** Routing *)

Section routing.
Context {P : Platform} {HP : PlatformLaws P} (source : ActorId) (request : RequestId) (now : Z).
#[local] Notation router :=
  (MkSubscriptionRouter _ PostgresSubscriptionRepository PostgresRouteRepository).
#[local] Notation materialize s :=
  (RouteService_materialize PostgresRouteRepository source request (subscription_id s)
     (subscription_service_id s) now).

(** A route of the request to a subscriber *)
Definition routed_to (s : Subscription) (row : RouteRow) : Prop :=
  row = MkRouteRow (ActorId_as_uuid source) (RequestId_as_uuid request)
          (SubscriptionId_as_uuid (subscription_id s)) (ActorId_as_uuid (subscription_service_id s)) now.

(** Every new route is one of the request, to one of the subscribers. *)
Definition routes_added (subscribers : list Subscription) (T T' : Tables) : Prop :=
  owned_changes (fun _ row => exists s, s ∈ subscribers /\ routed_to s row)
    (request_routes T) (request_routes T').

#[export] Instance routes_added_preorder subscribers : PreOrder (routes_added subscribers).
Proof. unfold routes_added. split; [by intros T; left | intros T1 T2 T3; by etrans]. Qed.

Lemma materialize_adds subscribers s :
  s ∈ subscribers -> history (routes_added subscribers) (materialize s).
Proof.
  intros Hin. unfold RouteService_materialize. apply history_bind; [apply _ | db_walk|]. intros id.
  apply history_lift_bind; [apply _|]. intros r Hr. unfold Route_create, Route_restore in Hr.
  result_inv. simpl. unfold PostgresRoute_materialize. db_walk.
  match goal with H : insert_route_sql _ _ _ = Ok _ |- _ =>
    apply insert_route_Ok in H as [[_ ->]|(_ & _ & _ & ->)] end; [by intros k; left|].
  apply owned_insert. by exists s.
Qed.

Lemma materialize_found s c r c' :
  routes_wf (durable c) -> materialize s c = (Ok r, c') ->
  routes_wf (durable c') /\ exists id row, request_routes (durable c') !! id = Some row /\
    r = route_of id row /\ rr_request_id row = RequestId_as_uuid request /\
    rr_subscription_id row = SubscriptionId_as_uuid (subscription_id s).
Proof.
  intros Hwf Hrun. unfold RouteService_materialize in Hrun. simpl in Hrun.
  apply db_bind_Ok in Hrun as (id & c1 & [Hd _]%new_uuid_Ok & Hrun).
  apply db_bind_Ok in Hrun as (route & c2 & [Hr ->]%lift_Ok & Hrun).
  unfold Route_create, Route_restore in Hr. result_inv. bool_facts.
  by eapply materialize_Ok in Hrun; [|by rewrite Hd|].
Qed.

Lemma traverse_found subscribers c rs c' :
  routes_wf (durable c) -> traverse (fun s => materialize s) subscribers c = (Ok rs, c') ->
  routes_wf (durable c') /\ request_routes (durable c) ⊆ request_routes (durable c') /\
  forall s, s ∈ subscribers -> exists id row,
    request_routes (durable c') !! id = Some row /\ route_of id row ∈ rs /\
    rr_request_id row = RequestId_as_uuid request /\
    rr_subscription_id row = SubscriptionId_as_uuid (subscription_id s).
Proof.
  revert c rs. induction subscribers as [|s subscribers IH]; intros c rs Hwf Hrun; simpl in Hrun.
  { injection Hrun as <- <-. split_and!; [done..|]. by intros s ?%elem_of_nil. }
  apply db_bind_Ok in Hrun as (r & c1 & Hm & Hrun).
  apply db_bind_Ok in Hrun as (rest & c2 & Ht & [-> ->]%mret_Ok).
  pose proof (routes_are_unique source request (subscription_id s) (subscription_service_id s) now c)
    as [Hsub _]. rewrite Hm in Hsub. simpl in Hsub.
  apply materialize_found in Hm as (Hwf1 & id & row & Hid & -> & Hr & Hs); [|done].
  apply IH in Ht as (Hwf2 & Hsub2 & Hall); [|done]. split_and!; [done | by etrans |].
  intros s' [->|Hin]%elem_of_cons.
  - exists id, row. split_and!; [|by left|done..]. by eapply lookup_weaken.
  - destruct (Hall s' Hin) as (id' & row' & ? & ? & ?). exists id', row'. split_and!; [done|by right|..]; tauto.
Qed.

Lemma subscription_from_row_Ok id row s :
  subscription_from_row (id, row) = Ok s ->
  subscription_id s = MkSubscriptionId id /\ subscription_service_id s = MkActorId (sub_service_id row) /\
  is_inclusive s = true.
Proof.
  unfold subscription_from_row, SubscriptionId_from_str, ActorId_from_str, Subscription_restore.
  rewrite !uuid_parse_print. simpl. intros H. result_inv. split_and!; try done.
  unfold is_inclusive. by destruct (subscription_delivery_mode _).
Qed.

(** The subscriptions the router acts on *)
Lemma found_subscriptions value T found :
  collect subscription_from_row (find_active_by_event_type_sql value T) = Ok found ->
  (forall id row, subscriptions T !! id = Some row -> sub_event_type row = value ->
     sub_disabled_at row = None ->
     exists s, s ∈ List.filter is_inclusive found /\ subscription_id s = MkSubscriptionId id) /\
  (forall s, s ∈ List.filter is_inclusive found -> exists id row,
     subscriptions T !! id = Some row /\ sub_event_type row = value /\ sub_disabled_at row = None /\
     subscription_id s = MkSubscriptionId id /\
     subscription_service_id s = MkActorId (sub_service_id row)).
Proof.
  intros Hf.
  assert (forall kv, kv ∈ find_active_by_event_type_sql value T <->
    subscriptions T !! kv.1 = Some kv.2 /\ sub_event_type kv.2 = value /\ sub_disabled_at kv.2 = None) as Hrows.
  { intros [id row]. unfold find_active_by_event_type_sql.
    by rewrite order_by_In, select_In, andb_true_iff, String.eqb_eq, bool_decide_eq_true. }
  split.
  - intros id row Hid He Hd.
    assert ((id, row) ∈ find_active_by_event_type_sql value T) as Hkv by by apply Hrows.
    apply list_elem_of_lookup in Hkv as [i Hi].
    destruct (Forall2_lookup_l _ _ _ _ _ (collect_Ok _ _ _ Hf) Hi) as (s & His & Hs).
    exists s. destruct (subscription_from_row_Ok _ _ _ Hs) as (? & _ & ?). split; [|done].
    apply list_elem_of_In, filter_In. split; [|done]. by eapply list_elem_of_In, list_elem_of_lookup_2.
  - intros s [Hs _]%list_elem_of_In%filter_In. apply list_elem_of_In in Hs.
    apply (collect_elem_of _ _ _ _ Hf) in Hs as ([id row] & (? & ? & ?)%Hrows & Hs).
    apply subscription_from_row_Ok in Hs as (? & ? & _). by exists id, row.
Qed.

(** C30: Routing reaches every subscriber and nobody else. When it answers, every
    enabled subscription to the action has a stored route for the request, which
    is among the answered ones; and a route that was not there before comes
    from the request's source and goes to the service of an enabled subscription
    to that action. *)
Theorem routing_reaches_subscribers value action c routes c' :
  routes_wf (durable c) -> ActionName_new value = Ok action ->
  SubscriptionRouter_routes router source request action now c = (Ok routes, c') ->
  (forall id row, subscriptions (durable c) !! id = Some row ->
     sub_event_type row = value -> sub_disabled_at row = None ->
     exists rid rrow, request_routes (durable c') !! rid = Some rrow /\ route_of rid rrow ∈ routes /\
       rr_request_id rrow = RequestId_as_uuid request /\ rr_subscription_id rrow = id) /\
  (forall rid rrow, request_routes (durable c') !! rid = Some rrow ->
     request_routes (durable c) !! rid = None ->
     rr_source_service_id rrow = ActorId_as_uuid source /\
     rr_request_id rrow = RequestId_as_uuid request /\
     exists row, subscriptions (durable c) !! rr_subscription_id rrow = Some row /\
       sub_event_type row = value /\ sub_disabled_at row = None /\
       rr_destination_service_id rrow = sub_service_id row).
Proof.
  intros Hwf Hname Hrun. unfold SubscriptionRouter_routes in Hrun.
  rewrite (action_is_event_type value action Hname) in Hrun.
  apply db_bind_Ok in Hrun as (event & c1 & [[= <-] ->]%lift_Ok & Hrun).
  apply db_bind_Ok in Hrun as (found & c2 & Hf%map_err_Ok & Hrun).
  unfold SubscriptionService_find_active_by_event_type in Hf. simpl in Hf.
  unfold PostgresSubscription_find_active_by_event_type in Hf.
  unfold subscription_repository_find_active, SubscriptionService_find_active_by_event_type in Hf.
  db_inv. apply found_subscriptions in Hf as [Hall Honly].
  assert (history (routes_added (List.filter is_inclusive found))
    (traverse (fun s => materialize s) (List.filter is_inclusive found))) as Hadds.
  { apply history_traverse; [apply _|]. apply materialize_adds. }
  cbn [router_routes] in Hrun. specialize (Hadds x2). rewrite Hrun, Hd0 in Hadds. simpl in Hadds.
  apply traverse_found in Hrun as (_ & _ & Hfound); [|by rewrite Hd0]. split.
  - intros id row Hid He Hd. destruct (Hall id row Hid He Hd) as (s & Hs & Hsid).
    destruct (Hfound s Hs) as (rid & rrow & ? & ? & ? & Hrs). rewrite Hsid in Hrs. eauto 8.
  - intros rid rrow Hr Hnone. destruct (Hadds rid) as [?|(rrow' & Hr' & s & Hs & Hs')]; [congruence|].
    assert (rrow' = rrow) as -> by congruence. unfold routed_to in Hs'. subst rrow. simpl.
    do 2 (split; [done|]).
    destruct (Honly s Hs) as (id & row & Hid & ? & ? & -> & ->). simpl. eauto 8.
Qed.
End routing.

(** ** Routed requests *)

Section routed.
Context {P : Platform} {HP : PlatformLaws P} {J : Serde} (caller : ActorId).
#[local] Notation query := (MkRoutedRequestQuery PostgresRouteRepository PostgresRequestRepository).

Lemma find_route_Ok id c r c' :
  PostgresRoute_find id c = (Ok (Some r), c') ->
  durable c' = durable c /\ exists row,
    request_routes (durable c) !! RouteId_as_uuid id = Some row /\ r = route_of (RouteId_as_uuid id) row.
Proof.
  unfold PostgresRoute_find. intros H.
  apply db_bind_Ok in H as (u & c1 & [Hd1 Hw1]%connection_Ok & H).
  apply db_bind_Ok in H as (o & c2 & [-> [Hd2 Hw2]]%query_Ok & H). rewrite Hw1 in H.
  destruct (request_routes (durable c) !! _) as [row|]; [|by apply mret_Ok in H as [? _]].
  apply db_bind_Ok in H as (route & c3 & [Hr ->]%lift_Ok & [[= ->] ->]%mret_Ok).
  apply route_from_row_Ok in Hr as ->. split; [congruence | eauto].
Qed.

Lemma find_route_run T ns id :
  routes_wf T ->
  PostgresRoute_find id (start T [] ns) =
    (Ok (route_of (RouteId_as_uuid id) <$> request_routes T !! RouteId_as_uuid id), start T [] ns).
Proof.
  intros [_ Hc]. unfold PostgresRoute_find, start. db_run.
  destruct (request_routes T !! _) as [row|] eqn:Hrow; cbn [fmap option_fmap option_map]; [|done].
  by rewrite (route_from_row_of _ row) by eauto.
Qed.

Lemma find_request_Ok source id c record c' :
  PostgresRequest_find source id c = (Ok (Some record), c') ->
  exists accepted,
    accepted_requests (durable c) !! (ActorId_as_uuid source, RequestId_as_uuid id) = Some accepted /\
    accepted_request_from_row ((ActorId_as_uuid source, RequestId_as_uuid id), accepted) = Ok record.
Proof.
  unfold PostgresRequest_find, find_accepted_request_sql. intros H.
  apply db_bind_Ok in H as (u & c1 & [Hd1 Hw1]%connection_Ok & H).
  apply db_bind_Ok in H as (o & c2 & [-> [Hd2 Hw2]]%query_Ok & H). rewrite Hw1 in H.
  destruct (accepted_requests (durable c) !! _) as [row|]; [|by apply mret_Ok in H as [? _]].
  apply db_bind_Ok in H as (stored & c3 & [Hr ->]%lift_Ok & [[= ->] ->]%mret_Ok). eauto.
Qed.

(** C32: A routed request is shown to its destination only. A record is returned
    only for a stored route to the caller, and it is the stored request that
    route names; a route to another service is answered with exactly the
    response for a route that does not exist. *)
Theorem routed_request_only_for_destination :
  (forall id c record c',
     RoutedRequestQuery_find_for_destination query caller id c = (Ok (Some record), c') ->
     exists row accepted,
       request_routes (durable c) !! RouteId_as_uuid id = Some row /\
       rr_destination_service_id row = ActorId_as_uuid caller /\
       accepted_requests (durable c) !! (rr_source_service_id row, rr_request_id row) = Some accepted /\
       accepted_request_from_row ((rr_source_service_id row, rr_request_id row), accepted) = Ok record) /\
  (forall T ns id, routes_wf T ->
     (forall row, request_routes T !! id = Some row ->
        rr_destination_service_id row <> ActorId_as_uuid caller) ->
     find_routed_request (uuid_print id) caller PostgresRouteRepository PostgresRequestRepository
       (start T [] ns) =
     (Ok (json_error "404 Not Found" error_claim_not_found), start T [] ns)).
Proof.
  split.
  - intros id c record c' H. unfold RoutedRequestQuery_find_for_destination, RouteService_find,
      RequestService_find in H. simpl in H.
    apply db_bind_Ok in H as ([route|] & c1 & Hr & H); [|by apply mret_Ok in H as [? _]].
    apply find_route_Ok in Hr as (Hd & row & Hrow & ->).
    case_bool_decide as Hdest; [|by apply mret_Ok in H as [? _]].
    apply find_request_Ok in H as (accepted & Ha & Hs). rewrite Hd in Ha. exists row, accepted.
    by rewrite <-Hdest.
  - intros T ns id Hwf Hforeign. unfold find_routed_request, RouteId_from_str.
    rewrite uuid_parse_print. unfold RoutedRequestQuery_find_for_destination, RouteService_find,
      map_err. simpl. rewrite !bind_run, lift_run, !bind_run, find_route_run by done.
    simpl. destruct (request_routes T !! id) as [row|] eqn:Hrow; [|done]. simpl.
    rewrite bool_decide_eq_false_2; [done|]. intros <-. by apply (Hforeign row).
Qed.
End routed.
