(* ===== verification/HttpResponses.v ===== *)
(** * HttpResponses: every connection is answered

    What leaves [handle_connection]: a status line and a content type from fixed
    lists, whatever was received and whatever failed. *)

From S2P Require Import Prelude Text Platform Database Schema Identity InstanceKeys.
From S2P Require Import InstanceRegistry ServiceRequests ReplayProtection Admission RequestGate.
From S2P Require Import RequestNames Authority PostgresAuthority Subscriptions Requests.
From S2P Require Import WorkClaims Enrollment HttpParsing HttpDto PolicyClient Wiring Http.

Definition STATUSES : list string :=
  ["200 OK"; "201 Created"; "400 Bad Request"; "401 Unauthorized"; "403 Forbidden"; "404 Not Found";
   "405 Method Not Allowed"; "409 Conflict"; "413 Payload Too Large"; "415 Unsupported Media Type";
   "500 Internal Server Error"; "503 Service Unavailable"].

Definition CONTENT_TYPES : list string := ["application/json"; "text/plain"].

(** The head of the response holds fixed text only. *)
Definition framed (r : Response) : Prop :=
  response_status r ∈ STATUSES /\ response_content_type r ∈ CONTENT_TYPES.

Definition fails_framed {A} (r : Result Response A) : Prop :=
  match r with Ok _ => True | Err e => framed e end.

(** A step that returns early only with a framed response *)
Definition raises {S A} (m : Db S Response A) : Prop := forall c, fails_framed (m c).1.

(** A handler that ends with a framed response *)
Definition answers {S} (m : Db S Response Response) : Prop := forall c,
  match (m c).1 with Ok r | Err r => framed r end.

Ltac listed := apply list_elem_of_In; simpl; tauto.

Section lemmas.
Context {J : Serde}.

Lemma framed_json status value : status ∈ STATUSES -> framed (json_response status value).
Proof.
  intros H. unfold json_response. destruct (serde_to_string value); split; simpl; [done | listed..].
Qed.

Lemma framed_error status error : status ∈ STATUSES -> framed (json_error status error).
Proof. apply framed_json. Qed.

Lemma framed_text status body : status ∈ STATUSES -> framed (text_response status body).
Proof. split; [done | listed]. Qed.
End lemmas.

Section steps.
Context {S : Type}.

Lemma answers_bind {A} (m : Db S Response A) (k : A -> Db S Response Response) :
  raises m -> (forall a, answers (k a)) -> answers (m ≫= k).
Proof.
  intros Hm Hk c. rewrite bind_run. specialize (Hm c). destruct (m c) as [[a|e] c1]; simpl in *; [|done].
  apply Hk.
Qed.

Lemma answers_ret r : framed r -> answers (S:=S) (mret r).
Proof. by intros H c. Qed.

Lemma answers_throw r : framed r -> answers (S:=S) (throw r).
Proof. by intros H c. Qed.

Lemma raises_lift {A} (r : Result Response A) : fails_framed r -> raises (S:=S) (lift r).
Proof. by intros H c. Qed.

Lemma raises_map_err {E A} (f : E -> Response) (m : Db S E A) :
  (forall e, framed (f e)) -> raises (map_err f m).
Proof. intros Hf c. unfold map_err. destruct (m c) as [[a|e] c']; simpl; [done | apply Hf]. Qed.

Lemma raises_attempt {E A} (m : Db S E A) : raises (attempt m).
Proof. intros c. unfold attempt. by destruct (m c) as [[a|e] c']. Qed.

Lemma raises_unix_time : raises (S:=S) unix_time.
Proof. intros c. unfold unix_time, random. rewrite bind_run. by destruct (entropy c). Qed.

Lemma fails_ok_or {A} e (o : option A) : framed e -> fails_framed (ok_or e o).
Proof. by destruct o. Qed.

Lemma fails_map_err {E A} (f : E -> Response) (r : Result E A) :
  (forall e, framed (f e)) -> fails_framed (result_map_err f r).
Proof. destruct r; simpl; auto. Qed.

Lemma fails_bind {A B} (r : Result Response A) (k : A -> Result Response B) :
  fails_framed r -> (forall a, fails_framed (k a)) -> fails_framed (r ≫= k).
Proof. destruct r; simpl; auto. Qed.

Lemma fails_fmap {A B} (f : A -> B) (r : Result Response A) : fails_framed r -> fails_framed (f <$> r).
Proof. by destruct r. Qed.
End steps.

(** Walks through a handler; [error_maps] are the maps from errors to responses. *)
Ltac framed_step :=
  match goal with
  | |- forall _, _ => intros ?
  | |- framed (json_response _ _) => apply framed_json; listed
  | |- framed (json_error (if ?b then _ else _) _) => destruct b
  | |- framed (json_error _ _) => apply framed_error; listed
  | |- framed (text_response _ _) => apply framed_text; listed
  | |- framed (match ?x with _ => _ end) => destruct x
  | |- answers (match match ?x with _ => _ end with _ => _ end) => destruct x
  | |- answers (match ?x with _ => _ end) => destruct x
  | |- fails_framed (match ?x with _ => _ end) => destruct x
  | |- answers (mbind _ _) => apply answers_bind
  | |- answers (mret _) => apply answers_ret
  | |- answers (throw _) => apply answers_throw
  | |- raises (lift _) => apply raises_lift
  | |- raises (map_err _ _) => apply raises_map_err
  | |- raises (attempt _) => apply raises_attempt
  | |- raises unix_time => apply raises_unix_time
  | |- fails_framed (ok_or _ _) => apply fails_ok_or
  | |- fails_framed (result_map_err _ _) => apply fails_map_err
  | |- fails_framed (fmap _ _) => apply fails_fmap
  | |- fails_framed (mbind _ _) => apply fails_bind
  | |- fails_framed (Ok _) => exact Logic.I
  | |- fails_framed (Err _) => simpl
  end.
Ltac framed_walk := repeat (cbv beta iota zeta; first [framed_step | solve [eauto with framed]]).

Create HintDb framed.

Section maps.
Context {J : Serde}.

Lemma framed_unavailable : framed internal_unavailable.
Proof. unfold internal_unavailable. framed_walk. Qed.
Lemma framed_rejected : framed authentication_rejected.
Proof. unfold authentication_rejected. framed_walk. Qed.
Lemma framed_method : framed method_not_allowed.
Proof. unfold method_not_allowed. framed_walk. Qed.
#[local] Hint Resolve framed_unavailable framed_rejected : framed.

Lemma framed_error_maps :
  (forall e, framed (gate_error_response e)) /\ (forall e, framed (subscription_error_response e)) /\
  (forall e, framed (request_error_response e)) /\ (forall e, framed (schema_error_response e)) /\
  (forall e, framed (instance_renewal_error_response e)) /\
  (forall e, framed (work_claim_error_response e)) /\ (forall e, framed (enrollment_failure e)).
Proof.
  unfold gate_error_response, subscription_error_response, request_error_response,
    schema_error_response, instance_renewal_error_response, work_claim_error_response,
    enrollment_failure.
  split_and!; framed_walk.
Qed.
End maps.

#[export] Hint Resolve framed_unavailable framed_rejected framed_method : framed.
#[export] Hint Extern 1 (framed (gate_error_response _)) => apply framed_error_maps : framed.
#[export] Hint Extern 1 (framed (subscription_error_response _)) => apply framed_error_maps : framed.
#[export] Hint Extern 1 (framed (request_error_response _)) => apply framed_error_maps : framed.
#[export] Hint Extern 1 (framed (schema_error_response _)) => apply framed_error_maps : framed.
#[export] Hint Extern 1 (framed (instance_renewal_error_response _)) => apply framed_error_maps : framed.
#[export] Hint Extern 1 (framed (work_claim_error_response _)) => apply framed_error_maps : framed.
#[export] Hint Extern 1 (framed (enrollment_failure _)) => apply framed_error_maps : framed.
#[export] Hint Extern 1 (framed (malformed_enrollment _)) => apply framed_error; listed : framed.

(** ** The handlers, over any repositories and services *)

Section handlers.
Context {P : Platform} {J : Serde} {S : Type}.

Lemma answers_publish_schema request service (schemas : SchemaRepository S) :
  answers (publish_schema request service schemas).
Proof. unfold publish_schema. framed_walk. Qed.

Lemma answers_eligible service (routes : RouteRepository S) claims :
  answers (list_eligible_routes service routes claims).
Proof. unfold list_eligible_routes. framed_walk. Qed.

Lemma answers_routed id service (routes : RouteRepository S) requests :
  answers (find_routed_request id service routes requests).
Proof. unfold find_routed_request. framed_walk. Qed.

Lemma framed_claim_errors : framed invalid_claim_request /\ framed unsupported_claim_request.
Proof. unfold invalid_claim_request, unsupported_claim_request. split; framed_walk. Qed.
#[local] Hint Extern 1 (framed invalid_claim_request) => apply framed_claim_errors : framed.
#[local] Hint Extern 1 (framed unsupported_claim_request) => apply framed_claim_errors : framed.

Lemma answers_claim request service instance id (claims : WorkClaimRepository S) :
  answers (claim_route request service instance id claims).
Proof. unfold claim_route. framed_walk. Qed.

Lemma answers_claim_update request id (claims : WorkClaimRepository S) :
  answers (renew_claim_route request id claims) /\
  answers (release_claim_route request id claims) /\
  answers (complete_claim_route request id claims).
Proof.
  unfold renew_claim_route, release_claim_route, complete_claim_route, parse_fenced_action.
  split_and!; framed_walk.
Qed.

Lemma answers_instance_renewal request instance (instances : InstanceRegistryService S) :
  answers (renew_instance_route request instance instances).
Proof. unfold renew_instance_route. framed_walk. Qed.

(** An authorization check returns early with a framed response. *)
Lemma answers_check_authorized (authority : AuthorityService S) service action
  (k : Db S Response Response) :
  answers k ->
  answers (response ← check_authorized authority service action; return_if response;; k).
Proof.
  intros Hk c. rewrite bind_run. unfold check_authorized. rewrite bind_run.
  pose proof (raises_unix_time c) as Hn. destruct (unix_time c) as [[now|e] c1]; [|exact Hn].
  rewrite bind_run. pose proof (raises_attempt (authorize_subscription_action authority service action now) c1) as Ha.
  destruct (attempt _ c1) as [[r|e] c2]; [|exact Ha]. rewrite mret_run.
  destruct r as [d|e]; [destruct (AuthorityDecision_is_allowed d)|]; cbn [return_if];
    rewrite bind_run; [apply Hk | |]; simpl; framed_walk.
Qed.

Lemma answers_subscription_route request service subscriptions (authority : AuthorityService S) :
  answers (subscription_route request service subscriptions authority).
Proof.
  unfold subscription_route, create_subscription, list_subscriptions, disable_subscription.
  repeat (cbv beta iota zeta; first [apply answers_check_authorized | framed_step | solve [eauto with framed]]).
Qed.

Lemma answers_request_route {A R} `{RequestAuthorizer S A, RequestRouter S R} request service id
  requests (authority : A) (router : R) :
  answers (request_route request service id requests authority router).
Proof. unfold request_route, submit_request, find_request. framed_walk. Qed.

Lemma raises_governed {A} `{GovernedRequestAuthenticator S A} request (authenticator : A) now :
  raises (authenticate_governed_request request authenticator now).
Proof.
  unfold authenticate_governed_request. intros c. rewrite bind_run, lift_run.
  pose proof (fails_map_err (fun _ => authentication_rejected)
    (GovernedHttpRequest_into_signed request)) as Hs.
  destruct (result_map_err _ (GovernedHttpRequest_into_signed request)) as [signed|r].
  - apply raises_map_err. framed_walk.
  - apply Hs. framed_walk.
Qed.

Lemma answers_enrollment {A} `{EnrollmentAuthenticator S A} request (authenticator : A) now :
  answers (authenticate_enrollment request authenticator now).
Proof. unfold authenticate_enrollment. framed_walk. Qed.

Lemma answers_challenge {A} `{WorkloadChallengeIssuer S A} request (service : A) now :
  answers (issue_workload_challenge request service now).
Proof. unfold issue_workload_challenge. framed_walk. Qed.

Lemma fails_parse_enrollment content_type body :
  fails_framed (parse_enrollment_request content_type body) /\
  fails_framed (parse_workload_challenge_request content_type body).
Proof. unfold parse_enrollment_request, parse_workload_challenge_request. split; framed_walk. Qed.
End handlers.

(** ** The connection *)

Section connection.
Context {P : Platform} {J : Serde} (EJ : EvaluateCodec) (I : InfernalClient) (env : Environment)
  (application : Application).

#[local] Hint Extern 1 (answers (publish_schema _ _ _)) => apply answers_publish_schema : framed.
#[local] Hint Extern 1 (answers (list_eligible_routes _ _ _)) => apply answers_eligible : framed.
#[local] Hint Extern 1 (answers (find_routed_request _ _ _ _)) => apply answers_routed : framed.
#[local] Hint Extern 1 (answers (claim_route _ _ _ _ _)) => apply answers_claim : framed.
#[local] Hint Extern 1 (answers (renew_claim_route _ _ _)) =>
  apply (proj1 (answers_claim_update _ _ _)) : framed.
#[local] Hint Extern 1 (answers (release_claim_route _ _ _)) =>
  apply (proj1 (proj2 (answers_claim_update _ _ _))) : framed.
#[local] Hint Extern 1 (answers (complete_claim_route _ _ _)) =>
  apply (proj2 (proj2 (answers_claim_update _ _ _))) : framed.
#[local] Hint Extern 1 (answers (renew_instance_route _ _ _)) => apply answers_instance_renewal : framed.
#[local] Hint Extern 1 (answers (subscription_route _ _ _ _)) => apply answers_subscription_route : framed.
#[local] Hint Extern 1 (answers (request_route _ _ _ _ _ _)) => apply answers_request_route : framed.
#[local] Hint Extern 1 (raises (authenticate_governed_request _ _ _)) => apply raises_governed : framed.
#[local] Hint Extern 1 (answers (authenticate_enrollment _ _ _)) => apply answers_enrollment : framed.
#[local] Hint Extern 1 (answers (issue_workload_challenge _ _ _)) => apply answers_challenge : framed.
#[local] Hint Extern 1 (fails_framed (parse_enrollment_request _ _)) => apply fails_parse_enrollment : framed.
#[local] Hint Extern 1 (fails_framed (parse_workload_challenge_request _ _)) =>
  apply (fails_parse_enrollment _ _) : framed.

Lemma fails_policy_evaluator : fails_framed (policy_evaluator_from_env EJ I env application).
Proof. unfold policy_evaluator_from_env. framed_walk. Qed.

Lemma answers_dispatch_admitted request verified :
  answers (dispatch_admitted EJ I env request application verified).
Proof.
  pose proof fails_policy_evaluator. unfold dispatch_admitted. framed_walk.
Qed.

Lemma answers_dispatch request : answers (dispatch EJ I env request application).
Proof.
  unfold dispatch, dispatch_enrollment_challenge, dispatch_enrollment, dispatch_governed,
    readiness_response, route.
  pose proof answers_dispatch_admitted. framed_walk; split; listed.
Qed.

Lemma connection_answers stream c : exists read stream' response c',
  read_request stream = Some (read, stream') /\
  respond (answer EJ I env read application) c = (response, c') /\
  handle_connection EJ I env stream application c = Some (write_response response, c') /\
  framed response.
Proof.
  destruct (read_request_spec stream) as (read & stream' & H & _). exists read, stream'.
  assert (answers (answer EJ I env read application)) as Ha.
  { unfold answer. pose proof answers_dispatch. destruct read as [request|[]]; framed_walk. }
  specialize (Ha c). unfold handle_connection. rewrite H. simpl. unfold respond.
  destruct (answer EJ I env read application c) as [[r|r] c']; simpl in Ha; by exists r, c'.
Qed.

(** Every connection is answered, once, with a response whose status line and
    content type are fixed texts of the program: whatever bytes arrive and however
    they are cut, whatever the services answer and whatever fails, reading ends
    and one response is written; nothing a peer sends can add a header to it. *)
Theorem every_connection_is_answered stream c :
  exists response c',
    handle_connection EJ I env stream application c = Some (write_response response, c') /\
    response_status response ∈ STATUSES /\ response_content_type response ∈ CONTENT_TYPES.
Proof.
  destruct (connection_answers stream c) as (_ & _ & response & c' & _ & _ & H & Hf).
  by exists response, c'.
Qed.
End connection.
