(* ===== verification/HttpLiveness.v ===== *)
(** * HttpLiveness: an honest request is served

    The other half of [HttpSafety]: what an enrolled client signs and sends is
    read, admitted by the gate, and handed to its endpoint. *)

From S2P Require Import Prelude Text Platform Database Schema Identity InstanceKeys.
From S2P Require Import InstanceRegistry ServiceRequests ReplayProtection Admission RequestGate.
From S2P Require Import WorkClaims HttpText HttpParsing HttpWire HttpDto PolicyClient Wiring Http.

(** The instance of the key is registered and in its lease at [now], and its
    service may communicate. *)
Record in_good_standing {P : Platform} (T : Tables) (key : InstancePublicKey) (now : Z) : Prop := {
  standing_instance : exists details i,
    find_instance_sql (InstanceId_as_uuid (public_instance_id key)) T = Some details /\
    instance_from_row details = Ok i /\ instance_public_key i = key /\
    RegisteredInstance_is_eligible_at i now = true;
  standing_identity : is_Some (identities T !! ActorId_as_uuid (public_service_id key));
  standing_row : is_Some (service_instances T !! InstanceId_as_uuid (public_instance_id key));
  standing_key : is_Some (service_instance_keys T !! KeyId_as_uuid (public_key_id key));
  standing_admission : exists row,
    admission T !! ActorId_as_uuid (public_service_id key) = Some row /\
    adm_communication_enabled row = true /\ (0 <= adm_revision row)%Z /\ (0 <= adm_updated_at row)%Z;
}.

(** What verification learns from a signed request, and what is reserved for it *)
Definition verified_as {P : Platform} (key : InstancePublicKey) (parts : ServiceRequestParts)
  (created expires : Z) (nonce : string) (request : SignedServiceRequest) : VerifiedServiceRequest :=
  MkVerifiedServiceRequest (public_service_id key) (public_instance_id key) (public_key_id key)
    (parts_request_id parts) created expires (sha256 nonce) (request_fingerprint request).

Definition reservation_for (v : VerifiedServiceRequest) (now : Z) : ReplayReservation :=
  MkReplayReservation (verified_service_id v) (verified_instance_id v) (verified_key_id v)
    (verified_request_id v) (verified_nonce_digest v) (verified_request_fingerprint v)
    (verified_created v) (verified_expires v) now.

Section gate.
Context {P : Platform} {HP : PlatformLaws P}.

Lemma find_eligible_run policy T key now ns :
  in_good_standing T key now -> (0 <= now)%Z ->
  exists i, instance_public_key i = key /\
    find_eligible (MkInstanceRegistryService _ PostgresInstanceRegistry policy)
      (public_instance_id key) now (start T [] ns) = (Ok i, start T [] ns).
Proof.
  intros [(details & i & Hf & Hi & Hk & He) _ _ _ _] Hnow. exists i. split; [done|].
  unfold find_eligible, InstanceRegistryService_resolver, InstanceRegistryService_find_eligible.
  simpl. unfold validate_timestamp. rewrite (proj2 (Z.ltb_ge _ _)) by lia.
  unfold PostgresInstanceRegistry_find, start. db_run. rewrite Hf. simpl. rewrite bind_run, lift_run, Hi. db_run.
  cbn [ok_or]. assert (instance_revoked_at i = None) as ->
    by (unfold RegisteredInstance_is_eligible_at in He; by destruct (instance_revoked_at i)).
  by rewrite He.
Qed.

Lemma require_enabled_run T key now ns :
  in_good_standing T key now ->
  exists a, AdmissionService_require_enabled PostgresAdmissionRepository (public_service_id key)
    (start T [] ns) = (Ok a, start T [] ns).
Proof.
  intros [_ _ _ _ (row & Hrow & He & Hr & Hu)].
  unfold AdmissionService_require_enabled. simpl. unfold PostgresAdmissionRepository_find, start.
  db_run. unfold find_admission_sql. rewrite Hrow. simpl. unfold admission_from_row, ActorId_from_str.
  rewrite uuid_parse_print. simpl. unfold CommunicationAdmission_restore.
  rewrite !(proj2 (Z.ltb_ge _ _)) by lia. simpl. db_run. simpl. rewrite He. eexists. by db_run.
Qed.

Lemma in_good_standing_frame T T' key now :
  admission T' = admission T -> service_instances T' = service_instances T ->
  service_instance_keys T' = service_instance_keys T -> identities T' = identities T ->
  in_good_standing T key now -> in_good_standing T' key now.
Proof.
  intros H1 H2 H3 H4 []. constructor; rewrite ?H1, ?H2, ?H3, ?H4; try done.
  unfold find_instance_sql, key_of_instance in *. by rewrite H2, H3.
Qed.

Lemma replay_effect_frame T r :
  admission (replay_effect T r) = admission T /\
  service_instances (replay_effect T r) = service_instances T /\
  service_instance_keys (replay_effect T r) = service_instance_keys T /\
  identities (replay_effect T r) = identities T.
Proof. unfold replay_effect. by destruct (replay_outcome T r) as [[]|[]]. Qed.

Section signed.
Context (T : Tables) (credential : InstanceCredential) (parts : ServiceRequestParts)
  (created expires : Z) (nonce : string) (request : SignedServiceRequest) (now : Z)
  (Hcredential : credential_wf credential) (Hcreated : in_i64 created) (Hexpires : in_i64 expires)
  (Hsign : SignedServiceRequest_sign parts credential created expires nonce = Ok request)
  (Hfresh : validate_signature_time created expires now = Ok tt)
  (Hstanding : in_good_standing T (credential_public_key credential) now).
#[local] Notation verified :=
  (verified_as (credential_public_key credential) parts created expires nonce request).
#[local] Notation reservation := (reservation_for verified now).

Lemma signed_reservation :
  ReplayReservation_from_verified verified now = Ok reservation /\ reservation_wf T reservation.
Proof.
  unfold validate_signature_time in Hfresh. destruct (_ || _) eqn:Ht in Hfresh; [done|]. split.
  - unfold ReplayReservation_from_verified. simpl. by rewrite Ht.
  - unfold SignedServiceRequest_sign in Hsign.
    apply result_bind_Ok in Hsign as (u & [Hm _]%signature_metadata_spec & _).
    destruct Hstanding. constructor; simpl; try done; try apply sha256_length; [lia|].
    rewrite !orb_false_iff in Ht. lia.
Qed.

Lemma gate_run_signed policy d ns :
  replay_outcome T reservation = Ok d ->
  exists revision, ServiceRequestGate_admit (kernel_gate policy) request now (start T [] ns) =
    (Ok (MkAdmittedServiceRequest verified d revision), start (replay_effect T reservation) [] ns).
Proof.
  intros Hd. destruct signed_reservation as [Hr Hwf].
  assert (0 <= now)%Z as Hnow by apply Hwf.
  destruct (find_eligible_run policy T (credential_public_key credential) now ns) as (i & Hk & Hi);
    [done..|].
  pose proof (verify_accepts_signed _ credential parts created expires nonce request now _ i _
    Hcredential Hcreated Hexpires Hsign Hfresh Hi Hk) as Hv.
  destruct (replay_effect_frame T reservation) as (H1 & H2 & H3 & H4).
  destruct (require_enabled_run (replay_effect T reservation) (credential_public_key credential) now ns)
    as [a Ha]; [by eapply in_good_standing_frame|].
  exists (admission_revision a).
  unfold ServiceRequestGate_admit, verify_signature, verifier_signatures, reserve_replay,
    service_replay, require_communication, service_admission. simpl.
  rewrite bind_run, (proj2 (map_err_Ok _ _ _ _ _) Hv).
  rewrite bind_run. unfold ReplayProtectionService_protect. simpl.
  assert ((reservation ← lift (ReplayReservation_from_verified verified now);
           PostgresReplayProtection_reserve reservation) (start T [] ns) =
          (Ok d, start (replay_effect T reservation) [] ns)) as Hp.
  { rewrite bind_run, Hr, lift_run, reserve_run by done. by rewrite Hd. }
  rewrite (proj2 (map_err_Ok _ _ _ _ _) Hp). rewrite bind_run.
  unfold map_err. by rewrite bind_run, Ha.
Qed.
End signed.
End gate.

Section served.
Context {P : Platform} {HP : PlatformLaws P} {J : Serde} (EJ : EvaluateCodec) (I : InfernalClient)
  (env : Environment).

Lemma unix_time_run {E} T ns :
  unix_time (S:=Tables) (E:=E) (start T [] ns) =
    (Ok (Z.min (Z.of_N (hd 0%N ns mod 2 ^ 64)) i64_max), start T [] (tl ns)).
Proof. unfold unix_time, random, start. rewrite bind_run. by destruct ns. Qed.

(** C8: An honest request is served. What the credential of an instance in good
    standing signs for a governed endpoint and sends in time, however it is
    delivered, with a nonce not used before and a request id that is new or bound
    to the same content, is read from the connection, admitted, recorded as seen,
    and handed to the endpoint under the identity that signed it. *)
Theorem honest_request_is_served (kernel_credential : InstanceCredential) T ns credential parts
  created expires nonce signed stream d :
  let kernel := Application_new kernel_credential in
  let now := Z.min (Z.of_N (hd 0%N ns mod 2 ^ 64)) i64_max in
  let verified := verified_as (credential_public_key credential) parts created expires nonce signed in
  credential_wf credential -> parts_wf parts -> in_i64 created -> in_i64 expires ->
  SignedServiceRequest_sign parts credential created expires nonce = Ok signed ->
  is_supported_governed_method (parts_method parts) (parts_path_and_query parts) = true ->
  is_governed_route (parts_path_and_query parts) = true ->
  (len (parts_body parts) <= MAX_ENROLLMENT_BODY_BYTES)%Z ->
  (len (wire_head signed) + 3 <= MAX_HEADER_BYTES)%Z ->
  delivers stream (wire_request signed) ->
  validate_signature_time created expires now = Ok tt ->
  in_good_standing T (credential_public_key credential) now ->
  replay_outcome T (reservation_for verified now) = Ok d ->
  exists request stream',
    read_request stream = Some (Ok request, stream') /\
    dispatch EJ I env request kernel (start T [] ns) =
      dispatch_admitted EJ I env request kernel verified
        (start (replay_effect T (reservation_for verified now)) [] (tl ns)).
Proof.
  intros kernel now verified Hcred Hparts Hc He Hsign Hmethod Hroute Hbody Hhead Hd Hfresh Hstanding Ho.
  destruct (signed_arrives parts credential created expires nonce signed stream) as
    (request & stream' & governed & Hread & Hg & Hs & Hm & Hp); [done..| |done|].
  { intros Hpath. by rewrite Hpath in Hroute. }
  exists request, stream'. split; [done|]. unfold dispatch. rewrite Hp.
  destruct (String.eqb_spec (parts_path_and_query parts) "/v1/enrollments/challenges") as [Hx|_];
    [by rewrite Hx in Hroute|].
  destruct (String.eqb_spec (parts_path_and_query parts) "/v1/enrollments") as [Hx|_];
    [by rewrite Hx in Hroute|].
  rewrite Hroute. unfold dispatch_governed. rewrite Hm, Hp, Hmethod, Hg. cbn [negb].
  rewrite bind_run, unix_time_run, bind_run. unfold authenticate_governed_request.
  rewrite bind_run, lift_run, Hs. cbn [result_map_err].
  destruct (gate_run_signed T credential parts created expires nonce signed now Hcred Hc He Hsign
    Hfresh Hstanding LeasePolicy_default d (tl ns) Ho) as [revision Hgate].
  by rewrite (proj2 (map_err_Ok _ _ _ _ _) Hgate).
Qed.

(** A claim is completed by whoever presents its id and its fencing token: the handler
    is not told who calls, so a service that is not the holder of the claim, nor the
    destination of its route, can end the work of one that is. *)
Theorem token_completes_claim request text id dto row T ns :
  let now := Z.min (Z.of_N (hd 0%N ns mod 2 ^ 64)) i64_max in
  claims_wf T -> ClaimId_from_str text = Ok id ->
  has_json_content_type (parsed_content_type request) = true ->
  from_slice_fenced_action (parsed_body request) = Some dto ->
  work_claims T !! ClaimId_as_uuid id = Some row ->
  holds row (fenced_fencing_token dto) now = true ->
  let done := set_claim_status "completed" row in
  let T' := with_work_claims (<[ClaimId_as_uuid id := done]> (work_claims T)) T in
  complete_claim_route request text PostgresWorkClaimRepository (start T [] ns) =
    (Ok (json_response "200 OK"
           (Dto_claim (WorkClaimResponse_from (claim_of (ClaimId_as_uuid id) done)))),
     start T' [] (tl ns)).
Proof.
  intros now Hwf Hid Hjson Hdto Hrow Hholds done_ T'.
  destruct (cw_rows _ Hwf _ _ Hrow) as [Hcheck Hmax]. pose proof Hholds as Ha.
  unfold holds in Ha. rewrite !andb_true_iff, String.eqb_eq in Ha. destruct Ha as [[Ha _] _].
  unfold complete_claim_route, parse_fenced_action. rewrite Hid, Hjson. cbn [result_map_err negb mbind result_bind].
  rewrite Hdto. cbn [ok_or mbind result_bind]. rewrite bind_run, lift_run, bind_run, unix_time_run.
  fold now. unfold WorkClaimService_complete.
  assert (0 <= now)%Z as Hnow by (unfold now, i64_max; pose proof (N2Z.is_nonneg (hd 0%N ns mod 2 ^ 64)); lia).
  rewrite (proj2 (Z.ltb_ge _ _)) by done. cbn [PostgresWorkClaimRepository work_claim_repository_complete].
  unfold PostgresWorkClaim_complete, PostgresWorkClaim_transition, transition_sql.
  rewrite bind_run. unfold map_err. unfold start at 1.
  rewrite (update_run _ _ _ _ _ _ _ Hwf), Hrow, Hholds, transition_check by (done || by left). done.
Qed.
End served.
