(* ===== verification/Administration.v ===== *)
(** * Administration: the statements of the administrators

    What an administrator's connection runs against the kernel's tables: the two
    upserts of [src/src/bin/registrar.rs] and the stored procedures of migrations
    0007, 0012 and 0019, with the columns and the audit tables that only they use. *)

From S2P Require Import Prelude Text Platform Database Schema Identity RequestNames Enrollment.
From Stdlib Require Import Ascii.

(** ** State *)

(** The columns of authority_grants that the kernel does not read *)
Record GrantDetails := MkGrantDetails {
  gd_administrator_identity : string;
  gd_reason : string;
  gd_correlation_id : Uuid;
  gd_created_at : Z;
}.

(** [0007] service_communication_admission_history *)
Record AdmissionHistoryRow := MkAdmissionHistoryRow {
  ah_service_id : Uuid;
  ah_old_enabled : bool;
  ah_new_enabled : bool;
  ah_revision : Z;
  ah_outcome : string;
  ah_administrator_identity : string;
  ah_reason : string;
  ah_correlation_id : Uuid;
  ah_committed_at : Z;
}.

(** [0009], [0019] authority_grant_administration_audit *)
Record GrantAuditRow := MkGrantAuditRow {
  ga_grant_id : Uuid;
  ga_outcome : string;
  ga_administrator_identity : string;
  ga_reason : string;
  ga_correlation_id : Uuid;
  ga_recorded_at : Z;
}.

Record AdminTables := MkAdminTables {
  kernel_tables : Tables;
  grant_details : gmap Uuid GrantDetails;
  admission_history : list AdmissionHistoryRow;
  grant_audit : list GrantAuditRow;
}.

Definition with_kernel_tables (T : Tables) (A : AdminTables) : AdminTables :=
  MkAdminTables T (grant_details A) (admission_history A) (grant_audit A).
Definition with_admission_history (h : list AdmissionHistoryRow) (A : AdminTables) : AdminTables :=
  MkAdminTables (kernel_tables A) (grant_details A) h (grant_audit A).
Definition with_grant_audit (a : list GrantAuditRow) (A : AdminTables) : AdminTables :=
  MkAdminTables (kernel_tables A) (grant_details A) (admission_history A) a.

(** The privileges of a connection, as far as the statements run into them: the
    trigger of migration 0007 is not SECURITY DEFINER, so its INSERT into
    service_communication_admission needs a privilege of the connected role. *)
Record Role := MkRole { role_inserts_admission : bool }.

(** [registrar/role.sql]: no privilege on service_communication_admission *)
Definition infernal_registrar : Role := MkRole false.
Definition owner_role : Role := MkRole true.

(** [$1::text::uuid] *)
Definition cast_uuid {P : Platform} (text : string) : Result PostgresError Uuid :=
  ok_or (DbError InvalidTextRepresentation ("invalid input syntax for type uuid: " +:+ text))
    (uuid_parse text).

(** ** Identities and bindings *)

Definition identity_checks (row : IdentityRow) : Result PostgresError unit :=
  require (bool_decide (id_kind row ∈ ["service"; "worker"])) (check_violation "identities_kind_check");;
  require (bool_decide (1 <= chars_count (btrim (id_display_name row)) <= 200)%Z)
    (check_violation "identities_display_name_check");;
  require (bool_decide (id_status row ∈ ["active"; "disabled"]))
    (check_violation "identities_status_check").

(** INSERT INTO identities .. ON CONFLICT (id) DO UPDATE .. WHERE .. IS DISTINCT FROM ..:
    the number of rows, with the trigger of migration 0007 on the inserted ones *)
Definition upsert_identity_sql (role : Role) (id : Uuid) (kind display_name : string) (clock : Z)
  (T : Tables) : Result PostgresError (Z * Tables) :=
  let row := MkIdentityRow kind display_name "active" in
  identity_checks row;;
  match identities T !! id with
  | Some stored =>
      if String.eqb (id_display_name stored) display_name && String.eqb (id_kind stored) kind
         && String.eqb (id_status stored) "active"
      then Ok (0%Z, T)
      else Ok (1%Z, with_identities (<[id := row]> (identities T)) T)
  | None =>
      require (role_inserts_admission role)
        (DbError InsufficientPrivilege "permission denied for table service_communication_admission");;
      require (0 <=? clock)%Z (check_violation "service_communication_admission_updated_at_check");;
      require (bool_decide (admission T !! id = None))
        (unique_violation "service_communication_admission_pkey");;
      Ok (1%Z, with_admission (<[id := MkAdmissionRow false 0 clock]> (admission T))
                 (with_identities (<[id := row]> (identities T)) T))
  end.

Definition binding_checks (row : BindingRow) : Result PostgresError unit :=
  require (enrollment_name_ok (seb_namespace row))
    (check_violation "service_enrollment_bindings_namespace_check");;
  require (enrollment_name_ok (seb_service_account row))
    (check_violation "service_enrollment_bindings_service_account_check");;
  require (enrollment_name_ok (seb_service_account_uid row))
    (check_violation "service_enrollment_bindings_service_account_uid_check").

(** No other service is bound to the workload (the UNIQUE constraint of 0003). *)
Definition binding_free (id : Uuid) (row : BindingRow) (T : Tables) : bool :=
  forallb (fun kv => bool_decide (kv.1 = id))
    (bindings_of_workload (seb_namespace row) (seb_service_account row)
       (seb_service_account_uid row) T).

Definition workload_key : string :=
  "service_enrollment_bindings_namespace_service_account_service_a_key".

(** INSERT INTO service_enrollment_bindings .. ON CONFLICT (service_id) DO UPDATE .. *)
Definition upsert_binding_sql (id : Uuid) (namespace service_account uid : string) (T : Tables) :
  Result PostgresError (Z * Tables) :=
  let row := MkBindingRow namespace service_account uid true in
  binding_checks row;;
  match enrollment_bindings T !! id with
  | Some stored =>
      if String.eqb (seb_service_account_uid stored) uid && String.eqb (seb_namespace stored) namespace
         && String.eqb (seb_service_account stored) service_account && seb_enabled stored
      then Ok (0%Z, T)
      else
        require (binding_free id row T) (unique_violation workload_key);;
        Ok (1%Z, with_enrollment_bindings (<[id := row]> (enrollment_bindings T)) T)
  | None =>
      require (binding_free id row T) (unique_violation workload_key);;
      references (identities T) id "service_enrollment_bindings_service_id_fkey";;
      Ok (1%Z, with_enrollment_bindings (<[id := row]> (enrollment_bindings T)) T)
  end.

(** ** The procedures *)

Definition metadata_ok (administrator reason : string) (at_ : Z) : bool :=
  bool_decide (1 <= chars_count (btrim administrator) <= 200)%Z
  && bool_decide (1 <= chars_count (btrim reason) <= 1000)%Z && (0 <=? at_)%Z.

Definition same_correlation (service correlation : Uuid) (h : AdmissionHistoryRow) : bool :=
  bool_decide (ah_service_id h = service) && bool_decide (ah_correlation_id h = correlation).

(** [set_service_communication_admission] of migration 0007: the outcome. What the
    trigger of the table asks of the UPDATE holds of the one that is made here. *)
Definition set_admission (service : Uuid) (enabled : bool) (administrator reason : string)
  (correlation : Uuid) (changed_at : Z) (A : AdminTables) :
  Result PostgresError (string * AdminTables) :=
  require (metadata_ok administrator reason changed_at)
    (raise_exception "invalid communication admission administration metadata");;
  current ← ok_or (raise_exception "service communication admission was not found")
    (admission (kernel_tables A) !! service);
  match List.find (same_correlation service correlation) (admission_history A) with
  | Some existing =>
      require (Bool.eqb (ah_new_enabled existing) enabled
               && String.eqb (ah_administrator_identity existing) (btrim administrator)
               && String.eqb (ah_reason existing) (btrim reason)
               && (ah_committed_at existing =? changed_at)%Z)
        (raise_exception "communication admission correlation ID conflicts");;
      Ok (ah_outcome existing, A)
  | None =>
      require (negb (changed_at <? adm_updated_at current)%Z)
        (raise_exception "communication admission timestamp precedes current state");;
      let no_op := Bool.eqb (adm_communication_enabled current) enabled in
      let revision := if no_op then adm_revision current else (adm_revision current + 1)%Z in
      let outcome := if no_op then "no_op" else "changed" in
      require (i64_fits revision) (raise_exception "bigint out of range");;
      require (0 <=? revision)%Z (check_violation "service_communication_admission_revision_check");;
      let T := kernel_tables A in
      let T := if no_op then T
               else with_admission (<[service := MkAdmissionRow enabled revision changed_at]>
                      (admission T)) T in
      let row := MkAdmissionHistoryRow service (adm_communication_enabled current) enabled revision
                   outcome (btrim administrator) (btrim reason) correlation changed_at in
      Ok (outcome, with_admission_history (admission_history A ++ [row]) (with_kernel_tables T A))
  end.

Definition details_of_correlation (correlation : Uuid) (A : AdminTables) : list (Uuid * GrantDetails) :=
  select (fun _ d => bool_decide (gd_correlation_id d = correlation)) (grant_details A).

Definition kind_of_version (id : Uuid) (T : Tables) : option string :=
  sv_kind <$> schema_versions T !! id.

(** [create_authority_grant] of migration 0012. The audit row of a refused
    duplicate goes with the transaction that the exception ends. *)
Definition create_grant (id source : Uuid) (action scope : string) (artifact permission_policy : Uuid)
  (destination : option Uuid) (valid_from : Z) (valid_until : option Z) (administrator reason : string)
  (correlation : Uuid) (created_at : Z) (A : AdminTables) :
  Result PostgresError (unit * AdminTables) :=
  let T := kernel_tables A in
  let row := MkGrantRow source action scope artifact permission_policy destination valid_from
               valid_until None in
  require (metadata_ok administrator reason created_at)
    (raise_exception "invalid authority grant administration metadata");;
  require (bool_decide (kind_of_version artifact T = Some "artifact"))
    (raise_exception "artifact schema version was not found or is not an artifact schema");;
  require (bool_decide (kind_of_version permission_policy T = Some "permission_policy"))
    (raise_exception "permission-policy schema version was not found or is not a permission-policy schema");;
  match head (details_of_correlation correlation A) with
  | Some (existing_id, _) =>
      let same := match authority_grants T !! existing_id with
        | Some existing =>
            bool_decide (existing_id = id)
            && bool_decide (gr_source_service_id existing = source)
            && String.eqb (gr_action existing) action && String.eqb (gr_scope existing) scope
            && bool_decide (gr_artifact_schema_version_id existing = artifact)
            && bool_decide (gr_permission_policy_schema_version_id existing = permission_policy)
            && bool_decide (gr_destination_service_id existing = destination)
            && (gr_valid_from existing =? valid_from)%Z
            && bool_decide (gr_valid_until existing = valid_until)
        | None => false
        end in
      require same (raise_exception "authority grant correlation ID conflicts with different content");;
      Ok (tt, A)
  | None =>
      require (bool_decide (authority_grants T !! id = None))
        (raise_exception "authority grant ID already exists");;
      require (dotted_name_check action) (check_violation "authority_grants_action_check");;
      require (scope_check scope) (check_violation "authority_grants_scope_check");;
      require (0 <=? valid_from)%Z (check_violation "authority_grants_valid_from_check");;
      require (match valid_until with None => true | Some until => (valid_from <? until)%Z end)
        (check_violation "authority_grants_check");;
      references (identities T) source "authority_grants_source_service_id_fkey";;
      match destination with
      | Some destination =>
          references (identities T) destination "authority_grants_destination_service_id_fkey"
      | None => Ok tt
      end;;
      Ok (tt, MkAdminTables
        (with_authority_grants (<[id := row]> (authority_grants T)) T)
        (<[id := MkGrantDetails (btrim administrator) (btrim reason) correlation created_at]>
           (grant_details A))
        (admission_history A)
        (grant_audit A ++ [MkGrantAuditRow id "created" (btrim administrator) (btrim reason)
                             correlation created_at]))
  end.

Definition revoked_row (row : GrantRow) (at_ : Z) : GrantRow :=
  MkGrantRow (gr_source_service_id row) (gr_action row) (gr_scope row)
    (gr_artifact_schema_version_id row) (gr_permission_policy_schema_version_id row)
    (gr_destination_service_id row) (gr_valid_from row) (gr_valid_until row) (Some at_).

(** [revoke_authority_grant] of migration 0019 *)
Definition revoke_grant (id : Uuid) (administrator reason : string) (correlation : Uuid)
  (revoked_at : Z) (A : AdminTables) : Result PostgresError (string * AdminTables) :=
  let T := kernel_tables A in
  let audit outcome := grant_audit A ++ [MkGrantAuditRow id outcome (btrim administrator)
                                           (btrim reason) correlation revoked_at] in
  require (metadata_ok administrator reason revoked_at)
    (raise_exception "invalid authority grant administration metadata");;
  row ← ok_or (raise_exception "authority grant was not found") (authority_grants T !! id);
  match gr_revoked_at row with
  | Some _ => Ok ("no_op", with_grant_audit (audit "revoke_no_op") A)
  | None =>
      Ok ("revoked", with_grant_audit (audit "revoked")
        (with_kernel_tables
           (with_authority_grants (<[id := revoked_row row revoked_at]> (authority_grants T)) T) A))
  end.

(** The UNIQUE constraint of migration 0003: a workload is bound to one service. *)
Definition bindings_unique (T : Tables) : Prop :=
  forall id id' row row', enrollment_bindings T !! id = Some row ->
    enrollment_bindings T !! id' = Some row' ->
    seb_namespace row = seb_namespace row' -> seb_service_account row = seb_service_account row' ->
    seb_service_account_uid row = seb_service_account_uid row' -> id = id'.

(** The record of a service's admission stays; it is left alone or has a later revision. *)
Definition admission_kept (T T' : Tables) : Prop :=
  forall id row, admission T !! id = Some row -> exists row', admission T' !! id = Some row' /\
    (row' = row \/ (adm_revision row < adm_revision row')%Z).

#[export] Instance admission_kept_preorder : PreOrder admission_kept.
Proof.
  split; [intros T id row Hrow; eauto|]. intros T1 T2 T3 H1 H2 id row Hrow.
  destruct (H1 id row Hrow) as (row2 & (row3 & Hrow3 & Hs3)%H2 & Hs2).
  exists row3. split; [done|]. destruct Hs2 as [->|?], Hs3 as [->|?]; eauto with lia.
Qed.

Lemma admission_kept_same T T' : admission T' = admission T -> admission_kept T T'.
Proof. intros Heq id row Hrow. exists row. rewrite Heq. auto. Qed.

(** ** What the statements do *)

Section theory.
Context {P : Platform}.

Lemma upsert_identity_Ok role id kind name clock T n T' :
  upsert_identity_sql role id kind name clock T = Ok (n, T') ->
  let row := MkIdentityRow kind name "active" in
  is_ok (identity_checks row) = true /\ identities T' !! id = Some row /\
  ((n = 0%Z /\ T' = T) \/
   (n = 1%Z /\ is_Some (identities T !! id) /\ T' = with_identities (<[id := row]> (identities T)) T) \/
   (n = 1%Z /\ identities T !! id = None /\ role_inserts_admission role = true /\
    T' = with_admission (<[id := MkAdmissionRow false 0 clock]> (admission T))
           (with_identities (<[id := row]> (identities T)) T))).
Proof.
  unfold upsert_identity_sql. cbv zeta. set (row := MkIdentityRow _ _ _).
  destruct (identity_checks row) as [[]|]; [|done]. cbn [mbind result_bind is_ok].
  destruct (identities T !! id) as [[k d s]|] eqn:Hid; cbn [id_kind id_display_name id_status].
  - destruct (_ && _) eqn:Hsame; intros [= <- <-]; (split; [done|]); simpl.
    + apply andb_true_iff in Hsame as [[->%String.eqb_eq ->%String.eqb_eq]%andb_true_iff ->%String.eqb_eq].
      auto.
    + rewrite lookup_insert_eq. split; [done|]. right; left. eauto.
  - intros H. result_inv.
    repeat match goal with H : require _ _ = Ok _ |- _ => apply require_Ok in H end.
    split; [done|]. simpl. rewrite lookup_insert_eq. split; [done|]. right; right. auto.
Qed.

Lemma upsert_identity_kept role id kind name clock T n T' :
  upsert_identity_sql role id kind name clock T = Ok (n, T') -> admission_kept T T'.
Proof.
  unfold upsert_identity_sql. intros H. result_inv; destruct (identities T !! id);
    [destruct (_ && _)|..]; result_inv; try by apply admission_kept_same.
  repeat match goal with H : require _ _ = Ok _ |- _ => apply require_Ok in H end.
  rewrite ?bool_decide_eq_true in *. intros k row Hrow. simpl.
  rewrite lookup_insert_ne; [eauto | intros <-; congruence].
Qed.

Lemma binding_free_other id row T id' row' :
  binding_free id row T = true -> enrollment_bindings T !! id' = Some row' ->
  seb_namespace row' = seb_namespace row -> seb_service_account row' = seb_service_account row ->
  seb_service_account_uid row' = seb_service_account_uid row -> id' = id.
Proof.
  unfold binding_free. rewrite forallb_forall. intros H Hrow Hn Ha Hu.
  specialize (H (id', row')). rewrite bool_decide_eq_true in H. apply H, list_elem_of_In, select_In.
  split; [done|]. by rewrite Hn, Ha, Hu, !String.eqb_refl.
Qed.

Lemma bindings_unique_insert id row T :
  binding_free id row T = true -> bindings_unique T ->
  bindings_unique (with_enrollment_bindings (<[id := row]> (enrollment_bindings T)) T).
Proof.
  intros Hf Hu a b ra rb. simpl. rewrite !lookup_insert_Some.
  intros [[<- <-]|[Hna Ha]] [[<- <-]|[Hnb Hb]] Hn Hs Hi; [done | | |by eapply (Hu a b)].
  - symmetry. by eapply binding_free_other.
  - by eapply binding_free_other.
Qed.

Lemma upsert_binding_Ok id namespace account uid T n T' :
  upsert_binding_sql id namespace account uid T = Ok (n, T') ->
  let row := MkBindingRow namespace account uid true in
  is_ok (binding_checks row) = true /\ enrollment_bindings T' !! id = Some row /\
  ((n = 0%Z /\ T' = T) \/
   (n = 1%Z /\ binding_free id row T = true /\
    T' = with_enrollment_bindings (<[id := row]> (enrollment_bindings T)) T)).
Proof.
  unfold upsert_binding_sql. cbv zeta. set (row := MkBindingRow _ _ _ _).
  destruct (binding_checks row) as [[]|]; [|done]. cbn [mbind result_bind is_ok].
  destruct (enrollment_bindings T !! id) as [[ns sa u e]|] eqn:Hid;
    cbn [seb_namespace seb_service_account seb_service_account_uid seb_enabled].
  - destruct (_ && _) eqn:Hsame.
    + intros [= <- <-]. apply andb_true_iff in Hsame as [Hsame ->].
      apply andb_true_iff in Hsame as [[->%String.eqb_eq ->%String.eqb_eq]%andb_true_iff ->%String.eqb_eq].
      auto.
    + intros H. result_inv. match goal with H : require _ _ = Ok _ |- _ => apply require_Ok in H end.
      split; [done|]. simpl. rewrite lookup_insert_eq. auto.
  - intros H. result_inv. match goal with H : require _ _ = Ok _ |- _ => apply require_Ok in H end.
    split; [done|]. simpl. rewrite lookup_insert_eq. auto.
Qed.

(** A call of the procedure leaves the service in the requested state; it only adds
    to the history, and changes the record only when the state differs. *)
Lemma set_admission_Ok service enabled administrator reason correlation at_ A outcome A' :
  set_admission service enabled administrator reason correlation at_ A = Ok (outcome, A') ->
  metadata_ok administrator reason at_ = true /\
  (exists h, A' = with_admission_history (admission_history A ++ h)
     (with_kernel_tables (with_admission (admission (kernel_tables A')) (kernel_tables A)) A) /\
     forall r, r ∈ h -> ah_service_id r = service) /\
  (forall id, id <> service -> admission (kernel_tables A') !! id = admission (kernel_tables A) !! id) /\
  exists row, admission (kernel_tables A) !! service = Some row /\
    ((A' = A /\ exists h, h ∈ admission_history A /\ same_correlation service correlation h = true) \/
     exists row', admission (kernel_tables A') !! service = Some row' /\
       adm_communication_enabled row' = enabled /\ (0 <= adm_revision row')%Z /\
       i64_fits (adm_revision row') = true /\ (adm_updated_at row' <= at_)%Z).
Proof.
  unfold set_admission. intros H. result_inv.
  match goal with H : require _ _ = Ok _ |- _ => apply require_Ok in H; rename H into Hm end.
  match goal with H : admission _ !! _ = Some ?r |- _ => rename H into Hrow, r into row end.
  split; [done|]. destruct (List.find _ _) as [existing|] eqn:Hfind; result_inv.
  - split; [exists []; rewrite app_nil_r; split; [by destruct A' as [[] ? ? ?] | by intros ? ?%elem_of_nil]|]. split; [done|].
    exists row. split; [done|]. left. split; [done|]. apply find_some in Hfind as [Hin Hs].
    exists existing. by rewrite list_elem_of_In.
  - repeat match goal with H : require _ _ = Ok _ |- _ => apply require_Ok in H end.
    destruct (Bool.eqb _ _) eqn:Heq; bool_facts; simpl.
    + split; [eexists [_]; split; [by destruct A as [[] ? ? ?] | by intros r ->%list_elem_of_singleton]|]. split; [done|].
      exists row. split; [done|]. right. exists row. apply eqb_prop in Heq. auto.
    + split; [eexists [_]; split; [by destruct A as [[] ? ? ?] | by intros r ->%list_elem_of_singleton]|].
      split; [intros id Hid; by rewrite lookup_insert_ne|].
      exists row. split; [done|]. right. eexists. rewrite lookup_insert_eq. split; [done|].
      simpl. auto with lia.
Qed.

Lemma set_admission_kept service enabled administrator reason correlation at_ A outcome A' :
  set_admission service enabled administrator reason correlation at_ A = Ok (outcome, A') ->
  admission_kept (kernel_tables A) (kernel_tables A') /\ grant_details A' = grant_details A.
Proof.
  unfold set_admission. intros H. result_inv. destruct (List.find _ _); result_inv; [done|].
  destruct (Bool.eqb _ _); simpl; [done|]. split; [|done]. intros id row Hrow. simpl.
  destruct (decide (service = id)) as [<-|Hne].
  - rewrite lookup_insert_eq. simplify_eq. eexists. split; [done|]. right. simpl. lia.
  - rewrite lookup_insert_ne by done. eauto.
Qed.

Lemma create_grant_Ok id source action scope artifact policy destination from until administrator
  reason correlation at_ A u A' :
  create_grant id source action scope artifact policy destination from until administrator reason
    correlation at_ A = Ok (u, A') ->
  let row := MkGrantRow source action scope artifact policy destination from until None in
  let T := kernel_tables A in
  (A' = A /\ exists existing, authority_grants T !! id = Some existing /\
     gr_source_service_id existing = source /\ gr_action existing = action /\
     gr_scope existing = scope /\ gr_destination_service_id existing = destination /\
     gr_valid_until existing = until) \/
  (authority_grants T !! id = None /\
   exists d a, A' = MkAdminTables (with_authority_grants (<[id := row]> (authority_grants T)) T)
                      (<[id := d]> (grant_details A)) (admission_history A) (grant_audit A ++ [a])).
Proof.
  unfold create_grant. cbv zeta. intros H. result_inv.
  destruct (head _) as [[existing_id d]|]; result_inv;
    repeat match goal with H : require _ _ = Ok _ |- _ => apply require_Ok in H end.
  - left. split; [done|]. destruct (authority_grants _ !! existing_id) as [existing|] eqn:Hrow; [|done].
    bool_facts.
    repeat match goal with
    | H : bool_decide _ = true |- _ => apply bool_decide_eq_true in H
    | H : String.eqb _ _ = true |- _ => apply String.eqb_eq in H
    end.
    subst existing_id. by exists existing.
  - right. repeat match goal with H : bool_decide _ = true |- _ => apply bool_decide_eq_true in H end.
    eauto.
Qed.

Lemma revoke_grant_Ok id administrator reason correlation at_ A outcome A' :
  revoke_grant id administrator reason correlation at_ A = Ok (outcome, A') ->
  let T := kernel_tables A in
  exists row a, authority_grants T !! id = Some row /\
    ((is_Some (gr_revoked_at row) /\ A' = with_grant_audit (grant_audit A ++ [a]) A) \/
     (gr_revoked_at row = None /\
      A' = with_grant_audit (grant_audit A ++ [a])
             (with_kernel_tables
                (with_authority_grants (<[id := revoked_row row at_]> (authority_grants T)) T) A))).
Proof.
  unfold revoke_grant. cbv zeta. intros H. result_inv.
  destruct (gr_revoked_at _) as [t|] eqn:Ht; result_inv; do 2 eexists; (split; [eassumption|]); eauto.
Qed.
End theory.
