(* ===== verification/SchemaStatus.v ===== *)
(** * SchemaStatus: the life of a schema version

    The procedure [set_authority_schema_status] of migration 0010, with the trigger on
    authority_schema_versions and the audit table that only they use. Administrators
    call it; no code of the kernel does. Its arguments are not NULL here. *)

From S2P Require Import Prelude Text Platform Database Schema RequestNames PostgresAuthority.
From S2P Require Import Administration.
From Stdlib Require Import Ascii.

(** ** State *)

(** [0010] authority_schema_status_audit *)
Record StatusAuditRow := MkStatusAuditRow {
  ssa_schema_version_id : Uuid;
  ssa_old_status : option string;
  ssa_new_status : string;
  ssa_outcome : string;
  ssa_administrator_identity : string;
  ssa_reason : string;
  ssa_correlation_id : Uuid;
  ssa_recorded_at : Z;
}.

(** All tables: those of the kernel, of the registrar's procedures and of this one *)
Record SchemaTables := MkSchemaTables {
  admin_tables : AdminTables;
  status_audit : list StatusAuditRow;
}.

Definition schema_kernel (D : SchemaTables) : Tables := kernel_tables (admin_tables D).
Definition with_schema_kernel (T : Tables) (D : SchemaTables) : SchemaTables :=
  MkSchemaTables (with_kernel_tables T (admin_tables D)) (status_audit D).
Definition with_status_audit (a : list StatusAuditRow) (D : SchemaTables) : SchemaTables :=
  MkSchemaTables (admin_tables D) a.

(** ** The statements *)

Definition terminal_statuses : list string := ["superseded"; "retired"].
(** What an administrator may ask for *)
Definition requestable_statuses : list string := ["active"; "suspended"; "superseded"; "retired"].

Definition insert_status_audit_sql (row : StatusAuditRow) (D : SchemaTables) :
  Result PostgresError SchemaTables :=
  require (bool_decide (ssa_outcome row ∈
             ["changed"; "no_op"; "rejected_terminal"; "rejected_unknown_schema"]))
    (check_violation "authority_schema_status_audit_outcome_check");;
  require (bool_decide (1 <= chars_count (btrim (ssa_administrator_identity row)) <= 200)%Z)
    (check_violation "authority_schema_status_audit_administrator_identity_check");;
  require (bool_decide (1 <= chars_count (btrim (ssa_reason row)) <= 1000)%Z)
    (check_violation "authority_schema_status_audit_reason_check");;
  require (0 <=? ssa_recorded_at row)%Z
    (check_violation "authority_schema_status_audit_recorded_at_check");;
  require (forallb (fun a => negb (bool_decide (ssa_schema_version_id a = ssa_schema_version_id row)
                                   && bool_decide (ssa_correlation_id a = ssa_correlation_id row)))
             (status_audit D))
    (unique_violation "authority_schema_status_audit_schema_version_id_correlation_id_key");;
  Ok (with_status_audit (status_audit D ++ [row]) D).

(** The trigger on updates, with the setting [schema_status_change_context] of the
    transaction; the key of the row does not change here. *)
Definition protect_schema_version (context : option string) (old new : SchemaVersionRow) :
  Result PostgresError unit :=
  if match context with None => true | Some context => is_empty context end
  then Err (raise_exception "authority schema status changes require the administrative function")
  else if negb (bool_decide (sv_kind new = sv_kind old /\ sv_name new = sv_name old
                  /\ sv_version new = sv_version old
                  /\ sv_owner_service_id new = sv_owner_service_id old
                  /\ sv_content_digest new = sv_content_digest old
                  /\ sv_predecessor_id new = sv_predecessor_id old
                  /\ sv_published_at new = sv_published_at old))
  then Err (raise_exception "only status may change on an authority schema version")
  else if bool_decide (sv_status old ∈ terminal_statuses)
  then Err (raise_exception
         ("authority schema version status " +:+ sv_status old +:+ " is terminal"))
  else if String.eqb (sv_status new) (sv_status old)
  then Err (raise_exception "authority schema status transition must change the status")
  else Ok tt.

Definition set_version_status (status : string) (row : SchemaVersionRow) : SchemaVersionRow :=
  MkSchemaVersionRow (sv_kind row) (sv_name row) (sv_version row) (sv_owner_service_id row)
    (sv_content_digest row) (sv_predecessor_id row) (sv_published_at row) status.

(** UPDATE authority_schema_versions SET status = .. WHERE schema_version_id = .. *)
Definition update_status_sql (context : option string) (id : Uuid) (status : string) (T : Tables) :
  Result PostgresError Tables :=
  match schema_versions T !! id with
  | None => Ok T
  | Some old =>
      let new := set_version_status status old in
      protect_schema_version context old new;;
      require (bool_decide (status ∈ "published" :: requestable_statuses))
        (check_violation "authority_schema_versions_status_check");;
      Ok (with_schema_versions (<[id := new]> (schema_versions T)) T)
  end.

Definition same_status_call (id correlation : Uuid) (a : StatusAuditRow) : bool :=
  bool_decide (ssa_schema_version_id a = id) && bool_decide (ssa_correlation_id a = correlation).

Section procedure.
Context {P : Platform}.

(** The answer is the row (result_status, result_changed_at, result_outcome). An
    exception ends the transaction, and what was written before goes with it. *)
Definition set_schema_status (id : Uuid) (status administrator reason : string)
  (correlation : Uuid) (changed_at : Z) (D : SchemaTables) :
  Result PostgresError ((string * Z * string) * SchemaTables) :=
  let audit old outcome :=
    insert_status_audit_sql (MkStatusAuditRow id old status outcome (btrim administrator)
                               (btrim reason) correlation changed_at) in
  require (metadata_ok administrator reason changed_at && bool_decide (status ∈ requestable_statuses))
    (raise_exception "invalid authority schema status administration metadata");;
  match List.find (same_status_call id correlation) (status_audit D) with
  | Some existing =>
      require (String.eqb (ssa_new_status existing) status)
        (raise_exception "authority schema status correlation ID conflicts with a different status");;
      Ok ((ssa_new_status existing, ssa_recorded_at existing, ssa_outcome existing), D)
  | None =>
      match schema_versions (schema_kernel D) !! id with
      | None =>
          _ ← audit None "rejected_unknown_schema" D;
          Err (raise_exception "authority schema version was not found")
      | Some version =>
          if bool_decide (sv_status version ∈ terminal_statuses) then
            _ ← audit (Some (sv_status version)) "rejected_terminal" D;
            Err (raise_exception
              ("authority schema version status " +:+ sv_status version +:+ " is terminal"))
          else if String.eqb (sv_status version) status then
            D ← audit (Some (sv_status version)) "no_op" D;
            Ok ((status, changed_at, "no_op"), D)
          else
            T ← update_status_sql (Some (uuid_print correlation)) id status (schema_kernel D);
            D ← audit (Some (sv_status version)) "changed" (with_schema_kernel T D);
            Ok ((status, changed_at, "changed"), D)
      end
  end.
End procedure.

(** ** The state machine *)

(** A version that is superseded or retired stays so; any other one may go to every
    status that can be asked for, and none goes back to published. *)
Definition may_become (old new : string) : bool :=
  bool_decide (old ∉ terminal_statuses) && bool_decide (new ∈ requestable_statuses)
  && negb (String.eqb new old).

(** The calls on one version, in order, lead from one status to another. *)
Inductive leads_to : string -> list StatusAuditRow -> string -> Prop :=
| leads_nil s : leads_to s [] s
| leads_no_op s l s' a : leads_to s l s' ->
    ssa_outcome a = "no_op" -> ssa_old_status a = Some s' -> ssa_new_status a = s' ->
    leads_to s (l ++ [a]) s'
| leads_changed s l s' a : leads_to s l s' ->
    ssa_outcome a = "changed" -> ssa_old_status a = Some s' -> may_become s' (ssa_new_status a) = true ->
    leads_to s (l ++ [a]) (ssa_new_status a).

Definition calls_on (id : Uuid) (D : SchemaTables) : list StatusAuditRow :=
  filter (fun a => ssa_schema_version_id a = id) (status_audit D).

(** The audit explains every status: it starts where a version was published, and the
    calls on the version lead to what is stored. It has no call on an unknown version,
    and none that was turned down. *)
Record trail_explains (D : SchemaTables) : Prop := {
  trail_status id row : schema_versions (schema_kernel D) !! id = Some row ->
    exists first, first ∈ ["published"; "active"] /\ leads_to first (calls_on id D) (sv_status row);
  trail_known a : a ∈ status_audit D ->
    is_Some (schema_versions (schema_kernel D) !! ssa_schema_version_id a);
  trail_outcomes a : a ∈ status_audit D -> ssa_outcome a ∈ ["changed"; "no_op"];
}.

Section theory.
Context {P : Platform} {HP : PlatformLaws P}.

Lemma insert_status_audit_Ok row D D' :
  insert_status_audit_sql row D = Ok D' -> D' = with_status_audit (status_audit D ++ [row]) D.
Proof. unfold insert_status_audit_sql. intros H. by result_inv. Qed.

Lemma update_status_Ok context id status row T T' :
  schema_versions T !! id = Some row -> update_status_sql context id status T = Ok T' ->
  sv_status row ∉ terminal_statuses /\ status <> sv_status row /\
  T' = with_schema_versions (<[id := set_version_status status row]> (schema_versions T)) T.
Proof.
  unfold update_status_sql, protect_schema_version. intros -> H. result_inv.
  repeat match goal with H : (if ?b then Err _ else _) = Ok _ |- _ =>
    destruct b eqn:?; [discriminate H|] end.
  rewrite bool_decide_eq_false in *. split_and!; try done.
  by apply String.eqb_neq.
Qed.

(** What a call that answers has done: nothing when its correlation is known, and
    otherwise one step of the machine, with its row in the audit *)
Lemma set_schema_status_Ok id status administrator reason correlation at_ D answer D' :
  set_schema_status id status administrator reason correlation at_ D = Ok (answer, D') ->
  (D' = D /\ exists a, a ∈ status_audit D /\ same_status_call id correlation a = true /\
     ssa_new_status a = status /\ answer = (status, ssa_recorded_at a, ssa_outcome a)) \/
  exists row outcome, schema_versions (schema_kernel D) !! id = Some row /\
    List.find (same_status_call id correlation) (status_audit D) = None /\
    answer = (status, at_, outcome) /\
    let a := MkStatusAuditRow id (Some (sv_status row)) status outcome (btrim administrator)
               (btrim reason) correlation at_ in
    (outcome = "no_op" /\ sv_status row = status /\ D' = with_status_audit (status_audit D ++ [a]) D \/
     outcome = "changed" /\ may_become (sv_status row) status = true /\
     D' = with_status_audit (status_audit D ++ [a])
            (with_schema_kernel
               (with_schema_versions (<[id := set_version_status status row]>
                  (schema_versions (schema_kernel D))) (schema_kernel D)) D)).
Proof.
  unfold set_schema_status. cbv zeta. intros H. result_inv.
  match goal with H : require _ _ = Ok _ |- _ => apply require_Ok in H; rename H into Hm end.
  apply andb_true_iff in Hm as [_ Hs].
  destruct (List.find _ _) as [a|] eqn:Hfind.
  { left. result_inv. match goal with H : require _ _ = Ok _ |- _ => apply require_Ok in H end.
    apply find_some in Hfind as [Hin Hsame]. rewrite <-list_elem_of_In in Hin.
    match goal with H : String.eqb _ _ = true |- _ => apply String.eqb_eq in H as <- end. eauto 10. }
  right. destruct (schema_versions _ !! id) as [row|] eqn:Hrow; [|by result_inv].
  exists row. case_bool_decide as Ht; [by result_inv|].
  destruct (String.eqb _ _) eqn:Heq.
  - apply String.eqb_eq in Heq. result_inv.
    match goal with H : insert_status_audit_sql _ _ = Ok _ |- _ => apply insert_status_audit_Ok in H as -> end.
    exists "no_op". split_and!; try done. by left.
  - result_inv.
    match goal with H : insert_status_audit_sql _ _ = Ok _ |- _ => apply insert_status_audit_Ok in H as -> end.
    match goal with H : update_status_sql _ _ _ _ = Ok _ |- _ =>
      apply (update_status_Ok _ _ _ _ _ _ Hrow) in H as (_ & Hne & ->) end.
    exists "changed". split_and!; try done. right. split_and!; try done.
    unfold may_become. rewrite Hs, bool_decide_true by done. simpl. by apply negb_true_iff, String.eqb_neq.
Qed.

Lemma calls_on_snoc id l a D :
  calls_on id (with_status_audit (l ++ [a]) D) =
    filter (fun a => ssa_schema_version_id a = id) l
    ++ (if decide (ssa_schema_version_id a = id) then [a] else []).
Proof.
  unfold calls_on. simpl. rewrite filter_app. done.
Qed.

(** The procedure keeps the trail complete. *)
Lemma set_schema_status_trail id status administrator reason correlation at_ D answer D' :
  set_schema_status id status administrator reason correlation at_ D = Ok (answer, D') ->
  trail_explains D -> trail_explains D'.
Proof.
  intros H [Hs Hk Ho].
  apply set_schema_status_Ok in H as [[-> _]|(row & outcome & Hrow & _ & _ & H)]; [done|].
  assert (forall k r, schema_versions (schema_kernel D) !! k = Some r -> exists first,
    first ∈ ["published"; "active"] /\ leads_to first (calls_on k D) (sv_status r)) as Hs' by exact Hs.
  destruct H as [(-> & Hst & ->)|(-> & Hst & ->)]; split; simpl.
  - intros k r Hr. destruct (Hs k r Hr) as (first & Hf & Hl). exists first. split; [done|].
    rewrite calls_on_snoc. simpl. case_decide as Hid; [|by rewrite app_nil_r].
    subst k. change (schema_kernel (with_status_audit _ D)) with (schema_kernel D) in Hr. simplify_eq.
    by apply leads_no_op.
  - intros a [Ha| ->%list_elem_of_singleton]%elem_of_app; [by apply Hk | by eexists].
  - intros a [Ha| ->%list_elem_of_singleton]%elem_of_app; [by apply Ho | set_solver].
  - intros k r Hr. rewrite calls_on_snoc. simpl.
    unfold schema_kernel in Hr. simpl in Hr.
    apply lookup_insert_Some in Hr as [[<- <-]|[Hne Hr]].
    + destruct (Hs' id row Hrow) as (first & Hf & Hl). exists first. split; [done|].
      rewrite decide_True by done.
      exact (leads_changed _ _ _ (MkStatusAuditRow id (Some (sv_status row)) status "changed" _ _ _ _)
        Hl eq_refl eq_refl Hst).
    + rewrite decide_False, app_nil_r by done. by apply Hs'.
  - intros a [Ha| ->%list_elem_of_singleton]%elem_of_app; unfold schema_kernel; simpl;
      apply lookup_insert_is_Some'; [right; by apply Hk | by left].
  - intros a [Ha| ->%list_elem_of_singleton]%elem_of_app; [by apply Ho | set_solver].
Qed.

(** Where the calls lead: a terminal status is the end, and published is not come
    back to. *)
Lemma leads_to_end s l s' : leads_to s l s' -> s ∈ terminal_statuses -> s' = s.
Proof.
  induction 1 as [| |s l s' a Hl IH _ _ Hm]; auto. intros Hs. specialize (IH Hs). subst s'.
  unfold may_become in Hm. by rewrite bool_decide_eq_false_2 in Hm by (by intros ?).
Qed.
End theory.
