(* ===== verification/Startup.v ===== *)
(** * Startup: the database is connected to and migrated, the kernel is built

    [src/infrastructure/database.rs] with the rows that the migrations of
    [migrations/] insert, [Application::from_env] of [src/wiring.rs] and
    [src/main.rs]. The cluster holds the tables, the list of applied migrations and
    the installed extensions. A table a migration has yet to create is empty here:
    the definitions say what the migrations do to rows, on a new database as on one
    they have run on before. *)

From S2P Require Import Prelude Text Platform Process Database Schema Identity InstanceKeys.
From S2P Require Import InstanceRegistry Authority PostgresAuthority Enrollment TokenReviewer.
From S2P Require Import PolicyClient Wiring Administration.

(** ** Configuration *)

Definition DATABASE_URL_ENV : string := "DATABASE_URL".
Definition SERVICE_ID_ENV : string := "INFERNAL_LAW_SERVICE_ID".
Definition DEFAULT_MAX_POOL_SIZE : Z := 10.

Record DatabaseConfig := MkDatabaseConfig { config_url : string; config_max_pool_size : Z }.

Inductive DatabaseError :=
| DatabaseError_EmptyUrl
| DatabaseError_InvalidPoolSize
| DatabaseError_InvalidPostgresConfig (error : PostgresError)
| DatabaseError_MissingEnvironment (name : string)
| DatabaseError_Pool (message : string)
| DatabaseError_Query (error : PostgresError)
| DatabaseError_VectorExtensionMissing.

Definition DatabaseConfig_new (url : string) : Result DatabaseError DatabaseConfig :=
  if is_empty (trim url) then Err DatabaseError_EmptyUrl
  else Ok (MkDatabaseConfig url DEFAULT_MAX_POOL_SIZE).

Definition DatabaseConfig_from_env {Client} (env : Process Client) :
  Result DatabaseError DatabaseConfig :=
  url ← ok_or (DatabaseError_MissingEnvironment DATABASE_URL_ENV) (process_env_var env DATABASE_URL_ENV);
  DatabaseConfig_new url.

Definition DatabaseConfig_with_max_pool_size (config : DatabaseConfig) (max_pool_size : Z) :
  Result DatabaseError DatabaseConfig :=
  if (max_pool_size =? 0)%Z then Err DatabaseError_InvalidPoolSize
  else Ok (MkDatabaseConfig (config_url config) max_pool_size).

Inductive WiringError :=
| WiringError_Database (error : DatabaseError)
| WiringError_InvalidServiceId (error : IdentityError)
| WiringError_MissingEnvironment (name : string).

Section errors.
Context {P : Platform}.

Definition DatabaseError_to_string (e : DatabaseError) : string :=
  match e with
  | DatabaseError_EmptyUrl => "database URL cannot be empty"
  | DatabaseError_InvalidPoolSize => "database pool size must be positive"
  | DatabaseError_InvalidPostgresConfig error =>
      "invalid PostgreSQL configuration: " +:+ postgres_error_text error
  | DatabaseError_MissingEnvironment name => "required environment variable " +:+ name +:+ " is not set"
  | DatabaseError_Pool error => "database pool error: " +:+ error
  | DatabaseError_Query error => "database query failed: " +:+ postgres_error_text error
  | DatabaseError_VectorExtensionMissing => "required PostgreSQL extension 'vector' is not installed"
  end.

(** [Error::source]: what the error stems from *)
Definition DatabaseError_source (e : DatabaseError) : option (string + PostgresError) :=
  match e with
  | DatabaseError_InvalidPostgresConfig error | DatabaseError_Query error => Some (inr error)
  | DatabaseError_Pool error => Some (inl error)
  | _ => None
  end.

Definition WiringError_to_string (e : WiringError) : string :=
  match e with
  | WiringError_Database error => DatabaseError_to_string error
  | WiringError_InvalidServiceId error => IdentityError_to_string error
  | WiringError_MissingEnvironment name => "required environment variable " +:+ name +:+ " is not set"
  end.
End errors.

(** ** What the migrations do to rows *)

Record Cluster := MkCluster {
  cluster_tables : AdminTables;
  schema_migrations : gmap Z string;  (* kernel_schema_migrations *)
  extensions : gmap string string;    (* pg_extension: extname, extversion *)
}.

Record Migration := MkMigration {
  migration_version : Z;
  migration_name : string;
  migration_rows : Z -> Tables -> Result PostgresError Tables;
}.

Section migrations.
Context {P : Platform}.

(** A migration that inserts nothing but its own record: its tables, indices,
    functions and triggers are those the other files of the library describe, and
    the rows they find satisfy the constraints they add again. *)
Definition no_rows (_ : Z) (T : Tables) : Result PostgresError Tables := Ok T.

(** [0007] INSERT INTO service_communication_admission .. SELECT .. FROM identities
    ON CONFLICT (service_id) DO NOTHING *)
Definition open_admission (clock : Z) (T : Tables) : Result PostgresError Tables :=
  require (bool_decide (identities T = ∅) || (0 <=? clock)%Z)
    (check_violation "service_communication_admission_updated_at_check");;
  Ok (with_admission (admission T ∪ ((fun _ => MkAdmissionRow false 0 clock) <$> identities T)) T).

Definition RESERVED_IDENTITY : Uuid := uuid_of_N 0.

(** [0018] the identity that owns the sentinels, ON CONFLICT (id) DO NOTHING *)
Definition seed_identity (clock : Z) (T : Tables) : Result PostgresError Tables :=
  match identities T !! RESERVED_IDENTITY with
  | Some _ => Ok T
  | None =>
      '(_, T) ← insert_identity_sql RESERVED_IDENTITY "service" "reserved: kernel schema registry"
                  "active" clock T;
      Ok T
  end.

(** A row of the INSERT of [0018], ON CONFLICT (schema_version_id) DO NOTHING; the
    CHECK constraints hold of the constants it inserts. *)
Definition seed_version (id : Uuid) (kind name : string) (T : Tables) : Result PostgresError Tables :=
  match schema_versions T !! id with
  | Some _ => Ok T
  | None =>
      require (negb (existsb (fun kv => sv_version kv.2 =? 1)%Z (versions_of kind name T)))
        (unique_violation "authority_schema_versions_kind_name_version_key");;
      references (identities T) RESERVED_IDENTITY "authority_schema_versions_owner_service_id_fkey";;
      Ok (with_schema_versions
            (<[id := MkSchemaVersionRow kind name 1 RESERVED_IDENTITY (sha256 name) None 0 "active"]>
               (schema_versions T)) T)
  end.

Definition seed_no_artifact (clock : Z) (T : Tables) : Result PostgresError Tables :=
  T ← seed_identity clock T;
  T ← seed_version (uuid_of_N 1) "artifact" "kernel.no-artifact" T;
  seed_version (uuid_of_N 2) "permission_policy" "kernel.no-artifact-permission-policy" T.

Definition migrations : list Migration := [
  MkMigration 1 "identities" no_rows;
  MkMigration 2 "instance_public_key_registry" no_rows;
  MkMigration 3 "service_enrollment_bindings" no_rows;
  MkMigration 4 "subscriptions" no_rows;
  MkMigration 5 "instance_handshakes" no_rows;
  MkMigration 6 "service_request_replay_protection" no_rows;
  MkMigration 7 "communication_admission" open_admission;
  MkMigration 8 "requests" no_rows;
  MkMigration 9 "authority_grants" no_rows;
  MkMigration 10 "authority_schema_versions" no_rows;
  MkMigration 11 "authority_decisions" no_rows;
  MkMigration 12 "authority_grant_schema_versions" no_rows;
  MkMigration 13 "authority_decision_schema_versions" no_rows;
  MkMigration 14 "request_schema_versions" no_rows;
  MkMigration 15 "subscription_delivery_modes" no_rows;
  MkMigration 16 "request_routes" no_rows;
  MkMigration 17 "work_claims" no_rows;
  MkMigration 18 "seed_no_artifact_schema_versions" seed_no_artifact;
  MkMigration 19 "revoke_authority_grants" no_rows].

(** One file: its rows, and its own record ON CONFLICT (version) DO NOTHING *)
Definition run_migration (clock : Z) (m : Migration) (C : Cluster) : Result PostgresError Cluster :=
  K ← migration_rows m clock (kernel_tables (cluster_tables C));
  Ok (MkCluster (with_kernel_tables K (cluster_tables C))
        (schema_migrations C ∪ {[migration_version m := migration_name m]}) (extensions C)).

Fixpoint run_migrations (clock : Z) (ms : list Migration) (C : Cluster) : Result PostgresError Cluster :=
  match ms with
  | [] => Ok C
  | m :: ms => C ← run_migration clock m C; run_migrations clock ms C
  end.
End migrations.

(** ** The pool *)

Section database.
Context {P : Platform} {Client PostgresConfig : Type}.
(** [url.parse::<postgres::Config>()] *)
Context (postgres_config_from_str : string -> Result PostgresError PostgresConfig).

(** [self.pool.get().map_err(DatabaseError::Pool)] *)
Definition Database_connection {S} : Db S DatabaseError unit := fun c =>
  match next_fault c with
  | (Proceed, c) => (Ok tt, MkConn (durable c) (durable c) (faults c) (entropy c))
  | (Broken m, c) | (AckLost m, c) => (Err (DatabaseError_Pool m), c)
  end.

(** [Pool::builder()..min_idle(Some(1)).build(manager)] returns when one connection is
    established, with an error when none is in time. *)
Definition pool_build {S} (config : PostgresConfig) (max_size : Z) : Db S DatabaseError unit :=
  Database_connection.

Definition Database_check_connection : Db Cluster DatabaseError unit :=
  Database_connection;;
  query DatabaseError_Query (fun _ => tt).

Definition Database_vector_extension_version : Db Cluster DatabaseError string :=
  Database_connection;;
  row ← query DatabaseError_Query (fun C => extensions C !! "vector");
  lift (ok_or DatabaseError_VectorExtensionMissing row).

Definition Database_require_vector_extension : Db Cluster DatabaseError unit :=
  Database_vector_extension_version;; mret tt.

Definition Database_connect (config : DatabaseConfig) : Db Cluster DatabaseError unit :=
  postgres_config ← lift (result_map_err DatabaseError_InvalidPostgresConfig
                            (postgres_config_from_str (config_url config)));
  pool_build postgres_config (config_max_pool_size config);;
  Database_check_connection;;
  Database_require_vector_extension.

Definition Database_connect_from_env (env : Process Client) : Db Cluster DatabaseError unit :=
  config ← lift (DatabaseConfig_from_env env);
  Database_connect config.

(** The nineteen files are one batch, which PostgreSQL runs as one transaction. *)
Definition Database_migrate : Db Cluster DatabaseError unit :=
  Database_connection;;
  clock ← server_clock;
  autocommit DatabaseError_Query (fun C => C ← run_migrations clock migrations C; Ok (tt, C)).

(** ** The application *)

(** [InstanceCredential::generate] *)
Definition draw_credential {S E} (service_id : ActorId) : Db S E InstanceCredential :=
  seed ← random;
  instance_id ← new_uuid;
  key_id ← new_uuid;
  mret (InstanceCredential_generate service_id (be_bytes 32 seed) (MkInstanceId instance_id)
          (MkKeyId key_id)).

(** [Application::new] *)
Definition Application_start (service_id : ActorId) : Db Cluster WiringError Application :=
  map_err WiringError_Database Database_migrate;;
  instance_credential ← draw_credential service_id;
  mret (Application_new instance_credential).

Definition Application_from_env (env : Process Client) : Db Cluster WiringError Application :=
  value ← lift (ok_or (WiringError_MissingEnvironment SERVICE_ID_ENV)
                  (process_env_var env SERVICE_ID_ENV));
  service_id ← lift (result_map_err WiringError_InvalidServiceId (ActorId_from_str value));
  map_err WiringError_Database (Database_connect_from_env env);;
  Application_start service_id.
End database.

(** ** Migrating *)

Section theory.
Context {P : Platform}.

(** What the rows are after migrating: every version recorded, an admission record
    for every identity, and the sentinels that decisions without an artifact need *)
Record migrated (C : Cluster) : Prop := {
  migrated_versions m : m ∈ migrations -> is_Some (schema_migrations C !! migration_version m);
  migrated_admission id : is_Some (identities (kernel_tables (cluster_tables C)) !! id) ->
    is_Some (admission (kernel_tables (cluster_tables C)) !! id);
  migrated_reserved : is_Some (identities (kernel_tables (cluster_tables C)) !! RESERVED_IDENTITY);
  migrated_artifact : is_Some (schema_versions (kernel_tables (cluster_tables C)) !! uuid_of_N 1);
  migrated_permission_policy :
    is_Some (schema_versions (kernel_tables (cluster_tables C)) !! uuid_of_N 2);
}.

(** What migrating may do to rows: add admission records, disabled ones, the reserved
    identity and the sentinels; every row that is there stays as it is. *)
Record extends_rows (T T' : Tables) : Prop := {
  extends_tables : exists i a s,
    T' = with_identities i (with_admission a (with_schema_versions s T));
  extends_identities : identities T ⊆ identities T';
  extends_admission : admission T ⊆ admission T';
  extends_schema_versions : schema_versions T ⊆ schema_versions T';
  extends_new_identity id : is_Some (identities T' !! id) -> identities T !! id = None ->
    id = RESERVED_IDENTITY;
  extends_new_admission id row : admission T' !! id = Some row -> admission T !! id = None ->
    adm_communication_enabled row = false;
  extends_new_version id : is_Some (schema_versions T' !! id) -> schema_versions T !! id = None ->
    id = uuid_of_N 1 \/ id = uuid_of_N 2;
}.

#[export] Instance extends_rows_preorder : PreOrder extends_rows.
Proof.
  split.
  - intros T. constructor; try done; [|intros id [? H]; congruence|congruence|intros id [? H]; congruence].
    exists (identities T), (admission T), (schema_versions T). by destruct T.
  - intros T1 T2 T3 [(i & a & s & HT) Hi Ha Hs Hni Hna Hns] [(i' & a' & s' & HT') Hi' Ha' Hs' Hni' Hna' Hns'].
    constructor; try by etrans.
    + rewrite HT', HT. by exists i', a', s'.
    + intros id H3 H1. destruct (identities T2 !! id) eqn:H2; [apply Hni; eauto | by apply Hni'].
    + intros id row H3 H1. destruct (admission T2 !! id) as [r|] eqn:H2; [|by eapply Hna'].
      rewrite (lookup_weaken _ _ _ _ H2 Ha') in H3. simplify_eq. by eapply Hna.
    + intros id H3 H1. destruct (schema_versions T2 !! id) eqn:H2; [apply Hns; eauto | by apply Hns'].
Qed.

Lemma admission_rows a T :
  with_admission a T = with_identities (identities T) (with_admission a (with_schema_versions (schema_versions T) T)).
Proof. by destruct T. Qed.
Lemma schema_rows s T :
  with_schema_versions s T = with_identities (identities T) (with_admission (admission T) (with_schema_versions s T)).
Proof. by destruct T. Qed.
Lemma identity_rows i a T :
  with_admission a (with_identities i T) = with_identities i (with_admission a (with_schema_versions (schema_versions T) T)).
Proof. by destruct T. Qed.

Lemma open_admission_Ok clock T T' :
  open_admission clock T = Ok T' ->
  extends_rows T T' /\ identities T' = identities T /\ schema_versions T' = schema_versions T /\
  forall id, is_Some (identities T !! id) -> is_Some (admission T' !! id).
Proof.
  unfold open_admission. intros H. result_inv. split_and!; [|done|done|].
  - constructor; simpl; try done.
    + do 3 eexists. apply admission_rows.
    + apply map_union_subseteq_l.
    + intros id [? H] H'. congruence.
    + intros id row [H'|[_ H']]%lookup_union_Some_raw Hn; [congruence|].
      rewrite lookup_fmap in H'. destruct (identities T !! id); by simplify_eq/=.
    + intros id [? H] H'. congruence.
  - intros id Hid. simpl. apply lookup_union_is_Some. right. by rewrite lookup_fmap, fmap_is_Some.
Qed.

Lemma seed_identity_Ok clock T T' :
  seed_identity clock T = Ok T' ->
  extends_rows T T' /\ is_Some (identities T' !! RESERVED_IDENTITY) /\
  schema_versions T' = schema_versions T /\
  ((forall id, is_Some (identities T !! id) -> is_Some (admission T !! id)) ->
   forall id, is_Some (identities T' !! id) -> is_Some (admission T' !! id)).
Proof.
  unfold seed_identity. destruct (identities T !! RESERVED_IDENTITY) eqn:Hid.
  { intros [= <-]. split_and!; [done | eauto | done..]. }
  unfold insert_identity_sql. intros H. result_inv.
  repeat match goal with H : require _ _ = Ok _ |- _ => apply require_Ok in H end.
  repeat match goal with H : bool_decide _ = true |- _ => apply bool_decide_eq_true in H end.
  split_and!; simpl; [|by rewrite lookup_insert_eq|done|].
  - constructor; simpl; try done.
    + do 3 eexists. apply identity_rows.
    + by apply insert_subseteq.
    + by apply insert_subseteq.
    + intros id [<-|[_ H']]%lookup_insert_is_Some Hn; [auto|]. rewrite Hn in H'. by destruct H'.
    + intros id row [[_ <-]|[_ H']]%lookup_insert_Some Hn; [done | congruence].
    + intros id [? H'] Hn. congruence.
  - intros Hall id. rewrite !lookup_insert_is_Some. intros [->|[Hne H']]; [by left|].
    right. auto.
Qed.

Lemma seed_version_Ok id kind name T T' :
  id = uuid_of_N 1 \/ id = uuid_of_N 2 -> seed_version id kind name T = Ok T' ->
  extends_rows T T' /\ is_Some (schema_versions T' !! id) /\ identities T' = identities T /\
  admission T' = admission T.
Proof.
  intros Hor. unfold seed_version. destruct (schema_versions T !! id) eqn:Hid.
  { intros [= <-]. split_and!; [done | eauto | done..]. }
  intros H. result_inv. split_and!; simpl; [|by rewrite lookup_insert_eq|done..].
  constructor; simpl; try done; try (intros ? [? ?]; congruence); try congruence.
  - do 3 eexists. apply schema_rows.
  - by apply insert_subseteq.
  - intros k [<-|[_ H']]%lookup_insert_is_Some Hn; [auto|]. rewrite Hn in H'. by destruct H'.
Qed.

(** The batch, its rows and its records apart *)
Definition recorded (ms : list Migration) (V : gmap Z string) : gmap Z string :=
  foldl (fun V m => V ∪ {[migration_version m := migration_name m]}) V ms.

Fixpoint rows_of (clock : Z) (ms : list Migration) (T : Tables) : Result PostgresError Tables :=
  match ms with
  | [] => Ok T
  | m :: ms => T ← migration_rows m clock T; rows_of clock ms T
  end.

Lemma run_migrations_rows clock ms C :
  run_migrations clock ms C =
    (K ← rows_of clock ms (kernel_tables (cluster_tables C));
     Ok (MkCluster (with_kernel_tables K (cluster_tables C)) (recorded ms (schema_migrations C))
           (extensions C))).
Proof.
  revert C. induction ms as [|m ms IH]; intros [[K d h a] V X]; [done|]. cbn [run_migrations rows_of].
  unfold run_migration. cbn [cluster_tables kernel_tables schema_migrations extensions].
  destruct (migration_rows m clock K) as [K'|e]; [|done]. cbn [mbind result_bind]. by rewrite IH.
Qed.

Lemma rows_of_migrations clock T :
  rows_of clock migrations T = (T ← open_admission clock T; seed_no_artifact clock T).
Proof.
  cbn [rows_of migrations migration_rows]. unfold no_rows. cbn [mbind result_bind].
  destruct (open_admission clock T) as [T1|e]; [|done]. cbn [mbind result_bind].
  by destruct (seed_no_artifact clock T1).
Qed.

Lemma recorded_subseteq ms V : V ⊆ recorded ms V.
Proof.
  revert V. induction ms as [|m ms IH]; intros V; simpl; [done|].
  etrans; [|apply IH]. apply map_union_subseteq_l.
Qed.

Lemma recorded_all ms V m : m ∈ ms -> is_Some (recorded ms V !! migration_version m).
Proof.
  revert V. induction ms as [|m' ms IH]; intros V; [by intros ?%elem_of_nil|].
  intros [->|Hin]%elem_of_cons; [|by apply IH]. simpl.
  eapply (lookup_weaken_is_Some (V ∪ {[migration_version m' := migration_name m']}));
    [|apply recorded_subseteq]. apply lookup_union_is_Some. right. by rewrite lookup_singleton_eq.
Qed.

Lemma recorded_settled ms V :
  (forall m, m ∈ ms -> is_Some (V !! migration_version m)) -> recorded ms V = V.
Proof.
  revert V. induction ms as [|m ms IH]; intros V HV; [done|]. simpl.
  assert (V ∪ {[migration_version m := migration_name m]} = V) as ->.
  { apply map_eq. intros k. destruct (V !! k) as [v|] eqn:Hk.
    - rewrite lookup_union_l'; [done | eauto].
    - rewrite lookup_union_r, lookup_singleton_ne; [done | | done].
      intros <-. destruct (HV m) as [? HVm]; [left | congruence]. }
  apply IH. intros m' Hm'. apply HV. by right.
Qed.

(** What a completed batch did *)
Record migrates (C C' : Cluster) : Prop := {
  migrates_rows : extends_rows (kernel_tables (cluster_tables C)) (kernel_tables (cluster_tables C'));
  migrates_administration :
    cluster_tables C' = with_kernel_tables (kernel_tables (cluster_tables C')) (cluster_tables C);
  migrates_versions : schema_migrations C ⊆ schema_migrations C';
  migrates_extensions : extensions C' = extensions C;
}.

Lemma run_migrations_Ok clock C C' :
  run_migrations clock migrations C = Ok C' -> migrates C C' /\ migrated C'.
Proof.
  rewrite run_migrations_rows, rows_of_migrations. unfold seed_no_artifact.
  pose proof (recorded_subseteq migrations (schema_migrations C)) as Hkept.
  pose proof (recorded_all migrations (schema_migrations C)) as Hall.
  generalize dependent (recorded migrations (schema_migrations C)). intros V Hkept Hall H. result_inv.
  match goal with H : open_admission _ _ = Ok _ |- _ => apply open_admission_Ok in H as (E1 & I1 & S1 & A1) end.
  match goal with H : seed_identity _ _ = Ok _ |- _ => apply seed_identity_Ok in H as (E2 & R2 & S2 & A2) end.
  repeat match goal with H : seed_version _ _ _ _ = Ok _ |- _ => apply seed_version_Ok in H; [|auto] end.
  destruct_and!. split.
  - constructor; cbn [cluster_tables schema_migrations extensions kernel_tables with_kernel_tables];
      [|done..].
    etrans; [exact E1|]. etrans; [exact E2|]. by etrans.
  - constructor; cbn [cluster_tables schema_migrations kernel_tables with_kernel_tables].
    + exact Hall.
    + intros id Hid. repeat match goal with H : admission _ = _ |- _ => rewrite H; clear H end.
      repeat match goal with H : identities ?x = _ |- _ => rewrite H in Hid; clear H end.
      apply A2; [by rewrite I1|done].
    + by repeat match goal with H : identities ?x = _ |- _ => rewrite H; clear H end.
    + by eapply lookup_weaken_is_Some, extends_schema_versions.
    + done.
Qed.

(** A migrated database stays as it is. *)
Lemma run_migrations_settled clock C :
  migrated C -> (0 <= clock)%Z -> run_migrations clock migrations C = Ok C.
Proof.
  intros [Hv Ha Hr Ha1 Ha2] Hc. rewrite run_migrations_rows, rows_of_migrations, recorded_settled by done.
  destruct C as [[K d h a] V X]; cbn [cluster_tables kernel_tables schema_migrations] in *.
  assert (open_admission clock K = Ok K) as ->.
  { unfold open_admission. rewrite (proj2 (Z.leb_le _ _) Hc), orb_true_r. cbn [require mbind result_bind].
    f_equal. transitivity (with_admission (admission K) K); [|by destruct K]. f_equal.
    apply map_eq. intros id. destruct (admission K !! id) as [row|] eqn:Hrow.
    - rewrite lookup_union_l'; [done | eauto].
    - rewrite lookup_union_r, lookup_fmap by done. destruct (identities K !! id) eqn:Hid; [|done].
      destruct (Ha id) as [? ?]; [eauto | congruence]. }
  destruct Hr as [? Hr], Ha1 as [? Ha1], Ha2 as [? Ha2].
  unfold seed_no_artifact, seed_identity, seed_version. cbn [mbind result_bind].
  rewrite Hr. cbn [mbind result_bind]. rewrite Ha1. cbn [mbind result_bind]. by rewrite Ha2.
Qed.

(** A new database is migrated. *)
Lemma seed_version_run id kind name T :
  schema_versions T !! id = None -> versions_of kind name T = [] ->
  is_Some (identities T !! RESERVED_IDENTITY) ->
  seed_version id kind name T = Ok (with_schema_versions
    (<[id := MkSchemaVersionRow kind name 1 RESERVED_IDENTITY (sha256 name) None 0 "active"]>
       (schema_versions T)) T).
Proof.
  intros Hid Hv Hr. unfold seed_version, references. by rewrite Hid, Hv, (bool_decide_true _ Hr).
Qed.

Lemma versions_of_none kind name T :
  (forall id row, schema_versions T !! id = Some row -> sv_kind row <> kind) ->
  versions_of kind name T = [].
Proof.
  intros H. apply elem_of_nil_inv. intros [id row] [Hrow Hk]%select_In.
  apply andb_true_iff in Hk as [Hk%String.eqb_eq _]. by eapply H.
Qed.

Lemma run_migrations_fresh clock A V X :
  kernel_tables A = no_tables -> (0 <= clock)%Z ->
  exists C', run_migrations clock migrations (MkCluster A V X) = Ok C'.
Proof.
  intros HA Hc. rewrite run_migrations_rows, rows_of_migrations. cbn [cluster_tables]. rewrite HA.
  assert (open_admission clock no_tables = Ok no_tables) as -> by
    (unfold open_admission; rewrite bool_decide_true by done; cbn; by rewrite fmap_empty, (left_id_L ∅ (∪))).
  unfold seed_no_artifact. cbn [mbind result_bind].
  assert (exists T, seed_identity clock no_tables = Ok T /\ schema_versions T = ∅ /\
    is_Some (identities T !! RESERVED_IDENTITY)) as (T & -> & Hs & Hr).
  { unfold seed_identity, insert_identity_sql. cbn [no_tables identities admission]. rewrite lookup_empty.
    rewrite (bool_decide_true (0 <= clock)%Z) by done. eexists. split; [done|]. split; [done|].
    simpl. by rewrite lookup_insert_eq. }
  cbn [mbind result_bind]. rewrite seed_version_run; [|by rewrite Hs | | done].
  - cbn [mbind result_bind]. rewrite seed_version_run; [by eexists | | | done]; cbn; rewrite Hs.
    + by rewrite lookup_insert_ne by (intros Heq; by apply (f_equal uuid_value) in Heq).
    + apply versions_of_none. cbn. intros id row [[_ <-]|[_ ?]]%lookup_insert_Some; [done|].
      by rewrite lookup_empty in *.
  - apply versions_of_none. by rewrite Hs.
Qed.
End theory.

(** ** Starting *)

Section startup.
Context {P : Platform} {HP : PlatformLaws P} {Client PostgresConfig : Type}
  (postgres_config_from_str : string -> Result PostgresError PostgresConfig).

(** [connection] of the repositories is this connection, its error as it is shown. *)
Lemma connection_is_database {S E} (h : string -> E) (c : Conn S) :
  connection h c = map_err (fun e => h (DatabaseError_to_string e)) Database_connection c.
Proof.
  unfold connection, map_err, Database_connection, next_fault. by destruct (faults c) as [|[] fs].
Qed.

Lemma quiet_Database_connection {S} : quiet (fun _ => True) (Database_connection (S:=S)).
Proof.
  intros c. unfold Database_connection, next_fault. simpl.
  destruct (faults c) as [|[] fs]; simpl; eauto 8.
Qed.

Lemma Database_connection_Ok {S} (c : Conn S) u c' :
  Database_connection c = (Ok u, c') -> sees c' (durable c) (durable c).
Proof.
  unfold Database_connection, next_fault. destruct (faults c) as [|[] fs]; intros [=]; by subst.
Qed.

(** The pool that [from_env] asks for can be built: r2d2 requires a positive size that
    is not below the one idle connection asked for. *)
Lemma config_pool_size (env : Process Client) config :
  DatabaseConfig_from_env env = Ok config -> (1 <= config_max_pool_size config)%Z.
Proof.
  unfold DatabaseConfig_from_env, DatabaseConfig_new. intros H. result_inv.
  by destruct (is_empty _); simplify_eq.
Qed.

Lemma with_max_pool_size_positive config size config' :
  (0 <= size)%Z -> DatabaseConfig_with_max_pool_size config size = Ok config' ->
  (1 <= config_max_pool_size config')%Z.
Proof.
  unfold DatabaseConfig_with_max_pool_size. intros Hs. destruct (size =? 0)%Z eqn:Hz; [done|].
  intros [= <-]. simpl. lia.
Qed.

Lemma connect_quiet (env : Process Client) :
  quiet (fun _ => True) (Database_connect_from_env postgres_config_from_str env).
Proof.
  unfold Database_connect_from_env, Database_connect, pool_build, Database_check_connection,
    Database_require_vector_extension, Database_vector_extension_version.
  db_walk; apply quiet_Database_connection.
Qed.

Lemma connect_Ok (env : Process Client) c u c' :
  Database_connect_from_env postgres_config_from_str env c = (Ok u, c') ->
  durable c' = durable c /\ is_Some (extensions (durable c) !! "vector").
Proof.
  unfold Database_connect_from_env, Database_connect, pool_build, Database_check_connection,
    Database_require_vector_extension, Database_vector_extension_version. intros H. db_inv.
  repeat match goal with H : Database_connection _ = (Ok _, _) |- _ =>
    apply Database_connection_Ok in H as [? ?] end.
  resolve_tables. eauto.
Qed.

#[local] Instance migrates_preorder : PreOrder migrates.
Proof.
  split.
  - intros C. constructor; try done. by destruct C as [[] ? ?].
  - intros C1 C2 C3 [Hr Ha Hv Hx] [Hr' Ha' Hv' Hx']. constructor; try by etrans.
    rewrite Ha'. simpl. by rewrite Ha.
Qed.

(** Either the batch was not run, or it was as a whole. *)
Definition starts (C C' : Cluster) : Prop := C' = C \/ (migrates C C' /\ migrated C').

#[local] Instance starts_preorder : PreOrder starts.
Proof.
  split; [by left|]. intros C1 C2 C3 [->|[H12 Hm]] [->|[H23 Hm']]; [by left | by right..|].
  right. split; [by etrans | done].
Qed.

Lemma migrate_history : history starts Database_migrate.
Proof.
  unfold Database_migrate. db_walk.
  - apply (history_quiet _ (fun _ => True)), quiet_Database_connection.
  - result_inv. right. by eapply run_migrations_Ok.
Qed.

Lemma draw_credential_Ok {S E} service (c : Conn S) cred c' :
  draw_credential (E:=E) service c = (Ok cred, c') ->
  durable c' = durable c /\ credential_wf cred /\ public_service_id (credential_public_key cred) = service.
Proof. unfold draw_credential. intros H. db_inv. split_and!; [congruence | apply generate_wf | done]. Qed.

Lemma start_Ok (env : Process Client) c app c' :
  Application_from_env postgres_config_from_str env c = (Ok app, c') ->
  migrated (durable c') /\ is_Some (extensions (durable c) !! "vector") /\
  exists value credential,
    process_env_var env SERVICE_ID_ENV = Some value /\
    ActorId_from_str value = Ok (public_service_id (credential_public_key credential)) /\
    credential_wf credential /\ app = Application_new credential.
Proof.
  unfold Application_from_env, Application_start. intros H. db_inv.
  match goal with H : Database_connect_from_env _ _ _ = _ |- _ => apply connect_Ok in H as [Hd Hv] end.
  match goal with H : draw_credential _ _ = _ |- _ => apply draw_credential_Ok in H as (Hd' & Hw & <-) end.
  split; [|split; [done|]].
  + unfold Database_migrate in *. db_inv.
    repeat match goal with H : Database_connection _ = (Ok _, _) |- _ =>
      apply Database_connection_Ok in H as [? ?] end. resolve_tables. result_inv.
    by eapply run_migrations_Ok.
  + do 2 eexists. split; [done|]. split; [|done]. destruct (ActorId_from_str _); naive_solver.
Qed.

(** C24: Starting the kernel prepares its database, whole or not at all. Whatever the
    environment, whatever fails: the tables are as they were, or the batch of migrations
    has run once: nothing stored has changed, only the reserved identity, the
    sentinels and admission records have been added, and no added record admits a
    service. A start that succeeds leaves the database migrated, had the vector
    extension, and gives the application a new key of the configured service. *)
Theorem startup_prepares_database (env : Process Client) c :
  let result := Application_from_env postgres_config_from_str env c in
  starts (durable c) (durable result.2) /\
  forall app, result.1 = Ok app ->
    migrated (durable result.2) /\ is_Some (extensions (durable c) !! "vector") /\
    exists value credential,
      process_env_var env SERVICE_ID_ENV = Some value /\
      ActorId_from_str value = Ok (public_service_id (credential_public_key credential)) /\
      credential_wf credential /\ app = Application_new credential.
Proof.
  cbv zeta. split.
  - revert c. change (history starts (Application_from_env postgres_config_from_str env)).
    unfold Application_from_env, Application_start, draw_credential. db_walk.
    + apply (history_quiet _ (fun _ => True)), connect_quiet.
    + apply migrate_history.
  - destruct (Application_from_env _ _ c) as [r c'] eqn:H. simpl. intros app ->. by apply start_Ok.
Qed.

Lemma Database_connection_run {S} (d w : S) ns :
  Database_connection (MkConn d w [] ns) = (Ok tt, MkConn d d [] ns).
Proof. done. Qed.

Lemma draw_credential_run {S E} service (d w : S) ns : exists cred ns',
  draw_credential (E:=E) service (MkConn d w [] ns) = (Ok cred, MkConn d w [] ns').
Proof.
  unfold draw_credential. destruct (random_reading (E:=E) d w ns) as (n & ns1 & H1).
  destruct (new_uuid_reading (E:=E) d w ns1) as (u & ns2 & H2).
  destruct (new_uuid_reading (E:=E) d w ns2) as (v & ns3 & H3).
  rewrite bind_run, H1, bind_run, H2, bind_run, H3. by do 2 eexists.
Qed.

(** A process whose configuration is complete *)
Record configured (env : Process Client) (service : ActorId) : Prop := {
  configured_service : exists value, process_env_var env SERVICE_ID_ENV = Some value /\
    ActorId_from_str value = Ok service;
  configured_database : exists url config, process_env_var env DATABASE_URL_ENV = Some url /\
    is_empty (trim url) = false /\ postgres_config_from_str url = Ok config;
}.

Lemma connect_run env service C w ns :
  configured env service -> is_Some (extensions C !! "vector") ->
  Database_connect_from_env postgres_config_from_str env (MkConn C w [] ns) = (Ok tt, MkConn C C [] ns).
Proof.
  intros [_ (url & config & Hu & Hne & Hp)] [version Hx].
  unfold Database_connect_from_env, DatabaseConfig_from_env, DatabaseConfig_new. rewrite Hu.
  cbn [ok_or mbind result_bind]. rewrite Hne. db_run.
  unfold Database_connect. cbn [config_url]. rewrite Hp. cbn [result_map_err]. db_run.
  unfold pool_build, Database_check_connection, Database_require_vector_extension,
    Database_vector_extension_version.
  repeat (rewrite Database_connection_run || db_run). by rewrite Hx.
Qed.

Lemma migrate_run C w ns :
  (forall clock, (0 <= clock)%Z -> is_ok (run_migrations clock migrations C) = true) ->
  exists C' ns' clock, Database_migrate (MkConn C w [] ns) = (Ok tt, MkConn C' C' [] ns') /\
    (0 <= clock)%Z /\ run_migrations clock migrations C = Ok C'.
Proof.
  intros Hrun. unfold Database_migrate. rewrite bind_run, Database_connection_run.
  destruct (server_clock_reading (E:=DatabaseError) C C ns) as (clock & ns1 & Hc & Hpos).
  rewrite bind_run, Hc. specialize (Hrun clock Hpos).
  destruct (run_migrations clock migrations C) as [C'|] eqn:Hm; [|done].
  exists C', ns1, clock. split; [|done]. by erewrite autocommit_run by (by rewrite Hm).
Qed.

Lemma from_env_run env service C ns :
  configured env service -> is_Some (extensions C !! "vector") ->
  (forall clock, (0 <= clock)%Z -> is_ok (run_migrations clock migrations C) = true) ->
  exists app C' ns' clock,
    Application_from_env postgres_config_from_str env (start C [] ns) = (Ok app, MkConn C' C' [] ns') /\
    (0 <= clock)%Z /\ run_migrations clock migrations C = Ok C'.
Proof.
  intros Henv Hx Hrun. destruct (configured_service _ _ Henv) as (value & Hv & Hs).
  destruct (migrate_run C C ns Hrun) as (C' & ns1 & clock & Hm & Hc & Hrun').
  destruct (draw_credential_run (E:=WiringError) service C' C' ns1) as (cred & ns2 & Hd).
  unfold Application_from_env, Application_start, start. rewrite Hv. cbn [ok_or]. db_run.
  rewrite Hs. cbn [result_map_err]. db_run.
  erewrite map_err_Ok_run by (by apply (connect_run env service)).
  db_run. erewrite map_err_Ok_run by exact Hm. rewrite bind_run, Hd. db_run. by do 4 eexists.
Qed.

(** A configured kernel starts, on a new database as on one that was migrated
    before, and starting it again changes no row. *)
Theorem restart_changes_nothing env service C ns :
  configured env service -> is_Some (extensions C !! "vector") ->
  migrated C \/ kernel_tables (cluster_tables C) = no_tables ->
  exists app C' ns',
    Application_from_env postgres_config_from_str env (start C [] ns) = (Ok app, MkConn C' C' [] ns') /\
    migrated C' /\ (migrated C -> C' = C) /\
    forall ns2, exists app2 ns2',
      Application_from_env postgres_config_from_str env (start C' [] ns2) =
        (Ok app2, MkConn C' C' [] ns2').
Proof.
  intros Henv Hx Hor.
  destruct (from_env_run env service C ns) as (app & C' & ns' & clock & Hrun & Hc & Hm); [done..| |].
  { intros clock Hc. destruct Hor as [Hmig|Hnew]; [by rewrite run_migrations_settled|].
    destruct C as [A V X]. by destruct (run_migrations_fresh clock A V X Hnew Hc) as [C' ->]. }
  apply run_migrations_Ok in Hm as Hmig'. destruct Hmig' as [Hmigrates Hmig'].
  exists app, C', ns'. split; [done|]. split; [done|]. split.
  - intros Hmig. rewrite run_migrations_settled in Hm by done. congruence.
  - intros ns2.
    destruct (from_env_run env service C' ns2) as (app2 & C2 & ns2' & clock2 & Hrun2 & Hc2 & Hm2);
      [done | by rewrite (migrates_extensions _ _ Hmigrates) | |].
    { intros clock2 Hc2. by rewrite run_migrations_settled. }
    rewrite run_migrations_settled in Hm2 by done. injection Hm2 as <-. eauto.
Qed.
End startup.
