(* ===== verification/Registrar.v ===== *)
(** * Registrar: reconciliation of the administrative state with a manifest

    [src/bin/registrar.rs]: a process of its own, with its own database connection
    outside any transaction, so that every statement commits by itself. The
    Kubernetes API, the JSON decoder, the files and the environment are parameters. *)

From S2P Require Import Prelude Text Platform Process Database Schema Identity RequestNames.
From S2P Require Import Authority PostgresAuthority Enrollment Administration.
From Stdlib Require Import Ascii.

(** The sentinels of migration 0018 *)
Definition NO_ARTIFACT_SCHEMA_VERSION : string := "00000000-0000-0000-0000-000000000001".
Definition NO_ARTIFACT_PERMISSION_POLICY_SCHEMA_VERSION : string :=
  "00000000-0000-0000-0000-000000000002".
Definition DEFAULT_ADMINISTRATOR : string := "registrar@unattended".

Record GrantSpec := MkGrantSpec { spec_action : string; spec_scope : string }.

Record ServiceSpec := MkServiceSpec {
  spec_service_id : string;
  spec_kind : string;
  spec_display_name : string;
  spec_namespace : option string;
  spec_service_account : option string;
  spec_communication_enabled : bool;
  spec_grants : list GrantSpec;
}.

Record Manifest := MkManifest { manifest_services : list ServiceSpec }.

Inductive RegistrarError :=
| RegistrarError_Configuration (detail : string)
| RegistrarError_Database (detail : string)
| RegistrarError_Kubernetes (detail : string)
| RegistrarError_Manifest (detail : string).

Definition RegistrarError_to_string (e : RegistrarError) : string :=
  match e with
  | RegistrarError_Configuration detail => "configuration: " +:+ detail
  | RegistrarError_Database detail => "database: " +:+ detail
  | RegistrarError_Kubernetes detail => "kubernetes: " +:+ detail
  | RegistrarError_Manifest detail => "manifest: " +:+ detail
  end.

(** The trait [ServiceAccountResolver]: the answers during one run *)
Record ServiceAccountResolver := MkServiceAccountResolver {
  resolver_uid : string -> string -> Result RegistrarError string;
}.

(** ** BTreeMap<String, Vec<String>>: in key order, one entry per key *)

Fixpoint btree_insert {V} (k : string) (v : V) (m : list (string * V)) : list (string * V) :=
  match m with
  | [] => [(k, v)]
  | (k', v') :: m' =>
      match String.compare k k' with
      | Lt => (k, v) :: m
      | Eq => (k, v) :: m'
      | Gt => (k', v') :: btree_insert k v m'
      end
  end.

(** ** Reconciliation *)

Section registrar.
Context {P : Platform}.

(** [.map_err(|error| RegistrarError::Database(error.to_string()))] *)
Definition database_error (error : PostgresError) : RegistrarError :=
  RegistrarError_Database (postgres_error_text error).

(** A statement on the kernel's tables *)
Definition on_kernel {A} (f : Tables -> Result PostgresError (A * Tables)) (T : AdminTables) :
  Result PostgresError (A * AdminTables) :=
  '(a, K) ← f (kernel_tables T); Ok (a, with_kernel_tables K T).

Definition upsert_identity (role : Role) (service : ServiceSpec) (clock : Z) (T : AdminTables) :
  Result PostgresError (Z * AdminTables) :=
  id ← cast_uuid (spec_service_id service);
  on_kernel (upsert_identity_sql role id (spec_kind service) (spec_display_name service) clock) T.

Definition upsert_binding (service : ServiceSpec) (namespace service_account uid : string)
  (T : AdminTables) : Result PostgresError (Z * AdminTables) :=
  id ← cast_uuid (spec_service_id service);
  on_kernel (upsert_binding_sql id namespace service_account uid) T.

(** SELECT (set_service_communication_admission(..)).*: the expansion of the row may
    evaluate the call more than once, each time with a new correlation id; the
    outcome is the last column. *)
Fixpoint set_admission_each (id : Uuid) (enabled : bool) (administrator : string) (clock : Z)
  (correlation : Uuid) (more : list Uuid) (T : AdminTables) :
  Result PostgresError (string * AdminTables) :=
  '(outcome, T) ← set_admission id enabled administrator "registrar reconciliation" correlation clock T;
  match more with
  | [] => Ok (outcome, T)
  | next :: more => set_admission_each id enabled administrator clock next more T
  end.

Definition reconcile_admission (service : ServiceSpec) (administrator : string) (clock : Z)
  (correlation : Uuid) (more : list Uuid) (T : AdminTables) :
  Result PostgresError (string * AdminTables) :=
  id ← cast_uuid (spec_service_id service);
  set_admission_each id (spec_communication_enabled service) administrator clock correlation more T.

(** WHERE clause of the count of live grants *)
Definition grant_live (source : Uuid) (grant : GrantSpec) (now : Z) (_ : Uuid) (row : GrantRow) : bool :=
  bool_decide (gr_source_service_id row = source)
  && String.eqb (gr_action row) (spec_action grant) && String.eqb (gr_scope row) (spec_scope grant)
  && bool_decide (gr_destination_service_id row = None) && bool_decide (gr_revoked_at row = None)
  && match gr_valid_until row with None => true | Some until => (now <? until)%Z end.

Definition count_grants (service : ServiceSpec) (grant : GrantSpec) (now : Z) (T : AdminTables) :
  Result PostgresError (Z * AdminTables) :=
  id ← cast_uuid (spec_service_id service);
  Ok (Z.of_nat (length (select (grant_live id grant now) (authority_grants (kernel_tables T)))), T).

Definition create_service_grant (service : ServiceSpec) (grant : GrantSpec) (administrator : string)
  (id correlation : Uuid) (now : Z) (T : AdminTables) : Result PostgresError (unit * AdminTables) :=
  source ← cast_uuid (spec_service_id service);
  artifact ← cast_uuid NO_ARTIFACT_SCHEMA_VERSION;
  permission_policy ← cast_uuid NO_ARTIFACT_PERMISSION_POLICY_SCHEMA_VERSION;
  create_grant id source (spec_action grant) (spec_scope grant) artifact permission_policy None 0 None
    administrator ("registrar grant for " +:+ spec_action grant) correlation now T.

Fixpoint draw_uuids {S E} (n : nat) : Db S E (list Uuid) :=
  match n with
  | O => mret []
  | Datatypes.S n => u ← new_uuid; us ← draw_uuids n; mret (u :: us)
  end.

(** The loop over [service.grants] *)
Fixpoint reconcile_grants (service : ServiceSpec) (administrator : string) (grants : list GrantSpec) :
  Db AdminTables RegistrarError (list string) :=
  match grants with
  | [] => mret []
  | grant :: grants =>
      now ← server_clock;
      count ← autocommit database_error (count_grants service grant now);
      if (0 <? count)%Z then reconcile_grants service administrator grants
      else
        id ← new_uuid;
        correlation ← new_uuid;
        now ← server_clock;
        autocommit database_error (create_service_grant service grant administrator id correlation now);;
        applied ← reconcile_grants service administrator grants;
        mret (("grant " +:+ spec_action grant +:+ " " +:+ spec_scope grant) :: applied)
  end.

Section reconcile.
Context (role : Role) (extra_evaluations : nat) (resolver : ServiceAccountResolver)
  (administrator : string).

Definition reconcile_identity (service : ServiceSpec) :
  Db AdminTables RegistrarError (list string) :=
  clock ← server_clock;
  rows ← autocommit database_error (upsert_identity role service clock);
  mret (if (0 <? rows)%Z then ["identity"] else []).

Definition reconcile_binding (service : ServiceSpec) :
  Db AdminTables RegistrarError (list string) :=
  match spec_namespace service, spec_service_account service with
  | Some namespace, Some service_account =>
      uid ← lift (resolver_uid resolver namespace service_account);
      rows ← autocommit database_error (upsert_binding service namespace service_account uid);
      mret (if (0 <? rows)%Z then ["binding -> " +:+ uid] else [])
  | _, _ => mret []
  end.

Definition show_bool (b : bool) : string := if b then "true" else "false".

Definition reconcile_communication (service : ServiceSpec) :
  Db AdminTables RegistrarError (list string) :=
  clock ← server_clock;
  correlation ← new_uuid;
  more ← draw_uuids extra_evaluations;
  outcome ← autocommit database_error (reconcile_admission service administrator clock correlation more);
  mret (if String.eqb outcome "no_op" then []
        else ["admission=" +:+ show_bool (spec_communication_enabled service)
                +:+ " (" +:+ outcome +:+ ")"]).

(** One pass of the loop of [reconcile] *)
Definition reconcile_service (service : ServiceSpec) : Db AdminTables RegistrarError (list string) :=
  identity ← reconcile_identity service;
  binding ← reconcile_binding service;
  communication ← reconcile_communication service;
  grants ← reconcile_grants service administrator (spec_grants service);
  mret (identity ++ binding ++ communication ++ grants).

Fixpoint reconcile_services (services : list ServiceSpec) (changes : list (string * list string)) :
  Db AdminTables RegistrarError (list (string * list string)) :=
  match services with
  | [] => mret changes
  | service :: services =>
      applied ← reconcile_service service;
      reconcile_services services (btree_insert (spec_display_name service) applied changes)
  end.

Definition reconcile (manifest : Manifest) :
  Db AdminTables RegistrarError (list (string * list string)) :=
  reconcile_services (manifest_services manifest) [].
End reconcile.

(** ** Pruning *)

(** UPDATE service_enrollment_bindings .. WHERE enabled AND NOT (service_id::text = ANY(..))
    RETURNING: the accounts of the disabled bindings *)
Definition binding_unmanaged (managed : list string) (id : Uuid) (row : BindingRow) : bool :=
  seb_enabled row && negb (bool_decide (uuid_print id ∈ managed)).

Definition disabled_row (row : BindingRow) : BindingRow :=
  MkBindingRow (seb_namespace row) (seb_service_account row) (seb_service_account_uid row) false.

Definition disable_bindings_sql (managed : list string) (T : Tables) :
  Result PostgresError (list string * Tables) :=
  Ok ((fun kv => seb_service_account kv.2) <$> select (binding_unmanaged managed) (enrollment_bindings T),
      with_enrollment_bindings
        (map_imap (fun id row => Some (if binding_unmanaged managed id row then disabled_row row else row))
           (enrollment_bindings T)) T).

(** SELECT .. FROM authority_grants WHERE revoked_at IS NULL *)
Definition live_grants (T : Tables) : list (Uuid * GrantRow) :=
  select (fun _ row => bool_decide (gr_revoked_at row = None)) (authority_grants T).

Definition wanted_grants (manifest : Manifest) : list (string * string * string) :=
  service ← manifest_services manifest;
  (fun grant => (spec_service_id service, spec_action grant, spec_scope grant)) <$> spec_grants service.

Definition grant_wanted (wanted : list (string * string * string)) (row : GrantRow) : bool :=
  existsb (fun '(id, action, scope) =>
    String.eqb id (uuid_print (gr_source_service_id row)) && String.eqb action (gr_action row)
    && String.eqb scope (gr_scope row)) wanted.

Definition revoke_by_text (id administrator : string) (correlation : Uuid) (now : Z) (T : AdminTables) :
  Result PostgresError (string * AdminTables) :=
  id ← cast_uuid id;
  revoke_grant id administrator "registrar prune: not present in manifest" correlation now T.

Fixpoint prune_grants (wanted : list (string * string * string)) (administrator : string)
  (live : list (Uuid * GrantRow)) : Db AdminTables RegistrarError (list string) :=
  match live with
  | [] => mret []
  | (id, row) :: live =>
      if grant_wanted wanted row then prune_grants wanted administrator live
      else
        correlation ← new_uuid;
        now ← server_clock;
        autocommit database_error (revoke_by_text (uuid_print id) administrator correlation now);;
        removed ← prune_grants wanted administrator live;
        mret (("grant revoked: " +:+ gr_action row +:+ " " +:+ gr_scope row +:+ " for "
                 +:+ uuid_print (gr_source_service_id row)) :: removed)
  end.

Definition prune (manifest : Manifest) (administrator : string) :
  Db AdminTables RegistrarError (list string) :=
  let managed := spec_service_id <$> manifest_services manifest in
  accounts ← autocommit database_error (on_kernel (disable_bindings_sql managed));
  live ← autocommit database_error (fun T => Ok (live_grants (kernel_tables T), T));
  removed ← prune_grants (wanted_grants manifest) administrator live;
  mret (((fun account => "binding disabled: " +:+ account) <$> accounts) ++ removed).

(** ** The process *)

Section process.
(** [serde_json::Value], [reqwest] and the manifest's decoder *)
Context (Value : Type) (value_get : Value -> string -> option Value)
  (value_as_str : Value -> option string) (from_str : string -> Result string Manifest).

(** A client that trusts one CA: the URL and the bearer token of a GET request *)
Definition HttpClient : Type := string -> string -> Result string (ApiResponse Value).

Record KubernetesResolver := MkKubernetesResolver {
  kubernetes_client : HttpClient;
  kubernetes_api_url : string;
  kubernetes_token : string;
}.

Definition KubernetesResolver_from_env (env : Process HttpClient) :
  Result RegistrarError KubernetesResolver :=
  let api_url := var_or env "KUBERNETES_API_URL" "https://kubernetes.default.svc" in
  let token_path := var_or env "REGISTRAR_TOKEN_PATH"
                      "/var/run/secrets/kubernetes.io/serviceaccount/token" in
  let ca_path := var_or env "KUBERNETES_CA_PATH"
                   "/var/run/secrets/kubernetes.io/serviceaccount/ca.crt" in
  let configuration {A} (prefix : string) : Result string A -> Result RegistrarError A :=
    result_map_err (fun error => RegistrarError_Configuration (prefix +:+ ": " +:+ error)) in
  token ← configuration token_path (process_read_to_string env token_path);
  ca ← configuration ca_path (process_read env ca_path);
  certificate ← configuration "cluster CA" (process_certificate_from_pem env ca);
  client ← configuration "HTTP client" (process_build_client env certificate);
  Ok (MkKubernetesResolver client (trim_end_slashes api_url) (trim token)).

Definition KubernetesResolver_uid (R : KubernetesResolver) (namespace name : string) :
  Result RegistrarError string :=
  let url := kubernetes_api_url R +:+ "/api/v1/namespaces/" +:+ namespace +:+ "/serviceaccounts/"
               +:+ name in
  response ← result_map_err RegistrarError_Kubernetes (kubernetes_client R url (kubernetes_token R));
  if negb (is_success (response_status response))
  then Err (RegistrarError_Kubernetes ("serviceaccount " +:+ namespace +:+ "/" +:+ name +:+ ": HTTP "
                                        +:+ response_status_text response))
  else
    body ← result_map_err RegistrarError_Kubernetes (response_json response);
    ok_or (RegistrarError_Kubernetes ("serviceaccount " +:+ namespace +:+ "/" +:+ name
                                       +:+ " has no metadata.uid"))
      (metadata ← value_get body "metadata"; uid ← value_get metadata "uid"; value_as_str uid).

Definition kubernetes_resolver (R : KubernetesResolver) : ServiceAccountResolver :=
  MkServiceAccountResolver (KubernetesResolver_uid R).

(** [PostgresClient::connect] *)
Definition client_connect : Db AdminTables RegistrarError unit := transaction database_error.

Definition show_count {A} (l : list A) : string := show_i64 (Z.of_nat (length l)).

Definition change_line (entry : string * list string) : string :=
  let '(service, applied) := entry in
  match applied with
  | [] => service +:+ ": already reconciled"
  | _ => service +:+ ": " +:+ String.concat ", " applied
  end.

(** [run]: the lines on standard output of a run that succeeds *)
Definition run (role : Role) (extra_evaluations : nat) (env : Process HttpClient) :
  Db AdminTables RegistrarError (list string) :=
  let configuration name := RegistrarError_Configuration (name +:+ " is not set") in
  database_url ← lift (ok_or (configuration "DATABASE_URL") (process_env_var env "DATABASE_URL"));
  manifest_path ← lift (ok_or (configuration "REGISTRAR_MANIFEST") (process_env_var env "REGISTRAR_MANIFEST"));
  let administrator := var_or env "REGISTRAR_ADMINISTRATOR" DEFAULT_ADMINISTRATOR in
  manifest_text ← lift (result_map_err
    (fun error => RegistrarError_Manifest (manifest_path +:+ ": " +:+ error))
    (process_read_to_string env manifest_path));
  manifest ← lift (result_map_err RegistrarError_Manifest (from_str manifest_text));
  client_connect;;
  resolver ← lift (KubernetesResolver_from_env env);
  let prune_enabled := bool_decide (process_env_var env "REGISTRAR_PRUNE" = Some "true") in
  changes ← reconcile role extra_evaluations (kubernetes_resolver resolver) administrator manifest;
  let changed := List.filter (fun entry => negb (bool_decide (entry.2 = []))) changes in
  let summary := "reconciled " +:+ show_count changes +:+ " service(s), " +:+ show_count changed
                   +:+ " changed" in
  if prune_enabled then
    removed ← prune manifest administrator;
    mret ((change_line <$> changes)
          ++ (if bool_decide (removed = []) then ["prune: nothing to withdraw"] else [])
          ++ ((fun entry => "prune: " +:+ entry) <$> removed)
          ++ [summary +:+ ", " +:+ show_count removed +:+ " withdrawn"])
  else
    mret ((change_line <$> changes)
          ++ [summary +:+ " (prune disabled; set REGISTRAR_PRUNE=true to withdraw what the manifest omits)"]).
End process.
End registrar.

(** ** What a run may change *)

(** What is stored with a grant stays with it. *)
Definition details_kept (T T' : AdminTables) : Prop := forall id,
  is_Some (authority_grants (kernel_tables T) !! id) -> grant_details T' !! id = grant_details T !! id.

(** Inside its role: the tables the role is kept from stay, nothing is deleted, a record
    of admission changes only to a later revision and a grant only by being revoked,
    once, and the audit trails only grow. *)
Record in_role (T T' : AdminTables) : Prop := {
  role_tables : exists i b a g, kernel_tables T' =
    with_identities i (with_enrollment_bindings b
      (with_admission a (with_authority_grants g (kernel_tables T))));
  role_identities id : is_Some (identities (kernel_tables T) !! id) ->
    is_Some (identities (kernel_tables T') !! id);
  role_bindings id : is_Some (enrollment_bindings (kernel_tables T) !! id) ->
    is_Some (enrollment_bindings (kernel_tables T') !! id);
  role_grants id row : authority_grants (kernel_tables T) !! id = Some row ->
    exists row', authority_grants (kernel_tables T') !! id = Some row' /\
      (row' = row \/ gr_revoked_at row = None /\ exists t, row' = revoked_row row t);
  role_admission : admission_kept (kernel_tables T) (kernel_tables T');
  role_details : details_kept T T';
  role_history : admission_history T `prefix_of` admission_history T';
  role_audit : grant_audit T `prefix_of` grant_audit T';
}.

Section relations.
Context {P : Platform}.

(** What the loop grants: for requests without an artifact, without a destination,
    from the beginning and without an end *)
Record registrar_grant (row : GrantRow) : Prop := {
  registrar_grant_artifact :
    uuid_parse NO_ARTIFACT_SCHEMA_VERSION = Some (gr_artifact_schema_version_id row);
  registrar_grant_permission_policy :
    uuid_parse NO_ARTIFACT_PERMISSION_POLICY_SCHEMA_VERSION =
      Some (gr_permission_policy_schema_version_id row);
  registrar_grant_destination : gr_destination_service_id row = None;
  registrar_grant_from : gr_valid_from row = 0%Z;
  registrar_grant_until : gr_valid_until row = None;
  registrar_grant_revoked : gr_revoked_at row = None;
}.

(** What the loop does for the services in [own]: nothing to the others, and it only
    adds grants, live ones of its own. *)
Record reconciles (own : Uuid -> Prop) (T T' : AdminTables) : Prop := {
  reconciles_tables : exists i b a g, kernel_tables T' =
    with_identities i (with_enrollment_bindings b
      (with_admission a (with_authority_grants g (kernel_tables T))));
  reconciles_identities id : (~ own id -> identities (kernel_tables T') !! id =
      identities (kernel_tables T) !! id) /\
    (is_Some (identities (kernel_tables T) !! id) -> is_Some (identities (kernel_tables T') !! id));
  reconciles_bindings id : (~ own id -> enrollment_bindings (kernel_tables T') !! id =
      enrollment_bindings (kernel_tables T) !! id) /\
    (is_Some (enrollment_bindings (kernel_tables T) !! id) ->
     is_Some (enrollment_bindings (kernel_tables T') !! id));
  reconciles_admission id : ~ own id ->
    admission (kernel_tables T') !! id = admission (kernel_tables T) !! id;
  reconciles_records : admission_kept (kernel_tables T) (kernel_tables T');
  reconciles_details : details_kept T T';
  reconciles_kept : authority_grants (kernel_tables T) ⊆ authority_grants (kernel_tables T');
  reconciles_new id row : authority_grants (kernel_tables T') !! id = Some row ->
    authority_grants (kernel_tables T) !! id = None ->
    own (gr_source_service_id row) /\ registrar_grant row;
  reconciles_history : admission_history T `prefix_of` admission_history T';
  reconciles_foreign h : h ∈ admission_history T' -> h ∈ admission_history T \/ own (ah_service_id h);
  reconciles_audit : grant_audit T `prefix_of` grant_audit T';
  reconciles_unique : bindings_unique (kernel_tables T) -> bindings_unique (kernel_tables T');
}.

Lemma same_tables (T : Tables) :
  exists i b a g, T = with_identities i (with_enrollment_bindings b
                        (with_admission a (with_authority_grants g T))).
Proof. by exists (identities T), (enrollment_bindings T), (admission T), (authority_grants T); destruct T. Qed.

Lemma details_kept_trans T1 T2 T3 :
  (forall id, is_Some (authority_grants (kernel_tables T1) !! id) ->
     is_Some (authority_grants (kernel_tables T2) !! id)) ->
  details_kept T1 T2 -> details_kept T2 T3 -> details_kept T1 T3.
Proof. intros Hg H1 H2 id Hid. by rewrite H2, H1 by auto. Qed.

Lemma details_kept_same T T' : grant_details T' = grant_details T -> details_kept T T'.
Proof. intros Heq id _. by rewrite Heq. Qed.

#[export] Instance in_role_preorder : PreOrder in_role.
Proof.
  split.
  - intros T. constructor; try done; [apply same_tables | eauto].
  - intros T1 T2 T3 [(i & b & a & g & HT) Hi Hb Hg Hr Hd Hh Ha]
      [(i' & b' & a' & g' & HT') Hi' Hb' Hg' Hr' Hd' Hh' Ha'].
    constructor; eauto; try by etrans.
    + rewrite HT', HT. by exists i', b', a', g'.
    + intros id row Hrow. destruct (Hg id row Hrow) as (row2 & Hrow2 & Hs).
      destruct (Hg' id row2 Hrow2) as (row3 & Hrow3 & Hs'). exists row3. split; [done|].
      destruct Hs as [->|(Hn & t & ->)]; [done|].
      destruct Hs' as [->|[Hn' _]]; [|done]. right. eauto.
    + apply (details_kept_trans T1 T2 T3); [|done..]. intros id [row (row' & Hr2 & _)%Hg]. eauto.
Qed.

#[export] Instance reconciles_preorder own : PreOrder (reconciles own).
Proof.
  split.
  - intros T. constructor; try done; [apply same_tables | congruence | auto].
  - intros T1 T2 T3 [(i & b & a & g & HT) Hi Hb Ha Hr Hd Hk Hn Hh Hf Hu Hq]
      [(i' & b' & a' & g' & HT') Hi' Hb' Ha' Hr' Hd' Hk' Hn' Hh' Hf' Hu' Hq'].
    constructor; eauto; try by etrans.
    + rewrite HT', HT. by exists i', b', a', g'.
    + intros id. split; [|by intros ?%(proj2 (Hi id))%(proj2 (Hi' id))].
      intros Ho. by rewrite (proj1 (Hi' id) Ho), (proj1 (Hi id) Ho).
    + intros id. split; [|by intros ?%(proj2 (Hb id))%(proj2 (Hb' id))].
      intros Ho. by rewrite (proj1 (Hb' id) Ho), (proj1 (Hb id) Ho).
    + intros id Ho. by rewrite (Ha' id Ho), (Ha id Ho).
    + apply (details_kept_trans T1 T2 T3); [|done..]. intros id [row Hrow].
      exists row. by eapply lookup_weaken.
    + intros id row Hrow Hnone.
      destruct (authority_grants (kernel_tables T2) !! id) as [row2|] eqn:Hrow2; [|by eapply Hn'].
      rewrite (lookup_weaken _ _ _ _ Hrow2 Hk') in Hrow. simplify_eq. by eapply Hn.
    + intros h [Hin|Ho]%Hf'; [by apply Hf | by right].
Qed.

Lemma reconciles_in_role own T T' : reconciles own T T' -> in_role T T'.
Proof.
  intros [HT Hi Hb Ha Hr Hd Hk Hn Hh Hf Hu Hq]. constructor; try done.
  - intros id. apply Hi.
  - intros id. apply Hb.
  - intros id row Hrow. exists row. split; [by eapply lookup_weaken | by left].
Qed.

Lemma reconciles_weaken (own own' : Uuid -> Prop) T T' :
  (forall id, own id -> own' id) -> reconciles own T T' -> reconciles own' T T'.
Proof.
  intros Ho [HT Hi Hb Ha Hr Hd Hk Hn Hh Hf Hu Hq]. constructor; try done.
  - intros id. split; [|apply Hi]. intros Hid. apply Hi. auto.
  - intros id. split; [|apply Hb]. intros Hid. apply Hb. auto.
  - intros id Hid. apply Ha. auto.
  - intros id row Hrow Hnone. destruct (Hn id row Hrow Hnone). auto.
  - intros h [?|?]%Hf; auto.
Qed.

(** The five kinds of change *)
Section changes.
Context (own : Uuid -> Prop) (T : AdminTables) (id : Uuid) (Hown : own id).
Notation K := (kernel_tables T).

Ltac change_step :=
  constructor; simpl; try done; auto;
  try (by apply admission_kept_same); try (by apply details_kept_same);
  try (do 4 eexists; reflexivity);
  try (intros k; split); intros;
  try (rewrite lookup_insert_is_Some'; by right);
  try (rewrite lookup_insert_ne by (intros ->; contradiction); done);
  try congruence.

Lemma identity_change row :
  reconciles own T (with_kernel_tables (with_identities (<[id := row]> (identities K)) K) T).
Proof. change_step. Qed.

Lemma binding_change row :
  binding_free id row K = true ->
  reconciles own T (with_kernel_tables (with_enrollment_bindings (<[id := row]> (enrollment_bindings K)) K) T).
Proof. intros Hfree. change_step. by apply bindings_unique_insert. Qed.

Lemma record_change a :
  (forall k, k <> id -> a !! k = admission K !! k) -> admission_kept K (with_admission a K) ->
  reconciles own T (with_kernel_tables (with_admission a K) T).
Proof. intros Ha Hk. change_step. apply Ha. by intros ->. Qed.

Lemma history_change h :
  (forall r, r ∈ h -> own (ah_service_id r)) ->
  reconciles own T (with_admission_history (admission_history T ++ h) T).
Proof. intros Hh. change_step; [apply same_tables|]. rewrite elem_of_app in *. naive_solver. Qed.

Lemma grant_change gid row d audit :
  authority_grants K !! gid = None -> own (gr_source_service_id row) -> registrar_grant row ->
  reconciles own T (MkAdminTables (with_authority_grants (<[gid := row]> (authority_grants K)) K)
                      (<[gid := d]> (grant_details T))
                      (admission_history T) (grant_audit T ++ [audit])).
Proof.
  intros Hnone Ho Hr. change_step.
  - intros k [r Hk]. simpl. rewrite lookup_insert_ne; [done | intros <-; congruence].
  - by apply insert_subseteq.
  - match goal with H : <[_:=_]> _ !! _ = Some _ |- _ =>
      apply lookup_insert_Some in H as [[_ <-]|[_ H]] end; [done | congruence].
  - match goal with H : <[_:=_]> _ !! _ = Some _ |- _ =>
      apply lookup_insert_Some in H as [[_ <-]|[_ H]] end; [done | congruence].
Qed.
End changes.

(** The identifier a service of the manifest stands for *)
Definition names (service : ServiceSpec) (id : Uuid) : Prop :=
  uuid_parse (spec_service_id service) = Some id.

Lemma cast_uuid_Ok text id : cast_uuid text = Ok id <-> uuid_parse text = Some id.
Proof. unfold cast_uuid. apply ok_or_Ok. Qed.

Lemma on_kernel_Ok {A} (f : Tables -> Result PostgresError (A * Tables)) T a T' :
  on_kernel f T = Ok (a, T') ->
  exists K, f (kernel_tables T) = Ok (a, K) /\ T' = with_kernel_tables K T.
Proof. unfold on_kernel. intros H. result_inv. eauto. Qed.

Lemma with_same_kernel T : with_kernel_tables (kernel_tables T) T = T.
Proof. by destruct T. Qed.

Lemma upsert_identity_step role service clock T n T' :
  upsert_identity role service clock T = Ok (n, T') -> reconciles (names service) T T'.
Proof.
  unfold upsert_identity. intros H. result_inv.
  match goal with H : cast_uuid _ = Ok ?u |- _ => apply cast_uuid_Ok in H as Hu; rename u into id end.
  apply on_kernel_Ok in H as (K & H & ->).
  pose proof (upsert_identity_kept _ _ _ _ _ _ _ _ H) as Hk.
  apply upsert_identity_Ok in H as (_ & _ & [(_ & ->)|[(_ & _ & ->)|(_ & _ & _ & ->)]]).
  - by rewrite with_same_kernel.
  - by apply identity_change.
  - etrans; [apply (identity_change _ _ id Hu (MkIdentityRow (spec_kind service)
      (spec_display_name service) "active"))|].
    eapply (record_change _ (with_kernel_tables _ T) id Hu); [intros k Hne; by rewrite lookup_insert_ne | exact Hk].
Qed.

Lemma upsert_binding_step service ns account uid T n T' :
  upsert_binding service ns account uid T = Ok (n, T') -> reconciles (names service) T T'.
Proof.
  unfold upsert_binding. intros H. result_inv.
  match goal with H : cast_uuid _ = Ok ?u |- _ => apply cast_uuid_Ok in H as Hu; rename u into id end.
  apply on_kernel_Ok in H as (K & H & ->).
  apply upsert_binding_Ok in H as (_ & _ & [(_ & ->)|(_ & Hf & ->)]);
    [by rewrite with_same_kernel | by apply (binding_change _ _ id)].
Qed.

Lemma set_admission_step own service enabled administrator reason correlation at_ T outcome T' :
  own service ->
  set_admission service enabled administrator reason correlation at_ T = Ok (outcome, T') ->
  reconciles own T T'.
Proof.
  intros Ho H. pose proof (set_admission_kept _ _ _ _ _ _ _ _ _ H) as [Hk _].
  apply set_admission_Ok in H as (_ & (h & -> & Hh) & Ha & _). simpl in Ha, Hk.
  etrans; [exact (record_change own T service Ho _ Ha Hk)|].
  apply (history_change own (with_kernel_tables _ T) h). intros r Hr. by rewrite (Hh r Hr).
Qed.

Lemma set_admission_each_step own id enabled administrator clock correlation more T outcome T' :
  own id ->
  set_admission_each id enabled administrator clock correlation more T = Ok (outcome, T') ->
  reconciles own T T'.
Proof.
  intros Ho. revert correlation T. induction more as [|next more IH]; intros correlation T;
    cbn [set_admission_each]; intros H; result_inv;
    match goal with H : set_admission _ _ _ _ _ _ _ = Ok _ |- _ =>
      apply (set_admission_step own) in H as Hstep; [|exact Ho] end; [done|].
  etrans; [exact Hstep | by eapply IH].
Qed.

Lemma create_service_grant_step service grant administrator id correlation now T u T' :
  create_service_grant service grant administrator id correlation now T = Ok (u, T') ->
  reconciles (names service) T T'.
Proof.
  unfold create_service_grant. intros H. result_inv.
  match goal with H : cast_uuid (spec_service_id _) = Ok _ |- _ => apply cast_uuid_Ok in H as Hu end.
  apply create_grant_Ok in H as [[-> _]|(Hn & d & a & ->)]; [done|].
  apply grant_change; [done | done|]. by constructor; try apply cast_uuid_Ok.
Qed.
End relations.

(** ** Histories *)

Section runs.
Context {P : Platform} {HP : PlatformLaws P}.

Lemma draw_uuids_history {S E} (R : relation S) `{!PreOrder R} n :
  history R (draw_uuids (E:=E) n).
Proof. induction n; simpl; db_walk; done. Qed.

Lemma reconcile_grants_history service administrator grants :
  history (reconciles (names service)) (reconcile_grants service administrator grants).
Proof.
  induction grants as [|grant grants IH]; simpl; db_walk; try exact IH.
  - unfold count_grants in *. by result_inv.
  - by eapply create_service_grant_step.
Qed.

Lemma reconcile_identity_history role service :
  history (reconciles (names service)) (reconcile_identity role service).
Proof. unfold reconcile_identity. db_walk. by eapply upsert_identity_step. Qed.

Lemma reconcile_binding_history resolver service :
  history (reconciles (names service)) (reconcile_binding resolver service).
Proof. unfold reconcile_binding. db_walk. by eapply upsert_binding_step. Qed.

Lemma reconcile_communication_history extra administrator service :
  history (reconciles (names service)) (reconcile_communication extra administrator service).
Proof.
  unfold reconcile_communication. db_walk; [apply draw_uuids_history; apply _|].
  unfold reconcile_admission in *. result_inv.
  match goal with H : cast_uuid _ = Ok _ |- _ => apply cast_uuid_Ok in H as Hu end.
  by eapply (set_admission_each_step (names service)).
Qed.

Lemma reconcile_service_history role extra resolver administrator service :
  history (reconciles (names service))
    (reconcile_service role extra resolver administrator service).
Proof.
  unfold reconcile_service. db_walk; [apply reconcile_identity_history
    | apply reconcile_binding_history | apply reconcile_communication_history
    | apply reconcile_grants_history].
Qed.

Lemma history_run {S E A} (R : relation S) (m : Db S E A) c r c' :
  history R m -> m c = (r, c') -> R (durable c) (durable c').
Proof. intros Hm Hc. specialize (Hm c). by rewrite Hc in Hm. Qed.

(** The services of a manifest *)
Definition managed (manifest : Manifest) (id : Uuid) : Prop :=
  exists service, service ∈ manifest_services manifest /\ names service id.

Lemma reconcile_services_history role extra resolver administrator services changes :
  history (reconciles (fun id => exists service, service ∈ services /\ names service id))
    (reconcile_services role extra resolver administrator services changes).
Proof.
  revert changes. induction services as [|service services IH]; intros changes; simpl; db_walk.
  - eapply history_mono; [|apply reconcile_service_history]. intros T T'. apply reconciles_weaken.
    intros id Hid. exists service. split; [left | done].
  - eapply history_mono; [|apply IH]. intros T T'. apply reconciles_weaken.
    intros id (s & Hs & Hid). exists s. split; [by right | done].
Qed.

Lemma reconcile_history role extra resolver administrator manifest :
  history (reconciles (managed manifest)) (reconcile role extra resolver administrator manifest).
Proof. apply reconcile_services_history. Qed.

(** The manifest lists an action in a scope for the service, as PostgreSQL prints it. *)
Definition grant_listed (manifest : Manifest) (row : GrantRow) : Prop :=
  (uuid_print (gr_source_service_id row), gr_action row, gr_scope row) ∈ wanted_grants manifest.

Lemma grant_wanted_listed manifest row :
  grant_wanted (wanted_grants manifest) row = true <-> grant_listed manifest row.
Proof.
  unfold grant_wanted, grant_listed. rewrite existsb_exists. split.
  - intros ([[i a] sc] & Hin & Heq). rewrite !andb_true_iff, !String.eqb_eq in Heq.
    destruct Heq as [[-> ->] ->]. by apply list_elem_of_In.
  - intros Hin%list_elem_of_In. eexists. split; [exact Hin|]. cbv beta iota. by rewrite !String.eqb_refl.
Qed.

Lemma grant_unwanted_unlisted manifest row :
  grant_wanted (wanted_grants manifest) row = false -> ~ grant_listed manifest row.
Proof. intros H Hl%grant_wanted_listed. congruence. Qed.

(** What pruning does: it disables bindings of services that the manifest does not
    spell, and revokes grants that it does not list. *)
Record prunes (manifest : Manifest) (T T' : AdminTables) : Prop := {
  prunes_tables : exists b g, kernel_tables T' =
    with_enrollment_bindings b (with_authority_grants g (kernel_tables T));
  prunes_bindings id :
    enrollment_bindings (kernel_tables T') !! id = enrollment_bindings (kernel_tables T) !! id \/
    exists row, enrollment_bindings (kernel_tables T) !! id = Some row /\
      uuid_print id ∉ spec_service_id <$> manifest_services manifest /\
      enrollment_bindings (kernel_tables T') !! id = Some (disabled_row row);
  prunes_grants id :
    authority_grants (kernel_tables T') !! id = authority_grants (kernel_tables T) !! id \/
    exists row t, authority_grants (kernel_tables T) !! id = Some row /\
      gr_revoked_at row = None /\ ~ grant_listed manifest row /\
      authority_grants (kernel_tables T') !! id = Some (revoked_row row t);
  prunes_details : grant_details T' = grant_details T;
  prunes_history : admission_history T' = admission_history T;
  prunes_audit : grant_audit T `prefix_of` grant_audit T';
}.

#[export] Instance prunes_preorder manifest : PreOrder (prunes manifest).
Proof.
  split.
  - intros T. constructor; auto. by exists (enrollment_bindings (kernel_tables T)),
      (authority_grants (kernel_tables T)); destruct T as [[] ? ? ?].
  - intros T1 T2 T3 [(b & g & HT) Hb Hg Hd Hh Ha] [(b' & g' & HT') Hb' Hg' Hd' Hh' Ha'].
    constructor; [|intros id|intros id|congruence..|by etrans].
    + rewrite HT', HT. by exists b', g'.
    + destruct (Hb' id) as [->|(row2 & Hr2 & Hn & ->)]; [apply Hb|].
      destruct (Hb id) as [<-|(row & Hr & _ & Hr')]; [by right; exists row2|].
      rewrite Hr2 in Hr'. simplify_eq. right. by exists row.
    + destruct (Hg' id) as [->|(row2 & t & Hr2 & Hn & Hw & ->)]; [apply Hg|].
      destruct (Hg id) as [<-|(row & t' & Hr & _ & _ & Hr')]; [by right; exists row2, t|].
      rewrite Hr2 in Hr'. by simplify_eq.
Qed.

Lemma prunes_in_role manifest T T' : prunes manifest T T' -> in_role T T'.
Proof.
  intros [(b & g & HT) Hb Hg Hd Hh Ha]. constructor; try done.
  - rewrite HT. exists (identities (kernel_tables T)), b, (admission (kernel_tables T)), g.
    by destruct T as [[] ? ? ?].
  - intros id. by rewrite HT.
  - intros id Hid. destruct (Hb id) as [->|(row & _ & _ & ->)]; eauto.
  - intros id row Hrow. destruct (Hg id) as [->|(row' & t & Hr & Hn & _ & ->)]; [eauto|].
    rewrite Hrow in Hr. simplify_eq. eauto 6.
  - apply admission_kept_same. by rewrite HT.
  - by apply details_kept_same.
  - by rewrite Hh.
Qed.
(** *** Pruning *)

Lemma with_same_grants T : with_authority_grants (authority_grants T) T = T.
Proof. by destruct T. Qed.
Lemma with_same_bindings T : with_enrollment_bindings (enrollment_bindings T) T = T.
Proof. by destruct T. Qed.

Lemma disable_bindings_prunes manifest T accounts T' :
  on_kernel (disable_bindings_sql (spec_service_id <$> manifest_services manifest)) T = Ok (accounts, T') ->
  prunes manifest T T' /\
  forall id row, enrollment_bindings (kernel_tables T') !! id = Some row -> seb_enabled row = true ->
    uuid_print id ∈ spec_service_id <$> manifest_services manifest.
Proof.
  intros (K & [= <- <-] & ->)%on_kernel_Ok. split.
  - constructor; simpl; auto.
    { eexists _, (authority_grants (kernel_tables T)). by rewrite with_same_grants. }
    intros id.
    rewrite map_lookup_imap. destruct (enrollment_bindings _ !! id) as [row|] eqn:Hrow; [|by left].
    simpl. unfold binding_unmanaged. destruct (seb_enabled row); simpl; [|by left].
    case_bool_decide; [by left|]. right. eauto.
  - simpl. intros id row. rewrite map_lookup_imap.
    destruct (enrollment_bindings _ !! id) as [row0|] eqn:Hrow; [|done]. simpl.
    unfold binding_unmanaged. intros [= <-]. destruct (seb_enabled row0) eqn:He; simpl; [|congruence].
    by case_bool_decide.
Qed.

Lemma revoke_by_text_prunes manifest id row administrator correlation now T outcome T' :
  revoke_by_text (uuid_print id) administrator correlation now T = Ok (outcome, T') ->
  authority_grants (kernel_tables T) !! id = Some row -> gr_revoked_at row = None ->
  grant_wanted (wanted_grants manifest) row = false ->
  prunes manifest T T' /\ authority_grants (kernel_tables T') !! id = Some (revoked_row row now) /\
  enrollment_bindings (kernel_tables T') = enrollment_bindings (kernel_tables T) /\
  forall k, k <> id -> authority_grants (kernel_tables T') !! k = authority_grants (kernel_tables T) !! k.
Proof.
  unfold revoke_by_text, cast_uuid. rewrite uuid_parse_print.
  intros H Hrow Hn Hw%grant_unwanted_unlisted. result_inv.
  rename x into id.
  apply revoke_grant_Ok in H as (row' & a & Hrow' & [[[t Ht] ->]|[_ ->]]); simplify_eq.
  split_and!.
  - constructor; simpl; auto.
    { exists (enrollment_bindings (kernel_tables T)),
        (<[id := revoked_row row' now]> (authority_grants (kernel_tables T))).
      by destruct (kernel_tables T). }
    { intros k. destruct (decide (k = id)) as [->|Hk].
      + rewrite lookup_insert_eq. right. eauto 8.
      + rewrite lookup_insert_ne by done. by left. }
    by apply prefix_app_r.
  - apply lookup_insert_eq.
  - done.
  - intros k Hk. by apply lookup_insert_ne.
Qed.

(** The revocations of a run: every grant on the list is handled. *)
Lemma prune_grants_Ok manifest administrator live c removed c' :
  prune_grants (wanted_grants manifest) administrator live c = (Ok removed, c') ->
  NoDup live.*1 ->
  (forall id row, (id, row) ∈ live ->
     authority_grants (kernel_tables (durable c)) !! id = Some row /\ gr_revoked_at row = None) ->
  prunes manifest (durable c) (durable c') /\
  enrollment_bindings (kernel_tables (durable c')) = enrollment_bindings (kernel_tables (durable c)) /\
  (forall k, k ∉ live.*1 -> authority_grants (kernel_tables (durable c')) !! k =
                           authority_grants (kernel_tables (durable c)) !! k) /\
  forall id row, (id, row) ∈ live -> grant_wanted (wanted_grants manifest) row = false ->
    exists now, authority_grants (kernel_tables (durable c')) !! id = Some (revoked_row row now).
Proof.
  revert c removed. induction live as [|[id row] live IH]; intros c removed H Hnd Hlive.
  - simpl in H. db_inv. split_and!; try done. by intros ? ? ?%elem_of_nil.
  - apply NoDup_cons in Hnd as [Hid Hnd]. cbn [fmap list_fmap fst prune_grants] in *.
    destruct (Hlive id row) as [Hrow Hn]; [left|].
    destruct (grant_wanted (wanted_grants manifest) row) eqn:Hw.
    + destruct (IH _ _ H Hnd) as (IH1 & IH2 & IH3 & IH4); [intros; apply Hlive; by right|].
      split_and!; [done..| |].
      * intros k [_ Hk]%not_elem_of_cons. by apply IH3.
      * intros k r [[= -> ->]|Hin]%elem_of_cons; [congruence | by apply IH4].
    + db_inv. match goal with H : revoke_by_text _ _ _ _ _ = Ok _ |- _ =>
        eapply revoke_by_text_prunes in H as (Hp & Hr & Hb & Hk); [|exact Hrow | exact Hn | exact Hw] end.
      match goal with H : prune_grants _ _ _ _ = (Ok _, _) |- _ =>
        destruct (IH _ _ H Hnd) as (IH1 & IH2 & IH3 & IH4) end.
      { intros k r Hin. resolve_tables. rewrite Hk; [apply Hlive; by right|].
        intros ->. apply Hid. apply list_elem_of_fmap. by exists (id, r). }
      resolve_tables. split_and!.
      * by etrans.
      * by rewrite IH2.
      * intros k [Hki Hkl]%not_elem_of_cons. by rewrite IH3, Hk.
      * intros k r [[= -> ->]|Hin]%elem_of_cons; [|by apply IH4].
        intros _. eexists. by rewrite IH3.
Qed.
Lemma prune_in_role manifest administrator : history in_role (prune manifest administrator).
Proof.
  unfold prune. db_walk.
  - eapply prunes_in_role. by eapply (disable_bindings_prunes manifest).
  - by simplify_eq.
  - match goal with |- history _ (prune_grants _ _ ?l) => generalize l end. intros live.
    induction live as [|[id row] live IH]; simpl; db_walk; try exact IH.
    unfold revoke_by_text, cast_uuid in *. rewrite uuid_parse_print in *. result_inv.
    match goal with H : revoke_grant _ _ _ _ _ _ = Ok _ |- _ =>
      apply revoke_grant_Ok in H as (r & audit & Hr & [[_ ->]|[Hn ->]]) end;
      constructor; simpl; auto using same_tables, admission_kept_same, details_kept_same;
      try by apply prefix_app_r.
    + eauto.
    + exists (identities (kernel_tables T)), (enrollment_bindings (kernel_tables T)),
        (admission (kernel_tables T)),
        (<[x := revoked_row r a2]> (authority_grants (kernel_tables T))). by destruct (kernel_tables T).
    + intros k r' Hk. destruct (decide (k = x)) as [->|Hne].
      * rewrite lookup_insert_eq. simplify_eq. eauto 6.
      * rewrite lookup_insert_ne by done. eauto.
Qed.
End runs.
