(* ===== verification/Constraints.v ===== *)
(** * Constraints: the CHECK, UNIQUE and REFERENCES rules of the migrations

    Each statement of the model decides for itself when PostgreSQL turns it down. Here
    the rules are written once more, table by table as [src/migrations/] declares them,
    as a predicate on the tables, and every statement of the kernel is shown to keep
    it. Rules that a type of the model has built in (NOT NULL, a primary key, a
    boolean) are not repeated. *)

From S2P Require Import Prelude Text Platform Database Schema Identity InstanceKeys.
From S2P Require Import InstanceRegistry ReplayProtection RequestNames Authority PostgresAuthority.
From S2P Require Import Subscriptions Requests WorkClaims Handshakes Enrollment.
From Stdlib Require Import Ascii.

(** ** Rules *)

(** REFERENCES on a column that may be NULL *)
Definition refers `{Countable K} {V} (table : gmap K V) (column : option K) : Prop :=
  match column with Some k => is_Some (table !! k) | None => True end.

(** UNIQUE on the columns that [f] selects; a row for which it selects none is not in
    the index, as with WHERE. *)
Definition unique_by `{Countable K} {V B} (f : V -> option B) (table : gmap K V) : Prop :=
  forall k k' row row' b, table !! k = Some row -> table !! k' = Some row' ->
    f row = Some b -> f row' = Some b -> k = k'.

(** CHECK on a column that may be NULL *)
Definition unless_null {A} (p : A -> Prop) (column : option A) : Prop :=
  match column with Some a => p a | None => True end.

Definition is_digest (b : bytes) : Prop := octet_length b = 32%Z.

(** [0001] *)
Definition identity_ok (T : Tables) (_ : Uuid) (row : IdentityRow) : Prop :=
  id_kind row ∈ ["service"; "worker"] /\
  (1 <= chars_count (btrim (id_display_name row)) <= 200)%Z /\
  id_status row ∈ ["active"; "disabled"].

(** [0002] *)
Definition instance_ok (T : Tables) (_ : Uuid) (row : InstanceRow) : Prop :=
  is_Some (identities T !! si_service_id row) /\
  (1 <= chars_count (si_endpoint row) <= 2048)%Z /\
  starts_with "https://" (si_endpoint row) = true /\ (0 <= si_registered_at row)%Z /\
  (0 < si_lease_revision row)%Z /\ (si_registered_at row < si_lease_expires_at row)%Z /\
  unless_null (Z.le (si_registered_at row)) (si_revoked_at row).

Definition instance_key_ok (T : Tables) (_ : Uuid) (row : InstanceKeyRow) : Prop :=
  is_Some (service_instances T !! sik_instance_id row) /\ sik_algorithm row = "ed25519" /\
  octet_length (sik_public_key row) = 32%Z /\ is_digest (sik_fingerprint row) /\
  (0 <= sik_valid_from row)%Z /\ unless_null (Z.le (sik_valid_from row)) (sik_revoked_at row).

Definition registry_audit_ok (row : RegistryAuditRow) : Prop :=
  sira_action row ∈ ["registered"; "renewed"; "revoked"] /\ (0 < sira_lease_revision row)%Z /\
  (0 <= sira_recorded_at row)%Z.

(** [0003] *)
Definition binding_ok (T : Tables) (id : Uuid) (row : BindingRow) : Prop :=
  is_Some (identities T !! id) /\ enrollment_name_ok (seb_namespace row) = true /\
  enrollment_name_ok (seb_service_account row) = true /\
  enrollment_name_ok (seb_service_account_uid row) = true.

Definition enrollment_challenge_ok (T : Tables) (digest : bytes) (row : EnrollmentChallengeRow) : Prop :=
  is_digest digest /\ is_Some (identities T !! sec_service_id row) /\ (0 <= sec_expires_at row)%Z /\
  unless_null (Z.le 0) (sec_consumed_at row).

(** [0004], [0015] *)
Definition subscription_ok (T : Tables) (_ : Uuid) (row : SubscriptionRow) : Prop :=
  is_Some (identities T !! sub_service_id row) /\ event_type_check (sub_event_type row) = true /\
  (0 <= sub_created_at row)%Z /\ unless_null (Z.le (sub_created_at row)) (sub_disabled_at row) /\
  sub_delivery_mode row = "inclusive".

Definition subscription_audit_ok (row : SubscriptionAuditRow) : Prop :=
  suba_action row ∈ ["created"; "disabled"] /\ (0 <= suba_recorded_at row)%Z.

(** [0005] *)
Definition handshake_challenge_ok (T : Tables) (digest : bytes) (row : HandshakeChallengeRow) : Prop :=
  is_digest digest /\ is_Some (service_instances T !! hc_target_instance_id row) /\
  is_Some (service_instance_keys T !! hc_target_key_id row) /\ (0 <= hc_issued_at row)%Z /\
  (hc_issued_at row < hc_expires_at row)%Z /\ unless_null (Z.le (hc_issued_at row)) (hc_consumed_at row).

Definition handshake_ok (T : Tables) (digest : bytes) (row : HandshakeRow) : Prop :=
  is_Some (handshake_challenges T !! digest) /\
  is_Some (service_instances T !! hs_target_instance_id row) /\
  is_Some (service_instance_keys T !! hs_target_key_id row) /\ (0 <= hs_verified_at row)%Z /\
  (hs_verified_at row < hs_expires_at row)%Z.

Definition handshake_audit_ok (row : HandshakeAuditRow) : Prop :=
  is_digest (hsa_challenge_digest row) /\ hsa_action row ∈ ["issued"; "verified"] /\
  (0 <= hsa_recorded_at row)%Z.

(** [0006] *)
Definition request_id_ok (T : Tables) (key : Uuid * Uuid) (row : RequestIdRow) : Prop :=
  is_Some (identities T !! key.1) /\ is_digest (ri_request_fingerprint row) /\
  (0 <= ri_first_seen_at row)%Z.

Definition nonce_ok (T : Tables) (key : Uuid * bytes) (row : NonceRow) : Prop :=
  is_Some (service_instance_keys T !! key.1) /\ is_digest key.2 /\
  is_Some (identities T !! rn_service_id row) /\
  is_Some (service_instances T !! rn_instance_id row) /\ is_digest (rn_request_fingerprint row) /\
  (0 <= rn_signature_created row)%Z /\ (0 <= rn_reserved_at row)%Z /\
  (rn_signature_created row < rn_signature_expires row)%Z.

Definition replay_audit_ok (row : ReplayAuditRow) : Prop :=
  is_digest (ra_nonce_digest row) /\ is_digest (ra_request_fingerprint row) /\
  ra_outcome row ∈ ["fresh"; "safe_retry"; "replay_rejected"; "request_conflict_rejected"] /\
  (0 <= ra_recorded_at row)%Z.

(** [0007] *)
Definition admission_ok (T : Tables) (id : Uuid) (row : AdmissionRow) : Prop :=
  is_Some (identities T !! id) /\ (0 <= adm_revision row)%Z /\ (0 <= adm_updated_at row)%Z.

(** [0008], [0014] *)
Definition accepted_request_ok (T : Tables) (key : Uuid * Uuid) (row : AcceptedRequestRow) : Prop :=
  is_Some (identities T !! key.1) /\ dotted_name_check (ar_action row) = true /\
  scope_check (ar_scope row) = true /\ is_digest (ar_semantic_fingerprint row) /\
  is_Some (schema_versions T !! ar_artifact_schema_version_id row) /\
  is_Some (schema_versions T !! ar_permission_policy_schema_version_id row).

Definition acceptance_audit_ok (T : Tables) (row : AcceptanceAuditRow) : Prop :=
  is_digest (aa_attempted_fingerprint row) /\
  aa_outcome row ∈ ["accepted"; "safe_retry"; "request_conflict_rejected"] /\
  is_Some (accepted_requests T !! (aa_source_service_id row, aa_request_id row)).

(** [0009], [0012], [0019] *)
Definition grant_ok (T : Tables) (_ : Uuid) (row : GrantRow) : Prop :=
  is_Some (identities T !! gr_source_service_id row) /\ dotted_name_check (gr_action row) = true /\
  scope_check (gr_scope row) = true /\ refers (identities T) (gr_destination_service_id row) /\
  (0 <= gr_valid_from row)%Z /\ unless_null (Z.lt (gr_valid_from row)) (gr_valid_until row) /\
  is_Some (schema_versions T !! gr_artifact_schema_version_id row) /\
  is_Some (schema_versions T !! gr_permission_policy_schema_version_id row) /\
  unless_null (Z.le 0) (gr_revoked_at row).

(** [0010] *)
Definition schema_version_ok (T : Tables) (_ : Uuid) (row : SchemaVersionRow) : Prop :=
  sv_kind row ∈ ["artifact"; "permission_policy"] /\ dotted_name_check (sv_name row) = true /\
  (1 <= sv_version row)%Z /\ is_Some (identities T !! sv_owner_service_id row) /\
  is_digest (sv_content_digest row) /\ refers (schema_versions T) (sv_predecessor_id row) /\
  (0 <= sv_published_at row)%Z /\
  sv_status row ∈ ["published"; "active"; "suspended"; "superseded"; "retired"].

(** [0011], [0013] *)
Definition decision_ok (T : Tables) (_ : Uuid) (row : DecisionRow) : Prop :=
  is_Some (identities T !! dec_source_service_id row) /\ dotted_name_check (dec_action row) = true /\
  scope_check (dec_scope row) = true /\ refers (identities T) (dec_destination_service_id row) /\
  dec_verdict row ∈ ["allow"; "deny"] /\ is_Some (identities T !! dec_evaluator_service_id row) /\
  (0 <= dec_decided_at row)%Z /\ is_Some (schema_versions T !! dec_artifact_schema_version_id row) /\
  is_Some (schema_versions T !! dec_permission_policy_schema_version_id row).

(** [0016] *)
Definition route_ok (T : Tables) (_ : Uuid) (row : RouteRow) : Prop :=
  is_Some (accepted_requests T !! (rr_source_service_id row, rr_request_id row)) /\
  is_Some (subscriptions T !! rr_subscription_id row) /\
  is_Some (identities T !! rr_destination_service_id row) /\ (0 <= rr_created_at row)%Z.

(** [0017] *)
Definition claim_ok (T : Tables) (_ : Uuid) (row : WorkClaimRow) : Prop :=
  is_Some (request_routes T !! wc_route_id row) /\ is_Some (identities T !! wc_worker_service_id row) /\
  is_Some (service_instances T !! wc_worker_instance_id row) /\ work_claim_row_check row = Ok tt.

(** Every rule holds. *)
Record consistent (T : Tables) : Prop := {
  c_identities : map_Forall (identity_ok T) (identities T);
  c_instances : map_Forall (instance_ok T) (service_instances T);
  c_instance_keys : map_Forall (instance_key_ok T) (service_instance_keys T);
  c_key_instance : unique_by (fun row => Some (sik_instance_id row)) (service_instance_keys T);
  c_key_fingerprint : unique_by (fun row => Some (sik_fingerprint row)) (service_instance_keys T);
  c_registry_audit : Forall registry_audit_ok (registry_audit T);
  c_bindings : map_Forall (binding_ok T) (enrollment_bindings T);
  c_binding_workload : unique_by (fun row =>
    Some (seb_namespace row, seb_service_account row, seb_service_account_uid row)) (enrollment_bindings T);
  c_enrollment_challenges : map_Forall (enrollment_challenge_ok T) (enrollment_challenges T);
  c_subscriptions : map_Forall (subscription_ok T) (subscriptions T);
  c_one_active : unique_by (fun row => match sub_disabled_at row with
    | None => Some (sub_service_id row, sub_event_type row) | Some _ => None end) (subscriptions T);
  c_subscription_audit : Forall subscription_audit_ok (subscription_audit T);
  c_handshake_challenges : map_Forall (handshake_challenge_ok T) (handshake_challenges T);
  c_handshakes : map_Forall (handshake_ok T) (handshakes T);
  c_handshake_audit : Forall handshake_audit_ok (handshake_audit T);
  c_request_ids : map_Forall (request_id_ok T) (request_ids T);
  c_nonces : map_Forall (nonce_ok T) (request_nonces T);
  c_replay_audit : Forall replay_audit_ok (replay_audit T);
  c_admission : map_Forall (admission_ok T) (admission T);
  c_accepted : map_Forall (accepted_request_ok T) (accepted_requests T);
  c_acceptance_audit : Forall (acceptance_audit_ok T) (acceptance_audit T);
  c_grants : map_Forall (grant_ok T) (authority_grants T);
  c_versions : map_Forall (schema_version_ok T) (schema_versions T);
  c_version_number : unique_by (fun row => Some (sv_kind row, sv_name row, sv_version row))
    (schema_versions T);
  c_decisions : map_Forall (decision_ok T) (authority_decisions T);
  c_routes : map_Forall (route_ok T) (request_routes T);
  c_route_match : unique_by (fun row => Some (rr_request_id row, rr_subscription_id row))
    (request_routes T);
  c_claims : map_Forall (claim_ok T) (work_claims T);
  c_claim_token : unique_by (fun row => Some (wc_route_id row, wc_fencing_token row)) (work_claims T);
  c_claim_active : unique_by (fun row =>
    if String.eqb (wc_status row) "active" then Some (wc_route_id row) else None) (work_claims T);
}.

(** ** Rules and growing tables *)

(** The keys that are referred to stay. *)
Record keys_kept (T T' : Tables) : Prop := {
  kept_identities k : is_Some (identities T !! k) -> is_Some (identities T' !! k);
  kept_instances k : is_Some (service_instances T !! k) -> is_Some (service_instances T' !! k);
  kept_instance_keys k : is_Some (service_instance_keys T !! k) -> is_Some (service_instance_keys T' !! k);
  kept_handshake_challenges k :
    is_Some (handshake_challenges T !! k) -> is_Some (handshake_challenges T' !! k);
  kept_subscriptions k : is_Some (subscriptions T !! k) -> is_Some (subscriptions T' !! k);
  kept_accepted k : is_Some (accepted_requests T !! k) -> is_Some (accepted_requests T' !! k);
  kept_versions k : is_Some (schema_versions T !! k) -> is_Some (schema_versions T' !! k);
  kept_routes k : is_Some (request_routes T !! k) -> is_Some (request_routes T' !! k);
}.

#[export] Instance keys_kept_preorder : PreOrder keys_kept.
Proof. split; [done|]. intros T1 T2 T3 [] []. constructor; auto. Qed.

(** A rule that the growth of other tables cannot break *)
Class Stable {V} (F : Tables -> V -> Prop) : Prop :=
  stable T T' v : keys_kept T T' -> F T v -> F T' v.

(** A rule on the rows of a table, as one on pairs *)
Notation row_rule F := (fun T kv => F T kv.1 kv.2) (only parsing).

Lemma refers_stable `{Countable K} {V} (m m' : gmap K V) c :
  (forall k, is_Some (m !! k) -> is_Some (m' !! k)) -> refers m c -> refers m' c.
Proof. destruct c; simpl; auto. Qed.

Ltac solve_stable :=
  intros T T' [k row] []; cbn beta iota delta [fst snd]; naive_solver eauto using refers_stable.

#[export] Instance identity_stable : Stable (row_rule identity_ok).
Proof. unfold identity_ok. solve_stable. Qed.
#[export] Instance instance_stable : Stable (row_rule instance_ok).
Proof. unfold instance_ok. solve_stable. Qed.
#[export] Instance instance_key_stable : Stable (row_rule instance_key_ok).
Proof. unfold instance_key_ok. solve_stable. Qed.
#[export] Instance binding_stable : Stable (row_rule binding_ok).
Proof. unfold binding_ok. solve_stable. Qed.
#[export] Instance enrollment_challenge_stable : Stable (row_rule enrollment_challenge_ok).
Proof. unfold enrollment_challenge_ok. solve_stable. Qed.
#[export] Instance subscription_stable : Stable (row_rule subscription_ok).
Proof. unfold subscription_ok. solve_stable. Qed.
#[export] Instance handshake_challenge_stable : Stable (row_rule handshake_challenge_ok).
Proof. unfold handshake_challenge_ok. solve_stable. Qed.
#[export] Instance handshake_stable : Stable (row_rule handshake_ok).
Proof. unfold handshake_ok. solve_stable. Qed.
#[export] Instance request_id_stable : Stable (row_rule request_id_ok).
Proof. unfold request_id_ok. solve_stable. Qed.
#[export] Instance nonce_stable : Stable (row_rule nonce_ok).
Proof. unfold nonce_ok. solve_stable. Qed.
#[export] Instance admission_stable : Stable (row_rule admission_ok).
Proof. unfold admission_ok. solve_stable. Qed.
#[export] Instance accepted_request_stable : Stable (row_rule accepted_request_ok).
Proof. unfold accepted_request_ok. solve_stable. Qed.
#[export] Instance acceptance_audit_stable : Stable acceptance_audit_ok.
Proof. intros T T' row [] (? & ? & ?). split_and!; auto. Qed.
#[export] Instance grant_stable : Stable (row_rule grant_ok).
Proof. unfold grant_ok. solve_stable. Qed.
#[export] Instance schema_version_stable : Stable (row_rule schema_version_ok).
Proof. unfold schema_version_ok. solve_stable. Qed.
#[export] Instance decision_stable : Stable (row_rule decision_ok).
Proof. unfold decision_ok. solve_stable. Qed.
#[export] Instance route_stable : Stable (row_rule route_ok).
Proof. unfold route_ok. solve_stable. Qed.
#[export] Instance claim_stable : Stable (row_rule claim_ok).
Proof. unfold claim_ok. solve_stable. Qed.

Section tables.
Context `{Countable K} {V : Type}.
Implicit Types m : gmap K V.

Lemma table_kept (F : Tables -> K -> V -> Prop) `{!Stable (row_rule F)} T T' m :
  keys_kept T T' -> map_Forall (F T) m -> map_Forall (F T') m.
Proof. intros Hk Hm k row Hrow. apply (stable (F := row_rule F) T T' (k, row) Hk). by apply Hm. Qed.

Lemma table_insert (F : Tables -> K -> V -> Prop) `{!Stable (row_rule F)} T T' m k row :
  keys_kept T T' -> map_Forall (F T) m -> F T k row -> map_Forall (F T') (<[k := row]> m).
Proof.
  intros Hk Hm Hrow. apply map_Forall_insert_2; [|by eapply table_kept].
  by apply (stable (F := row_rule F) T T' (k, row) Hk).
Qed.

Lemma list_kept (F : Tables -> V -> Prop) `{!Stable F} T T' l :
  keys_kept T T' -> Forall (F T) l -> Forall (F T') l.
Proof. intros Hk Hl. eapply Forall_impl; [exact Hl|]. intros row. by apply stable. Qed.

Context {B : Type}.
Implicit Types f : V -> option B.

(** Nothing else in the index has the columns of a new row. *)
Lemma unique_insert f m k row :
  unique_by f m ->
  (forall k' row' b, m !! k' = Some row' -> f row = Some b -> f row' = Some b -> k' = k) ->
  unique_by f (<[k := row]> m).
Proof.
  intros Hu Hn k1 k2 r1 r2 b. rewrite !lookup_insert_Some.
  intros [[<- <-]|[_ H1]] [[<- <-]|[_ H2]] Hf1 Hf2; [done | | by eapply Hn | by eapply Hu].
  symmetry. by eapply Hn.
Qed.

(** A row that keeps its columns, or leaves the index *)
Lemma unique_update f m k old row :
  unique_by f m -> m !! k = Some old -> (f row = f old \/ f row = None) ->
  unique_by f (<[k := row]> m).
Proof.
  intros Hu Hold Hrow. apply unique_insert; [done|]. intros k' row' b Hk' Hf Hf'.
  destruct Hrow as [Heq|]; [|congruence]. rewrite Heq in Hf. by eapply Hu.
Qed.

Lemma refers_insert (table : gmap K V) k row column :
  refers table column -> refers (<[k := row]> table) column.
Proof. apply refers_stable. intros k'. rewrite lookup_insert_is_Some'. auto. Qed.
End tables.

(** A query for the rows with the columns of a new row finds none. *)
Lemma select_empty `{Countable K} {V} (f : K -> V -> bool) (table : gmap K V) k row :
  select f table = [] -> table !! k = Some row -> f k row = false.
Proof.
  intros He Hrow. destruct (f k row) eqn:Hf; [|done].
  destruct (not_elem_of_nil (k, row)). rewrite <-He. by apply select_In.
Qed.

(** ** The statements of the kernel *)

#[local] Notation keeps := (preserves consistent).

(** Makes facts of the guards of a statement that went through. *)
Ltac guard_facts :=
  result_inv;
  repeat match goal with
  | H : require _ _ = Ok _ |- _ => apply require_Ok in H
  | H : references _ _ _ = Ok _ |- _ => apply references_Ok in H
  end;
  repeat match goal with
  | H : (_ && _)%bool = true |- _ => apply andb_true_iff in H as [? ?]
  | H : bool_decide _ = true |- _ => apply bool_decide_eq_true in H
  | H : (_ =? _)%Z = true |- _ => apply Z.eqb_eq in H
  | H : (_ <=? _)%Z = true |- _ => apply Z.leb_le in H
  | H : (_ <? _)%Z = true |- _ => apply Z.ltb_lt in H
  | H : String.eqb _ _ = true |- _ => apply String.eqb_eq in H
  end.

Ltac keys_step :=
  constructor; simpl; intros ?; rewrite ?lookup_insert_is_Some'; tauto.

(** The rules of a row *)
Ltac row_step :=
  repeat match goal with
  | |- context [identity_ok] => unfold identity_ok
  | |- context [instance_ok] => unfold instance_ok
  | |- context [instance_key_ok] => unfold instance_key_ok
  | |- context [binding_ok] => unfold binding_ok
  | |- context [enrollment_challenge_ok] => unfold enrollment_challenge_ok
  | |- context [subscription_ok] => unfold subscription_ok
  | |- context [handshake_challenge_ok] => unfold handshake_challenge_ok
  | |- context [handshake_ok] => unfold handshake_ok
  | |- context [request_id_ok] => unfold request_id_ok
  | |- context [nonce_ok] => unfold nonce_ok
  | |- context [admission_ok] => unfold admission_ok
  | |- context [accepted_request_ok] => unfold accepted_request_ok
  | |- context [grant_ok] => unfold grant_ok
  | |- context [schema_version_ok] => unfold schema_version_ok
  | |- context [decision_ok] => unfold decision_ok
  | |- context [route_ok] => unfold route_ok
  | |- context [claim_ok] => unfold claim_ok
  | |- context [is_digest] => unfold is_digest
  end;
  cbn [fst snd]; simpl; split_and!; simpl;
  try first [done | lia | assumption | match goal with |- _ ∈ _ => set_solver end].

(** The tables after a statement: those that it leaves alone keep their rules because
    no key is lost; of the one that it changes the rules of the new row and the unique
    columns are left to show. *)
Ltac keeps_step H :=
  let Hk := fresh "Hk" in
  destruct H;
  match goal with |- consistent ?T' =>
    match goal with _ : map_Forall (identity_ok ?T) _ |- _ =>
      assert (keys_kept T T') as Hk by keys_step end end;
  constructor; simpl;
  first
    [ assumption
    | eapply table_kept; [apply _ | exact Hk | assumption]
    | eapply list_kept; [apply _ | exact Hk | assumption]
    | eapply table_insert; [apply _ | exact Hk | assumption | solve [row_step]]
    | apply Forall_app_2; [assumption || (eapply list_kept; [apply _ | exact Hk | assumption])
                          | apply Forall_singleton]
    | idtac ].

Lemma keeps_insert_nonce k n row T a T' : insert_nonce_sql k n row T = Ok (a, T') -> keeps T T'.
Proof.
  unfold insert_nonce_sql. intros H Hc. guard_facts.
  destruct (request_nonces T !! _); guard_facts; [done|]. keeps_step Hc.
Qed.

Lemma keeps_insert_request_id s i f t T a T' :
  insert_request_id_sql s i f t T = Ok (a, T') -> keeps T T'.
Proof.
  unfold insert_request_id_sql. intros H Hc. guard_facts.
  destruct (request_ids T !! _); guard_facts; [done|]. keeps_step Hc.
Qed.

Lemma keeps_select_fingerprint s i T f T' : select_fingerprint_sql s i T = Ok (f, T') -> keeps T T'.
Proof. by intros [-> _]%select_fingerprint_Ok. Qed.

Lemma keeps_replay_audit row T a T' : insert_replay_audit_sql row T = Ok (a, T') -> keeps T T'.
Proof. unfold insert_replay_audit_sql. intros H Hc. guard_facts. keeps_step Hc. row_step. Qed.

Lemma keeps_insert_subscription id s e m t T n T' :
  insert_subscription_sql id s e m t T = Ok (n, T') -> keeps T T'.
Proof.
  unfold insert_subscription_sql. intros H Hc. guard_facts. keeps_step Hc.
  apply unique_insert; [done|]. intros k row b Hrow [= <-] Hf.
  match goal with H : active_subscriptions _ _ _ = [] |- _ => apply (select_empty _ _ _ _ H) in Hrow end.
  destruct (sub_disabled_at row); [done|]. injection Hf as <- <-.
  by rewrite bool_decide_true, String.eqb_refl in Hrow.
Qed.

Lemma keeps_disable_subscription id s t T o T' :
  disable_subscription_sql id s t T = Ok (o, T') -> keeps T T'.
Proof.
  unfold disable_subscription_sql. destruct (subscriptions T !! id) as [row|] eqn:Hrow;
    [|intros [= _ <-]; done].
  destruct (_ && _) eqn:Hb; intros [= _ <-] Hc; [|done]. guard_facts.
  pose proof (c_subscriptions _ Hc id row Hrow) as (? & ? & ? & ? & ?).
  keeps_step Hc. eapply unique_update; [done | done | by right].
Qed.

Lemma keeps_subscription_audit row T n T' : insert_subscription_audit_sql row T = Ok (n, T') -> keeps T T'.
Proof. unfold insert_subscription_audit_sql. intros H Hc. guard_facts. keeps_step Hc. done. Qed.

Lemma keeps_insert_accepted_request source id row T o T' :
  insert_accepted_request_sql source id row T = Ok (o, T') -> keeps T T'.
Proof.
  unfold insert_accepted_request_sql. intros H Hc. guard_facts. case_bool_decide; guard_facts; [done|].
  keeps_step Hc.
Qed.

Lemma keeps_acceptance_audit row T n T' : insert_acceptance_audit_sql row T = Ok (n, T') -> keeps T T'.
Proof. unfold insert_acceptance_audit_sql. intros H Hc. guard_facts. keeps_step Hc. done. Qed.

Lemma keeps_insert_route id row T o T' : insert_route_sql id row T = Ok (o, T') -> keeps T T'.
Proof.
  unfold insert_route_sql. intros H Hc. guard_facts. case_bool_decide as Hm; guard_facts; [done|].
  keeps_step Hc.
  apply unique_insert; [done|]. intros k row' b Hrow [= <-] [= Hr Hs].
  assert (routes_of_match (rr_request_id row) (rr_subscription_id row) T = []) as He
    by (by destruct (routes_of_match _ _ _); [|destruct Hm]).
  apply (select_empty _ _ _ _ He) in Hrow. by rewrite Hr, Hs, !bool_decide_true in Hrow.
Qed.

Lemma keeps_insert_decision id row T n T' : insert_decision_sql id row T = Ok (n, T') -> keeps T T'.
Proof.
  unfold insert_decision_sql. intros H Hc. guard_facts.
  assert (refers (identities T) (dec_destination_service_id row)).
  { unfold refers. destruct (dec_destination_service_id row); by guard_facts. }
  keeps_step Hc.
Qed.

Lemma keeps_publish id k n o d t T kv T' :
  publish_schema_version_sql id k n o d t T = Ok (kv, T') -> keeps T T'.
Proof.
  unfold publish_schema_version_sql. intros H Hc. cbv zeta in H.
  apply result_bind_Ok in H as ([number previous] & Hprev & H). guard_facts.
  assert (refers (schema_versions T) previous) as Hrefers.
  { destruct (latest _ _) as [[id' row']|] eqn:Hl; guard_facts; [|done].
    apply latest_Some in Hl as [Hin _]. apply select_In in Hin as [Hrow _]. by exists row'. }
  keeps_step Hc.
  apply unique_insert; [done|]. intros k' row' b Hrow [= <-] [= Hk' Hn' Hv].
  match goal with H : negb (existsb _ _) = true |- _ => apply negb_true_iff in H; rename H into Hno end.
  exfalso. apply not_true_iff_false in Hno. apply Hno, existsb_exists. exists (k', row').
  rewrite <-list_elem_of_In. unfold versions_of. rewrite select_In, Hk', Hn', !String.eqb_refl.
  by rewrite <-Hv, Z.eqb_refl.
Qed.

Lemma keeps_renew_instance i e n l T a T' : renew_instance_sql i e n l T = Ok (a, T') -> keeps T T'.
Proof.
  unfold renew_instance_sql. destruct (service_instances T !! i) as [row|] eqn:Hrow;
    [|intros [= _ <-]; done].
  destruct (_ && _) eqn:Hb; intros H Hc; guard_facts; [|done].
  pose proof (c_instances _ Hc i row Hrow) as (? & ? & ? & ? & ? & ? & ?). keeps_step Hc.
Qed.

Lemma keeps_insert_instance i s e r l v T a T' :
  insert_instance_sql i s e r l v T = Ok (a, T') -> keeps T T'.
Proof. unfold insert_instance_sql. intros H Hc. guard_facts. keeps_step Hc. Qed.

Lemma keeps_insert_instance_key k i g p f v T a T' :
  insert_instance_key_sql k i g p f v T = Ok (a, T') -> keeps T T'.
Proof.
  unfold insert_instance_key_sql. intros H Hc. guard_facts. keeps_step Hc;
    (apply unique_insert; [done|]; intros k' row b Hrow [= <-] [= Heq]; exfalso).
  - match goal with H : key_of_instance _ _ = None |- _ => unfold key_of_instance in H;
      destruct (select _ _) eqn:Hs in H; [|done] end.
    apply (select_empty _ _ _ _ Hs) in Hrow. by rewrite Heq, bool_decide_true in Hrow.
  - match goal with H : select _ _ = [] |- _ => apply (select_empty _ _ _ _ H) in Hrow end.
    by rewrite Heq, bool_decide_true in Hrow.
Qed.

Lemma keeps_registry_audit s i k a l t T n T' :
  insert_registry_audit_sql s i k a l t T = Ok (n, T') -> keeps T T'.
Proof. unfold insert_registry_audit_sql. intros H Hc. guard_facts. keeps_step Hc. done. Qed.

Lemma keeps_query_one_instance {P : Platform} i T row T' :
  query_one_instance i T = Ok (row, T') -> keeps T T'.
Proof. by intros [-> _]%query_one_instance_Ok. Qed.

Lemma keeps_revoke_instance i t T n T' : revoke_instance_sql i t T = Ok (n, T') -> keeps T T'.
Proof.
  unfold revoke_instance_sql. destruct (service_instances T !! i) as [row|] eqn:Hrow;
    [|intros [= _ <-]; done].
  destruct (_ && _) eqn:Hb; intros H Hc; guard_facts; [|done].
  pose proof (c_instances _ Hc i row Hrow) as (? & ? & ? & ? & ? & ? & ?). keeps_step Hc.
Qed.

Lemma keeps_revoke_instance_key i t T n T' : revoke_instance_key_sql i t T = Ok (n, T') -> keeps T T'.
Proof.
  unfold revoke_instance_key_sql. destruct (key_of_instance i T) as [[k row]|] eqn:Hkey;
    [|intros [= _ <-]; done].
  unfold key_of_instance in Hkey. apply head_Some_elem_of, select_In in Hkey as [Hrow _].
  case_bool_decide as Hn; intros H Hc; guard_facts; [|done].
  pose proof (c_instance_keys _ Hc k row Hrow) as (? & ? & ? & ? & ? & ?).
  keeps_step Hc; by (eapply unique_update; [done | done | left]).
Qed.

Lemma keeps_insert_challenge d s e T a T' :
  insert_enrollment_challenge_sql d s e T = Ok (a, T') -> keeps T T'.
Proof. unfold insert_enrollment_challenge_sql. intros H Hc. guard_facts. keeps_step Hc. Qed.

Lemma keeps_consume_challenge d s now T a T' :
  consume_enrollment_challenge_sql d s now T = Ok (a, T') -> keeps T T'.
Proof.
  unfold consume_enrollment_challenge_sql.
  destruct (enrollment_challenges T !! d) as [row|] eqn:Hrow; [|intros [= _ <-]; done].
  destruct (_ && _) eqn:Hb; intros H Hc; guard_facts; [|done].
  pose proof (c_enrollment_challenges _ Hc d row Hrow) as (? & ? & ? & ?). keeps_step Hc.
Qed.

Lemma keeps_insert_handshake_challenge d row T n T' : hc_consumed_at row = None ->
  insert_handshake_challenge_sql d row T = Ok (n, T') -> keeps T T'.
Proof.
  unfold insert_handshake_challenge_sql. intros Hn H Hc. guard_facts. keeps_step Hc.
  eapply table_insert; [apply _ | exact Hk | done|]. row_step. by rewrite Hn.
Qed.

Lemma keeps_consume_handshake_challenge d k i t T n T' :
  consume_handshake_challenge_sql d k i t T = Ok (n, T') -> keeps T T'.
Proof.
  unfold consume_handshake_challenge_sql.
  destruct (handshake_challenges T !! d) as [row|] eqn:Hrow; [|intros [= _ <-]; done].
  destruct (_ && _) eqn:Hb; intros H Hc; guard_facts; [|done].
  pose proof (c_handshake_challenges _ Hc d row Hrow) as (? & ? & ? & ? & ? & ?). keeps_step Hc.
Qed.

Lemma keeps_insert_handshake d row T n T' : insert_handshake_sql d row T = Ok (n, T') -> keeps T T'.
Proof. unfold insert_handshake_sql. intros H Hc. guard_facts. keeps_step Hc. Qed.

Lemma keeps_handshake_audit row T n T' : insert_handshake_audit_sql row T = Ok (n, T') -> keeps T T'.
Proof. unfold insert_handshake_audit_sql. intros H Hc. guard_facts. keeps_step Hc. row_step. Qed.

Lemma keeps_insert_identity id k d s t T n T' : insert_identity_sql id k d s t T = Ok (n, T') -> keeps T T'.
Proof.
  unfold insert_identity_sql. intros H Hc. cbv zeta in H. guard_facts. keeps_step Hc.
  apply map_Forall_insert_2; [|by eapply table_kept; [apply _ | exact Hk |]].
  row_step. apply lookup_insert_is_Some'. by left.
Qed.

Lemma keeps_update_identity id k d s T n T' : update_identity_sql id k d s T = Ok (n, T') -> keeps T T'.
Proof.
  unfold update_identity_sql. destruct (identities T !! id); intros H Hc; guard_facts; [|done].
  keeps_step Hc.
Qed.

Lemma keeps_insert_binding id ns sa u T n T' : insert_binding_sql id ns sa u T = Ok (n, T') -> keeps T T'.
Proof.
  unfold insert_binding_sql. intros H Hc. guard_facts. keeps_step Hc.
  apply unique_insert; [done|]. intros k row b Hrow [= <-] [= Hn Hs Hu].
  match goal with H : bindings_of_workload _ _ _ _ = [] |- _ => apply (select_empty _ _ _ _ H) in Hrow end.
  by rewrite Hn, Hs, Hu, !String.eqb_refl in Hrow.
Qed.

Lemma keeps_set_binding_enabled id e T n T' : set_binding_enabled_sql id e T = Ok (n, T') -> keeps T T'.
Proof.
  unfold set_binding_enabled_sql. destruct (enrollment_bindings T !! id) as [row|] eqn:Hrow;
    intros [= _ <-] Hc; [|done].
  pose proof (c_bindings _ Hc id row Hrow) as (? & ? & ? & ?). keeps_step Hc.
  by (eapply unique_update; [done | done | left]).
Qed.

Lemma keeps_insert_claim id r s i f t l T o T' : insert_claim_sql id r s i f t l T = Ok (o, T') -> keeps T T'.
Proof.
  unfold insert_claim_sql. intros H Hc. cbv zeta in H.
  destruct (work_claim_row_check _) as [[]|] eqn:Hcheck in H; [|done]. guard_facts. keeps_step Hc.
  - apply unique_insert; [done|]. intros k row b Hrow [= <-] [= Hr Hf].
    match goal with H : forallb _ _ = true |- _ => rewrite forallb_forall in H; specialize (H (k, row)) end.
    exfalso. apply not_true_iff_false with (b := negb (wc_fencing_token row =? f)%Z); [by rewrite Hf, Z.eqb_refl|].
    match goal with H : In _ _ -> _ |- _ => apply H end. rewrite <-list_elem_of_In. apply select_In.
    by rewrite Hr, bool_decide_true.
  - apply unique_insert; [done|]. intros k row b Hrow [= <-] Hf.
    match goal with H : active_claims_of_route _ _ = [] |- _ => apply (select_empty _ _ _ _ H) in Hrow end.
    destruct (String.eqb _ _); [|done]. injection Hf as Hr. by rewrite Hr, bool_decide_true in Hrow.
Qed.

(** An update keeps a claim where it is in the unique indexes, or takes it out of the
    one on active claims. *)
Lemma keeps_update_claim set id T o T' : update_claim_sql set id T = Ok (o, T') -> keeps T T'.
Proof.
  unfold update_claim_sql. destruct (work_claims T !! id) as [old|] eqn:Hold; [|intros [= _ <-]; done].
  cbv zeta. intros H Hc. apply result_bind_Ok in H as ([] & Hp & H).
  destruct (work_claim_row_check _) as [[]|] eqn:Hcheck in H; [|done]. guard_facts.
  unfold protect_work_claim in Hp.
  destruct (negb (bool_decide _)) eqn:Hsame; [done|].
  apply negb_false_iff, bool_decide_eq_true in Hsame as (Hr & Hs & Hi & Hf & _).
  destruct (negb _) eqn:Hact in Hp; [done|]. apply negb_false_iff in Hact.
  pose proof (c_claims _ Hc id old Hold) as (? & ? & ? & _). keeps_step Hc.
  - eapply table_insert; [apply _ | exact Hk | done|]. unfold claim_ok. by rewrite Hr, Hs, Hi.
  - eapply unique_update; [done | done | left]. by rewrite Hr, Hf.
  - eapply unique_update; [done | done|]. rewrite Hr, Hact.
    destruct (String.eqb (wc_status (set old)) "active"); auto.
Qed.

Lemma keeps_query_one {A} (f : Tables -> Result PostgresError (option A * Tables)) T a T' :
  (forall o U, f T = Ok (o, U) -> keeps T U) -> query_one f T = Ok (a, T') -> keeps T T'.
Proof.
  unfold query_one. intros Hf H. apply result_bind_Ok in H as ([[b|] U] & Hrun & H); [|done].
  injection H as -> ->. by eapply Hf.
Qed.

Create HintDb constraints.
#[export] Hint Resolve keeps_insert_nonce keeps_insert_request_id keeps_select_fingerprint
  keeps_replay_audit keeps_insert_subscription keeps_disable_subscription keeps_subscription_audit
  keeps_insert_accepted_request keeps_acceptance_audit keeps_insert_route keeps_insert_decision
  keeps_publish keeps_renew_instance keeps_insert_instance keeps_insert_instance_key
  keeps_registry_audit keeps_query_one_instance keeps_revoke_instance keeps_revoke_instance_key
  keeps_insert_challenge keeps_consume_challenge keeps_insert_handshake_challenge
  keeps_consume_handshake_challenge keeps_insert_handshake keeps_handshake_audit
  keeps_insert_identity keeps_update_identity keeps_insert_binding keeps_set_binding_enabled
  keeps_insert_claim keeps_update_claim keeps_query_one : constraints.
