(* ===== verification/Reconciliation.v ===== *)
(** * Reconciliation: a manifest put in place, and put in place again

    What a successful run of [reconcile] of [Registrar] establishes, and that the
    next run changes nothing of it. *)

From S2P Require Import Prelude Text Platform Database Schema Identity RequestNames Authority.
From S2P Require Import PostgresAuthority Enrollment Administration Registrar.
From Stdlib Require Import Ascii.

Section reconciliation.
Context {P : Platform} {HP : PlatformLaws P}.

(** ** The supply of a run *)

Definition supply {S} (c : Conn S) : list N := 0%N :: entropy c.
Definition clock_reading (n : N) : Z := Z.of_N (n mod 2 ^ 63).

Lemma new_uuid_drawn {S E} (c : Conn S) u c' :
  new_uuid (E:=E) c = (Ok u, c') ->
  durable c' = durable c /\ supply c' ⊆ supply c /\ exists n, n ∈ supply c /\ u = uuid_of_N n.
Proof.
  unfold new_uuid, random, supply. destruct c as [d w fs [|n ns]]; simpl; intros [= <- <-]; simpl.
  - split_and!; [done..|]. exists 0%N. set_solver.
  - split_and!; [done | set_solver|]. exists n. set_solver.
Qed.

Lemma server_clock_drawn {S E} (c : Conn S) z c' :
  server_clock (E:=E) c = (Ok z, c') ->
  durable c' = durable c /\ supply c' ⊆ supply c /\ exists n, n ∈ supply c /\ z = clock_reading n.
Proof.
  unfold server_clock, random, supply. destruct c as [d w fs [|n ns]]; simpl; intros [= <- <-]; simpl.
  - split_and!; [done..|]. exists 0%N. set_solver.
  - split_and!; [done | set_solver|]. exists n. set_solver.
Qed.

Lemma draw_uuids_drawn {S E} n (c : Conn S) us c' :
  draw_uuids (E:=E) n c = (Ok us, c') ->
  durable c' = durable c /\ supply c' ⊆ supply c /\
  forall u, u ∈ us -> exists n, n ∈ supply c /\ u = uuid_of_N n.
Proof.
  revert c us c'. induction n as [|n IH]; intros c us c'; cbn [draw_uuids]; intros H.
  - db_inv. split_and!; [done..|]. by intros ? ?%elem_of_nil.
  - apply db_bind_Ok in H as (u & c1 & (Hd1 & Hs1 & m & Hm & ->)%new_uuid_drawn & H).
    apply db_bind_Ok in H as (us' & c2 & (Hd2 & Hs2 & Hus)%IH & H). db_inv.
    split_and!; [congruence | by etrans|]. intros u [->|Hu]%elem_of_cons; [eauto|].
    destruct (Hus u Hu) as (k & Hk & ->). eauto.
Qed.

Lemma autocommit_drawn {S E A} (h : PostgresError -> E) (f : S -> Result PostgresError (A * S)) c a c' :
  autocommit h f c = (Ok a, c') -> f (durable c) = Ok (a, durable c') /\ supply c' = supply c.
Proof.
  unfold autocommit, next_fault, supply. destruct c as [d w [|[] fs] ns]; simpl;
    destruct (f d) as [[a' w']|] eqn:Hf; intros [=]; by subst.
Qed.
(** ** A service is in place *)

Definition identity_of (service : ServiceSpec) : IdentityRow :=
  MkIdentityRow (spec_kind service) (spec_display_name service) "active".

(** A grant for what a service asks for, in force at a time *)
Record live_for (id : Uuid) (grant : GrantSpec) (now : Z) (row : GrantRow) : Prop := {
  live_source : gr_source_service_id row = id;
  live_action : gr_action row = spec_action grant;
  live_scope : gr_scope row = spec_scope grant;
  live_destination : gr_destination_service_id row = None;
  live_unrevoked : gr_revoked_at row = None;
  live_until u : gr_valid_until row = Some u -> (now < u)%Z;
}.

Lemma grant_live_iff id grant now gid row :
  grant_live id grant now gid row = true <-> live_for id grant now row.
Proof.
  unfold grant_live. rewrite !andb_true_iff, !bool_decide_eq_true, !String.eqb_eq. split.
  - intros [[[[[? ?] ?] ?] ?] Hu]. constructor; try done. intros u Hv. rewrite Hv in Hu. by apply Z.ltb_lt.
  - intros [? ? ? ? ? Hu]. split_and!; try done. destruct (gr_valid_until row); [by apply Z.ltb_lt, Hu | done].
Qed.

(** What the manifest says of a service is what the tables hold under [id]; the
    grants are there, live at a clock reading of [draws]. *)
Record in_place (resolver : ServiceAccountResolver) (draws : list N) (service : ServiceSpec) (id : Uuid)
  (T : Tables) : Prop := {
  place_identity : identities T !! id = Some (identity_of service) /\
    is_ok (identity_checks (identity_of service)) = true;
  place_binding namespace account :
    spec_namespace service = Some namespace -> spec_service_account service = Some account ->
    exists uid, resolver_uid resolver namespace account = Ok uid /\
      enrollment_bindings T !! id = Some (MkBindingRow namespace account uid true) /\
      is_ok (binding_checks (MkBindingRow namespace account uid true)) = true;
  place_admission : exists row, admission T !! id = Some row /\
    adm_communication_enabled row = spec_communication_enabled service /\
    (0 <= adm_revision row)%Z /\ i64_fits (adm_revision row) = true;
  place_grants grant : grant ∈ spec_grants service ->
    exists gid row n, authority_grants T !! gid = Some row /\ n ∈ draws /\
      live_for id grant (clock_reading n) row;
}.

(** Work on other services keeps a service in place. *)
Lemma in_place_kept resolver draws service id own T T' :
  ~ own id -> reconciles own T T' ->
  in_place resolver draws service id (kernel_tables T) ->
  in_place resolver draws service id (kernel_tables T').
Proof.
  intros Ho [_ Hi Hb Ha _ _ Hk _ _ _ _] [[Hi1 Hi2] Hb1 Ha1 Hg]. constructor.
  - by rewrite (proj1 (Hi id) Ho).
  - intros ns account Hns Hac. by rewrite (proj1 (Hb id) Ho); auto.
  - by rewrite (Ha id Ho).
  - intros grant (gid & row & n & Hrow & ?)%Hg. exists gid, row, n.
    split; [by eapply lookup_weaken | done].
Qed.

Lemma grant_live_intro id grant now gid row :
  gr_source_service_id row = id -> gr_action row = spec_action grant ->
  gr_scope row = spec_scope grant -> gr_destination_service_id row = None ->
  gr_revoked_at row = None -> gr_valid_until row = None -> grant_live id grant now gid row = true.
Proof.
  intros Hs Ha Hsc Hd Hr Hu. unfold grant_live. rewrite Ha, Hsc, !String.eqb_refl, Hu.
  by rewrite !bool_decide_true.
Qed.

(** Values of the supply that no stored row was made with *)
Definition new_to (T : AdminTables) (n : N) : Prop :=
  (forall h, h ∈ admission_history T -> ah_correlation_id h <> uuid_of_N n) /\
  authority_grants (kernel_tables T) !! uuid_of_N n = None.

Section service.
Context (T0 : AdminTables) (own : Uuid -> Prop) (service : ServiceSpec) (id : Uuid).
Context (Hid : names service id) (draws : list N) (Hnew : forall n, n ∈ draws -> new_to T0 n).

Lemma names_eq u : cast_uuid (spec_service_id service) = Ok u -> u = id.
Proof. intros H%cast_uuid_Ok. unfold names in Hid. congruence. Qed.

Lemma create_service_grant_Ok grant administrator m correlation now T u T' :
  new_to T0 m -> reconciles own T0 T ->
  create_service_grant service grant administrator (uuid_of_N m) correlation now T = Ok (u, T') ->
  (exists g, kernel_tables T' = with_authority_grants g (kernel_tables T)) /\
  authority_grants (kernel_tables T) ⊆ authority_grants (kernel_tables T') /\
  exists row, authority_grants (kernel_tables T') !! uuid_of_N m = Some row /\
    forall at_, grant_live id grant at_ (uuid_of_N m) row = true.
Proof.
  intros [_ Hm] Hr H. unfold create_service_grant in H.
  apply result_bind_Ok in H as (source & ->%names_eq & H). result_inv.
  apply create_grant_Ok in H as [[-> (row & Hrow & Hs & Ha & Hsc & Hd & Hu)]|(Hnone & d & a & ->)].
  - split; [exists (authority_grants (kernel_tables T)); by rewrite with_same_grants|].
    split; [done|]. exists row. split; [done|]. intros at_.
    destruct (reconciles_new _ _ _ Hr _ _ Hrow Hm) as [_ Hrev%registrar_grant_revoked]. by apply grant_live_intro.
  - simpl. split; [by eexists|]. split; [by apply insert_subseteq|]. eexists.
    rewrite lookup_insert_eq. split; [done|]. intros at_. by apply grant_live_intro.
Qed.

Lemma reconcile_grants_Ok administrator grants c applied c' :
  own id -> reconcile_grants service administrator grants c = (Ok applied, c') ->
  supply c ⊆ draws -> reconciles own T0 (durable c) ->
  supply c' ⊆ supply c /\
  (exists g, kernel_tables (durable c') = with_authority_grants g (kernel_tables (durable c))) /\
  authority_grants (kernel_tables (durable c)) ⊆ authority_grants (kernel_tables (durable c')) /\
  forall grant, grant ∈ grants -> exists gid row n,
    authority_grants (kernel_tables (durable c')) !! gid = Some row /\ n ∈ draws /\
    grant_live id grant (clock_reading n) gid row = true.
Proof.
  intros Ho. revert c applied. induction grants as [|grant grants IH]; intros c applied H Hs Hr.
  { simpl in H. db_inv. split_and!; [done | | done | by intros ? ?%elem_of_nil].
    exists (authority_grants (kernel_tables (durable c))). by rewrite with_same_grants. }
  cbn [reconcile_grants] in H.
  apply db_bind_Ok in H as (now & c1 & (Hd1 & Hs1 & n & Hn & ->)%server_clock_drawn & H).
  apply db_bind_Ok in H as (count & c2 & [Hc Hs2]%autocommit_drawn & H).
  unfold count_grants in Hc. apply result_bind_Ok in Hc as (u & ->%names_eq & [= Hcount Hd2]).
  destruct (0 <? count)%Z eqn:Hpos.
  - apply IH in H as (IH1 & (g & IH2) & IH3 & IH4);
      [|by rewrite Hs2; etrans | by rewrite <-Hd2, Hd1].
    rewrite <-Hd2, Hd1 in *. rewrite Hs2 in *. split_and!; [by etrans | by exists g | done|].
    intros grant' [->|Hin]%elem_of_cons; [|by apply IH4].
    destruct (select _ _) as [|[gid row] l] eqn:Hsel; [by subst count|].
    assert ((gid, row) ∈ select (grant_live id grant (clock_reading n))
      (authority_grants (kernel_tables (durable c)))) as [Hrow Hl]%select_In
      by (rewrite Hsel; left).
    exists gid, row, n. split; [by eapply lookup_weaken | auto].
  - apply db_bind_Ok in H as (gid & c3 & (Hd3 & Hs3 & m & Hm & ->)%new_uuid_drawn & H).
    apply db_bind_Ok in H as (cor & c4 & (Hd4 & Hs4 & _)%new_uuid_drawn & H).
    apply db_bind_Ok in H as (now & c5 & (Hd5 & Hs5 & _)%server_clock_drawn & H).
    apply db_bind_Ok in H as ([] & c6 & [Hf Hs6]%autocommit_drawn & H).
    apply create_service_grant_step in Hf as Hstep.
    assert (durable c5 = durable c) as Hd by congruence.
    assert (supply c6 ⊆ supply c) as Hsc by (rewrite Hs6, Hs5, Hs4, Hs3, Hs2; exact Hs1).
    apply create_service_grant_Ok in Hf as ((g1 & Hg1) & Hsub & row & Hrow & Hl);
      [|apply Hnew, Hs, Hs1; by rewrite <-Hs2 | by rewrite Hd].
    rewrite Hd in *.
    apply db_bind_Ok in H as (more & c7 & H & Hret). db_inv.
    apply IH in H as (IH1 & (g & IH2) & IH3 & IH4); [|by rewrite Hsc | etrans; [exact Hr|]].
    + split_and!; [by rewrite IH1 | rewrite IH2, Hg1; by exists g | by etrans|].
      intros grant' [->|Hin]%elem_of_cons; [|by apply IH4].
      exists (uuid_of_N m), row, n. split; [by eapply lookup_weaken|]. split; [set_solver | apply Hl].
    + eapply reconciles_weaken; [|exact Hstep]. intros k Hk. unfold names in *. by simplify_eq.
Qed.
(** The record says what is requested. *)
Definition admission_set (enabled : bool) (clock : Z) (T : AdminTables) : Prop :=
  exists row, admission (kernel_tables T) !! id = Some row /\
    adm_communication_enabled row = enabled /\ (0 <= adm_revision row)%Z /\
    i64_fits (adm_revision row) = true /\ (adm_updated_at row <= clock)%Z.

Lemma set_admission_each_Ok enabled administrator clock correlation more T outcome T' :
  set_admission_each id enabled administrator clock correlation more T = Ok (outcome, T') ->
  (forall h, h ∈ admission_history T -> same_correlation id correlation h = false) \/
    admission_set enabled clock T ->
  admission_set enabled clock T' /\ metadata_ok administrator "registrar reconciliation" clock = true /\
  exists a, kernel_tables T' = with_admission a (kernel_tables T).
Proof.
  revert correlation T. induction more as [|next more IH]; intros correlation T H Hor;
    cbn [set_admission_each] in H; result_inv;
    match goal with H : set_admission _ _ _ _ _ _ _ = Ok (_, ?t) |- _ =>
      rename t into T1; apply set_admission_Ok in H as (Hmeta & (h & HT1 & _) & _ & row & Hrow & Hset) end;
    (assert (admission_set enabled clock T1) as Hgood;
      [destruct Hset as [[-> (r & Hr & Hs)]|(row' & Hrow' & He & Hrev & Hfit & Hat)];
        [destruct Hor as [Hno|Hset]; [|exact Hset]; by rewrite (Hno r Hr) in Hs
        |by exists row'] |]).
  - split_and!; [done..|]. rewrite HT1. by eexists.
  - destruct (IH _ _ H (or_intror Hgood)) as (H1 & H2 & a & H3). split_and!; [done..|].
    rewrite H3, HT1. by eexists.
Qed.

Lemma reconcile_identity_Ok role c applied c' :
  reconcile_identity role service c = (Ok applied, c') ->
  identities (kernel_tables (durable c')) !! id = Some (identity_of service) /\
  is_ok (identity_checks (identity_of service)) = true /\
  admission_history (durable c') = admission_history (durable c) /\ supply c' ⊆ supply c.
Proof.
  unfold reconcile_identity. intros H.
  apply db_bind_Ok in H as (clock & c1 & (Hd & Hs & _)%server_clock_drawn & H).
  apply db_bind_Ok in H as (rows & c2 & [Hf Hs2]%autocommit_drawn & H). apply mret_Ok in H as [-> ->].
  unfold upsert_identity in Hf.
  apply result_bind_Ok in Hf as (u & ->%names_eq & (K & Hk & HT)%on_kernel_Ok).
  apply upsert_identity_Ok in Hk as (Hc & Hrow & _). rewrite Hd in *.
  split_and!; [by rewrite HT | done | by rewrite HT | by rewrite Hs2].
Qed.

Lemma reconcile_binding_Ok resolver c applied c' :
  reconcile_binding resolver service c = (Ok applied, c') ->
  (forall namespace account,
    spec_namespace service = Some namespace -> spec_service_account service = Some account ->
    exists uid, resolver_uid resolver namespace account = Ok uid /\
      enrollment_bindings (kernel_tables (durable c')) !! id =
        Some (MkBindingRow namespace account uid true) /\
      is_ok (binding_checks (MkBindingRow namespace account uid true)) = true) /\
  (exists b, durable c' = with_kernel_tables (with_enrollment_bindings b (kernel_tables (durable c)))
                            (durable c)) /\
  supply c' ⊆ supply c.
Proof.
  unfold reconcile_binding. intros H.
  assert (exists b, durable c = with_kernel_tables (with_enrollment_bindings b (kernel_tables (durable c)))
    (durable c)) as Hsame by (exists (enrollment_bindings (kernel_tables (durable c)));
      by rewrite with_same_bindings, with_same_kernel).
  destruct (spec_namespace service) as [ns|], (spec_service_account service) as [account|];
    try (apply mret_Ok in H as [-> ->]; split_and!; [congruence | done | done]).
  apply db_bind_Ok in H as (uid & c1 & [Hu ->]%lift_Ok & H).
  apply db_bind_Ok in H as (rows & c2 & [Hf Hs2]%autocommit_drawn & H). apply mret_Ok in H as [-> ->].
  unfold upsert_binding in Hf.
  apply result_bind_Ok in Hf as (u & ->%names_eq & (K & Hk & HT)%on_kernel_Ok).
  apply upsert_binding_Ok in Hk as (Hc & Hrow & Hcase). rewrite Hs2, HT. split_and!; [|clear Hrow|done].
  - intros ns' account' [= <-] [= <-]. exists uid. done.
  - destruct Hcase as [[_ ->]|(_ & _ & ->)]; [by rewrite with_same_kernel | by eexists].
Qed.

Lemma reconcile_communication_Ok extra administrator c applied c' :
  reconcile_communication extra administrator service c = (Ok applied, c') ->
  supply c ⊆ draws ->
  (forall h, h ∈ admission_history (durable c) -> ah_service_id h = id -> h ∈ admission_history T0) ->
  (exists clock, admission_set (spec_communication_enabled service) clock (durable c')) /\
  (exists at_, metadata_ok administrator "registrar reconciliation" at_ = true) /\
  (exists a, kernel_tables (durable c') = with_admission a (kernel_tables (durable c))) /\
  supply c' ⊆ supply c.
Proof.
  unfold reconcile_communication. intros H Hs Hh.
  apply db_bind_Ok in H as (clock & c1 & (Hd1 & Hs1 & _)%server_clock_drawn & H).
  apply db_bind_Ok in H as (cor & c2 & (Hd2 & Hs2 & m & Hm & ->)%new_uuid_drawn & H).
  apply db_bind_Ok in H as (more & c3 & (Hd3 & Hs3 & _)%draw_uuids_drawn & H).
  apply db_bind_Ok in H as (outcome & c4 & [Hf Hs4]%autocommit_drawn & H). apply mret_Ok in H as [-> ->].
  unfold reconcile_admission in Hf. apply result_bind_Ok in Hf as (u & ->%names_eq & Hf).
  assert (durable c3 = durable c) as Hd by congruence. rewrite Hd in Hf.
  apply set_admission_each_Ok in Hf as (Hset & Hmeta & Ha).
  - split_and!; [eauto..|done|]. rewrite Hs4, Hs3, Hs2. exact Hs1.
  - left. intros h Hin. unfold same_correlation. apply andb_false_iff.
    rewrite !bool_decide_eq_false. destruct (decide (ah_service_id h = id)) as [Hsv|]; [right|by left].
    apply (proj1 (Hnew m (Hs _ (Hs1 _ Hm)))). by apply Hh.
Qed.
Lemma reconcile_service_Ok role extra resolver administrator c applied c' :
  own id -> reconcile_service role extra resolver administrator service c = (Ok applied, c') ->
  supply c ⊆ draws -> reconciles own T0 (durable c) ->
  (forall h, h ∈ admission_history (durable c) -> ah_service_id h = id -> h ∈ admission_history T0) ->
  in_place resolver draws service id (kernel_tables (durable c')) /\
  (exists at_, metadata_ok administrator "registrar reconciliation" at_ = true) /\
  supply c' ⊆ supply c.
Proof.
  intros Ho H Hs Hr Hh. unfold reconcile_service in H.
  apply db_bind_Ok in H as (? & c1 & H1 & H). apply db_bind_Ok in H as (? & c2 & H2 & H).
  apply db_bind_Ok in H as (? & c3 & H3 & H). apply db_bind_Ok in H as (? & c4 & H4 & H).
  apply mret_Ok in H as [-> ->].
  assert (reconciles own T0 (durable c3)) as Hr3.
  { assert (forall T T', reconciles (names service) T T' -> reconciles own T T') as Hw.
    { intros T T'. apply reconciles_weaken. unfold names in *. intros k Hk. by simplify_eq. }
    etrans; [exact Hr|]. etrans; [eapply Hw, (history_run _ _ _ _ _ (reconcile_identity_history _ _) H1)|].
    etrans; [eapply Hw, (history_run _ _ _ _ _ (reconcile_binding_history _ _) H2)|].
    eapply Hw, (history_run _ _ _ _ _ (reconcile_communication_history _ _ _) H3). }
  apply reconcile_identity_Ok in H1 as (Hi & Hic & Hih & Hs1).
  apply reconcile_binding_Ok in H2 as (Hb & (b & HT2) & Hs2).
  apply reconcile_communication_Ok in H3 as ((clock & row & Hrow & He & Hrev & Hfit & _) & Hm & (a & HT3) & Hs3);
    [|by rewrite Hs2, Hs1 | rewrite HT2; simpl; by rewrite Hih].
  apply reconcile_grants_Ok in H4 as (Hs4 & (g & HT4) & _ & Hg); [|done | by rewrite Hs3, Hs2, Hs1 | done].
  split_and!; [|done | by rewrite Hs4, Hs3, Hs2].
  constructor.
  - rewrite HT4, HT3, HT2. done.
  - intros ns account Hns Hac. destruct (Hb ns account Hns Hac) as (uid & Hu & Hrow' & Hc).
    exists uid. split; [done|]. rewrite HT4, HT3. done.
  - exists row. rewrite HT4. done.
  - intros grant (gid & row' & n & Hrow' & Hn & Hl%grant_live_iff)%Hg. by exists gid, row', n.
Qed.
End service.

(** ** Whole manifests *)

Definition ids (services : list ServiceSpec) : list (option Uuid) :=
  (fun service => uuid_parse (spec_service_id service)) <$> services.

Lemma reconcile_service_named role extra resolver administrator service c applied c' :
  reconcile_service role extra resolver administrator service c = (Ok applied, c') ->
  exists id, names service id.
Proof.
  unfold reconcile_service, reconcile_identity. intros H.
  apply db_bind_Ok in H as (? & c1 & H & _). apply db_bind_Ok in H as (clock & c2 & _ & H).
  apply db_bind_Ok in H as (rows & c3 & [H _]%autocommit_drawn & _).
  unfold upsert_identity in H. apply result_bind_Ok in H as (id & Hid%cast_uuid_Ok & _). by exists id.
Qed.

Lemma reconcile_services_Ok T0 draws role extra resolver administrator services changes c changes' c'
  (before : Uuid -> Prop) :
  (forall n, n ∈ draws -> new_to T0 n) -> NoDup (ids services) ->
  (forall service id, service ∈ services -> names service id -> ~ before id) ->
  supply c ⊆ draws -> reconciles before T0 (durable c) ->
  reconcile_services role extra resolver administrator services changes c = (Ok changes', c') ->
  forall service, service ∈ services ->
    (exists id, names service id /\ in_place resolver draws service id (kernel_tables (durable c'))) /\
    exists at_, metadata_ok administrator "registrar reconciliation" at_ = true.
Proof.
  intros Hnew. revert before changes c.
  induction services as [|service services IH]; intros before changes c Hnd Hb Hs Hr H.
  { by intros ? ?%elem_of_nil. }
  cbn [reconcile_services] in H. apply db_bind_Ok in H as (applied & c1 & H1 & H2).
  destruct (reconcile_service_named _ _ _ _ _ _ _ _ H1) as [id Hid].
  cbn [ids fmap list_fmap] in Hnd. apply NoDup_cons in Hnd as [Hin Hnd].
  set (before' := fun k => before k \/ k = id).
  destruct (reconcile_service_Ok T0 before' service id Hid draws Hnew _ _ _ _ _ _ _ (or_intror eq_refl)
    H1 Hs) as (Hplace & Hmeta & Hs1).
  { eapply reconciles_weaken; [|exact Hr]. by left. }
  { intros h Hh Hserv. destruct (reconciles_foreign _ _ _ Hr h Hh) as [?|Hbad]; [done|].
    destruct (Hb service id); [left | done | by rewrite <-Hserv]. }
  assert (forall k, (exists s, s ∈ services /\ names s k) -> k <> id) as Hother.
  { intros k (s & Hsin & Hk) ->. apply Hin. rewrite Hid, <-Hk.
    apply (list_elem_of_fmap_2 (fun s => uuid_parse (spec_service_id s))), Hsin. }
  intros s [->|Hsin]%elem_of_cons.
  - split; [|exact Hmeta]. exists id. split; [done|].
    eapply in_place_kept; [|exact (history_run _ _ _ _ _ (reconcile_services_history _ _ _ _ _ _) H2)
      |exact Hplace]. intros Hk. by apply (Hother id Hk).
  - eapply (IH before'); [done | | by rewrite Hs1 | | exact H2 | done].
    + intros s' k Hs' Hk [Hbk| ->]; [by eapply (Hb s'); [right| |]|].
      by apply (Hother id); [exists s'|].
    + etrans; [eapply reconciles_weaken; [|exact Hr]; by left|].
      eapply reconciles_weaken; [|exact (history_run _ _ _ _ _ (reconcile_service_history _ _ _ _ _) H1)].
      intros k Hk. right. unfold names in *. by simplify_eq.
Qed.
(** ** The next run *)

Section settled.
Context (role : Role) (extra : nat) (resolver : ServiceAccountResolver) (administrator : string).

(** What a pass over a service that is in place takes from the supply *)
Definition draws_of (service : ServiceSpec) : nat := 3 + extra + length (spec_grants service).

(** The supply values suit the tables: no history row was made with one, and read as
    clocks they are not before the admission records, and no grant ends by then. *)
Record suits (T : AdminTables) (n : N) : Prop := {
  suits_new h : h ∈ admission_history T -> ah_correlation_id h <> uuid_of_N n;
  suits_admission id row : admission (kernel_tables T) !! id = Some row ->
    (adm_updated_at row <= clock_reading n)%Z;
  suits_grants id row until : authority_grants (kernel_tables T) !! id = Some row ->
    gr_valid_until row = Some until -> (clock_reading n < until)%Z;
}.

Lemma clock_reading_nonneg n : (0 <= clock_reading n)%Z.
Proof. unfold clock_reading. apply N2Z.is_nonneg. Qed.

Lemma server_clock_next {S E} (d w : S) n ns :
  server_clock (E:=E) (MkConn d w [] (n :: ns)) = (Ok (clock_reading n), MkConn d w [] ns).
Proof. done. Qed.

Lemma new_uuid_next {S E} (d w : S) n ns :
  new_uuid (E:=E) (MkConn d w [] (n :: ns)) = (Ok (uuid_of_N n), MkConn d w [] ns).
Proof. done. Qed.

Lemma draw_uuids_next {S E} k (d w : S) ns :
  k <= length ns ->
  draw_uuids (E:=E) k (MkConn d w [] ns) = (Ok (uuid_of_N <$> take k ns), MkConn d w [] (drop k ns)).
Proof.
  revert ns. induction k as [|k IH]; intros ns Hk; [done|].
  destruct ns as [|n ns]; simpl in Hk; [lia|]. cbn [draw_uuids].
  rewrite bind_run, new_uuid_next. cbv iota. rewrite bind_run, IH by lia. done.
Qed.

(** Another evaluation of the admission call when the record says what is requested *)
Definition no_op_row (id : Uuid) (enabled : bool) (clock : Z) (h : AdmissionHistoryRow) : bool :=
  bool_decide (ah_service_id h = id) && Bool.eqb (ah_new_enabled h) enabled
  && String.eqb (ah_administrator_identity h) (btrim administrator)
  && String.eqb (ah_reason h) (btrim "registrar reconciliation") && (ah_committed_at h =? clock)%Z
  && String.eqb (ah_outcome h) "no_op".

Lemma set_admission_settled id enabled clock correlation T row :
  metadata_ok administrator "registrar reconciliation" clock = true ->
  admission (kernel_tables T) !! id = Some row -> adm_communication_enabled row = enabled ->
  (0 <= adm_revision row)%Z -> i64_fits (adm_revision row) = true -> (adm_updated_at row <= clock)%Z ->
  (forall h, h ∈ admission_history T -> same_correlation id correlation h = true ->
     no_op_row id enabled clock h = true) ->
  exists l, set_admission id enabled administrator "registrar reconciliation" correlation clock T =
      Ok ("no_op", with_admission_history (admission_history T ++ l) T) /\
    forall h, h ∈ l -> no_op_row id enabled clock h = true.
Proof.
  intros Hm Hrow He Hrev Hfit Hat Hh. unfold set_admission. rewrite Hm, Hrow. cbn [require ok_or mbind result_bind].
  destruct (List.find _ _) as [h|] eqn:Hf.
  - apply find_some in Hf as [Hin Hs]. rewrite <-list_elem_of_In in Hin.
    specialize (Hh h Hin Hs). unfold no_op_row in Hh. rewrite !andb_true_iff in Hh.
    destruct Hh as [[[[[_ H1] H2] H3] H4] H5%String.eqb_eq]. rewrite H1, H2, H3, H4, H5.
    exists []. rewrite app_nil_r. split; [by destruct T | by intros ? ?%elem_of_nil].
  - rewrite (proj2 (Z.ltb_ge _ _)) by done. rewrite He, eqb_reflx, Hfit, (proj2 (Z.leb_le _ _)) by done.
    cbn [require negb mbind result_bind]. eexists [_]. split; [by rewrite with_same_kernel|].
    intros h ->%list_elem_of_singleton. unfold no_op_row. simpl.
    by rewrite bool_decide_true, eqb_reflx, !String.eqb_refl, Z.eqb_refl.
Qed.
Lemma set_admission_each_settled id enabled clock correlation more T row :
  metadata_ok administrator "registrar reconciliation" clock = true ->
  admission (kernel_tables T) !! id = Some row -> adm_communication_enabled row = enabled ->
  (0 <= adm_revision row)%Z -> i64_fits (adm_revision row) = true -> (adm_updated_at row <= clock)%Z ->
  (forall u h, u ∈ correlation :: more -> h ∈ admission_history T -> same_correlation id u h = true ->
     no_op_row id enabled clock h = true) ->
  exists l, set_admission_each id enabled administrator clock correlation more T =
      Ok ("no_op", with_admission_history (admission_history T ++ l) T) /\
    forall h, h ∈ l -> ah_service_id h = id.
Proof.
  intros Hm Hrow He Hrev Hfit Hat. revert correlation T Hrow.
  induction more as [|next more IH]; intros correlation T Hrow Hh; cbn [set_admission_each];
    destruct (set_admission_settled id enabled clock correlation T row) as (l & -> & Hl); try done;
    try (intros h; apply Hh; left); cbn [mbind result_bind];
    assert (forall h, h ∈ l -> ah_service_id h = id) as Hid
      by (intros h Hin%Hl; unfold no_op_row in Hin; rewrite !andb_true_iff, bool_decide_eq_true in Hin; tauto).
  - by exists l.
  - edestruct (IH next (with_admission_history (admission_history T ++ l) T)) as (l' & -> & Hl'); [done| |].
    + intros u h Hu Hin Hs. apply elem_of_app in Hin as [Hin|Hin]; [|by apply Hl].
      apply (Hh u); [by right | done | done].
    + exists (l ++ l'). simpl. rewrite app_assoc. split; [done|].
      intros h [Hin|Hin]%elem_of_app; auto.
Qed.

Section service_again.
Context (service : ServiceSpec) (id : Uuid) (Hid : names service id) (draws : list N) (T : AdminTables).
Context (Hplace : in_place resolver draws service id (kernel_tables T)).

Lemma cast_names : cast_uuid (spec_service_id service) = Ok id.
Proof. by apply cast_uuid_Ok. Qed.

Lemma reconcile_identity_again n ns :
  reconcile_identity role service (MkConn T T [] (n :: ns)) = (Ok [], MkConn T T [] ns).
Proof.
  destruct (place_identity _ _ _ _ _ Hplace) as [Hrow Hc].
  unfold reconcile_identity. rewrite bind_run, server_clock_next. cbv iota.
  rewrite bind_run, (autocommit_run _ _ _ _ _ 0%Z T); [done|].
  unfold upsert_identity. rewrite cast_names. cbn [mbind result_bind]. unfold on_kernel, upsert_identity_sql.
  fold (identity_of service). rewrite Hrow. destruct (identity_checks _) as [[]|]; [|done].
  simpl. rewrite !String.eqb_refl. simpl. by rewrite with_same_kernel.
Qed.

Lemma reconcile_binding_again ns :
  reconcile_binding resolver service (MkConn T T [] ns) = (Ok [], MkConn T T [] ns).
Proof.
  unfold reconcile_binding. pose proof (place_binding _ _ _ _ _ Hplace) as Hb.
  destruct (spec_namespace service) as [namespace|], (spec_service_account service) as [account|]; try done.
  destruct (Hb _ _ eq_refl eq_refl) as (uid & Hu & Hrow & Hc). rewrite Hu, bind_run, lift_run. cbv iota.
  rewrite bind_run, (autocommit_run _ _ _ _ _ 0%Z T); [done|].
  unfold upsert_binding. rewrite cast_names. cbn [mbind result_bind]. unfold on_kernel, upsert_binding_sql.
  rewrite Hrow. destruct (binding_checks _) as [[]|]; [|done].
  simpl. rewrite !String.eqb_refl. simpl. by rewrite with_same_kernel.
Qed.

Lemma reconcile_communication_again n m ns :
  extra <= length ns -> (forall k, k ∈ n :: m :: ns ->
    (forall h, h ∈ admission_history T -> ah_service_id h = id -> ah_correlation_id h <> uuid_of_N k) /\
    (forall row, admission (kernel_tables T) !! id = Some row -> (adm_updated_at row <= clock_reading k)%Z)) ->
  (exists at_, metadata_ok administrator "registrar reconciliation" at_ = true) ->
  exists l,
    reconcile_communication extra administrator service (MkConn T T [] (n :: m :: ns)) =
      (let T' := with_admission_history (admission_history T ++ l) T in
       (Ok [], MkConn T' T' [] (drop extra ns))) /\
    forall h, h ∈ l -> ah_service_id h = id.
Proof.
  intros Hlen Hk [at_ Hm]. destruct (place_admission _ _ _ _ _ Hplace) as (row & Hrow & He & Hrev & Hfit).
  destruct (set_admission_each_settled id (spec_communication_enabled service) (clock_reading n)
    (uuid_of_N m) (uuid_of_N <$> take extra ns) T row) as (l & Hset & Hl); try done.
  - unfold metadata_ok in *. rewrite !andb_true_iff in *. split; [apply Hm|].
    apply Z.leb_le, clock_reading_nonneg.
  - apply (Hk n); [left | done].
  - intros u h Hu Hin Hs. unfold same_correlation in Hs.
    apply andb_true_iff in Hs as [Hs1%bool_decide_eq_true Hs2%bool_decide_eq_true].
    assert (exists k, k ∈ n :: m :: ns /\ u = uuid_of_N k) as (k & Hkin & ->).
    { apply elem_of_cons in Hu as [->|Hu]; [exists m; split; [set_solver|done]|].
      apply list_elem_of_fmap in Hu as (k & -> & Hkt). exists k. split; [|done].
      apply (subseteq_take extra ns) in Hkt. set_solver. }
    by destruct (proj1 (Hk k Hkin) h Hin Hs1).
  - exists l. split; [|done]. unfold reconcile_communication.
    rewrite bind_run, server_clock_next. cbv iota. rewrite bind_run, new_uuid_next. cbv iota.
    rewrite bind_run, draw_uuids_next by done. cbv iota.
    rewrite bind_run, (autocommit_run _ _ _ _ _ "no_op" (with_admission_history (admission_history T ++ l) T));
      [done|].
    unfold reconcile_admission. rewrite cast_names. exact Hset.
Qed.
Lemma grant_live_later grant now later gid row :
  grant_live id grant now gid row = true ->
  (forall until, gr_valid_until row = Some until -> (later < until)%Z) ->
  grant_live id grant later gid row = true.
Proof.
  unfold grant_live. rewrite !andb_true_iff. intros [Hrest _] Hu. split; [exact Hrest|].
  destruct (gr_valid_until row) as [until|]; [|done]. by apply Z.ltb_lt, Hu.
Qed.

Lemma reconcile_grants_again T' grants ns :
  authority_grants (kernel_tables T') = authority_grants (kernel_tables T) ->
  (forall grant, grant ∈ grants -> grant ∈ spec_grants service) -> length grants <= length ns ->
  (forall k gid row until, k ∈ ns -> authority_grants (kernel_tables T) !! gid = Some row ->
     gr_valid_until row = Some until -> (clock_reading k < until)%Z) ->
  reconcile_grants service administrator grants (MkConn T' T' [] ns) =
    (Ok [], MkConn T' T' [] (drop (length grants) ns)).
Proof.
  intros HT'. revert ns. induction grants as [|grant grants IH]; intros ns Hin Hlen Hu; [done|].
  destruct ns as [|n ns]; simpl in Hlen; [lia|]. cbn [reconcile_grants length drop].
  destruct (place_grants _ _ _ _ _ Hplace grant) as (gid & row & m & Hrow & _ & Hl%(grant_live_iff _ _ _ gid)); [apply Hin; left|].
  assert ((gid, row) ∈ select (grant_live id grant (clock_reading n)) (authority_grants (kernel_tables T')))
    as Hsel.
  { apply select_In. rewrite HT'. split; [done|]. eapply grant_live_later; [exact Hl|].
    intros u Huntil. eapply Hu; [left | exact Hrow | exact Huntil]. }
  rewrite bind_run, server_clock_next. cbv iota.
  rewrite bind_run, (autocommit_run _ _ _ _ _ (Z.of_nat (length (select (grant_live id grant
    (clock_reading n)) (authority_grants (kernel_tables T'))))) T')
    by (unfold count_grants; by rewrite cast_names).
  destruct (select _ _) as [|kv l]; [by apply elem_of_nil in Hsel|].
  cbv iota. rewrite (proj2 (Z.ltb_lt 0 _)) by (simpl; lia).
  apply IH; [intros g Hg; apply Hin; by right | lia|].
  intros k gid' row' until Hk. apply Hu. by right.
Qed.

Lemma reconcile_service_again ns :
  draws_of service <= length ns ->
  (forall k, k ∈ ns ->
     (forall h, h ∈ admission_history T -> ah_service_id h = id -> ah_correlation_id h <> uuid_of_N k) /\
     (forall row, admission (kernel_tables T) !! id = Some row -> (adm_updated_at row <= clock_reading k)%Z) /\
     (forall gid row until, authority_grants (kernel_tables T) !! gid = Some row ->
        gr_valid_until row = Some until -> (clock_reading k < until)%Z)) ->
  (exists at_, metadata_ok administrator "registrar reconciliation" at_ = true) ->
  exists l,
    reconcile_service role extra resolver administrator service (MkConn T T [] ns) =
      (let T' := with_admission_history (admission_history T ++ l) T in
       (Ok [], MkConn T' T' [] (drop (draws_of service) ns))) /\
    forall h, h ∈ l -> ah_service_id h = id.
Proof.
  intros Hlen Hk Hm. unfold draws_of in *.
  destruct ns as [|n1 [|n2 [|n3 ns]]]; try (simpl in Hlen; lia). simpl in Hlen.
  destruct (reconcile_communication_again n2 n3 ns) as (l & Hc & Hl); [lia | | done |].
  { intros k Hkin. destruct (Hk k) as (? & ? & _); [by right|]. done. }
  exists l. split; [|done]. cbv zeta in *. unfold reconcile_service.
  rewrite bind_run, reconcile_identity_again. cbv iota.
  rewrite bind_run, reconcile_binding_again. cbv iota.
  rewrite bind_run, Hc. cbv iota.
  rewrite bind_run, reconcile_grants_again; [|done | done | rewrite length_drop; lia |].
  - cbv iota. rewrite mret_run, drop_drop. simpl. do 3 f_equal.
  - intros k gid row until Hkin. apply (Hk k). apply subseteq_drop in Hkin. set_solver.
Qed.
End service_again.
Lemma btree_insert_In {V} k (v : V) m k' v' :
  (k', v') ∈ btree_insert k v m -> (k', v') = (k, v) \/ (k', v') ∈ m.
Proof.
  induction m as [|[k0 v0] m IH]; simpl; [set_solver|].
  destruct (String.compare k k0); set_solver.
Qed.

Definition total_draws (services : list ServiceSpec) : nat := sum_list_with draws_of services.

Lemma reconcile_services_again T services draws changes ns L :
  NoDup (ids services) ->
  (forall service, service ∈ services ->
    exists id, names service id /\ in_place resolver draws service id (kernel_tables T)) ->
  (services <> [] -> exists at_, metadata_ok administrator "registrar reconciliation" at_ = true) ->
  (forall n, n ∈ ns -> suits T n) -> total_draws services <= length ns ->
  (forall h service id, h ∈ L -> service ∈ services -> names service id -> ah_service_id h <> id) ->
  (forall entry, entry ∈ changes -> entry.2 = []) ->
  let T1 := with_admission_history (admission_history T ++ L) T in
  exists changes' L' ns',
    reconcile_services role extra resolver administrator services changes (MkConn T1 T1 [] ns) =
      (let T2 := with_admission_history (admission_history T ++ L') T in
       (Ok changes', MkConn T2 T2 [] ns')) /\
    forall entry, entry ∈ changes' -> entry.2 = [].
Proof.
  intros Hnd Hplace Hmeta Hsuits. revert changes ns L Hsuits.
  induction services as [|service services IH]; intros changes ns L Hsuits Hlen HL Hch T1.
  { by exists changes, L, ns. }
  cbn [total_draws sum_list_with] in Hlen. fold (total_draws services) in Hlen.
  cbn [ids fmap list_fmap] in Hnd. apply NoDup_cons in Hnd as [Hin Hnd].
  destruct (Hplace service) as (id & Hid & Hp); [left|].
  destruct (reconcile_service_again service id Hid draws T1 Hp ns) as (l & Hrun & Hl).
  - lia.
  - intros k Hk. destruct (Hsuits k Hk) as [Hn Ha Hg]. split_and!; [|intros row; apply Ha|exact Hg].
    intros h [Hh|Hh]%elem_of_app Hs; [by apply Hn|].
    destruct (HL h service id); [done | left | done | done].
  - by apply Hmeta.
  - cbv zeta in Hrun. cbn [reconcile_services]. rewrite bind_run, Hrun. cbv iota.
    unfold T1. simpl. rewrite <-app_assoc.
    apply IH; try done.
    + intros s Hs. apply Hplace. by right.
    + intros _. by apply Hmeta.
    + intros n Hn. apply Hsuits. by apply subseteq_drop in Hn.
    + rewrite length_drop. lia.
    + intros h s k [Hh|Hh]%elem_of_app Hs Hk; [apply (HL h s); [done | by right | done]|].
      rewrite (Hl h Hh). intros ->. apply Hin. rewrite Hid, <-Hk.
      by apply (list_elem_of_fmap_2 (fun s => uuid_parse (spec_service_id s))).
    + intros [k v] [[= -> ->]|Hkv]%btree_insert_In; [done | by apply Hch].
Qed.
End settled.
(** ** The theorems *)

Lemma reconcile_in_place role extra resolver administrator manifest c changes c' service :
  NoDup (ids (manifest_services manifest)) -> (forall n, n ∈ supply c -> new_to (durable c) n) ->
  reconcile role extra resolver administrator manifest c = (Ok changes, c') ->
  service ∈ manifest_services manifest ->
  exists id, names service id /\ in_place resolver (supply c) service id (kernel_tables (durable c')).
Proof.
  intros Hnd Hnew H Hs.
  edestruct (reconcile_services_Ok (durable c) (supply c)) with (before := fun _ : Uuid => False) as [Hp _];
    try done; eauto.
Qed.

(** C16: What a manifest asks for is there after a reconciliation. If its services are
    distinct and the random values are new, a run that succeeds leaves every service
    in place: its identity active under the manifest's kind and name, its binding
    enabled with the uid the cluster reported, its admission as requested, and a
    live grant for each that is listed. It touches no service of another id, and adds
    grants only for the services it names. *)
Theorem reconcile_establishes role extra resolver administrator manifest c changes c' :
  NoDup (ids (manifest_services manifest)) -> (forall n, n ∈ supply c -> new_to (durable c) n) ->
  reconcile role extra resolver administrator manifest c = (Ok changes, c') ->
  reconciles (managed manifest) (durable c) (durable c') /\
  forall service, service ∈ manifest_services manifest ->
    exists id, names service id /\
      in_place resolver (supply c) service id (kernel_tables (durable c')).
Proof.
  intros Hnd Hnew H. split; [exact (history_run _ _ _ _ _ (reconcile_history _ _ _ _ _) H)|].
  intros service. by eapply reconcile_in_place.
Qed.

(** C17: Reconciling again changes nothing. After a run that succeeded, the next run
    of the same manifest, with a later clock and new random values, succeeds, reports
    no change for any service, and leaves every table the kernel reads, the grants'
    details and their audit as they are; only the history of admission calls grows. *)
Theorem reconcile_is_idempotent role extra resolver administrator manifest c changes c' ns :
  NoDup (ids (manifest_services manifest)) -> (forall n, n ∈ supply c -> new_to (durable c) n) ->
  reconcile role extra resolver administrator manifest c = (Ok changes, c') ->
  (forall n, n ∈ ns -> suits (durable c') n) ->
  total_draws extra (manifest_services manifest) <= length ns ->
  exists changes' T' ns',
    reconcile role extra resolver administrator manifest (start (durable c') [] ns) =
      (Ok changes', MkConn T' T' [] ns') /\
    (forall entry, entry ∈ changes' -> entry.2 = []) /\
    kernel_tables T' = kernel_tables (durable c') /\ grant_details T' = grant_details (durable c') /\
    grant_audit T' = grant_audit (durable c').
Proof.
  intros Hnd Hnew H Hsuits Hlen.
  assert (forall service, service ∈ manifest_services manifest ->
    (exists id, names service id /\ in_place resolver (supply c) service id (kernel_tables (durable c'))) /\
    exists at_, metadata_ok administrator "registrar reconciliation" at_ = true) as Hp.
  { eapply (reconcile_services_Ok (durable c) (supply c)) with (before := fun _ : Uuid => False);
      try done; eauto. }
  edestruct (reconcile_services_again role extra resolver administrator (durable c')
    (manifest_services manifest) (supply c) [] ns []) as (changes' & L & ns' & Hrun & Hch); try done.
  - intros s Hs. apply (Hp s Hs).
  - destruct (manifest_services manifest) as [|s l]; [done|]. intros _. apply (Hp s). left.
  - by intros ? ? ? ?%elem_of_nil.
  - by intros ? ?%elem_of_nil.
  - rewrite app_nil_r in Hrun. replace (with_admission_history (admission_history (durable c')) (durable c'))
      with (durable c') in Hrun by (by destruct (durable c')).
    eexists changes', _, ns'. split; [exact Hrun|]. done.
Qed.
Lemma prune_Ok manifest administrator c removed c' :
  prune manifest administrator c = (Ok removed, c') ->
  prunes manifest (durable c) (durable c') /\
  (forall id row, enrollment_bindings (kernel_tables (durable c')) !! id = Some row ->
     seb_enabled row = true -> uuid_print id ∈ spec_service_id <$> manifest_services manifest) /\
  (forall id row, authority_grants (kernel_tables (durable c')) !! id = Some row ->
     gr_revoked_at row = None -> grant_wanted (wanted_grants manifest) row = true).
Proof.
  unfold prune. intros H.
  apply db_bind_Ok in H as (accounts & c1 & [Hd _]%autocommit_drawn & H).
  apply db_bind_Ok in H as (live & c2 & [[= <- Hd2] _]%autocommit_drawn & H).
  apply db_bind_Ok in H as (rs & c3 & H & [-> ->]%mret_Ok).
  apply (disable_bindings_prunes manifest) in Hd as [Hp Hb].
  apply prune_grants_Ok in H as (Hp2 & Hb2 & Hsame & Hrev).
  - rewrite <-Hd2 in *. split_and!; [by etrans | intros id row; rewrite Hb2; apply Hb|].
    intros id row Hrow Hn. destruct (grant_wanted _ row) eqn:Hw; [done|]. exfalso.
    destruct (prunes_grants _ _ _ Hp2 id) as [Heq|(row0 & t & _ & _ & _ & Ht)];
      [|rewrite Hrow in Ht; simplify_eq].
    destruct (Hrev id row) as [now Hnow]; [|done|].
    + apply select_In. by rewrite <-Heq, bool_decide_true.
    + rewrite Hrow in Hnow. injection Hnow as Hnow. by rewrite Hnow in Hn.
  - apply NoDup_fmap_fst.
    + intros id r1 r2 [H1 _]%select_In [H2 _]%select_In. congruence.
    + unfold live_grants, select. apply NoDup_filter, NoDup_map_to_list.
  - rewrite <-Hd2. intros id row [Hrow Hn%bool_decide_eq_true]%select_In. done.
Qed.

(** C18: Pruning withdraws what the manifest does not list, and nothing else. After a
    run that succeeds every enabled binding is of a service the manifest spells, and
    every grant that is not revoked is listed; a binding or grant that is listed is as
    it was, and an action whose grants are not listed finds no grant in the kernel. *)
Theorem prune_withdraws manifest administrator c removed c' :
  prune manifest administrator c = (Ok removed, c') ->
  prunes manifest (durable c) (durable c') /\
  (forall id row, enrollment_bindings (kernel_tables (durable c')) !! id = Some row ->
     seb_enabled row = true -> uuid_print id ∈ spec_service_id <$> manifest_services manifest) /\
  (forall id row, authority_grants (kernel_tables (durable c')) !! id = Some row ->
     gr_revoked_at row = None -> grant_listed manifest row) /\
  forall facts now ns,
    (forall scope, scope = "*" \/ scope = Scope_as_str (facts_scope facts) ->
       (uuid_print (ActorId_as_uuid (facts_source facts)), ActionName_as_str (facts_action facts), scope)
         ∉ wanted_grants manifest) ->
    PostgresAuthority_matching_grants facts now (start (kernel_tables (durable c')) [] ns) =
      (Ok [], start (kernel_tables (durable c')) [] ns).
Proof.
  intros (Hp & Hb & Hg)%prune_Ok. split_and!; [done..| |].
  { intros id row Hrow Hr. by apply grant_wanted_listed, (Hg id). }
  intros facts now ns Hnot.
  unfold PostgresAuthority_matching_grants, start. db_run.
  assert (matching_grants_sql facts now (kernel_tables (durable c')) = []) as ->; [|done].
  apply elem_of_nil_inv. intros [id row] [Hrow Hm]%select_In. unfold grant_matches in Hm.
  rewrite !andb_true_iff, !bool_decide_eq_true, !String.eqb_eq in Hm.
  destruct Hm as ((((((((Hs & Ha) & _) & _) & _) & Hsc) & _) & _) & Hr).
  specialize (Hg id row Hrow Hr). apply grant_wanted_listed in Hg.
  apply (Hnot (gr_scope row)); [|by rewrite <-Hs, <-Ha].
  apply orb_true_iff in Hsc as [?%String.eqb_eq|?%String.eqb_eq]; auto.
Qed.

(** C25: The registrar stays inside its role. Whatever the manifest says, whatever
    fails and wherever a run stops, what has become durable is in the tables the role
    may touch: none of the instances, requests, routes, claims, decisions, schemas,
    subscriptions, handshakes or their audits changes; no identity, binding, record of
    admission or grant is deleted; a record of admission changes at most to a later
    revision and a stored grant at most by being revoked, and keeps its details; and
    the two audit trails keep what they had. *)
Theorem registrar_stays_in_role Value value_get value_as_str from_str role extra env c :
  in_role (durable c) (durable (run Value value_get value_as_str from_str role extra env c).2).
Proof.
  revert c. change (history in_role (run Value value_get value_as_str from_str role extra env)).
  unfold run, client_connect. db_walk.
  all: try (eapply history_mono; [|apply reconcile_history]; intros T T'; apply reconciles_in_role).
  all: try apply prune_in_role.
  apply (history_quiet _ (fun _ => True)), quiet_transaction. done.
Qed.

(** A service id that the manifest does not spell as PostgreSQL prints it is
    reconciled and then pruned away: the database casts the text to a uuid, so the
    service is put in place, but pruning compares the texts, and the same run disables
    its binding and revokes every grant it holds. *)
Theorem prune_compares_spelling role extra resolver administrator manifest c changes c1 removed c2
  service id :
  NoDup (ids (manifest_services manifest)) -> (forall n, n ∈ supply c -> new_to (durable c) n) ->
  reconcile role extra resolver administrator manifest c = (Ok changes, c1) ->
  prune manifest administrator c1 = (Ok removed, c2) ->
  service ∈ manifest_services manifest -> names service id ->
  (forall other, other ∈ manifest_services manifest -> spec_service_id other <> uuid_print id) ->
  in_place resolver (supply c) service id (kernel_tables (durable c1)) /\
  (forall row, enrollment_bindings (kernel_tables (durable c2)) !! id = Some row -> seb_enabled row = false) /\
  (forall gid row, authority_grants (kernel_tables (durable c2)) !! gid = Some row ->
     gr_source_service_id row = id -> is_Some (gr_revoked_at row)).
Proof.
  intros Hnd Hnew Hrec (_ & Hb & Hg)%prune_Ok Hs Hid Hspell. split_and!.
  - destruct (reconcile_in_place _ _ _ _ _ _ _ _ _ Hnd Hnew Hrec Hs) as (id' & Hid' & Hp).
    unfold names in *. by simplify_eq.
  - intros row Hrow. destruct (seb_enabled row) eqn:He; [|done].
    specialize (Hb id row Hrow He). apply list_elem_of_fmap in Hb as (other & Heq & Hin).
    by destruct (Hspell other Hin).
  - intros gid row Hrow Hsrc. destruct (gr_revoked_at row) as [t|] eqn:Hr; [eauto|].
    specialize (Hg gid row Hrow Hr). apply existsb_exists in Hg as ([[i a] sc] & Hin & Heq).
    rewrite !andb_true_iff, !String.eqb_eq in Heq. destruct Heq as [[-> _] _].
    rewrite <-list_elem_of_In in Hin. unfold wanted_grants in Hin.
    apply list_elem_of_bind in Hin as (other & Hin & Hother).
    apply list_elem_of_fmap in Hin as (grant & [= Hsp _ _] & _). rewrite Hsrc in Hsp.
    by destruct (Hspell other Hother).
Qed.

(** No identity is added. *)
Definition adds_no_identity (T T' : AdminTables) : Prop := forall id,
  identities (kernel_tables T) !! id = None -> identities (kernel_tables T') !! id = None.

#[local] Instance adds_no_identity_preorder : PreOrder adds_no_identity.
Proof. unfold adds_no_identity. split; [by intros T id | intros T1 T2 T3 H1 H2 id ?; auto]. Qed.

Lemma same_identities T T' :
  identities (kernel_tables T') = identities (kernel_tables T) -> adds_no_identity T T'.
Proof. intros Heq id. by rewrite Heq. Qed.

Lemma set_admission_each_tables id enabled administrator clock correlation more T outcome T' :
  set_admission_each id enabled administrator clock correlation more T = Ok (outcome, T') ->
  exists a, kernel_tables T' = with_admission a (kernel_tables T).
Proof.
  revert correlation T. induction more as [|next more IH]; intros correlation T H;
    cbn [set_admission_each] in H; result_inv;
    match goal with H : set_admission _ _ _ _ _ _ _ = Ok (_, ?t) |- _ =>
      apply set_admission_Ok in H as (_ & (h & HT & _) & _) end;
    [|destruct (IH _ _ H) as (adm & ->)]; rewrite HT; by eexists.
Qed.

Lemma set_admission_each_identities id enabled administrator clock correlation more T outcome T' :
  set_admission_each id enabled administrator clock correlation more T = Ok (outcome, T') ->
  identities (kernel_tables T') = identities (kernel_tables T).
Proof. intros (a & ->)%set_admission_each_tables. done. Qed.

Lemma set_admission_each_grants id enabled administrator clock correlation more T outcome T' :
  set_admission_each id enabled administrator clock correlation more T = Ok (outcome, T') ->
  authority_grants (kernel_tables T') = authority_grants (kernel_tables T).
Proof. intros (a & ->)%set_admission_each_tables. done. Qed.

Lemma registrar_adds_no_identity extra resolver administrator service :
  history adds_no_identity (reconcile_service infernal_registrar extra resolver administrator service).
Proof.
  unfold reconcile_service, reconcile_identity, reconcile_binding, reconcile_communication. db_walk.
  all: try (apply draw_uuids_history; apply _).
  - match goal with H : upsert_identity _ _ _ _ = Ok _ |- _ => unfold upsert_identity in H; result_inv end.
    match goal with H : on_kernel _ _ = Ok _ |- _ => apply on_kernel_Ok in H as (K & H & ->) end.
    match goal with H : upsert_identity_sql _ _ _ _ _ _ = Ok _ |- _ =>
      apply upsert_identity_Ok in H as (_ & _ & [(_ & ->)|[(_ & [row Hrow] & ->)|(_ & _ & Hbad & _)]]) end;
      [by rewrite with_same_kernel | | done].
    intros k Hk. simpl. destruct (decide (k = x)) as [->|Hne]; [congruence|]. by rewrite lookup_insert_ne.
  - match goal with H : upsert_binding _ _ _ _ _ = Ok _ |- _ => unfold upsert_binding in H; result_inv end.
    match goal with H : on_kernel _ _ = Ok _ |- _ => apply on_kernel_Ok in H as (K & H & ->) end.
    match goal with H : upsert_binding_sql _ _ _ _ _ = Ok _ |- _ =>
      apply upsert_binding_Ok in H as (_ & _ & [(_ & ->)|(_ & _ & ->)]) end; by apply same_identities.
  - unfold reconcile_admission in *. result_inv. apply same_identities.
    by eapply set_admission_each_identities.
  - generalize (spec_grants service). intros grants.
    induction grants as [|grant grants IH]; simpl; db_walk; try exact IH.
    + unfold count_grants in *. by result_inv.
    + unfold create_service_grant in *. result_inv.
      match goal with H : create_grant _ _ _ _ _ _ _ _ _ _ _ _ _ _ = Ok _ |- _ =>
        apply create_grant_Ok in H as [[-> _]|(_ & d & au & ->)] end; [done | by apply same_identities].
Qed.

(** With the privileges of [registrar/role.sql] the registrar cannot register a
    service: a reconciliation that succeeds names only services whose identity was
    there before. For a new one the INSERT fires the trigger of migration 0007, whose
    own INSERT the role may not do. *)
Theorem registrar_role_registers_nobody extra resolver administrator manifest c changes c' service id :
  reconcile infernal_registrar extra resolver administrator manifest c = (Ok changes, c') ->
  service ∈ manifest_services manifest -> names service id ->
  is_Some (identities (kernel_tables (durable c)) !! id).
Proof.
  unfold reconcile. generalize (@nil (string * list string)).
  generalize (manifest_services manifest). intros services.
  revert c. induction services as [|first services IH]; intros c before H Hs Hid.
  { by apply elem_of_nil in Hs. }
  cbn [reconcile_services] in H. apply db_bind_Ok in H as (applied & c1 & H1 & H2).
  pose proof (history_run _ _ _ _ _ (registrar_adds_no_identity _ _ _ _) H1) as Hadds.
  assert (is_Some (identities (kernel_tables (durable c1)) !! id) ->
          is_Some (identities (kernel_tables (durable c)) !! id)) as Hback.
  { intros [row Hrow]. destruct (identities (kernel_tables (durable c)) !! id) eqn:Hn; [eauto|].
    by rewrite (Hadds id Hn) in Hrow. }
  apply Hback. apply elem_of_cons in Hs as [->|Hs]; [|by eapply IH].
  unfold reconcile_service in H1. apply db_bind_Ok in H1 as (? & c2 & Hi & Hrest).
  apply (reconcile_identity_Ok _ _ Hid) in Hi as (Hrow & _).
  assert (history (reconciles (names first)) (b ← reconcile_binding resolver first;
    m ← reconcile_communication extra administrator first;
    g ← reconcile_grants first administrator (spec_grants first); mret (x ++ b ++ m ++ g))) as Hh.
  { db_walk; [apply reconcile_binding_history | apply reconcile_communication_history
             | apply reconcile_grants_history]. }
  apply (reconciles_identities _ _ _ (history_run _ _ _ _ _ Hh Hrest) id). by rewrite Hrow.
Qed.

(** Every grant the manifest lists for [id] is covered by some live row. *)
Definition covered (service : ServiceSpec) (id : Uuid) (T : AdminTables) : Prop :=
  forall grant, grant ∈ spec_grants service -> exists gid row,
    authority_grants (kernel_tables T) !! gid = Some row /\
    forall now, grant_live id grant now gid row = true.

Lemma reconcile_grants_covered service id administrator grants c applied c' :
  names service id ->
  (forall grant, grant ∈ grants -> exists gid row,
    authority_grants (kernel_tables (durable c)) !! gid = Some row /\
    forall now, grant_live id grant now gid row = true) ->
  reconcile_grants service administrator grants c = (Ok applied, c') -> durable c' = durable c.
Proof.
  intros Hid. revert c applied. induction grants as [|grant grants IH]; intros c applied Hcov H.
  { simpl in H. by db_inv. }
  cbn [reconcile_grants] in H.
  apply db_bind_Ok in H as (now & c1 & (Hd1 & _ & _)%server_clock_drawn & H).
  apply db_bind_Ok in H as (count & c2 & [Hc _]%autocommit_drawn & H).
  unfold count_grants in Hc.
  apply result_bind_Ok in Hc as (u & ->%(names_eq _ _ Hid) & [= Hcount Hd2]).
  rewrite Hd1 in *. destruct (Hcov grant) as (gid & row & Hrow & Hl); [left|].
  assert ((gid, row) ∈ select (grant_live id grant now) (authority_grants (kernel_tables (durable c))))
    as Hsel by (apply select_In; auto).
  destruct (select _ _) as [|kv l]; [by apply elem_of_nil in Hsel|]. subst count.
  rewrite (proj2 (Z.ltb_lt 0 _)) in H by (simpl; lia).
  rewrite Hd2. eapply IH; [|exact H]. rewrite <-Hd2. intros g Hg. apply Hcov. by right.
Qed.

(** No grant of [id] is added. *)
Definition adds_no_grant (id : Uuid) (T T' : AdminTables) : Prop := forall gid row,
  authority_grants (kernel_tables T') !! gid = Some row -> gr_source_service_id row = id ->
  authority_grants (kernel_tables T) !! gid = Some row.

Lemma reconciles_adds_no_grant own id T T' : ~ own id -> reconciles own T T' -> adds_no_grant id T T'.
Proof.
  intros Ho Hr gid row Hrow Hs. destruct (authority_grants (kernel_tables T) !! gid) as [row0|] eqn:H0.
  - by rewrite <-Hrow, (lookup_weaken _ _ _ _ H0 (reconciles_kept _ _ _ Hr)).
  - destruct (reconciles_new _ _ _ Hr gid row Hrow H0) as [Hown _]. by rewrite Hs in Hown.
Qed.

Lemma reconcile_service_covered role extra resolver administrator service id c applied c' :
  names service id -> covered service id (durable c) ->
  reconcile_service role extra resolver administrator service c = (Ok applied, c') ->
  authority_grants (kernel_tables (durable c')) = authority_grants (kernel_tables (durable c)).
Proof.
  intros Hid Hcov H. unfold reconcile_service in H.
  apply db_bind_Ok in H as (? & c1 & H1 & H). apply db_bind_Ok in H as (? & c2 & H2 & H).
  apply db_bind_Ok in H as (? & c3 & H3 & H). apply db_bind_Ok in H as (? & c4 & H4 & H).
  apply mret_Ok in H as [-> ->].
  assert (forall S (f : Tables -> Result PostgresError (S * Tables)) T a T',
    (forall K K', f K = Ok (a, K') -> authority_grants K' = authority_grants K) ->
    on_kernel f T = Ok (a, T') ->
    authority_grants (kernel_tables T') = authority_grants (kernel_tables T)) as Hk.
  { intros S f T a T' Hf (K & HK & ->)%on_kernel_Ok. by apply Hf. }
  assert (authority_grants (kernel_tables (durable c1)) = authority_grants (kernel_tables (durable c))) as Hg1.
  { unfold reconcile_identity in H1. db_inv. unfold upsert_identity in *. result_inv.
    eapply Hk; [|eassumption]. intros K K' HK.
    by apply upsert_identity_Ok in HK as (_ & _ & [(_ & ->)|[(_ & _ & ->)|(_ & _ & _ & ->)]]). }
  assert (authority_grants (kernel_tables (durable c2)) = authority_grants (kernel_tables (durable c1))) as Hg2.
  { apply (reconcile_binding_Ok _ _ Hid) in H2 as (_ & (b & ->) & _). done. }
  assert (authority_grants (kernel_tables (durable c3)) = authority_grants (kernel_tables (durable c2))) as Hg3.
  { unfold reconcile_communication in H3.
    apply db_bind_Ok in H3 as (? & ? & (Hd1 & _)%server_clock_drawn & H3).
    apply db_bind_Ok in H3 as (? & ? & (Hd2 & _)%new_uuid_drawn & H3).
    apply db_bind_Ok in H3 as (? & ? & (Hd3 & _)%draw_uuids_drawn & H3).
    apply db_bind_Ok in H3 as (? & ? & [Hf _]%autocommit_drawn & [-> ->]%mret_Ok).
    rewrite Hd3, Hd2, Hd1 in Hf. unfold reconcile_admission in Hf. result_inv.
    by eapply set_admission_each_grants. }
  apply (reconcile_grants_covered _ _ _ _ _ _ _ Hid) in H4 as ->; [by rewrite Hg3, Hg2|].
  intros grant Hin. rewrite Hg3, Hg2, Hg1. by apply Hcov.
Qed.

Lemma reconcile_services_covered role extra resolver administrator services changes c changes' c'
  service id :
  NoDup (ids services) -> service ∈ services -> names service id -> covered service id (durable c) ->
  reconcile_services role extra resolver administrator services changes c = (Ok changes', c') ->
  adds_no_grant id (durable c) (durable c').
Proof.
  intros Hnd Hs Hid. revert changes c. induction services as [|first services IH]; intros changes c Hcov H.
  { by apply elem_of_nil in Hs. }
  cbn [ids fmap list_fmap] in Hnd. apply NoDup_cons in Hnd as [Hin Hnd].
  cbn [reconcile_services] in H. apply db_bind_Ok in H as (applied & c1 & H1 & H2).
  assert (forall s, s ∈ services -> names s id -> uuid_parse (spec_service_id first) <> Some id) as Hne.
  { intros s Hsin Hsid Heq. apply Hin. rewrite Heq, <-Hsid.
    by apply (list_elem_of_fmap_2 (fun s => uuid_parse (spec_service_id s))). }
  apply elem_of_cons in Hs as [->|Hs].
  - pose proof (reconcile_service_covered _ _ _ _ _ _ _ _ _ Hid Hcov H1) as Hsame.
    intros gid row Hrow Hsrc. rewrite <-Hsame.
    eapply (reconciles_adds_no_grant _ id);
      [|exact (history_run _ _ _ _ _ (reconcile_services_history _ _ _ _ _ _) H2) | done | done].
    intros (s & Hsin & Hsid). by apply (Hne s).
  - pose proof (history_run _ _ _ _ _ (reconcile_service_history _ _ _ _ _) H1) as Hr.
    intros gid row Hrow Hsrc.
    eapply (reconciles_adds_no_grant _ id _ _ _ Hr); [|done]. eapply (IH Hnd Hs); [|exact H2 | done | done].
    intros grant Hg. destruct (Hcov grant Hg) as (g & r & Hr' & Hl). exists g, r.
    split; [by eapply lookup_weaken, reconciles_kept|]. done.
    Unshelve. by apply (Hne service).
Qed.

(** The registrar takes any live grant for the one it would create: it counts the
    service's grants of the action and scope whatever schema versions they are for and
    whenever they begin. A service whose stored grants are all for other versions is
    given none, and the kernel finds no grant for its action. *)
Theorem reconcile_counts_any_version role extra resolver administrator manifest c changes c' service id
  facts now ns :
  NoDup (ids (manifest_services manifest)) ->
  reconcile role extra resolver administrator manifest c = (Ok changes, c') ->
  service ∈ manifest_services manifest -> names service id -> covered service id (durable c) ->
  ActorId_as_uuid (facts_source facts) = id ->
  (forall gid row, authority_grants (kernel_tables (durable c)) !! gid = Some row ->
     gr_source_service_id row = id ->
     gr_artifact_schema_version_id row <>
       SchemaVersionId_as_uuid (refs_artifact (facts_schema_versions facts))) ->
  PostgresAuthority_matching_grants facts now (start (kernel_tables (durable c')) [] ns) =
    (Ok [], start (kernel_tables (durable c')) [] ns).
Proof.
  intros Hnd H Hs Hid Hcov Hsrc Hver.
  assert (adds_no_grant id (durable c) (durable c')) as Hadds by (by eapply reconcile_services_covered).
  unfold PostgresAuthority_matching_grants, start. db_run.
  assert (matching_grants_sql facts now (kernel_tables (durable c')) = []) as ->; [|done].
  apply elem_of_nil_inv. intros [gid row] [Hrow Hm]%select_In. unfold grant_matches in Hm.
  rewrite !andb_true_iff, !bool_decide_eq_true in Hm.
  destruct Hm as ((((((((Hsource & _) & Hart) & _) & _) & _) & _) & _) & _).
  rewrite Hsrc in Hsource. eapply Hver; [|exact Hsource | exact Hart]. by apply Hadds.
Qed.
End reconciliation.
