(* ===== verification/Deployment.v ===== *)
(** * Deployment: startup, registrar and kernel together

    What a service gets that is deployed as the repository says: the kernel has been
    started on the database, and the registrar has reconciled a manifest that names
    the service. *)

From S2P Require Import Prelude Text Platform Process Database Schema Identity RequestNames.
From S2P Require Import InstanceKeys InstanceRegistry Authority PostgresAuthority Enrollment.
From S2P Require Import TokenReviewer PolicyClient Wiring HttpDto HttpParsing Http Administration.
From S2P Require Import Registrar Startup Reconciliation.

Section deployment.
Context {P : Platform} {HP : PlatformLaws P}.

(** The registrar's constants denote the sentinels that the kernel asks for. *)
Definition sentinels_spelled : Prop :=
  uuid_parse Registrar.NO_ARTIFACT_SCHEMA_VERSION = Some (uuid_of_N 1) /\
  uuid_parse Registrar.NO_ARTIFACT_PERMISSION_POLICY_SCHEMA_VERSION = Some (uuid_of_N 2).

(** What a service asks authority for, without an artifact or a destination *)
Definition plain_facts (id : Uuid) (action : ActionName) (scope : Scope) : PolicyFacts :=
  MkPolicyFacts (MkActorId id) action scope no_artifact_schema_versions None.

(** Names that the constructors of the kernel accept, and the database's checks too *)
Record facts_names (action : ActionName) (scope : Scope) : Prop := {
  names_action : ActionName_new (ActionName_as_str action) = Ok action;
  names_scope : Scope_new (Scope_as_str scope) = Ok scope;
  names_scope_check : scope_check (Scope_as_str scope) = true;
}.

Lemma grant_from_row_run gid row action scope :
  registrar_grant row -> gr_action row = ActionName_as_str action ->
  gr_scope row = "*" \/ gr_scope row = Scope_as_str scope -> facts_names action scope ->
  is_ok (grant_from_row (gid, row)) = true.
Proof.
  intros [_ _ Hd Hf Hu _] Ha Hs [Hna Hns _]. unfold grant_from_row, GrantId_from_str, ActorId_from_str,
    SchemaVersionId_from_str, Grant_restore.
  rewrite !uuid_parse_print, Hd, Hf, Hu, Ha, Hna. cbn [mbind result_bind result_map_err].
  assert (exists s, Scope_new (gr_scope row) = Ok s) as [s ->].
  { destruct Hs as [->| ->]; [by eexists | eauto]. }
  done.
Qed.

(** Whatever the service holds for the action and has not lost is a grant as the
    registrar makes them: without an artifact or a destination, and without bounds. *)
Definition only_registrar_grants (T : AdminTables) (id : Uuid) (action : string) : Prop :=
  forall gid row, authority_grants (kernel_tables T) !! gid = Some row ->
    gr_source_service_id row = id -> gr_action row = action -> gr_revoked_at row = None ->
    registrar_grant row.

Section reconciled.
Context (T0 T : AdminTables) (own : Uuid -> Prop) (Hrec : reconciles own T0 T) (id : Uuid).
Context (Hspelled : sentinels_spelled) (action : ActionName)
  (Hown : only_registrar_grants T0 id (ActionName_as_str action)).

(** Every grant of the action to the service is one the registrar makes. *)
Lemma grants_of_registrar gid row :
  authority_grants (kernel_tables T) !! gid = Some row -> gr_source_service_id row = id ->
  gr_action row = ActionName_as_str action -> gr_revoked_at row = None -> registrar_grant row.
Proof.
  intros Hrow Hsrc Ha Hr. destruct (authority_grants (kernel_tables T0) !! gid) as [row0|] eqn:H0.
  - pose proof (lookup_weaken _ _ _ _ H0 (reconciles_kept _ _ _ Hrec)) as Hk.
    rewrite Hrow in Hk. simplify_eq. by apply (Hown gid row0 H0).
  - apply (reconciles_new _ _ _ Hrec gid row Hrow H0).
Qed.

Lemma plain_facts_matched gid row scope now grant at_ :
  authority_grants (kernel_tables T) !! gid = Some row -> live_for id grant at_ row ->
  spec_action grant = ActionName_as_str action ->
  spec_scope grant = "*" \/ spec_scope grant = Scope_as_str scope -> (0 <= now)%Z ->
  grant_matches (plain_facts id action scope) now gid row = true.
Proof.
  intros Hrow [Hsrc Hact Hsc _ Hlive _] Ha Hs Hnow.
  destruct (grants_of_registrar _ _ Hrow Hsrc) as [H1 H2 Hd Hf Hu Hr]; [congruence | done|].
  destruct Hspelled as [S1 S2]. rewrite S1 in H1. rewrite S2 in H2. simplify_eq.
  unfold grant_matches. cbn. rewrite !bool_decide_true by congruence.
  rewrite Hu, Hf, (proj2 (Z.leb_le _ _) Hnow), Hact, Ha, String.eqb_refl, Hsc.
  destruct Hs as [->| ->]; by rewrite String.eqb_refl, ?orb_true_r.
Qed.

(** The kernel reads the grants of the service. *)
Lemma reconciled_grants_found scope gid row grant at_ now w ns :
  authority_grants (kernel_tables T) !! gid = Some row -> live_for id grant at_ row ->
  spec_action grant = ActionName_as_str action ->
  spec_scope grant = "*" \/ spec_scope grant = Scope_as_str scope -> (0 <= now)%Z ->
  facts_names action scope ->
  exists grants, grants <> [] /\
    PostgresAuthority_matching_grants (plain_facts id action scope) now
      (MkConn (kernel_tables T) w [] ns) =
      (Ok grants, MkConn (kernel_tables T) (kernel_tables T) [] ns).
Proof.
  intros Hrow Hl Ha Hs Hnow Hnames. unfold PostgresAuthority_matching_grants. db_run.
  set (rows := matching_grants_sql _ _ _).
  assert ((gid, row) ∈ rows) as Hin.
  { apply select_In. split; [done|]. by eapply plain_facts_matched. }
  destruct (collect_total grant_from_row rows) as (grants & -> & Hlen).
  - intros [k r] [Hr Hm]%select_In. unfold grant_matches in Hm.
    rewrite !andb_true_iff, !bool_decide_eq_true, !String.eqb_eq in Hm.
    destruct Hm as ((((((((Hsrc & Hact) & _) & _) & _) & Hsc) & _) & _) & Hrev). simpl in Hsrc, Hact.
    apply (grant_from_row_run _ _ action scope); [by eapply grants_of_registrar | done | | done].
    apply orb_true_iff in Hsc as [?%String.eqb_eq|?%String.eqb_eq]; auto.
  - exists grants. split; [|done]. intros ->. destruct rows; [by apply elem_of_nil in Hin | done].
Qed.
End reconciled.

(** A decision without an artifact is recorded on a migrated database. *)
Lemma record_plain_run decision T w ns :
  facts_names (facts_action (decision_facts decision)) (facts_scope (decision_facts decision)) ->
  facts_schema_versions (decision_facts decision) = no_artifact_schema_versions ->
  facts_destination (decision_facts decision) = None ->
  is_Some (identities T !! ActorId_as_uuid (facts_source (decision_facts decision))) ->
  is_Some (identities T !! ActorId_as_uuid (decision_evaluator decision)) ->
  is_Some (schema_versions T !! uuid_of_N 1) -> is_Some (schema_versions T !! uuid_of_N 2) ->
  authority_decisions T !! DecisionId_as_uuid (decision_id decision) = None ->
  (0 <= decision_decided_at decision)%Z ->
  let T' := with_authority_decisions
    (<[DecisionId_as_uuid (decision_id decision) := decision_row decision]> (authority_decisions T)) T in
  PostgresAuthority_record decision (MkConn T w [] ns) = (Ok tt, MkConn T' T' [] ns).
Proof.
  intros [Hna Hns Hsc] Hv Hd Hsrc Hev H1 H2 Hfree Hat T'.
  assert (insert_decision_sql (DecisionId_as_uuid (decision_id decision)) (decision_row decision) T =
    Ok (1%Z, T')) as Hrun.
  { unfold T', insert_decision_sql, references.
    assert (dotted_name_check (dec_action (decision_row decision)) = true) as ->.
    { apply valid_action_name_check. unfold ActionName_new in Hna. simpl.
      by destruct (is_valid_action_name _). }
    unfold decision_row in *. rewrite Hv, Hd. cbn [dec_action dec_scope dec_verdict dec_decided_at
      dec_source_service_id dec_destination_service_id dec_evaluator_service_id fmap option_fmap option_map
      dec_artifact_schema_version_id dec_permission_policy_schema_version_id].
    rewrite Hsc, (proj2 (Z.leb_le _ _) Hat), (bool_decide_true _ Hfree), (bool_decide_true _ Hsrc),
      (bool_decide_true _ Hev), (bool_decide_true _ H1), (bool_decide_true _ H2).
    by destruct (decision_verdict decision). }
  unfold PostgresAuthority_record. rewrite bind_run, connection_run. cbv iota.
  rewrite bind_run. erewrite autocommit_run by exact Hrun. done.
Qed.

(** C15: A deployed service is authorized. The kernel has been started on the database and
    the registrar's run with a manifest that lists the service with an action succeeded.
    Unless the service held an unrevoked grant for the action that is not like those of
    the registrar (for an artifact, to a destination, or bounded in time, which the
    registrar may take for its own), the kernel finds the grant and, when the policy
    evaluator allows, decides to allow the action, and records the decision. *)
Theorem deployed_action_is_authorized {Client PostgresConfig}
  (postgres_config_from_str : string -> Result PostgresError PostgresConfig)
  (env : Process Client) c0 app c1 role extra resolver administrator manifest fs ns changes c2
  service id grant action scope evaluator evaluator_id now n ns' :
  Application_from_env postgres_config_from_str env c0 = (Ok app, c1) ->
  let T1 := cluster_tables (durable c1) in
  NoDup (ids (manifest_services manifest)) -> (forall n, n ∈ 0%N :: ns -> new_to T1 n) ->
  reconcile role extra resolver administrator manifest (start T1 fs ns) = (Ok changes, c2) ->
  let T2 := kernel_tables (durable c2) in
  service ∈ manifest_services manifest -> names service id -> grant ∈ spec_grants service ->
  sentinels_spelled ->
  only_registrar_grants T1 id (ActionName_as_str action) ->
  spec_action grant = ActionName_as_str action ->
  spec_scope grant = "*" \/ spec_scope grant = Scope_as_str scope -> facts_names action scope ->
  let facts := plain_facts id action scope in
  (forall grants, grants <> [] -> exists version,
     evaluator facts grants = Ok (MkPolicyEvaluation Verdict_Allow version)) ->
  is_Some (identities T2 !! ActorId_as_uuid evaluator_id) ->
  authority_decisions T2 !! uuid_of_N n = None -> (0 <= now)%Z ->
  exists decision T3,
    AuthorityService_authorize (postgres_authority evaluator evaluator_id) facts now
      (start T2 [] (n :: ns')) = (Ok decision, MkConn T3 T3 [] ns') /\
    AuthorityDecision_is_allowed decision = true /\
    authority_decisions T3 !! uuid_of_N n = Some (decision_row decision).
Proof.
  intros Hstart T1 Hnd Hnew Hrec T2 Hs Hid Hg Hspelled Hnone Ha Hsc Hnames facts Hallow Hev Hfree Hnow.
  pose proof (history_run _ _ _ _ _ (reconcile_history _ _ _ _ _) Hrec) as Hreconciles.
  destruct (reconcile_in_place _ _ _ _ _ (start T1 fs ns) _ _ _ Hnd Hnew Hrec Hs) as (id' & Hid' & Hp).
  assert (id' = id) as -> by (unfold names in *; congruence).
  destruct (place_grants _ _ _ _ _ Hp grant Hg) as (gid & row & m & Hrow & _ & Hl).
  destruct (reconciled_grants_found _ _ _ Hreconciles id Hspelled action Hnone scope gid row grant
    (clock_reading m) now T2 (n :: ns') Hrow Hl Ha Hsc Hnow Hnames) as (grants & Hne & Hfound).
  destruct (Hallow grants Hne) as [version Heval].
  destruct (start_Ok _ _ _ _ _ Hstart) as [Hmig _].
  assert (schema_versions T2 = schema_versions (kernel_tables T1)) as Hsame.
  { destruct (reconciles_tables _ _ _ Hreconciles) as (i & b & a & g & HT). unfold T2. by rewrite HT. }
  unfold AuthorityService_authorize, start. cbn [postgres_authority authority_repository authority_evaluator
    authority_evaluator_id authority_decisions_recorder PostgresAuthorityRepository
    repository_matching_grants PostgresDecisionRecorder recorder_record].
  rewrite bind_run. fold facts T2 in Hfound. rewrite Hfound, Heval.
  cbn [evaluation_verdict evaluation_policy_bundle_version].
  rewrite bind_run. cbn [new_uuid random entropy durable working faults].
  set (decision := MkAuthorityDecision _ _ _ _ _ _).
  rewrite bind_run, (record_plain_run decision T2 T2 ns'); try done.
  - do 2 eexists. split; [reflexivity|]. split; [done|]. simpl. by rewrite lookup_insert_eq.
  - exact (mk_is_Some _ _ (proj1 (place_identity _ _ _ _ _ Hp))).
  - rewrite Hsame. apply (migrated_artifact _ Hmig).
  - rewrite Hsame. apply (migrated_permission_policy _ Hmig).
Qed.

(** ** Enrollment *)

(** A validated workload of a binding that is alone for its names is bound. *)
Lemma unique_binding_bound T id namespace account uid pod_name pod audiences :
  bindings_unique T ->
  enrollment_bindings T !! id = Some (MkBindingRow namespace account uid true) ->
  let w := MkVerifiedWorkload namespace account uid pod_name pod audiences in
  VerifiedWorkload_new namespace account uid pod_name pod audiences = Ok w ->
  bound_workload T w id.
Proof.
  intros Hu Hrow w Hw. split; simpl.
  - unfold bindings_of_workload. apply select_unique; [done | by rewrite !String.eqb_refl|].
    intros k row Hk Hm. rewrite !andb_true_iff, !String.eqb_eq in Hm. destruct Hm as [[Hn Ha] Hi].
    by eapply (Hu k id row).
  - unfold VerifiedWorkload_new in Hw. unfold EnrollmentBinding_restore.
    destruct (validate_field namespace _); [|done]. destruct (validate_field account _); [|done].
    by destruct (validate_field uid _).
Qed.

(** A deployed service can enroll. After a registrar's run that succeeded with a
    manifest that names the service with a service account, a pod of that account,
    under the uid the cluster reported to the registrar and reports to the kernel, is
    given a challenge for that very service. *)
Theorem deployed_service_is_challenged {Client} post_json (reviewer : KubernetesTokenReviewer (Client:=Client))
  role extra resolver administrator manifest c changes c2 policy service id namespace account uid
  pod_name pod audiences token now ns :
  NoDup (ids (manifest_services manifest)) -> (forall n, n ∈ supply c -> new_to (durable c) n) ->
  bindings_unique (kernel_tables (durable c)) ->
  reconcile role extra resolver administrator manifest c = (Ok changes, c2) ->
  service ∈ manifest_services manifest -> names service id ->
  spec_namespace service = Some namespace -> spec_service_account service = Some account ->
  resolver_uid resolver namespace account = Ok uid ->
  let w := MkVerifiedWorkload namespace account uid pod_name pod audiences in
  VerifiedWorkload_new namespace account uid pod_name pod audiences = Ok w ->
  KubernetesTokenReviewer_review post_json reviewer token ENROLLMENT_AUDIENCE = Ok w ->
  ENROLLMENT_AUDIENCE ∈ audiences ->
  let T := kernel_tables (durable c2) in
  let ch := MkEnrollmentChallenge (be_bytes CHALLENGE_LENGTH (hd 0%N ns)) in
  enrollment_challenges T !! sha256 (EnrollmentChallenge_as_bytes ch) = None ->
  (0 <= now)%Z -> in_i64 (now + ENROLLMENT_CHALLENGE_LIFETIME_SECONDS) ->
  exists T',
    EnrollmentService_issue_challenge_for_workload
      (MkEnrollmentService Tables (kubernetes_reviewer post_json reviewer)
         PostgresEnrollmentBindingRepository PostgresInstanceRegistry policy) token pod now
      (start T [] ns) = (Ok (MkActorId id, ch), MkConn T' T' [] (tl ns)) /\
    enrollment_challenges T' !! sha256 (EnrollmentChallenge_as_bytes ch) =
      Some (MkEnrollmentChallengeRow id (now + ENROLLMENT_CHALLENGE_LIFETIME_SECONDS) None).
Proof.
  intros Hnd Hnew Huniq Hrec Hs Hid Hns Hac Huid w Hw Hreview Haud T ch Hch Hnow Hin.
  pose proof (history_run _ _ _ _ _ (reconcile_history _ _ _ _ _) Hrec) as Hreconciles.
  destruct (reconcile_in_place _ _ _ _ _ _ _ _ _ Hnd Hnew Hrec Hs) as (id' & Hid' & Hp).
  assert (id' = id) as -> by (unfold names in *; congruence).
  destruct (place_binding _ _ _ _ _ Hp namespace account Hns Hac) as (uid' & Huid' & Hrow & _).
  assert (uid' = uid) as -> by congruence.
  eexists. split.
  - apply (challenge_for_workload_run (kubernetes_reviewer post_json reviewer) w policy (MkActorId id));
      try done.
    + intros c'. simpl. unfold lift. by rewrite Hreview.
    + unfold VerifiedWorkload_new in Hw. by result_inv.
    + apply unique_binding_bound; [|done..]. by apply (reconciles_unique _ _ _ Hreconciles).
    + exact (mk_is_Some _ _ (proj1 (place_identity _ _ _ _ _ Hp))).
  - cbn [enrollment_challenges with_enrollment_challenges]. apply lookup_insert_eq.
Qed.

(** ** Enrollment at the HTTP boundary *)

(** The environment of a kernel process: its variables and files, and the reviewer that
    every enrollment request builds from them *)
Definition kernel_environment {Client} (post_json : Client -> string -> string -> TokenReviewRequest ->
  Result string (ApiResponse TokenReviewResponse)) (env : Process Client) (draws : EvaluationDraws) :
  Environment :=
  MkEnvironment (process_env_var env)
    (fun path => match process_read env path with Ok content => Some content | Err _ => None end)
    (reviewer ← KubernetesTokenReviewer_from_env env; Ok (kubernetes_reviewer post_json reviewer))
    draws.

Definition same_instances (T T' : Tables) : Prop := service_instances T' = service_instances T.
#[local] Instance same_instances_preorder : PreOrder same_instances.
Proof. split; [done | intros ? ? ? H1 H2; unfold same_instances in *; congruence]. Qed.

Lemma consume_same_instances s ch now :
  history same_instances (PostgresEnrollment_consume_challenge s ch now).
Proof.
  unfold PostgresEnrollment_consume_challenge. db_walk.
  unfold consume_enrollment_challenge_sql in *.
  destruct (enrollment_challenges T !! _); [|by simplify_eq].
  destruct (_ && _); [by result_inv | by simplify_eq].
Qed.

Lemma registering_reaches_review {Client} post_json (R : KubernetesTokenReviewer (Client:=Client))
  credential request now c :
  same_instances (durable c) (durable (EnrollmentService_authenticate_and_register
    (Application_enrollment_service (Application_new credential) (kubernetes_reviewer post_json R))
    request now c).2) \/
  exists w binding,
    KubernetesTokenReviewer_review post_json R (enrollment_workload_token request) ENROLLMENT_AUDIENCE = Ok w /\
    workload_pod_uid w = enrollment_claimed_pod_uid request /\
    enrollment_bindings (durable c) !! ActorId_as_uuid (public_service_id (enrollment_public_key request)) =
      Some binding /\
    binding = MkBindingRow (workload_namespace w) (workload_service_account w)
                (workload_service_account_uid w) true.
Proof.
  unfold EnrollmentService_authenticate_and_register, Application_enrollment_service.
  cbn [enrollment_reviewer enrollment_bindings_repository enrollment_registry enrollment_lease_policy
    bindings_find_workload bindings_consume_challenge PostgresEnrollmentBindingRepository Application_new
    application_instance_registry kubernetes_reviewer reviewer_review].
  eapply (past_quiet (fun _ => True)); [apply _ | apply pure_quiet, pure_lift|]. intros [] c1 _ Hd1.
  eapply (past_quiet (fun _ => True)); [apply _ | apply pure_quiet, pure_lift|]. intros w c2 [Hw ->]%lift_Ok _.
  past_guard Haud. past_guard Hpod.
  eapply past_quiet; [apply _ | apply find_workload_quiet|]. intros found c3 Hfound Hd3.
  eapply (past_quiet (fun _ => True)); [apply _ | apply pure_quiet, pure_lift|].
  intros binding c4 [Hb ->]%lift_Ok _. destruct found as [b|]; [|done]. injection Hb as ->.
  past_guard He. past_guard Hs.
  apply past_step; [apply _ | apply consume_same_instances|]. intros _ c4 _.
  apply find_workload_Some in Hfound as (_ & row & Hrow & Hn & Ha & Hu & Hen).
  apply negb_false_iff in Hpod, He, Hs. apply String.eqb_eq in Hpod. apply bool_decide_eq_true in Hs.
  exists w, row. rewrite Hs, Hd1 in Hrow. split_and!; [done..|].
  destruct row; simpl in *. congruence.
Qed.

(** C9: At the HTTP boundary an enrollment stores an instance only on the word of the
    cluster. Whatever is sent and whatever fails, an acknowledgement of the database
    included: the registered instances are as they were, or the process had a reviewer
    and the submission was well formed, the API answered the review of the very token
    that was submitted, for the enrollment audience and nothing else, with success, it
    named the token authenticated for that audience as the service account token of
    one pod, the pod that was claimed, and the account, under its uid, is the one that
    the binding of the service of the key is enabled for. *)
Theorem http_enrollment_is_confirmed {J : Serde} {Client} post_json (env : Process Client) draws
  request credential c :
  same_instances (durable c) (durable (dispatch_enrollment (kernel_environment post_json env draws)
    request (Application_new credential) c).2) \/
  exists reviewer enrollment w namespace account uid pod,
    parsed_method request = "POST" /\
    parse_enrollment_request (parsed_content_type request) (parsed_body request) = Ok enrollment /\
    KubernetesTokenReviewer_from_env env = Ok reviewer /\
    confirmed post_json reviewer (enrollment_workload_token enrollment) ENROLLMENT_AUDIENCE w
      namespace account uid pod /\
    enrollment_claimed_pod_uid enrollment = trim pod /\
    enrollment_bindings (durable c) !!
        ActorId_as_uuid (public_service_id (enrollment_public_key enrollment)) =
      Some (MkBindingRow (trim namespace) (trim account) (trim uid) true).
Proof.
  unfold dispatch_enrollment. past_guard Hpost. apply negb_false_iff, String.eqb_eq in Hpost.
  eapply (past_quiet (fun _ => True)); [apply _ | apply pure_quiet, pure_lift|].
  intros enrollment c1 [He ->]%lift_Ok _.
  eapply (past_quiet (fun _ => True)); [apply _ | apply pure_quiet, pure_lift|].
  intros rev c1 [Hr ->]%lift_Ok _.
  eapply (past_quiet (fun _ => True)); [apply _ | unfold unix_time; db_walk; apply quiet_random|].
  intros now c1 _ Hd. simpl in Hr.
  destruct (KubernetesTokenReviewer_from_env env) as [reviewer|] eqn:Hrev; [|done]. injection Hr as <-.
  assert ((authenticate_enrollment enrollment (Application_enrollment_service (Application_new credential)
      (kubernetes_reviewer post_json reviewer)) now c1).2 = 
    (EnrollmentService_authenticate_and_register (Application_enrollment_service
       (Application_new credential) (kubernetes_reviewer post_json reviewer)) enrollment now c1).2) as ->.
  { unfold authenticate_enrollment, map_err, mbind, db_bind. simpl.
    unfold authenticate_enrollment_request, enrollment_authenticates.
    by destruct (EnrollmentService_authenticate_and_register _ _ _ _) as [[]]. }
  destruct (registering_reaches_review post_json reviewer credential enrollment now c1)
    as [Hsame|(w & binding & Hw & Hpod & Hb & ->)]; [by left | right].
  destruct (review_confirmed _ _ _ _ _ Hw) as (namespace & account & uid & pod & Hc).
  destruct (confirmed_workload _ _ _ _ _ _ _ _ _ Hc) as (H1 & H2 & H3 & H4).
  exists reviewer, enrollment, w, namespace, account, uid, pod. split_and!; try done; [congruence|].
  rewrite <-Hd, Hb. congruence.
Qed.
End deployment.
