(* ===== verification/Serving.v ===== *)
(** * Serving: the life of a kernel process

    [serve] of [src/http.rs] and [src/main.rs]: a started kernel answers the
    connections it accepts. A connection has its own thread, so the operations of
    several may alternate on the database: [serving] is one operation of one of them,
    and what is shown of the tables is shown of every sequence of such operations. *)

From S2P Require Import Prelude Text Platform Process Database Schema Identity InstanceKeys.
From S2P Require Import InstanceRegistry ServiceRequests ReplayProtection Admission RequestGate.
From S2P Require Import RequestNames Authority PostgresAuthority Subscriptions Requests.
From S2P Require Import WorkClaims Enrollment TokenReviewer HttpParsing HttpDto PolicyClient.
From S2P Require Import Wiring Http HttpHistory HttpResponses Administration Startup Deployment.

(** ** What a kernel at work does to the tables *)

(** What holds of the rows of a table that were not there before *)
Definition news `{Countable K} {A} (m m' : gmap K A) (Q : K -> A -> Prop) : Prop :=
  forall k row, m' !! k = Some row -> m !! k = None -> Q k row.

Lemma news_same `{Countable K} {A} (m m' : gmap K A) Q : m' = m -> news m m' Q.
Proof. intros -> k row H1 H2. congruence. Qed.

Lemma news_insert `{Countable K} {A} (m : gmap K A) k row (Q : K -> A -> Prop) :
  (m !! k = None -> Q k row) -> news m (<[k := row]> m) Q.
Proof. intros HQ k' row' [[<- <-]|[_ Hk]]%lookup_insert_Some Hn; [auto | congruence]. Qed.

Lemma news_trans `{Countable K} {A} (m1 m2 m3 : gmap K A) (Q Q' : K -> A -> Prop) :
  news m1 m2 Q -> news m2 m3 Q' ->
  (forall k row row', m2 !! k = Some row -> m3 !! k = Some row' -> Q k row -> Q' k row') ->
  news m1 m3 Q'.
Proof.
  intros H1 H2 Hq k row3 H3 Hn. destruct (m2 !! k) as [row2|] eqn:E2; [|by apply H2].
  eapply Hq; eauto.
Qed.

(** It changes nothing that others administer, takes nothing back, and adds requests,
    subscriptions, instances and challenges only as the four predicates say. What it
    routes is an accepted request, and what it lets claim is a route; a key is of an
    instance, a nonce of a known service, instance and key, and a schema version, which
    is only published, of a known owner. *)
Record grows (requests : Uuid * Uuid -> AcceptedRequestRow -> Prop)
  (subscribers registrants challenged : Uuid -> Prop) (T T' : Tables) : Prop := {
  grows_identities : identities T' = identities T;
  grows_bindings : enrollment_bindings T' = enrollment_bindings T;
  grows_admission : admission T' = admission T;
  grows_grants : authority_grants T' = authority_grants T;
  grows_handshake_challenges : handshake_challenges T' = handshake_challenges T;
  grows_handshakes : handshakes T' = handshakes T;
  grows_keys : service_instance_keys T ⊆ service_instance_keys T';
  grows_instances : registry_history T T';
  grows_challenges : enrollment_history T T';
  grows_nonces : replay_history T T';
  grows_subscriptions : subscription_step T T';
  grows_requests : accepted_history T T';
  grows_schemas : schema_versions T ⊆ schema_versions T';
  grows_new_schemas :
    news (schema_versions T) (schema_versions T') (fun _ row =>
      sv_status row = "published" /\ is_Some (identities T' !! sv_owner_service_id row));
  grows_decisions : authority_decisions T ⊆ authority_decisions T';
  grows_routes : routes_step T T';
  grows_claims : claim_step T T';
  grows_new_requests : news (accepted_requests T) (accepted_requests T') requests;
  grows_new_subscriptions :
    news (subscriptions T) (subscriptions T') (fun _ row => subscribers (sub_service_id row));
  grows_new_instances :
    news (service_instances T) (service_instances T') (fun _ row => registrants (si_service_id row));
  grows_new_routes : news (request_routes T) (request_routes T') (fun _ row =>
    is_Some (accepted_requests T' !! (rr_source_service_id row, rr_request_id row)) /\
    is_Some (subscriptions T' !! rr_subscription_id row));
  grows_claim_routes id row' : work_claims T' !! id = Some row' ->
    is_Some (request_routes T' !! wc_route_id row') \/
    exists row, work_claims T !! id = Some row /\ wc_route_id row = wc_route_id row';
  grows_new_challenges : news (enrollment_challenges T) (enrollment_challenges T')
    (fun _ row => challenged (sec_service_id row));
  grows_new_keys : news (service_instance_keys T) (service_instance_keys T')
    (fun _ row => is_Some (service_instances T' !! sik_instance_id row));
  grows_new_nonces : news (request_nonces T) (request_nonces T') (fun key row =>
    is_Some (service_instance_keys T' !! key.1) /\ is_Some (identities T' !! rn_service_id row) /\
    is_Some (service_instances T' !! rn_instance_id row));
}.

(** One table is as it was. *)
Lemma subscription_step_same T T' : subscriptions T' = subscriptions T -> subscription_step T T'.
Proof.
  intros Heq. unfold subscription_step, subscription_history, preserves, one_active. rewrite Heq.
  split; [|done]. intros id row Hrow. exists row. split; [done | by left].
Qed.

Lemma routes_step_same T T' : request_routes T' = request_routes T -> routes_step T T'.
Proof. intros Heq. unfold routes_step, preserves, routes_unique. by rewrite Heq. Qed.

Lemma replay_history_same T T' :
  request_nonces T' = request_nonces T -> request_ids T' = request_ids T -> replay_history T T'.
Proof. intros H1 H2. unfold replay_history. by rewrite H1, H2. Qed.

Lemma accepted_history_same T T' : accepted_requests T' = accepted_requests T -> accepted_history T T'.
Proof. intros H. unfold accepted_history. by rewrite H. Qed.

Lemma claim_step_same T T' : work_claims T' = work_claims T -> claim_step T T'.
Proof.
  intros Hw [Hr Ht Hl]. split; [split|split]; rewrite Hw; eauto; try congruence.
  intros j row Hj. exists row. by split.
Qed.

Lemma kept_subscription T T' id :
  subscription_step T T' -> is_Some (subscriptions T !! id) -> is_Some (subscriptions T' !! id).
Proof. intros [Hs _] [row (row' & Hrow' & _)%Hs]. by exists row'. Qed.

Lemma kept_row `{Countable K} {A} (m m' : gmap K A) k : m ⊆ m' -> is_Some (m !! k) -> is_Some (m' !! k).
Proof. intros Hm [row Hrow]. exists row. by eapply lookup_weaken. Qed.

Lemma subset_row `{Countable K} {A} (m m' : gmap K A) k row row' :
  m ⊆ m' -> m !! k = Some row -> m' !! k = Some row' -> row' = row.
Proof. intros Hm H1 H2. pose proof (lookup_weaken _ _ _ _ H1 Hm). congruence. Qed.

Lemma subscription_kept_service T T' id row row' :
  subscription_step T T' -> subscriptions T !! id = Some row -> subscriptions T' !! id = Some row' ->
  sub_service_id row' = sub_service_id row.
Proof.
  intros [Hs _] (row2 & H2 & Hsucc)%Hs H'. simplify_eq. by destruct Hsucc as [->|(_ & t & _ & ->)].
Qed.

Lemma instance_kept_service T T' id row row' :
  registry_history T T' -> service_instances T !! id = Some row ->
  service_instances T' !! id = Some row' -> si_service_id row' = si_service_id row.
Proof. intros Hh (row2 & H2 & Hsucc)%Hh H'. simplify_eq. by destruct Hsucc. Qed.

Lemma kept_instance T T' id :
  registry_history T T' -> is_Some (service_instances T !! id) -> is_Some (service_instances T' !! id).
Proof. intros Hh [row (row' & Hrow' & _)%Hh]. by exists row'. Qed.

Lemma challenge_kept_service T T' digest row row' :
  enrollment_history T T' -> enrollment_challenges T !! digest = Some row ->
  enrollment_challenges T' !! digest = Some row' -> sec_service_id row' = sec_service_id row.
Proof.
  intros Hh (row2 & H2 & Hsucc)%Hh H'. simplify_eq. by destruct Hsucc as [->|(_ & t & ->)].
Qed.

(** One table changes, as the context says; the others are as they were. *)
Ltac grows_step :=
  constructor; simpl; first
    [ reflexivity | assumption
    | by apply registry_history_same | by apply enrollment_history_same
    | by apply replay_history_same | by apply subscription_step_same
    | by apply accepted_history_same | by apply routes_step_same | by apply claim_step_same
    | by apply news_same | by (intros ? ?; right; eauto)
    | by apply insert_subseteq | apply news_insert; by eauto | idtac ].

Section growth.
Context (requests : Uuid * Uuid -> AcceptedRequestRow -> Prop)
  (subscribers registrants challenged : Uuid -> Prop).
#[local] Notation grows := (grows requests subscribers registrants challenged).

#[export] Instance grows_preorder : PreOrder grows.
Proof.
  split.
  - intros T. constructor; try reflexivity; try by apply news_same. intros id row Hrow. right. eauto.
  - intros T1 T2 T3 H1 H2. constructor;
      destruct H1 as [A1 A2 A3 A4 A5 A6 A7 A8 A9 A10 A11 A12 A13 A0 A14 A15 A16 N1 N2 N3 N4 N5 N6 N7 N8];
      destruct H2 as [B1 B2 B3 B4 B5 B6 B7 B8 B9 B10 B11 B12 B13 B0 B14 B15 B16 M1 M2 M3 M4 M5 M6 M7 M8];
      try congruence; try (etrans; eassumption).
    + eapply news_trans; [exact A0 | exact B0|]. intros k r r' Hr Hr'.
      by rewrite (subset_row _ _ _ _ _ B13 Hr Hr'), B1.
    + eapply news_trans; [exact N1 | exact M1|]. intros k r r' Hr Hr'.
      by rewrite (subset_row _ _ _ _ _ B12 Hr Hr').
    + eapply news_trans; [exact N2 | exact M2|]. intros k r r' Hr Hr'.
      by rewrite (subscription_kept_service _ _ _ _ _ B11 Hr Hr').
    + eapply news_trans; [exact N3 | exact M3|]. intros k r r' Hr Hr'.
      by rewrite (instance_kept_service _ _ _ _ _ B8 Hr Hr').
    + eapply news_trans; [exact N4 | exact M4|]. intros k r r' Hr Hr' [Ha Hs].
      rewrite (subset_row _ _ _ _ _ (proj1 B15) Hr Hr').
      split; [by eapply kept_row | by eapply kept_subscription].
    + intros id row3 E3.
      destruct (M5 id row3 E3) as [?|(row2 & E2 & Heq)]; [by left|].
      destruct (N5 id row2 E2) as [Hr|(row1 & E1 & Heq')]; [left | right; exists row1; split; congruence].
      rewrite <-Heq. by eapply kept_row; [apply B15|].
    + eapply news_trans; [exact N6 | exact M6|]. intros k r r' Hr Hr'.
      by rewrite (challenge_kept_service _ _ _ _ _ B9 Hr Hr').
    + eapply news_trans; [exact N7 | exact M7|]. intros k r r' Hr Hr'.
      rewrite (subset_row _ _ _ _ _ B7 Hr Hr'). by apply kept_instance.
    + eapply news_trans; [exact N8 | exact M8|]. intros k r r' Hr Hr' (Hk & Hs & Hi).
      rewrite (subset_row _ _ _ _ _ (proj1 B10) Hr Hr'), B1.
      split; [by eapply kept_row | split; [done | by eapply kept_instance]].
Qed.

Lemma insert_nonce_references k n row T a T' :
  insert_nonce_sql k n row T = Ok (a, T') -> request_nonces T !! (k, n) = None ->
  is_Some (service_instance_keys T !! k) /\ is_Some (identities T !! rn_service_id row) /\
  is_Some (service_instances T !! rn_instance_id row).
Proof.
  unfold insert_nonce_sql. intros H Hn. result_inv. rewrite Hn in *. result_inv.
  repeat match goal with H : references _ _ _ = Ok _ |- _ => apply references_Ok in H end. done.
Qed.

Lemma publish_references id k n o d t T kv T' :
  publish_schema_version_sql id k n o d t T = Ok (kv, T') -> is_Some (identities T !! o).
Proof.
  unfold publish_schema_version_sql. intros H. result_inv.
  by repeat match goal with H : references _ _ _ = Ok _ |- _ => apply references_Ok in H end.
Qed.

Lemma grows_insert_nonce k n row T a T' : insert_nonce_sql k n row T = Ok (a, T') -> grows T T'.
Proof.
  intros H. pose proof (insert_nonce_history _ _ _ _ _ _ H).
  pose proof (insert_nonce_references _ _ _ _ _ _ H).
  apply insert_nonce_Ok in H as [(_ & -> & _)|(_ & _ & ->)]; [done | grows_step].
Qed.

Lemma grows_insert_request_id s i f t T a T' :
  insert_request_id_sql s i f t T = Ok (a, T') -> grows T T'.
Proof.
  intros H. pose proof (insert_request_id_history _ _ _ _ _ _ _ H).
  apply insert_request_id_Ok in H as [(_ & -> & _)|(_ & _ & ->)]; [done | grows_step].
Qed.

Lemma grows_select_fingerprint s i T f T' : select_fingerprint_sql s i T = Ok (f, T') -> grows T T'.
Proof. by intros [-> _]%select_fingerprint_Ok. Qed.

Lemma grows_replay_audit row T a T' : insert_replay_audit_sql row T = Ok (a, T') -> grows T T'.
Proof. intros ->%insert_replay_audit_Ok. grows_step. Qed.

Lemma grows_insert_subscription id s e m t T n T' :
  subscribers s -> insert_subscription_sql id s e m t T = Ok (n, T') -> grows T T'.
Proof.
  intros Hs H. pose proof (insert_subscription_step _ _ _ _ _ _ _ _ H).
  apply insert_subscription_Ok in H as (_ & _ & _ & ->). grows_step.
Qed.

Lemma grows_disable_subscription id s t T o T' :
  disable_subscription_sql id s t T = Ok (o, T') -> grows T T'.
Proof.
  intros H. pose proof (disable_subscription_step _ _ _ _ _ _ H).
  apply disable_subscription_Ok in H as [(_ & ->)|(row & Hrow & _ & _ & _ & _ & ->)];
    [done | grows_step].
  apply news_insert. congruence.
Qed.

Lemma grows_subscription_audit row T n T' : insert_subscription_audit_sql row T = Ok (n, T') -> grows T T'.
Proof. intros ->%insert_subscription_audit_Ok. grows_step. Qed.

Lemma grows_insert_accepted_request source id row T o T' :
  requests (source, id) row -> insert_accepted_request_sql source id row T = Ok (o, T') -> grows T T'.
Proof.
  intros Hr [(_ & -> & _)|(_ & Hn & ->)]%insert_accepted_request_Ok; [done | grows_step].
Qed.

Lemma grows_acceptance_audit row T n T' : insert_acceptance_audit_sql row T = Ok (n, T') -> grows T T'.
Proof. intros [_ ->]%insert_acceptance_audit_Ok. grows_step. Qed.

Lemma insert_route_references id row T o T' :
  insert_route_sql id row T = Ok (o, T') -> o <> None ->
  is_Some (accepted_requests T !! (rr_source_service_id row, rr_request_id row)) /\
  is_Some (subscriptions T !! rr_subscription_id row).
Proof.
  unfold insert_route_sql, references. intros H Ho. result_inv. case_bool_decide; result_inv; [done|].
  repeat match goal with H : require _ _ = Ok _ |- _ => apply require_Ok, bool_decide_eq_true in H end.
  done.
Qed.

Lemma grows_insert_route id row T o T' : insert_route_sql id row T = Ok (o, T') -> grows T T'.
Proof.
  intros H. pose proof (insert_route_step _ _ _ _ _ H). pose proof (insert_route_references _ _ _ _ _ H) as Hr.
  apply insert_route_Ok in H as [(_ & ->)|(-> & _ & _ & ->)]; [done | grows_step].
Qed.

Lemma grows_insert_decision id row T n T' : insert_decision_sql id row T = Ok (n, T') -> grows T T'.
Proof. intros (_ & Hn & ->)%insert_decision_Ok. grows_step. Qed.

Lemma grows_publish id k n o d t T kv T' :
  publish_schema_version_sql id k n o d t T = Ok (kv, T') -> grows T T'.
Proof.
  intros H. pose proof (publish_references _ _ _ _ _ _ _ _ _ H).
  apply publish_schema_version_Ok in H as (row & -> & -> & Hn & _ & _ & Ho & _ & Hs & _). subst o. grows_step.
Qed.

Lemma grows_renew_instance i e n l T a T' : renew_instance_sql i e n l T = Ok (a, T') -> grows T T'.
Proof.
  intros H. pose proof (renew_instance_history _ _ _ _ _ _ _ H).
  apply renew_instance_Ok in H as [[_ ->]|(_ & row & Hrow & _ & _ & _ & ->)]; [done | grows_step].
  apply news_insert. congruence.
Qed.

Lemma grows_insert_instance i s e r l v T a T' :
  registrants s -> insert_instance_sql i s e r l v T = Ok (a, T') -> grows T T'.
Proof.
  intros Hs H. pose proof (insert_instance_history _ _ _ _ _ _ _ _ _ H).
  unfold insert_instance_sql in H. result_inv. grows_step.
Qed.

Lemma grows_insert_instance_key k i g p f v T a T' :
  insert_instance_key_sql k i g p f v T = Ok (a, T') -> grows T T'.
Proof.
  unfold insert_instance_key_sql. intros H. result_inv.
  repeat match goal with H : require _ _ = Ok _ |- _ => apply require_Ok in H end.
  repeat match goal with H : references _ _ _ = Ok _ |- _ => apply references_Ok in H end.
  rewrite ?bool_decide_eq_true in *. grows_step.
Qed.

Lemma grows_registry_audit s i k a l t T n T' :
  insert_registry_audit_sql s i k a l t T = Ok (n, T') -> grows T T'.
Proof. unfold insert_registry_audit_sql. intros H. result_inv. grows_step. Qed.

Lemma grows_query_one_instance {P : Platform} i T row T' :
  query_one_instance i T = Ok (row, T') -> grows T T'.
Proof. by intros [-> _]%query_one_instance_Ok. Qed.

Lemma grows_insert_challenge d s e T a T' :
  challenged s -> insert_enrollment_challenge_sql d s e T = Ok (a, T') -> grows T T'.
Proof.
  intros Hs H. pose proof (insert_enrollment_challenge_history _ _ _ _ _ _ H).
  unfold insert_enrollment_challenge_sql in H. result_inv. grows_step.
Qed.

Lemma grows_consume_challenge d s now T a T' :
  consume_enrollment_challenge_sql d s now T = Ok (a, T') -> grows T T'.
Proof.
  intros H. pose proof (consume_enrollment_challenge_history _ _ _ _ _ _ H).
  unfold consume_enrollment_challenge_sql in H.
  destruct (enrollment_challenges T !! d) eqn:Hd; [destruct (_ && _)|]; result_inv; try done. grows_step.
  apply news_insert. congruence.
Qed.
End growth.

Create HintDb grows.
#[export] Hint Resolve grows_insert_nonce grows_insert_request_id grows_select_fingerprint
  grows_replay_audit grows_insert_subscription grows_disable_subscription grows_subscription_audit
  grows_insert_accepted_request grows_acceptance_audit grows_insert_route grows_insert_decision
  grows_publish grows_renew_instance grows_insert_instance grows_insert_instance_key
  grows_registry_audit grows_query_one_instance grows_insert_challenge grows_consume_challenge : grows.

(** ** One operation of one thread *)

Section serving.
Context {P : Platform} {HP : PlatformLaws P}.

(** A request is accepted for a source on a decision of the database, that allows its
    source to do it. *)
Definition request_allowed (T : Tables) (key : Uuid * Uuid) (row : AcceptedRequestRow) : Prop :=
  exists request, allowed T (request_facts request) /\
    key = (ActorId_as_uuid (request_source_service request),
           RequestId_as_uuid (Requests.request_id request)) /\
    ar_action row = ActionName_as_str (request_action request) /\
    ar_scope row = Scope_as_str (request_scope request) /\
    ar_artifact_schema_version_id row =
      SchemaVersionId_as_uuid (refs_artifact (request_schema_versions request)) /\
    ar_permission_policy_schema_version_id row =
      SchemaVersionId_as_uuid (refs_permission_policy (request_schema_versions request)).

(** A service subscribes on such a decision, too. *)
Definition subscribing_allowed (T : Tables) (service : Uuid) : Prop := exists actor facts,
  ActorId_as_uuid actor = service /\ subscription_facts actor "subscription.create" facts /\
  allowed T facts.

Definition binding_open (T : Tables) (service : Uuid) : Prop := exists row,
  enrollment_bindings T !! service = Some row /\ seb_enabled row = true.

(** An instance is registered for a service whose binding is enabled, and that was given a
    challenge which has been consumed. *)
Definition enrolled (T : Tables) (service : Uuid) : Prop :=
  binding_open T service /\
  exists digest row, enrollment_challenges T !! digest = Some row /\
    sec_service_id row = service /\ is_Some (sec_consumed_at row).

(** The operations of the repositories that the endpoints call and that write, each with
    what the tables are known to hold when it is called. Nothing that a kernel does
    can undo that, so it is known however the operations of the threads alternate. *)
Inductive serving : Tables -> Tables -> Prop :=
| serving_challenge s ch e c : binding_open (durable c) (ActorId_as_uuid s) ->
    serving (durable c) (durable (PostgresEnrollment_insert_challenge s ch e c).2)
| serving_consume s ch now c :
    serving (durable c) (durable (PostgresEnrollment_consume_challenge s ch now c).2)
| serving_register i c :
    enrolled (durable c) (ActorId_as_uuid (public_service_id (instance_public_key i))) ->
    serving (durable c) (durable (PostgresInstanceRegistry_insert i c).2)
| serving_renew_instance id e n l c :
    serving (durable c) (durable (PostgresInstanceRegistry_renew id e n l c).2)
| serving_reserve r c : serving (durable c) (durable (PostgresReplayProtection_reserve r c).2)
| serving_subscribe s facts c :
    subscription_facts (subscription_service_id s) "subscription.create" facts ->
    allowed (durable c) facts ->
    serving (durable c) (durable (PostgresSubscription_insert s c).2)
| serving_disable s id t facts c :
    subscription_facts s "subscription.disable" facts -> allowed (durable c) facts ->
    serving (durable c) (durable (PostgresSubscription_disable s id t c).2)
| serving_accept request fingerprint c : allowed (durable c) (request_facts request) ->
    serving (durable c) (durable (PostgresRequest_accept request fingerprint c).2)
| serving_materialize route c : serving (durable c) (durable (PostgresRoute_materialize route c).2)
| serving_record decision c : serving (durable c) (durable (PostgresAuthority_record decision c).2)
| serving_publish kind name owner digest now c :
    serving (durable c) (durable (PostgresAuthority_publish kind name owner digest now c).2)
| serving_claim route s i lease now c :
    serving (durable c) (durable (PostgresWorkClaim_claim route s i lease now c).2)
| serving_renew_claim id token lease now c :
    serving (durable c) (durable (PostgresWorkClaim_renew id token lease now c).2)
| serving_transition id token now status c :
    serving (durable c) (durable (PostgresWorkClaim_transition id token now status c).2).

(** An operation on claims leaves the other tables alone, and claims routes. *)
Definition claims_only (T T' : Tables) : Prop :=
  T' = with_work_claims (work_claims T') T /\
  forall id row', work_claims T' !! id = Some row' ->
    is_Some (request_routes T !! wc_route_id row') \/
    exists row, work_claims T !! id = Some row /\ wc_route_id row = wc_route_id row'.

#[local] Instance claims_only_preorder : PreOrder claims_only.
Proof.
  split.
  - intros T. split; [by destruct T | eauto].
  - intros T1 T2 T3 [E1 H1] [E2 H2]. split; [rewrite E2 at 1; rewrite E1; by destruct T1|].
    intros id row3 E3. destruct (H2 id row3 E3) as [Hr|(row2 & E & Heq)].
    + rewrite E1 in Hr. by left.
    + destruct (H1 id row2 E) as [Hr|(row1 & E' & Heq')]; [left | right; exists row1; split; congruence].
      by rewrite <-Heq.
Qed.

Lemma insert_claim_only id rt s i t n l T kv T' :
  insert_claim_sql id rt s i t n l T = Ok (kv, T') -> claims_only T T'.
Proof.
  intros H. assert (is_Some (request_routes T !! rt)) as Hrt.
  { unfold insert_claim_sql, references in H. result_inv.
    repeat match goal with H : require _ _ = Ok _ |- _ => apply require_Ok, bool_decide_eq_true in H end.
    done. }
  apply insert_claim_Ok in H as (_ & _ & _ & ->). split; [done|]. simpl.
  intros j row [[<- <-]|[_ Hj]]%lookup_insert_Some; [by left | right; eauto].
Qed.

Lemma update_claim_only set id T o T' : update_claim_sql set id T = Ok (o, T') -> claims_only T T'.
Proof.
  intros H%update_claim_Ok. destruct (work_claims T !! id) as [old|] eqn:Hid; [|by destruct H as [_ ->]].
  destruct H as (_ & (_ & [Hr _] & _)%protect_work_claim_Ok & _ & ->). split; [done|]. simpl.
  intros j row [[<- <-]|[_ Hj]]%lookup_insert_Some; right; eauto.
Qed.

Lemma query_one_claim_only set id T row T' :
  query_one (update_claim_sql set id) T = Ok (row, T') -> claims_only T T'.
Proof.
  unfold query_one. intros ([o T1] & Hu & H)%result_bind_Ok.
  destruct o; [|done]. injection H as <- <-. by apply update_claim_only in Hu.
Qed.
#[local] Hint Resolve insert_claim_only update_claim_only query_one_claim_only : grows.

Lemma claims_only_grows requests subscribers registrants challenged T T' :
  claims_only T T' -> claim_step T T' -> grows requests subscribers registrants challenged T T'.
Proof.
  intros [Heq Hr] Hs. rewrite Heq in *. destruct T'. simpl in *. grows_step.
Qed.

Lemma claim_operations_only :
  (forall rt s i l now, history claims_only (PostgresWorkClaim_claim rt s i l now)) /\
  (forall id t l now, history claims_only (PostgresWorkClaim_renew id t l now)) /\
  (forall id t now st, history claims_only (PostgresWorkClaim_transition id t now st)).
Proof.
  unfold PostgresWorkClaim_claim, PostgresWorkClaim_renew, PostgresWorkClaim_transition, lock_current,
    renew_sql, transition_sql, expire_sql.
  split_and!; db_walk; eauto with grows.
Qed.

#[local] Hint Resolve grows_preorder : core.

(** The relation is about the tables before the operation; it does not vary. *)
Ltac run_op :=
  match goal with
  | |- grows ?requests ?subscribers ?registrants ?challenged (durable ?c) (durable (?m ?c).2) =>
      refine ((_ : history (grows requests subscribers registrants challenged) m) c)
  end.

Lemma serving_grows T T' :
  serving T T' -> grows (request_allowed T) (subscribing_allowed T) (enrolled T) (binding_open T) T T'.
Proof.
  destruct claim_operations_only as (C1 & C2 & C3). destruct work_claim_histories as (S1 & S2 & S3).
  destruct 1.
  - run_op. unfold PostgresEnrollment_insert_challenge. db_walk; eauto with grows.
  - run_op. unfold PostgresEnrollment_consume_challenge. db_walk; eauto with grows.
  - run_op. unfold PostgresInstanceRegistry_insert, append_registry_audit. db_walk; eauto with grows.
  - run_op. unfold PostgresInstanceRegistry_renew, classify_failed_renewal, append_registry_audit.
    db_walk; eauto with grows.
  - run_op. unfold PostgresReplayProtection_reserve, append_replay_audit. db_walk; eauto with grows.
  - assert (subscribing_allowed (durable c) (ActorId_as_uuid (subscription_service_id s)))
      by (by exists (subscription_service_id s), facts).
    run_op. unfold PostgresSubscription_insert, append_subscription_audit. db_walk; eauto with grows.
  - run_op. unfold PostgresSubscription_disable, classify_failed_disable, append_subscription_audit.
    db_walk; eauto with grows.
  - assert (forall at_, request_allowed (durable c)
      (ActorId_as_uuid (request_source_service request), RequestId_as_uuid (Requests.request_id request))
      (accepted_row request fingerprint at_)) by (intros at_; by exists request).
    run_op. unfold PostgresRequest_accept, append_acceptance_audit. db_walk; eauto with grows.
  - run_op. unfold PostgresRoute_materialize. db_walk; eauto with grows.
  - run_op. unfold PostgresAuthority_record. db_walk; eauto with grows.
  - run_op. unfold PostgresAuthority_publish. db_walk; eauto with grows.
  - apply claims_only_grows; [apply (C1 _ _ _ _ _ c) | apply (S1 _ _ _ _ _ c)].
  - apply claims_only_grows; [apply (C2 _ _ _ _ c) | apply (S2 _ _ _ _ c)].
  - apply claims_only_grows; [apply (C3 _ _ _ _ c) | apply (S3 _ _ _ _ c)].
Qed.

(** What is on the record stays there. *)
Lemma allowed_stays T T' facts :
  authority_decisions T ⊆ authority_decisions T' -> allowed T facts -> allowed T' facts.
Proof. intros Hd (d & Hrow & H). exists d. split; [by eapply lookup_weaken | done]. Qed.

Lemma enrolled_stays T T' service :
  enrollment_bindings T' = enrollment_bindings T -> enrollment_history T T' ->
  enrolled T service -> enrolled T' service.
Proof.
  intros Hb Hh [(row & Hrow & He) (d & ch & Hch & Hs & Hc)]. split; [exists row; by rewrite Hb|].
  destruct (Hh d ch Hch) as (ch' & Hch' & Hsucc). exists d, ch'.
  destruct Hsucc as [->|(Hn & _)]; [done|]. rewrite Hn in Hc. by destruct Hc.
Qed.

Lemma grows_mono (Q Q' : Uuid * Uuid -> AcceptedRequestRow -> Prop) (S S' E E' C C' : Uuid -> Prop) T T' :
  (forall key row, Q key row -> Q' key row) -> (forall s, S s -> S' s) -> (forall s, E s -> E' s) ->
  (forall s, C s -> C' s) ->
  grows Q S E C T T' -> grows Q' S' E' C' T T'.
Proof.
  intros HQ HS HE HC []. constructor; try assumption; intros k row H1 H2; eauto.
Qed.

(** Everything added is accounted for by what the tables hold in the end. *)
Definition served (T T' : Tables) : Prop :=
  grows (request_allowed T') (subscribing_allowed T') (enrolled T') (binding_open T') T T'.

Lemma serving_served T T' : rtc serving T T' -> served T T'.
Proof.
  revert T'. apply (rtc_ind_r (fun T' => served T T')); [|intros T1 T2 _ Hs%serving_grows IH].
  { unfold served. reflexivity. }
  assert (forall facts, allowed T1 facts -> allowed T2 facts) as Ha.
  { intros facts. by eapply allowed_stays, grows_decisions. }
  assert (forall key row, request_allowed T1 key row -> request_allowed T2 key row) as H1.
  { intros key row (request & Hr & Heq). exists request. auto. }
  assert (forall s, subscribing_allowed T1 s -> subscribing_allowed T2 s) as H2.
  { intros s (actor & facts & Hs1 & Hs2 & Hs3). exists actor, facts. auto. }
  assert (forall s, enrolled T1 s -> enrolled T2 s) as H3.
  { intros s. by eapply enrolled_stays; [eapply grows_bindings | eapply grows_challenges]. }
  assert (forall s, binding_open T1 s -> binding_open T2 s) as H4.
  { intros s (row & Hrow & He). exists row. by rewrite (grows_bindings _ _ _ _ _ _ Hs). }
  unfold served. etrans; (eapply grows_mono; [.. | eassumption]); auto.
Qed.
End serving.

(** ** The endpoints, as operations one after another *)

Section endpoints.
Context {P : Platform} {HP : PlatformLaws P}.

(** An operation is one of those of [serving], found by its name. *)
Ltac serving_op :=
  intros ?; apply rtc_once;
  lazymatch goal with
  | |- serving _ (durable (PostgresEnrollment_consume_challenge _ _ _ _).2) => apply serving_consume
  | |- serving _ (durable (PostgresInstanceRegistry_renew _ _ _ _ _).2) => apply serving_renew_instance
  | |- serving _ (durable (PostgresReplayProtection_reserve _ _).2) => apply serving_reserve
  | |- serving _ (durable (PostgresRoute_materialize _ _).2) => apply serving_materialize
  | |- serving _ (durable (PostgresAuthority_record _ _).2) => apply serving_record
  | |- serving _ (durable (PostgresAuthority_publish _ _ _ _ _ _).2) => apply serving_publish
  | |- serving _ (durable (PostgresWorkClaim_claim _ _ _ _ _ _).2) => apply serving_claim
  | |- serving _ (durable (PostgresWorkClaim_renew _ _ _ _ _).2) => apply serving_renew_claim
  | |- serving _ (durable (PostgresWorkClaim_release _ _ _ _).2) => apply serving_transition
  | |- serving _ (durable (PostgresWorkClaim_complete _ _ _ _).2) => apply serving_transition
  end.
#[local] Hint Extern 0 (history (rtc serving) _) => serving_op : db.

Lemma created_subscription id service event_type mode now s :
  Subscription_create id service event_type mode now = Ok s -> subscription_service_id s = service.
Proof. unfold Subscription_create, Subscription_restore. intros H. by result_inv. Qed.

#[export] Instance serving_operations service instance presented :
  CallerOperations (rtc serving) service instance presented.
Proof.
  constructor.
  - intros r _ _. db_walk.
  - intros event_type mode now facts c Hf Ha. unfold SubscriptionService_create.
    apply (run_quiet (fun _ => True) (rtc serving)); [apply quiet_new_uuid|]. intros id c1 _ Hd.
    apply (run_quiet (fun _ => True) (rtc serving)); [apply pure_quiet, pure_lift|].
    intros s c2 [Hs ->]%lift_Ok _. apply (run_step (rtc serving)); [|reflexivity].
    apply rtc_once. apply (serving_subscribe _ facts); [|by rewrite Hd].
    by rewrite (created_subscription _ _ _ _ _ _ Hs).
  - intros id now facts c Hf Ha. unfold SubscriptionService_disable. destruct (_ <? _)%Z; [done|].
    apply rtc_once. by apply (serving_disable service id now facts).
  - intros request fingerprint c _ Ha. apply rtc_once. by apply serving_accept.
  - intros. unfold RouteService_materialize. simpl. db_walk.
  - intros evaluator evaluator_id facts now _. unfold AuthorityService_authorize. simpl.
    apply history_bind; [apply _ | unfold PostgresAuthority_matching_grants; db_walk|].
    intros grants. db_walk.
  - intros. unfold SchemaService_publish. simpl. db_walk.
  - intros. unfold InstanceRegistryService_renew. simpl. db_walk.
  - intros. unfold WorkClaimService_claim. simpl. db_walk.
  - intros. unfold WorkClaimService_renew. simpl. db_walk.
  - intros. unfold WorkClaimService_release. simpl. db_walk.
  - intros. unfold WorkClaimService_complete. simpl. db_walk.
Qed.
End endpoints.

(** ** The dispatcher *)

Section dispatching.
Context {P : Platform} {HP : PlatformLaws P} {J : Serde} (EJ : EvaluateCodec) (I : InfernalClient).
Context {Client : Type} (post_json : Client -> string -> string -> TokenReviewRequest ->
  Result string (ApiResponse TokenReviewResponse)) (env : Process Client).
Context (credential : InstanceCredential).
#[local] Notation kernel := (Application_new credential).
#[local] Notation steps := (rtc serving).

Lemma open_of_found n a u c b c' :
  PostgresEnrollment_find_workload n a u c = (Ok (Some b), c') -> binding_enabled b = true ->
  binding_open (durable c) (ActorId_as_uuid (binding_service_id b)).
Proof.
  intros (_ & row & Hrow & _ & _ & _ & He)%find_workload_Some Hb. exists row. split; [done | congruence].
Qed.

Lemma issuing_steps (R : KubernetesTokenReviewer (Client:=Client)) token pod now :
  history steps (EnrollmentService_issue_challenge_for_workload
    (Application_enrollment_service kernel (kubernetes_reviewer post_json R)) token pod now).
Proof.
  unfold EnrollmentService_issue_challenge_for_workload, EnrollmentService_issue_challenge,
    Application_enrollment_service.
  cbn [enrollment_reviewer enrollment_bindings_repository enrollment_registry enrollment_lease_policy
    bindings_find_workload bindings_insert_challenge PostgresEnrollmentBindingRepository kubernetes_reviewer
    reviewer_review].
  do 2 (apply history_bind; [apply _ | db_walk | intros ?]).
  destruct (negb _); [db_walk|]. destruct (negb _); [db_walk|].
  intros c. apply (run_quiet is_enrollment_repository steps); [apply find_workload_quiet|].
  intros found c1 Hf Hd.
  apply (run_quiet (fun _ => True) steps); [apply pure_quiet, pure_lift|]. intros b c2 [Hb ->]%lift_Ok _.
  destruct found as [found|]; [|done]. injection Hb as ->.
  destruct (binding_enabled b) eqn:He; [|done]. cbn [negb].
  pose proof (open_of_found _ _ _ _ _ _ Hf He) as Ho. rewrite <-Hd in Ho.
  apply (run_step steps); [|reflexivity].
  destruct (now <? 0)%Z; [done|].
  apply (run_quiet (fun _ => True) steps); [apply pure_quiet, pure_lift|]. intros e c3 [_ ->]%lift_Ok _.
  apply (run_quiet (fun _ => True) steps); [unfold EnrollmentChallenge_generate; db_walk; apply quiet_random|].
  intros ch c4 _ Hd4. apply (run_step steps); [|reflexivity].
  apply rtc_once, serving_challenge. by rewrite Hd4.
Qed.

Lemma registering_steps (R : KubernetesTokenReviewer (Client:=Client)) request now :
  history steps (EnrollmentService_authenticate_and_register
    (Application_enrollment_service kernel (kubernetes_reviewer post_json R)) request now).
Proof.
  unfold EnrollmentService_authenticate_and_register, Application_enrollment_service.
  cbn [enrollment_reviewer enrollment_bindings_repository enrollment_registry enrollment_lease_policy
    bindings_find_workload bindings_consume_challenge PostgresEnrollmentBindingRepository Application_new
    application_instance_registry kubernetes_reviewer reviewer_review].
  do 2 (apply history_bind; [apply _ | db_walk | intros ?]).
  destruct (negb _); [db_walk|]. destruct (negb _); [db_walk|].
  intros c. apply (run_quiet is_enrollment_repository steps); [apply find_workload_quiet|].
  intros found c1 Hf Hd.
  apply (run_quiet (fun _ => True) steps); [apply pure_quiet, pure_lift|]. intros b c2 [Hb ->]%lift_Ok _.
  destruct found as [found|]; [|done]. injection Hb as ->.
  destruct (binding_enabled b) eqn:He; [|done]. cbn [negb].
  destruct (bool_decide _) eqn:Hs; [|done]. apply bool_decide_eq_true in Hs. cbn [negb].
  pose proof (open_of_found _ _ _ _ _ _ Hf He) as Ho. rewrite <-Hd, Hs in Ho.
  apply (run_step steps); [apply rtc_once, serving_consume|].
  intros [] c3 (row & _ & _ & _ & _ & Hd3)%consume_challenge_Ok.
  rewrite map_err_durable. unfold InstanceRegistryService_register_verified.
  apply (run_quiet (fun _ => True) steps); [apply pure_quiet, pure_lift|]. intros e c4 [_ ->]%lift_Ok _.
  apply (run_quiet (fun _ => True) steps); [apply pure_quiet, pure_lift|]. intros l c5 [_ ->]%lift_Ok _.
  apply (run_quiet (fun _ => True) steps); [apply pure_quiet, pure_lift|]. intros i c6 [Hi ->]%lift_Ok _.
  apply (run_step steps); [|reflexivity]. apply rtc_once, serving_register.
  unfold RegisteredInstance_create, RegisteredInstance_restore in Hi. result_inv. simpl.
  rewrite Hd3. split; [exact Ho|]. do 2 eexists. simpl. split; [apply lookup_insert_eq|]. split; [done | by eexists].
Qed.

Lemma dispatch_steps draws request :
  history steps (dispatch EJ I (kernel_environment post_json env draws) request kernel).
Proof.
  unfold dispatch. destruct (String.eqb _ _); [|destruct (String.eqb _ _); [|destruct (is_governed_route _)]].
  - unfold dispatch_enrollment_challenge. destruct (negb _); [db_walk|].
    apply history_bind; [apply _ | db_walk | intros challenge].
    apply history_lift_bind; [apply _|]. intros reviewer Hr. simpl in Hr.
    destruct (KubernetesTokenReviewer_from_env env) as [R|]; [|done]. injection Hr as <-.
    apply history_bind; [apply _ | apply history_unix_time, _ | intros now].
    unfold issue_workload_challenge. apply history_bind; [apply _| |intros []; db_walk].
    apply history_map_err, issuing_steps.
  - unfold dispatch_enrollment. destruct (negb _); [db_walk|].
    apply history_bind; [apply _ | db_walk | intros enrollment].
    apply history_lift_bind; [apply _|]. intros reviewer Hr. simpl in Hr.
    destruct (KubernetesTokenReviewer_from_env env) as [R|]; [|done]. injection Hr as <-.
    apply history_bind; [apply _ | apply history_unix_time, _ | intros now].
    unfold authenticate_enrollment. apply history_bind; [apply _| |intros i; db_walk].
    apply history_map_err, registering_steps.
  - apply governed_history; apply _.
  - unfold check_connection. db_walk.
Qed.
End dispatching.

(** ** The process *)

Definition DEFAULT_ADDRESS : string := "0.0.0.0".
Definition DEFAULT_PORT : string := "8080".

(** What surrounds the thread of one connection: the policy evaluator and the API server
    of Kubernetes as they answer at that time, and what a call of the evaluator draws *)
Record Surroundings (Client : Type) := MkSurroundings {
  around_infernal : InfernalClient;
  around_post_json : Client -> string -> string -> TokenReviewRequest ->
    Result string (ApiResponse TokenReviewResponse);
  around_draws : EvaluationDraws;
}.
Arguments MkSurroundings {Client} _ _ _.
Arguments around_infernal {Client} _.
Arguments around_post_json {Client} _ _ _ _ _.
Arguments around_draws {Client} _.

(** What [listener.incoming()] yields, up to some moment: connections, each with its
    surroundings, and failed attempts *)
Definition Incoming (Client : Type) := list (Result string (Stream * Surroundings Client)).

(** The tables of the kernel, for the pool's connections *)
Definition kernel_connections (c : Conn Cluster) : Conn Tables :=
  let T := kernel_tables (cluster_tables (durable c)) in MkConn T T (faults c) (entropy c).

Section process.
Context {P : Platform} {HP : PlatformLaws P} {J : Serde} (EJ : EvaluateCodec).
Context {Client PostgresConfig : Type}
  (postgres_config_from_str : string -> Result PostgresError PostgresConfig) (env : Process Client).
(** [TcpListener::bind] *)
Context (bind : string -> Result string (Incoming Client)).

(** [handle_connection] in its surroundings *)
Definition connection_thread (application : Application) (stream : Stream) (around : Surroundings Client) :
  Conn Tables -> option (bytes * Conn Tables) :=
  handle_connection EJ (around_infernal around)
    (kernel_environment (around_post_json around) env (around_draws around)) stream application.

(** The loop of [serve]: one response is written to every connection, here in the order
    in which they arrive; a failed attempt is reported and skipped. *)
Fixpoint serve_incoming (application : Application) (incoming : Incoming Client) (c : Conn Tables) :
  option (list bytes * Conn Tables) :=
  match incoming with
  | [] => Some ([], c)
  | Err _ :: incoming => serve_incoming application incoming c
  | Ok (stream, around) :: incoming =>
      '(response, c) ← connection_thread application stream around c;
      '(responses, c) ← serve_incoming application incoming c;
      Some (response :: responses, c)
  end.

Definition serve (application : Application) (c : Conn Tables) :
  option (Result string (list bytes) * Conn Tables) :=
  let address := var_or env "BIND_ADDRESS" DEFAULT_ADDRESS in
  let port := var_or env "PORT" DEFAULT_PORT in
  match bind (address +:+ ":" +:+ port) with
  | Err error => Some (Err error, c)
  | Ok incoming =>
      '(responses, c) ← serve_incoming application incoming c; Some (Ok responses, c)
  end.

Definition main (c : Conn Cluster) : option (Result string (list bytes) * Conn Tables) :=
  match Application_from_env postgres_config_from_str env c with
  | (Ok application, c) => serve application (kernel_connections c)
  | (Err error, c) => Some (Err (WiringError_to_string error), kernel_connections c)
  end.

Lemma answer_steps I post_json draws read credential :
  history (rtc serving)
    (answer EJ I (kernel_environment (Client:=Client) post_json env draws) read (Application_new credential)).
Proof. unfold answer. destruct read as [request|[]]; [apply dispatch_steps | db_walk..]. Qed.

Lemma connection_thread_served around stream credential c : exists response c',
  connection_thread (Application_new credential) stream around c = Some (write_response response, c') /\
  framed response /\ rtc serving (durable c) (durable c').
Proof.
  unfold connection_thread.
  destruct (connection_answers EJ (around_infernal around)
    (kernel_environment (around_post_json around) env (around_draws around))
    (Application_new credential) stream c) as (read & stream' & response & c' & _ & Hr & H & Hf).
  exists response, c'. split; [done|]. split; [done|].
  pose proof (answer_steps (around_infernal around) (around_post_json around) (around_draws around)
    read credential c) as Hs. unfold respond in Hr.
  destruct (answer _ _ _ _ _ c) as [[r|r] c2]; simpl in Hs; by injection Hr as <- <-.
Qed.

Definition connections (incoming : Incoming Client) : Incoming Client := List.filter is_ok incoming.

Lemma serve_incoming_served credential incoming c : exists responses c',
  serve_incoming (Application_new credential) incoming c = Some (responses, c') /\
  length responses = length (connections incoming) /\
  (forall written, written ∈ responses ->
     exists response, written = write_response response /\ framed response) /\
  rtc serving (durable c) (durable c').
Proof.
  revert c. induction incoming as [|[[stream around]|error] incoming IH]; intros c; simpl.
  - exists [], c. split_and!; [done..| |done]. by intros ? ?%elem_of_nil.
  - destruct (connection_thread_served around stream credential c) as (response & c1 & -> & Hf & Hs).
    destruct (IH c1) as (responses & c2 & H & Hlen & Hall & Hs2).
    simpl. rewrite H. simpl. do 2 eexists. split; [done|]. split; [simpl; congruence|].
    split; [|by etrans]. intros written [->|Hin]%elem_of_cons; [eauto | by apply Hall].
  - apply IH.
Qed.

End process.

(** ** However the threads alternate *)

Section alternation.
Context {P : Platform} {HP : PlatformLaws P}.

(** C10: However the operations of the threads follow each other on the database, with
    whatever arguments and faults, what administrators keep (identities, bindings,
    admission, grants) and the handshakes stay as they are, accepted requests, decisions
    and schema versions stay, one active subscription per service and event and the
    order of claims are kept, and every new request, subscription or instance is
    accounted for by a decision or an enrollment that the database holds. *)
Theorem alternating_threads_keep_bounds T T' :
  rtc serving T T' ->
  (identities T' = identities T /\ enrollment_bindings T' = enrollment_bindings T /\
   admission T' = admission T /\ authority_grants T' = authority_grants T /\
   handshakes T' = handshakes T) /\
  (accepted_requests T ⊆ accepted_requests T' /\ authority_decisions T ⊆ authority_decisions T' /\
   schema_versions T ⊆ schema_versions T') /\
  (one_active T -> one_active T') /\ (routes_unique T -> routes_unique T') /\
  (claims_wf T -> claims_wf T') /\
  (forall key row, accepted_requests T' !! key = Some row -> accepted_requests T !! key = None ->
     request_allowed T' key row) /\
  (forall id row, subscriptions T' !! id = Some row -> subscriptions T !! id = None ->
     subscribing_allowed T' (sub_service_id row)) /\
  (forall id row, service_instances T' !! id = Some row -> service_instances T !! id = None ->
     enrolled T' (si_service_id row)).
Proof.
  intros [] %serving_served. split_and!; try done;
    [by apply grows_subscriptions0 | by apply grows_routes0 | intros Hc; by apply grows_claims0].
Qed.

(** C2: Work is only claimed on requests that were allowed. From tables without work, in
    whatever order the threads' operations follow each other, a claim is of a route
    that is stored, the route of a request that was accepted, and that on a decision
    of the database which allows its source this action, scope and schema versions. *)
Theorem claimed_work_was_allowed T T' id claim :
  rtc serving T T' -> accepted_requests T = ∅ -> work_claims T = ∅ -> request_routes T = ∅ ->
  work_claims T' !! id = Some claim ->
  exists route row, request_routes T' !! wc_route_id claim = Some route /\
    accepted_requests T' !! (rr_source_service_id route, rr_request_id route) = Some row /\
    request_allowed T' (rr_source_service_id route, rr_request_id route) row.
Proof.
  intros Hs%serving_served Hr Hc Hrt Hclaim.
  destruct (grows_claim_routes _ _ _ _ _ _ Hs id claim Hclaim) as [[route Hroute]|(? & H & _)];
    [|by rewrite Hc, lookup_empty in H].
  destruct (grows_new_routes _ _ _ _ _ _ Hs (wc_route_id claim) route Hroute) as [[row Hrow] _];
    [by rewrite Hrt, lookup_empty|].
  exists route, row. do 2 (split; [done|]). apply (grows_new_requests _ _ _ _ _ _ Hs); [done|].
  by rewrite Hr, lookup_empty.
Qed.
End alternation.
