(* ===== verification/StatusBlind.v ===== *)
(** * StatusBlind: no answer of the kernel depends on the status of a schema version

    Databases that differ in nothing but the statuses of their schema versions cannot
    be told apart by the endpoints: every statement, every operation and every handler
    commutes with blotting the statuses out. *)

From S2P Require Import Prelude Text Platform Process Database Schema Identity InstanceKeys.
From S2P Require Import InstanceRegistry ServiceRequests ReplayProtection Admission RequestGate.
From S2P Require Import RequestNames Authority PostgresAuthority Subscriptions Requests.
From S2P Require Import WorkClaims Enrollment TokenReviewer HttpParsing HttpWire HttpDto PolicyClient.
From S2P Require Import Wiring Http HttpServices HttpHistory Administration SchemaStatus Startup.
From S2P Require Import Deployment Serving.

(** ** Computations that do not see a part of the database *)

Section blind.
Context {S : Type} (phi : S -> S).

Definition on_conn (c : Conn S) : Conn S :=
  MkConn (phi (durable c)) (phi (working c)) (faults c) (entropy c).

(** The computation answers the same, and does the same to the rest. *)
Definition blind {E A} (m : Db S E A) : Prop := forall c, m (on_conn c) = ((m c).1, on_conn (m c).2).

(** The answer of a statement, with what is not seen taken from its tables *)
Definition answered {A} (r : Result PostgresError (A * S)) : Result PostgresError (A * S) :=
  match r with Ok (a, T) => Ok (a, phi T) | Err e => Err e end.

Definition blind_sql {A} (f : S -> Result PostgresError (A * S)) : Prop := forall T,
  f (phi T) = answered (f T).

Lemma answered_bind {A B} (r r' : Result PostgresError A) (k k' : A -> Result PostgresError (B * S)) :
  r = r' -> (forall a, k a = answered (k' a)) -> r ≫= k = answered (r' ≫= k').
Proof. intros <- Hk. destruct r; [apply Hk | done]. Qed.

Definition blind_query {A} (f : S -> A) : Prop := forall T, f (phi T) = f T.

Context {E : Type}.

Lemma blind_ret {A} (a : A) : blind (mret a : Db S E A).
Proof. done. Qed.
Lemma blind_throw {A} (e : E) : blind (throw e : Db S E A).
Proof. done. Qed.
Lemma blind_lift {A} (r : Result E A) : blind (lift r).
Proof. done. Qed.

Lemma blind_bind {A B} (m : Db S E A) (k : A -> Db S E B) :
  blind m -> (forall a, blind (k a)) -> blind (m ≫= k).
Proof. intros Hm Hk c. rewrite !bind_run, Hm. destruct (m c) as [[a|e] c']; [apply Hk | done]. Qed.

Lemma blind_connection (h : string -> E) : blind (connection h).
Proof. intros [d w [|[] fs] ns]; done. Qed.
Lemma blind_transaction (h : PostgresError -> E) : blind (transaction h).
Proof. intros [d w [|[] fs] ns]; done. Qed.
Lemma blind_commit (h : PostgresError -> E) : blind (commit h).
Proof. intros [d w [|[] fs] ns]; done. Qed.

Lemma blind_execute {A} (h : PostgresError -> E) (f : S -> Result PostgresError (A * S)) :
  blind_sql f -> blind (execute h f).
Proof.
  intros Hf [d w [|[] fs] ns]; unfold execute; simpl; rewrite ?Hf; unfold answered; by destruct (f w) as [[]|].
Qed.
Lemma blind_query_step {A} (h : PostgresError -> E) (f : S -> A) : blind_query f -> blind (query h f).
Proof. intros Hf. apply blind_execute. intros T. by rewrite Hf. Qed.
Lemma blind_autocommit {A} (h : PostgresError -> E) (f : S -> Result PostgresError (A * S)) :
  blind_sql f -> blind (autocommit h f).
Proof.
  intros Hf [d w [|[] fs] ns]; unfold autocommit; simpl; rewrite ?Hf; unfold answered; by destruct (f d) as [[]|].
Qed.

Lemma blind_random : blind (random (S:=S) (E:=E)).
Proof. by intros [d w fs [|n ns]]. Qed.
Lemma blind_server_clock : blind (server_clock (S:=S) (E:=E)).
Proof. by intros [d w fs [|n ns]]. Qed.
Lemma blind_new_uuid : blind (new_uuid (S:=S) (E:=E)).
Proof. by intros [d w fs [|n ns]]. Qed.
Lemma blind_getrandom n (e : E) : blind (getrandom (S:=S) n e).
Proof. intros [d w [|[] fs] [|m ns]]; done. Qed.
Lemma blind_unix_time : blind (unix_time (S:=S) (E:=E)).
Proof. by intros [d w fs [|n ns]]. Qed.
Lemma blind_attempt {E' A} (m : Db S E' A) : blind m -> blind (attempt m : Db S E _).
Proof. intros Hm c. unfold attempt. rewrite Hm. by destruct (m c). Qed.
Lemma blind_map_err {E' A} (f : E -> E') (m : Db S E A) : blind m -> blind (map_err f m).
Proof. intros Hm c. unfold map_err. rewrite Hm. by destruct (m c). Qed.
Lemma blind_traverse {A B} (f : A -> Db S E B) l : (forall a, blind (f a)) -> blind (traverse f l).
Proof.
  intros Hf. induction l as [|a l IH]; simpl; [apply blind_ret|].
  apply blind_bind; [done|]. intros b. apply blind_bind; [done|]. intros bs. apply blind_ret.
Qed.
End blind.

Create HintDb blind.
#[export] Hint Resolve blind_ret blind_throw blind_lift blind_connection blind_transaction blind_commit
  blind_random blind_server_clock blind_new_uuid blind_getrandom blind_unix_time : blind.

(** Walks through a computation down to its statements. *)
Ltac blind_walk :=
  repeat (cbv beta zeta; match goal with
  | |- forall _, _ => intros ?
  | |- blind _ (match ?x with _ => _ end) => destruct x
  | |- blind _ (mbind _ _) => apply blind_bind
  | |- blind _ (map_err _ _) => apply blind_map_err
  | |- blind _ (attempt _) => apply blind_attempt
  | |- blind _ (traverse _ _) => apply blind_traverse
  | |- blind _ (execute _ _) => apply blind_execute
  | |- blind _ (query _ _) => apply blind_query_step
  | |- blind _ (autocommit _ _) => apply blind_autocommit
  | |- _ => solve [eauto with blind]
  end).

(** ** Statuses *)

(** Every version as if it had just been published *)
Definition blot (T : Tables) : Tables :=
  with_schema_versions (set_version_status "published" <$> schema_versions T) T.

(** The same but for the statuses *)
Definition indistinguishable (T T' : Tables) : Prop := blot T = blot T'.

#[export] Instance indistinguishable_equivalence : Equivalence indistinguishable.
Proof. split; [intros T | intros T T' | intros T1 T2 T3]; unfold indistinguishable; congruence. Qed.

Lemma blot_lookup T id : schema_versions (blot T) !! id = set_version_status "published" <$> schema_versions T !! id.
Proof. apply lookup_fmap. Qed.

Lemma blot_references T id constraint :
  references (schema_versions (blot T)) id constraint = references (schema_versions T) id constraint.
Proof.
  unfold references. f_equal. apply bool_decide_ext. by rewrite blot_lookup, fmap_is_Some.
Qed.

Lemma select_fmap `{Countable K} {V} (g : V -> V) (f : K -> V -> bool) (m : gmap K V) :
  (forall k v, f k (g v) = f k v) -> select f (g <$> m) = prod_map id g <$> select f m.
Proof.
  intros Hf. unfold select. rewrite map_to_list_fmap.
  induction (map_to_list m) as [|[k v] l IH]; [done|].
  rewrite fmap_cons, !filter_cons. simpl. rewrite Hf.
  repeat case_decide; rewrite ?fmap_cons; simpl; by rewrite ?IH.
Qed.

Lemma latest_fmap {A} (key : A -> Z) (g : A -> A) l :
  (forall a, key (g a) = key a) -> latest key (g <$> l) = g <$> latest key l.
Proof.
  intros Hk. induction l as [|a l IH]; [done|]. rewrite fmap_cons. cbn [latest fold_right].
  fold (latest key (g <$> l)) (latest key l). rewrite IH.
  destruct (latest key l) as [b|]; simpl; [|done]. rewrite !Hk. by case_match.
Qed.

Lemma versions_of_blot kind name T :
  versions_of kind name (blot T) = prod_map id (set_version_status "published") <$> versions_of kind name T.
Proof. by apply select_fmap. Qed.

(** ** The statements *)

#[local] Notation unseeing := (blind blot).

(** A statement that does not look at the table of versions *)
Ltac elsewhere :=
  intros T;
  repeat (cbv zeta; first
    [ reflexivity
    | apply answered_bind; [first [reflexivity | apply blot_references] | intros ?]
    | match goal with
      | |- (match ?x with _ => _ end) = answered _ (match ?y with _ => _ end) =>
          change x with y; destruct y
      end ]).

Lemma blind_insert_nonce k n row : blind_sql blot (insert_nonce_sql k n row).
Proof. unfold insert_nonce_sql. elsewhere. Qed.
Lemma blind_insert_request_id s i f t : blind_sql blot (insert_request_id_sql s i f t).
Proof. unfold insert_request_id_sql. elsewhere. Qed.
Lemma blind_select_fingerprint s i : blind_sql blot (select_fingerprint_sql s i).
Proof. unfold select_fingerprint_sql. elsewhere. Qed.
Lemma blind_replay_audit row : blind_sql blot (insert_replay_audit_sql row).
Proof. unfold insert_replay_audit_sql. elsewhere. Qed.
Lemma blind_insert_subscription id s e m t : blind_sql blot (insert_subscription_sql id s e m t).
Proof. unfold insert_subscription_sql. elsewhere. Qed.
Lemma blind_disable_subscription id s t : blind_sql blot (disable_subscription_sql id s t).
Proof. unfold disable_subscription_sql. elsewhere. Qed.
Lemma blind_subscription_audit row : blind_sql blot (insert_subscription_audit_sql row).
Proof. unfold insert_subscription_audit_sql. elsewhere. Qed.
Lemma blind_insert_accepted_request s id row : blind_sql blot (insert_accepted_request_sql s id row).
Proof. unfold insert_accepted_request_sql. elsewhere. Qed.
Lemma blind_acceptance_audit row : blind_sql blot (insert_acceptance_audit_sql row).
Proof. unfold insert_acceptance_audit_sql. elsewhere. Qed.
Lemma blind_insert_route id row : blind_sql blot (insert_route_sql id row).
Proof. unfold insert_route_sql. elsewhere. Qed.
Lemma blind_insert_decision id row : blind_sql blot (insert_decision_sql id row).
Proof. unfold insert_decision_sql. elsewhere. Qed.
Lemma blind_renew_instance i e n l : blind_sql blot (renew_instance_sql i e n l).
Proof. unfold renew_instance_sql. elsewhere. Qed.
Lemma blind_insert_instance i s e r l v : blind_sql blot (insert_instance_sql i s e r l v).
Proof. unfold insert_instance_sql. elsewhere. Qed.
Lemma blind_insert_instance_key k i g p f v : blind_sql blot (insert_instance_key_sql k i g p f v).
Proof. unfold insert_instance_key_sql. elsewhere. Qed.
Lemma blind_registry_audit s i k a l t : blind_sql blot (insert_registry_audit_sql s i k a l t).
Proof. unfold insert_registry_audit_sql. elsewhere. Qed.
Lemma blind_query_one_instance {P : Platform} i : blind_sql blot (query_one_instance i).
Proof. unfold query_one_instance. elsewhere. Qed.
Lemma blind_insert_challenge d s e : blind_sql blot (insert_enrollment_challenge_sql d s e).
Proof. unfold insert_enrollment_challenge_sql. elsewhere. Qed.
Lemma blind_consume_challenge d s now : blind_sql blot (consume_enrollment_challenge_sql d s now).
Proof. unfold consume_enrollment_challenge_sql. elsewhere. Qed.
Lemma blind_insert_claim id r s i f t l : blind_sql blot (insert_claim_sql id r s i f t l).
Proof. unfold insert_claim_sql. elsewhere. Qed.
Lemma blind_update_claim set id : blind_sql blot (update_claim_sql set id).
Proof. unfold update_claim_sql. elsewhere. Qed.

Lemma blind_query_one {A} (f : Tables -> Result PostgresError (option A * Tables)) :
  blind_sql blot f -> blind_sql blot (query_one f).
Proof.
  unfold query_one. intros Hf T. rewrite Hf. by destruct (f T) as [[[a|] T']|e].
Qed.

(** Publishing looks at the versions of a name, but not at their statuses, and the new
    one is published. *)
Lemma blind_publish id k n o d t : blind_sql blot (publish_schema_version_sql id k n o d t).
Proof.
  intros T. unfold publish_schema_version_sql. cbv zeta. rewrite versions_of_blot.
  apply answered_bind.
  { rewrite (latest_fmap _ (prod_map (fun id => id) (set_version_status "published"))) by done.
    by destruct (latest _ _) as [[id' row]|]. }
  intros [number previous]. do 5 (apply answered_bind; [done | intros ?]).
  apply answered_bind; [|intros ?].
  { rewrite blot_lookup. f_equal. apply bool_decide_ext. apply fmap_None. }
  apply answered_bind; [|intros ?].
  { do 2 f_equal. induction (versions_of k n T) as [|kv l IH]; [done|]. simpl. by rewrite <-IH. }
  apply answered_bind; [done | intros ?].
  simpl. unfold blot. simpl. by rewrite fmap_insert.
Qed.

#[export] Hint Resolve blind_insert_nonce blind_insert_request_id blind_select_fingerprint
  blind_replay_audit blind_insert_subscription blind_disable_subscription blind_subscription_audit
  blind_insert_accepted_request blind_acceptance_audit blind_insert_route blind_insert_decision
  blind_renew_instance blind_insert_instance blind_insert_instance_key blind_registry_audit
  blind_query_one_instance blind_insert_challenge blind_consume_challenge blind_insert_claim
  blind_update_claim blind_query_one blind_publish : blind.
(** A query of another table *)
#[export] Hint Extern 1 (blind_query blot _) => (intros ?; reflexivity) : blind.

(** ** The operations *)

Section operations.
Context {P : Platform}.

Lemma blind_reserve r : unseeing (PostgresReplayProtection_reserve r).
Proof. unfold PostgresReplayProtection_reserve, append_replay_audit. blind_walk. Qed.
Lemma blind_find_admission id : unseeing (PostgresAdmissionRepository_find id).
Proof. unfold PostgresAdmissionRepository_find. blind_walk. Qed.
Lemma blind_subscribe s : unseeing (PostgresSubscription_insert s).
Proof. unfold PostgresSubscription_insert, append_subscription_audit. blind_walk. Qed.
Lemma blind_disable s id t : unseeing (PostgresSubscription_disable s id t).
Proof.
  unfold PostgresSubscription_disable, classify_failed_disable, append_subscription_audit. blind_walk.
Qed.
Lemma blind_list s a : unseeing (Subscriptions.list_subscriptions s a).
Proof. unfold Subscriptions.list_subscriptions. blind_walk. Qed.
Lemma blind_find_active e : unseeing (PostgresSubscription_find_active_by_event_type e).
Proof. unfold PostgresSubscription_find_active_by_event_type. blind_walk. Qed.
Lemma blind_accept r f : unseeing (PostgresRequest_accept r f).
Proof. unfold PostgresRequest_accept, append_acceptance_audit. blind_walk. Qed.
Lemma blind_find_request s id : unseeing (PostgresRequest_find s id).
Proof. unfold PostgresRequest_find. blind_walk. Qed.
Lemma blind_materialize r : unseeing (PostgresRoute_materialize r).
Proof. unfold PostgresRoute_materialize. blind_walk. Qed.
Lemma blind_find_route id : unseeing (PostgresRoute_find id).
Proof. unfold PostgresRoute_find. blind_walk. Qed.
Lemma blind_routes_of_destination s : unseeing (PostgresRoute_list_for_destination s).
Proof. unfold PostgresRoute_list_for_destination. blind_walk. Qed.
Lemma blind_grants facts now : unseeing (PostgresAuthority_matching_grants facts now).
Proof. unfold PostgresAuthority_matching_grants. blind_walk. Qed.
Lemma blind_record d : unseeing (PostgresAuthority_record d).
Proof. unfold PostgresAuthority_record. blind_walk. Qed.
Lemma blind_publication k n o d t : unseeing (PostgresAuthority_publish k n o d t).
Proof. unfold PostgresAuthority_publish. blind_walk. Qed.
Lemma blind_claim r s i l now : unseeing (PostgresWorkClaim_claim r s i l now).
Proof. unfold PostgresWorkClaim_claim, expire_sql. blind_walk. Qed.
Lemma blind_renew_claim id t l now : unseeing (PostgresWorkClaim_renew id t l now).
Proof. unfold PostgresWorkClaim_renew, lock_current, renew_sql. blind_walk. Qed.
Lemma blind_transition id t now s : unseeing (PostgresWorkClaim_transition id t now s).
Proof. unfold PostgresWorkClaim_transition, lock_current, transition_sql. blind_walk. Qed.
Lemma blind_active_routes l now : unseeing (PostgresWorkClaim_active_route_ids l now).
Proof. unfold PostgresWorkClaim_active_route_ids. blind_walk. Qed.
Lemma blind_completed_routes l : unseeing (PostgresWorkClaim_completed_route_ids l).
Proof. unfold PostgresWorkClaim_completed_route_ids. blind_walk. Qed.
Lemma blind_register i : unseeing (PostgresInstanceRegistry_insert i).
Proof. unfold PostgresInstanceRegistry_insert, append_registry_audit. blind_walk. Qed.
Lemma blind_find_instance i : unseeing (PostgresInstanceRegistry_find i).
Proof. unfold PostgresInstanceRegistry_find. blind_walk. Qed.
Lemma blind_renew i e n l : unseeing (PostgresInstanceRegistry_renew i e n l).
Proof.
  unfold PostgresInstanceRegistry_renew, classify_failed_renewal, append_registry_audit. blind_walk.
Qed.
Lemma blind_find_workload n s u : unseeing (PostgresEnrollment_find_workload n s u).
Proof. unfold PostgresEnrollment_find_workload. blind_walk. Qed.
Lemma blind_issue s ch e : unseeing (PostgresEnrollment_insert_challenge s ch e).
Proof. unfold PostgresEnrollment_insert_challenge. blind_walk. Qed.
Lemma blind_consume s ch now : unseeing (PostgresEnrollment_consume_challenge s ch now).
Proof. unfold PostgresEnrollment_consume_challenge. blind_walk. Qed.
End operations.

#[export] Hint Resolve blind_reserve blind_find_admission blind_subscribe blind_disable blind_list
  blind_find_active blind_accept blind_find_request blind_materialize blind_find_route
  blind_routes_of_destination blind_grants blind_record blind_publication blind_claim
  blind_renew_claim blind_transition blind_active_routes blind_completed_routes blind_register blind_find_instance blind_renew
  blind_find_workload blind_issue blind_consume : blind.

(** ** The endpoints *)

Section endpoints.
Context {P : Platform} {J : Serde} (EJ : EvaluateCodec) (I : InfernalClient).
Context {Client : Type} (post_json : Client -> string -> string -> TokenReviewRequest ->
  Result string (ApiResponse TokenReviewResponse)) (env : Process Client) (credential : InstanceCredential).
#[local] Notation kernel := (Application_new credential).

Lemma blind_authorize evaluator evaluator_id facts now :
  unseeing (AuthorityService_authorize (postgres_authority evaluator evaluator_id) facts now).
Proof. unfold AuthorityService_authorize. simpl. blind_walk. Qed.
#[local] Hint Resolve blind_authorize : blind.

Lemma blind_check_authorized {E} evaluator evaluator_id service action :
  unseeing (check_authorized (E:=E) (postgres_authority evaluator evaluator_id) service action).
Proof.
  unfold check_authorized, authorize_subscription_action, authority_authorizes_subscriptions. blind_walk.
Qed.
#[local] Hint Resolve blind_check_authorized : blind.

Lemma blind_subscription_route evaluator evaluator_id request service :
  unseeing (subscription_route request service PostgresSubscriptionRepository
              (postgres_authority evaluator evaluator_id)).
Proof.
  unfold subscription_route, create_subscription, Http.list_subscriptions, disable_subscription,
    return_if, SubscriptionService_create, SubscriptionService_list_active, SubscriptionService_list,
    SubscriptionService_disable. simpl. blind_walk.
Qed.

Lemma blind_routing source request action now :
  unseeing (SubscriptionRouter_routes
    (MkSubscriptionRouter _ PostgresSubscriptionRepository PostgresRouteRepository) source request action now).
Proof.
  unfold SubscriptionRouter_routes, SubscriptionService_find_active_by_event_type, RouteService_materialize.
  simpl. blind_walk.
Qed.
#[local] Hint Extern 1 (blind _ (materialize_routes _ _ _ _ _)) => apply blind_routing : blind.

Lemma blind_request_route evaluator evaluator_id request service envelope :
  unseeing (request_route request service envelope PostgresRequestRepository
    (postgres_authority evaluator evaluator_id)
    (MkSubscriptionRouter _ PostgresSubscriptionRepository PostgresRouteRepository)).
Proof.
  unfold request_route, submit_request, find_request, RequestService_accept, RequestService_find.
  simpl. blind_walk.
Qed.

Lemma blind_admitted request verified draws :
  unseeing (dispatch_admitted EJ I (kernel_environment post_json env draws) request kernel verified).
Proof.
  unfold dispatch_admitted. cbv zeta.
  destruct (String.eqb _ _); [unfold publish_schema, SchemaService_publish; simpl; blind_walk|].
  destruct (String.eqb _ _).
  { unfold list_eligible_routes, EligibleRouteQuery_eligible_for, RouteService_list_for_destination,
      WorkClaimService_active_route_ids, WorkClaimService_completed_route_ids. simpl.
    blind_walk. }
  destruct (strip_prefix _ _ ≫= _) as [id|]; [unfold claim_route, WorkClaimService_claim; simpl; blind_walk|].
  destruct (strip_prefix _ _ ≫= _) as [id|].
  { unfold find_routed_request, RoutedRequestQuery_find_for_destination, RouteService_find,
      RequestService_find. simpl. blind_walk. }
  destruct (strip_prefix _ _ ≫= _) as [id|]; [unfold renew_claim_route, WorkClaimService_renew; simpl; blind_walk|].
  destruct (strip_prefix _ _ ≫= _) as [id|]; [unfold release_claim_route, WorkClaimService_release; simpl; blind_walk|].
  destruct (strip_prefix _ _ ≫= _) as [id|]; [unfold complete_claim_route, WorkClaimService_complete; simpl; blind_walk|].
  destruct (String.eqb _ _); [unfold renew_instance_route, InstanceRegistryService_renew; simpl; blind_walk|].
  intros c. rewrite !bind_run. unfold lift.
  destruct (policy_evaluator_from_env _ _ _ _) as [authority|] eqn:Ha; [|done].
  apply policy_evaluator_postgres in Ha as (evaluator & evaluator_id & ->).
  destruct (_ || _); [apply blind_request_route | apply blind_subscription_route].
Qed.

Lemma blind_verify policy signed now : unseeing
  (ServiceRequestVerifier_verify (MkInstanceRegistryService _ PostgresInstanceRegistry policy) signed now).
Proof.
  unfold ServiceRequestVerifier_verify, find_eligible, InstanceRegistryService_resolver,
    InstanceRegistryService_find_eligible. simpl. blind_walk.
Qed.
#[local] Hint Resolve blind_verify : blind.

Lemma blind_gate policy signed now : unseeing (ServiceRequestGate_admit (kernel_gate policy) signed now).
Proof.
  unfold ServiceRequestGate_admit, verify_signature, verifier_signatures, reserve_replay, service_replay,
    require_communication, service_admission, ReplayProtectionService_protect,
    AdmissionService_require_enabled. simpl. blind_walk.
Qed.

Lemma blind_governed request draws :
  unseeing (dispatch_governed EJ I (kernel_environment post_json env draws) request kernel).
Proof.
  unfold dispatch_governed. destruct (negb _); [blind_walk|].
  destruct (ParsedRequest_as_governed request) as [governed|]; [|blind_walk].
  apply blind_bind; [apply blind_unix_time | intros now].
  unfold authenticate_governed_request. apply blind_bind; [|intros; apply blind_admitted].
  apply blind_bind; [blind_walk | intros signed]. apply blind_map_err, blind_gate.
Qed.

Lemma blind_issuing R token pod now : unseeing (EnrollmentService_issue_challenge_for_workload
  (Application_enrollment_service kernel (kubernetes_reviewer post_json R)) token pod now).
Proof.
  unfold EnrollmentService_issue_challenge_for_workload, EnrollmentService_issue_challenge,
    EnrollmentChallenge_generate, Application_enrollment_service.
  cbn [enrollment_reviewer enrollment_bindings_repository bindings_find_workload bindings_insert_challenge
    PostgresEnrollmentBindingRepository kubernetes_reviewer reviewer_review]. blind_walk.
Qed.

Lemma blind_registering R request now : unseeing (EnrollmentService_authenticate_and_register
  (Application_enrollment_service kernel (kubernetes_reviewer post_json R)) request now).
Proof.
  unfold EnrollmentService_authenticate_and_register, InstanceRegistryService_register_verified,
    Application_enrollment_service.
  cbn [enrollment_reviewer enrollment_bindings_repository enrollment_registry enrollment_lease_policy
    bindings_find_workload bindings_consume_challenge PostgresEnrollmentBindingRepository Application_new
    application_instance_registry kubernetes_reviewer reviewer_review registry_service_repository
    registry_service_lease_policy registry_insert PostgresInstanceRegistry]. blind_walk.
Qed.

(** The reviewer that a request of the enrollment builds *)
Lemma blind_with_reviewer {A} draws (k : WorkloadTokenReviewer Tables -> Db Tables Response A) :
  (forall R, unseeing (k (kubernetes_reviewer post_json R))) ->
  unseeing (reviewer ← lift (result_map_err
      (fun error => json_error "503 Service Unavailable"
                      (EnrollmentErrorResponse_from_enrollment_error error))
      (token_reviewer_from_env (kernel_environment post_json env draws)));
    k reviewer).
Proof.
  intros Hk c. rewrite !bind_run. unfold lift. simpl.
  destruct (KubernetesTokenReviewer_from_env env) as [R|]; [apply Hk | done].
Qed.

Lemma blind_dispatch request draws :
  unseeing (dispatch EJ I (kernel_environment post_json env draws) request kernel).
Proof.
  unfold dispatch. destruct (String.eqb _ _); [|destruct (String.eqb _ _); [|destruct (is_governed_route _)]].
  - unfold dispatch_enrollment_challenge. destruct (negb _); [blind_walk|].
    apply blind_bind; [blind_walk | intros challenge]. apply blind_with_reviewer. intros R.
    apply blind_bind; [apply blind_unix_time | intros now]. unfold issue_workload_challenge.
    apply blind_bind; [apply blind_map_err, blind_issuing | intros []; blind_walk].
  - unfold dispatch_enrollment. destruct (negb _); [blind_walk|].
    apply blind_bind; [blind_walk | intros enrollment]. apply blind_with_reviewer. intros R.
    apply blind_bind; [apply blind_unix_time | intros now]. unfold authenticate_enrollment.
    apply blind_bind; [apply blind_map_err, blind_registering | intros i; blind_walk].
  - apply blind_governed.
  - unfold check_connection. blind_walk.
Qed.

Lemma blind_answer read draws :
  unseeing (answer EJ I (kernel_environment post_json env draws) read kernel).
Proof. unfold answer. destruct read as [request|[]]; [apply blind_dispatch | blind_walk ..]. Qed.

Lemma blind_connection_handler stream draws c :
  handle_connection EJ I (kernel_environment post_json env draws) stream kernel (on_conn blot c) =
    prod_map id (on_conn blot) <$>
      handle_connection EJ I (kernel_environment post_json env draws) stream kernel c.
Proof.
  unfold handle_connection. destruct (read_request stream) as [[read rest]|]; [|done]. simpl.
  unfold respond. rewrite blind_answer. by destruct (answer _ _ _ _ _ c) as [[|] c'].
Qed.

End endpoints.

(** ** The process *)

Section process.
Context {P : Platform} {J : Serde} (EJ : EvaluateCodec) {Client : Type} (env : Process Client)
  (credential : InstanceCredential).
#[local] Notation kernel := (Application_new credential).

Lemma blind_serve incoming c :
  serve_incoming EJ env kernel incoming (on_conn blot c) =
    prod_map id (on_conn blot) <$> serve_incoming EJ env kernel incoming c.
Proof.
  revert c. induction incoming as [|[[stream around]|error] incoming IH]; intros c; [done | | apply IH].
  simpl. unfold connection_thread at 1. rewrite blind_connection_handler. fold (connection_thread EJ env kernel stream around c).
  destruct (connection_thread _ _ _ _ _ c) as [[response c1]|]; [|done]. simpl. rewrite IH.
  by destruct (serve_incoming _ _ _ _ c1) as [[responses c2]|].
Qed.

(** Databases that differ in statuses only get the same responses, and differ in
    statuses only after them. *)
#[export] Instance serve_proper incoming fs ns : Proper (indistinguishable ==> option_Forall2
    (fun a b => a.1 = b.1 /\ indistinguishable (durable a.2) (durable b.2)))
  (fun T => serve_incoming EJ env kernel incoming (start T fs ns)).
Proof.
  intros T T' HT. unfold indistinguishable in HT.
  pose proof (blind_serve incoming (start T fs ns)) as H1.
  pose proof (blind_serve incoming (start T' fs ns)) as H2.
  unfold on_conn in H1, H2. simpl in H1, H2. rewrite <-HT, H1 in H2.
  destruct (serve_incoming _ _ _ _ (start T fs ns)) as [[rs c]|],
    (serve_incoming _ _ _ _ (start T' fs ns)) as [[rs' c']|]; try done; constructor.
  split; [exact (f_equal (from_option fst rs) H2)|].
  exact (f_equal (from_option (fun run => durable run.2) T) H2).
Qed.

Lemma set_schema_status_indistinguishable id status administrator reason correlation at_ D answer D' :
  set_schema_status id status administrator reason correlation at_ D = Ok (answer, D') ->
  indistinguishable (schema_kernel D) (schema_kernel D').
Proof.
  intros [[-> _]|(row & outcome & Hrow & _ & _ & [(_ & _ & ->)|(_ & _ & ->)])]%set_schema_status_Ok;
    [done..|].
  unfold indistinguishable, blot, schema_kernel, with_schema_versions. simpl. f_equal. unfold schema_kernel in *.
  rewrite fmap_insert. symmetry. apply insert_id. by rewrite lookup_fmap, Hrow.
Qed.

Context {HP : PlatformLaws P}.

(** C20: No endpoint looks at the status of a schema version. After an administrator has
    suspended, superseded or retired one, every connection, with whatever faults of the
    database and whatever is drawn, gets the bytes that it would have got without that,
    authorizations, acceptances and publications on this version included, and the
    database goes on as it would have, but for the statuses. *)
Theorem schema_status_changes_no_answer id status administrator reason correlation at_ D answer D'
  incoming fs ns :
  set_schema_status id status administrator reason correlation at_ D = Ok (answer, D') ->
  exists responses c c',
    serve_incoming EJ env kernel incoming (start (schema_kernel D) fs ns) = Some (responses, c) /\
    serve_incoming EJ env kernel incoming (start (schema_kernel D') fs ns) = Some (responses, c') /\
    indistinguishable (durable c) (durable c').
Proof.
  intros H%set_schema_status_indistinguishable.
  destruct (serve_incoming_served EJ env credential incoming (start (schema_kernel D) fs ns))
    as (responses & c & Hc & _).
  destruct (serve_incoming_served EJ env credential incoming (start (schema_kernel D') fs ns))
    as (responses' & c' & Hc' & _).
  pose proof (serve_proper incoming fs ns _ _ H) as Hsame. simpl in Hsame. rewrite Hc, Hc' in Hsame.
  inversion Hsame as [? ? [Hr Hd] | ]. simpl in Hr, Hd. subst responses'. by exists responses, c, c'.
Qed.
End process.
