(* ===== verification/Consistency.v ===== *)
(** * Consistency: the rules of the migrations in every database that can be reached

    The rules of [Constraints] for the tables that administrators use, every way in
    which the tables can change, as a step relation, and what holds of every database
    that is reached from an empty one: the rules, an audit that explains the status of
    every schema version, and rows that the kernel can read. *)

From S2P Require Import Prelude Text Platform Process Database Schema Identity InstanceKeys.
From S2P Require Import InstanceRegistry ServiceRequests ReplayProtection Admission RequestNames.
From S2P Require Import Authority PostgresAuthority Subscriptions Requests WorkClaims Handshakes.
From S2P Require Import Enrollment Administration SchemaStatus Startup Registrar Constraints.
From S2P Require Import HttpHistory Serving.
From Stdlib Require Import Ascii.

(** ** The tables of the administrators *)

Definition name_check (limit : Z) (text : string) : Prop := (1 <= chars_count (btrim text) <= limit)%Z.

(** [0007] *)
Definition admission_history_ok (row : AdmissionHistoryRow) : Prop :=
  (0 <= ah_revision row)%Z /\ ah_outcome row ∈ ["changed"; "no_op"] /\
  name_check 200 (ah_administrator_identity row) /\ name_check 1000 (ah_reason row) /\
  (0 <= ah_committed_at row)%Z.

(** [0009]: the columns of authority_grants that the kernel does not read *)
Definition grant_details_ok (row : GrantDetails) : Prop :=
  name_check 200 (gd_administrator_identity row) /\ name_check 1000 (gd_reason row) /\
  (0 <= gd_created_at row)%Z.

(** [0009], [0019] *)
Definition grant_audit_ok (row : GrantAuditRow) : Prop :=
  ga_outcome row ∈ ["created"; "create_conflict_rejected"; "revoked"; "revoke_no_op"] /\
  name_check 200 (ga_administrator_identity row) /\ name_check 1000 (ga_reason row) /\
  (0 <= ga_recorded_at row)%Z.

(** [0010] *)
Definition status_audit_ok (row : StatusAuditRow) : Prop :=
  ssa_outcome row ∈ ["changed"; "no_op"; "rejected_terminal"; "rejected_unknown_schema"] /\
  name_check 200 (ssa_administrator_identity row) /\ name_check 1000 (ssa_reason row) /\
  (0 <= ssa_recorded_at row)%Z.

Record admin_consistent (A : AdminTables) : Prop := {
  ac_kernel : consistent (kernel_tables A);
  ac_grants id : is_Some (authority_grants (kernel_tables A) !! id) <-> is_Some (grant_details A !! id);
  ac_details : map_Forall (fun _ => grant_details_ok) (grant_details A);
  ac_grant_correlation : unique_by (fun row => Some (gd_correlation_id row)) (grant_details A);
  ac_history : Forall admission_history_ok (admission_history A);
  ac_history_correlation :
    NoDup ((fun row => (ah_service_id row, ah_correlation_id row)) <$> admission_history A);
  ac_audit : Forall grant_audit_ok (grant_audit A);
}.

Record database_consistent (D : SchemaTables) : Prop := {
  dc_admin : admin_consistent (admin_tables D);
  dc_status_audit : Forall status_audit_ok (status_audit D);
  dc_status_correlation :
    NoDup ((fun row => (ssa_schema_version_id row, ssa_correlation_id row)) <$> status_audit D);
}.

(** ** What changes the tables *)

Section steps.
Context {P : Platform}.

(** The operations of the repositories that write. Those that an endpoint calls are
    [serving]; the others are called by the reconciler of handshakes or by nobody. *)
Inductive kernel_write : Tables -> Tables -> Prop :=
| write_serving T T' : serving T T' -> kernel_write T T'
| write_insert_identity i c :
    kernel_write (durable c) (durable (PostgresIdentityRepository_insert i c).2)
| write_save_identity i c : kernel_write (durable c) (durable (PostgresIdentityRepository_save i c).2)
| write_insert_binding b c : kernel_write (durable c) (durable (PostgresEnrollment_insert_disabled b c).2)
| write_set_enabled s e c : kernel_write (durable c) (durable (PostgresEnrollment_set_enabled s e c).2)
| write_revoke_instance i t c :
    kernel_write (durable c) (durable (PostgresInstanceRegistry_revoke i t c).2)
| write_handshake_challenge ch c :
    kernel_write (durable c) (durable (PostgresHandshake_insert_challenge ch c).2)
| write_handshake h c : kernel_write (durable c) (durable (PostgresHandshake_complete h c).2).

(** A statement of an administrator, which commits by itself *)
Inductive administration : AdminTables -> AdminTables -> Prop :=
| administer_identity role id kind name clock A n K :
    upsert_identity_sql role id kind name clock (kernel_tables A) = Ok (n, K) ->
    administration A (with_kernel_tables K A)
| administer_binding id namespace account uid A n K :
    upsert_binding_sql id namespace account uid (kernel_tables A) = Ok (n, K) ->
    administration A (with_kernel_tables K A)
| administer_disable managed A accounts K :
    disable_bindings_sql managed (kernel_tables A) = Ok (accounts, K) ->
    administration A (with_kernel_tables K A)
| administer_admission service enabled administrator reason correlation at_ A outcome A' :
    set_admission service enabled administrator reason correlation at_ A = Ok (outcome, A') ->
    administration A A'
| administer_grant id source action scope artifact policy destination from until administrator reason
    correlation at_ A u A' :
    create_grant id source action scope artifact policy destination from until administrator reason
      correlation at_ A = Ok (u, A') -> administration A A'
| administer_revoke id administrator reason correlation at_ A outcome A' :
    revoke_grant id administrator reason correlation at_ A = Ok (outcome, A') -> administration A A'.

(** Everything that writes to the database: the kernel, the administrators' statements,
    their procedure for schema versions, and the migrations of a start. *)
Inductive database_step : SchemaTables -> SchemaTables -> Prop :=
| step_kernel D T : kernel_write (schema_kernel D) T -> database_step D (with_schema_kernel T D)
| step_administration D A : administration (admin_tables D) A ->
    database_step D (MkSchemaTables A (status_audit D))
| step_status id status administrator reason correlation at_ D answer D' :
    set_schema_status id status administrator reason correlation at_ D = Ok (answer, D') ->
    database_step D D'
| step_migrate clock D T : rows_of clock migrations (schema_kernel D) = Ok T ->
    database_step D (with_schema_kernel T D).

(** The database before the first start *)
Definition empty_database : SchemaTables := MkSchemaTables (MkAdminTables no_tables ∅ [] []) [].

Definition reachable (D : SchemaTables) : Prop := rtc database_step empty_database D.
End steps.

(** ** Spaces around a text *)

Lemma ltrim_spaces_idem s : ltrim_spaces (ltrim_spaces s) = ltrim_spaces s.
Proof. induction s as [|c s IH]; [done|]. simpl. destruct (Ascii.eqb c " ") eqn:Hc; [done|]. simpl. by rewrite Hc. Qed.

Lemma ltrim_spaces_app s t : ltrim_spaces s <> "" -> ltrim_spaces (s +:+ t) = ltrim_spaces s +:+ t.
Proof.
  induction s as [|c s IH]; [done|]. simpl.
  destruct (Ascii.eqb c " "); [apply IH | done].
Qed.

(** Cutting spaces at the end of a text that starts with none leaves such a text. *)
Lemma ltrim_spaces_cut s : ltrim_spaces s = s ->
  ltrim_spaces (reverse (ltrim_spaces (reverse s))) = reverse (ltrim_spaces (reverse s)).
Proof.
  destruct s as [|c s]; [done|]. intros Hs.
  assert (Ascii.eqb c " " = false) as Hc.
  { simpl in Hs. destruct (Ascii.eqb c " ") eqn:Hc; [|done].
    assert (String.length (ltrim_spaces s) <= String.length s).
    { clear. induction s as [|d s IH]; simpl; [done|]. destruct (Ascii.eqb d " "); simpl; lia. }
    rewrite Hs in H. simpl in H. lia. }
  simpl. destruct (decide (ltrim_spaces (reverse s) = "")) as [He|He].
  - assert (forall t, ltrim_spaces t = "" -> ltrim_spaces (t +:+ String c "") = String c "") as Hall.
    { induction t as [|d t IH]; intros Ht; [simpl; by rewrite Hc|]. simpl in *.
      destruct (Ascii.eqb d " "); [auto | done]. }
    rewrite Hall by done. simpl. by rewrite Hc.
  - rewrite ltrim_spaces_app, reverse_app by done. simpl. by rewrite Hc.
Qed.

Lemma btrim_idem s : btrim (btrim s) = btrim s.
Proof.
  unfold btrim. rewrite (ltrim_spaces_cut (ltrim_spaces s)) by apply ltrim_spaces_idem.
  by rewrite reverse_involutive, ltrim_spaces_idem.
Qed.

(** ** The kernel keeps the rules *)

Section kernel.
Context {P : Platform} {HP : PlatformLaws P}.
#[local] Notation keeps := (preserves consistent).

Ltac run_keeps :=
  match goal with
  | |- preserves consistent (durable ?c) (durable (?m ?c).2) =>
      refine ((_ : history (preserves consistent) m) c)
  end.

Lemma serving_keeps T T' : serving T T' -> keeps T T'.
Proof.
  destruct 1; run_keeps;
    unfold PostgresEnrollment_insert_challenge, PostgresEnrollment_consume_challenge,
      PostgresInstanceRegistry_insert, PostgresInstanceRegistry_renew, classify_failed_renewal,
      append_registry_audit, PostgresReplayProtection_reserve, append_replay_audit,
      PostgresSubscription_insert, PostgresSubscription_disable, classify_failed_disable,
      append_subscription_audit, PostgresRequest_accept, append_acceptance_audit,
      PostgresRoute_materialize, PostgresAuthority_record, PostgresAuthority_publish,
      PostgresWorkClaim_claim, PostgresWorkClaim_renew, PostgresWorkClaim_transition, lock_current,
      renew_sql, transition_sql, expire_sql;
    db_walk; eauto with constraints.
Qed.

Lemma kernel_keeps T T' : kernel_write T T' -> keeps T T'.
Proof.
  destruct 1; [by apply serving_keeps | run_keeps ..];
    unfold PostgresIdentityRepository_insert, PostgresIdentityRepository_save,
      PostgresEnrollment_insert_disabled, PostgresEnrollment_set_enabled,
      PostgresInstanceRegistry_revoke, append_registry_audit, PostgresHandshake_insert_challenge,
      PostgresHandshake_complete, append_handshake_audit;
    db_walk; eauto with constraints.
  by eapply keeps_insert_handshake_challenge; [|eassumption].
Qed.
End kernel.

(** ** The administrators keep them *)

Section administrators.
Context {P : Platform} {HP : PlatformLaws P}.

Lemma name_checks limit text : name_check limit text -> name_check limit (btrim text).
Proof. unfold name_check. by rewrite btrim_idem. Qed.

Lemma metadata_facts administrator reason at_ : metadata_ok administrator reason at_ = true ->
  name_check 200 (btrim administrator) /\ name_check 1000 (btrim reason) /\ (0 <= at_)%Z.
Proof.
  unfold metadata_ok. rewrite !andb_true_iff, !bool_decide_eq_true, Z.leb_le.
  intros [[? ?] ?]. auto using name_checks.
Qed.

Lemma keeps_upsert_identity role id kind name clock T n T' :
  upsert_identity_sql role id kind name clock T = Ok (n, T') -> preserves consistent T T'.
Proof.
  unfold upsert_identity_sql, identity_checks. intros H Hc. cbv zeta in H. guard_facts. simpl in *.
  destruct (identities T !! id) as [stored|] eqn:Hid.
  - destruct (_ && _); guard_facts; [done|]. keeps_step Hc.
  - guard_facts. keeps_step Hc.
    apply map_Forall_insert_2; [|by eapply table_kept; [apply _ | exact Hk |]].
    row_step. apply lookup_insert_is_Some'. by left.
Qed.

Lemma keeps_upsert_binding id namespace account uid T n T' :
  upsert_binding_sql id namespace account uid T = Ok (n, T') -> preserves consistent T T'.
Proof.
  unfold upsert_binding_sql, binding_checks. intros H Hc. cbv zeta in H. guard_facts.
  assert (T' = T \/ is_Some (identities T !! id) /\
    binding_free id (MkBindingRow namespace account uid true) T = true /\
    T' = with_enrollment_bindings
           (<[id := MkBindingRow namespace account uid true]> (enrollment_bindings T)) T)
    as [->|(? & Hfree & ->)]; [|done|].
  { destruct (enrollment_bindings T !! id) as [stored|] eqn:Hrow.
    - pose proof (c_bindings _ Hc id stored Hrow) as [? _]. destruct (_ && _); guard_facts; auto.
    - guard_facts. auto. }
  keeps_step Hc. apply unique_insert; [done|]. intros k row b Hrow [= <-] [= ? ? ?].
  by eapply binding_free_other.
Qed.

Lemma keeps_disable_bindings managed T accounts T' :
  disable_bindings_sql managed T = Ok (accounts, T') -> preserves consistent T T'.
Proof.
  intros [= <- <-] Hc.
  assert (forall id row', map_imap (fun id row =>
    Some (if binding_unmanaged managed id row then disabled_row row else row)) (enrollment_bindings T)
      !! id = Some row' -> exists row, enrollment_bindings T !! id = Some row /\
      seb_namespace row' = seb_namespace row /\ seb_service_account row' = seb_service_account row /\
      seb_service_account_uid row' = seb_service_account_uid row) as Hrows.
  { intros id row'. rewrite map_lookup_imap. intros (row & Hrow & [= <-])%bind_Some. exists row.
    by destruct (binding_unmanaged _ _ _). }
  pose proof (c_bindings _ Hc) as Hb. pose proof (c_binding_workload _ Hc) as Hw. keeps_step Hc.
  - intros id row' (row & Hrow & H1 & H2 & H3)%Hrows. unfold binding_ok. rewrite H1, H2, H3.
    apply (Hb id row Hrow).
  - intros id id' r r' b (row & Hrow & H1 & H2 & H3)%Hrows (row' & Hrow' & H1' & H2' & H3')%Hrows.
    rewrite H1, H2, H3, H1', H2', H3'. by apply Hw.
Qed.

(** The kernel's tables inside the administrators' *)
Lemma admin_keeps A K :
  preserves consistent (kernel_tables A) K -> authority_grants K = authority_grants (kernel_tables A) ->
  admin_consistent A -> admin_consistent (with_kernel_tables K A).
Proof. intros Hk Hg []. constructor; simpl; [by apply Hk | by rewrite Hg | done..]. Qed.

Lemma set_admission_consistent service enabled administrator reason correlation at_ A outcome A' :
  set_admission service enabled administrator reason correlation at_ A = Ok (outcome, A') ->
  admin_consistent A -> admin_consistent A'.
Proof.
  unfold set_admission. intros H Hc. guard_facts.
  match goal with H : metadata_ok _ _ _ = true |- _ => apply metadata_facts in H as (Ha & Hr & Ht) end.
  match goal with H : admission _ !! _ = Some ?r |- _ => rename H into Hrow, r into row end.
  destruct (List.find _ _) as [existing|] eqn:Hfind; [by guard_facts|]. guard_facts.
  pose proof (c_admission _ (ac_kernel _ Hc) service row Hrow) as (Hid & Hrev & _).
  assert (forall K, consistent K -> authority_grants K = authority_grants (kernel_tables A) ->
    forall old rev outcome, (0 <= rev)%Z -> outcome ∈ ["changed"; "no_op"] ->
    admin_consistent (with_admission_history (admission_history A ++
      [MkAdmissionHistoryRow service old enabled rev outcome (btrim administrator) (btrim reason)
         correlation at_]) (with_kernel_tables K A))) as Hadd.
  { intros K HK HG old rev out Hv Ho. destruct Hc as [? Hg ? ? Hh Hhc ?].
    constructor; simpl; [done | by rewrite HG | done | done | | | done].
    - apply Forall_app_2; [done|]. by apply Forall_singleton.
    - rewrite fmap_app. apply NoDup_app. split; [done|]. split; [|apply NoDup_singleton].
      intros y (h & -> & Hin)%list_elem_of_fmap [= <- <-]%list_elem_of_singleton.
      apply list_elem_of_In in Hin. apply (find_none _ _ Hfind) in Hin.
      unfold same_correlation in Hin. by rewrite !bool_decide_true in Hin. }
  destruct (Bool.eqb _ _) eqn:Heq; bool_facts; apply Hadd; try done; try apply Hc; try set_solver.
  pose proof (ac_kernel _ Hc) as HK. keeps_step HK.
Qed.

Lemma create_grant_consistent id source action scope artifact policy destination from until administrator
  reason correlation at_ A u A' :
  create_grant id source action scope artifact policy destination from until administrator reason
    correlation at_ A = Ok (u, A') -> admin_consistent A -> admin_consistent A'.
Proof.
  unfold create_grant. cbv zeta. intros H Hc. guard_facts.
  match goal with H : metadata_ok _ _ _ = true |- _ => apply metadata_facts in H as (Ha & Hr & Ht) end.
  destruct (head _) as [[existing d]|] eqn:Hhead; [by guard_facts|]. guard_facts.
  assert (refers (identities (kernel_tables A)) destination).
  { unfold refers. destruct destination; by guard_facts. }
  assert (forall k v, kind_of_version k (kernel_tables A) = Some v ->
    is_Some (schema_versions (kernel_tables A) !! k)) as Hkind.
  { unfold kind_of_version. intros k v (row & Hrow & _)%fmap_Some. eauto. }
  assert (unless_null (Z.lt from) until).
  { destruct until; [|done]. by match goal with H : (_ <? _)%Z = true |- _ => apply Z.ltb_lt in H | H : (_ < _)%Z |- _ => idtac end. }
  destruct Hc as [HK Hg Hd Hu Hh Hhc Hau]. constructor; simpl; [| | | |done|done|].
  - keeps_step HK. eapply table_insert; [apply _ | exact Hk | done|].
    row_step; by eapply Hkind.
  - intros k. rewrite !lookup_insert_is_Some'. by rewrite Hg.
  - apply map_Forall_insert_2; [|done]. by split_and!.
  - apply unique_insert; [done|]. intros k row b Hrow [= <-] [= Heq].
    unfold details_of_correlation in Hhead.
    destruct (select _ _) eqn:Hs in Hhead; [|done].
    apply (select_empty _ _ _ _ Hs) in Hrow. by rewrite Heq, bool_decide_true in Hrow.
  - apply Forall_app_2; [done|]. apply Forall_singleton. split_and!; try done. simpl. set_solver.
Qed.

Lemma revoke_grant_consistent id administrator reason correlation at_ A outcome A' :
  revoke_grant id administrator reason correlation at_ A = Ok (outcome, A') ->
  admin_consistent A -> admin_consistent A'.
Proof.
  unfold revoke_grant. cbv zeta. intros H Hc. guard_facts.
  match goal with H : metadata_ok _ _ _ = true |- _ => apply metadata_facts in H as (Ha & Hr & Ht) end.
  match goal with H : authority_grants _ !! _ = Some ?r |- _ => rename H into Hrow, r into row end.
  pose proof (c_grants _ (ac_kernel _ Hc) id row Hrow) as Hrule.
  assert (forall outcome, outcome ∈ ["created"; "create_conflict_rejected"; "revoked"; "revoke_no_op"] ->
    Forall grant_audit_ok (grant_audit A ++ [MkGrantAuditRow id outcome (btrim administrator)
      (btrim reason) correlation at_])) as Haudit.
  { intros o Ho. apply Forall_app_2; [apply Hc|]. apply Forall_singleton. by split_and!. }
  destruct (gr_revoked_at row) as [t|]; guard_facts; destruct Hc as [HK Hg Hd Hu Hh Hhc Hau].
  - constructor; simpl; try done. apply Haudit. set_solver.
  - constructor; simpl; try done; [| |apply Haudit; set_solver].
    + keeps_step HK. eapply table_insert; [apply _ | exact Hk | done|].
      destruct Hrule as (? & ? & ? & ? & ? & ? & ? & ? & ?). by split_and!.
    + intros k. rewrite lookup_insert_is_Some', <-Hg. split; [|by right].
      intros [<-|]; [by exists row | done].
Qed.

Lemma administration_keeps A A' : administration A A' -> admin_consistent A -> admin_consistent A'.
Proof.
  destruct 1 as [role id kind name clock A n K H | id ns account uid A n K H | managed A accounts K H
    | | |]; [| | |by eapply set_admission_consistent | by eapply create_grant_consistent
             | by eapply revoke_grant_consistent];
    (apply admin_keeps; [eauto using keeps_upsert_identity, keeps_upsert_binding, keeps_disable_bindings|]).
  - apply upsert_identity_Ok in H as (_ & _ & [[_ ->]|[(_ & _ & ->)|(_ & _ & _ & ->)]]); done.
  - apply upsert_binding_Ok in H as (_ & _ & [[_ ->]|(_ & _ & ->)]); done.
  - unfold disable_bindings_sql in H. by injection H as _ <-.
Qed.

(** The procedure of migration 0010 *)
Lemma insert_status_audit_consistent row D D' :
  insert_status_audit_sql row D = Ok D' -> database_consistent D -> database_consistent D'.
Proof.
  unfold insert_status_audit_sql. intros H [Ha Hs Hc]. guard_facts.
  constructor; simpl; [done | |].
  - apply Forall_app_2; [done|]. by apply Forall_singleton.
  - rewrite fmap_app. apply NoDup_app. split; [done|]. split; [|apply NoDup_singleton].
    intros y (a & -> & Hin)%list_elem_of_fmap [= Hi Hr]%list_elem_of_singleton.
    match goal with H : forallb _ _ = true |- _ => rewrite forallb_forall in H;
      apply list_elem_of_In, H in Hin end.
    by rewrite !bool_decide_true in Hin.
Qed.

Lemma schema_keeps D T :
  preserves consistent (schema_kernel D) T -> authority_grants T = authority_grants (schema_kernel D) ->
  database_consistent D -> database_consistent (with_schema_kernel T D).
Proof.
  intros Hk Hg [Ha Hs Hc]. constructor; simpl; [|done..]. by apply admin_keeps.
Qed.

Lemma update_status_keeps context id status T T' :
  update_status_sql context id status T = Ok T' ->
  preserves consistent T T' /\ authority_grants T' = authority_grants T.
Proof.
  unfold update_status_sql. destruct (schema_versions T !! id) as [old|] eqn:Hold; [|by intros [= <-]].
  cbv zeta. intros H. guard_facts. split; [|done]. intros Hc.
  pose proof (c_versions _ Hc id old Hold) as (? & ? & ? & ? & ? & ? & ? & _).
  keeps_step Hc. eapply unique_update; [done | done | by left].
Qed.

Lemma set_schema_status_consistent id status administrator reason correlation at_ D answer D' :
  set_schema_status id status administrator reason correlation at_ D = Ok (answer, D') ->
  database_consistent D -> database_consistent D'.
Proof.
  unfold set_schema_status. cbv zeta. intros H Hc. result_inv.
  destruct (List.find _ _); [by result_inv|].
  destruct (schema_versions _ !! id) as [row|]; [|by result_inv].
  case_bool_decide; [by result_inv|].
  destruct (String.eqb _ _); result_inv; eapply insert_status_audit_consistent; try eassumption.
  match goal with H : update_status_sql _ _ _ _ = Ok _ |- _ => apply update_status_keeps in H as [? ?] end.
  by apply schema_keeps.
Qed.
End administrators.

(** ** The migrations keep them *)

Section migrations.
Context {P : Platform} {HP : PlatformLaws P}.

Lemma keeps_open_admission clock T T' : open_admission clock T = Ok T' -> preserves consistent T T'.
Proof.
  unfold open_admission. intros H Hc. guard_facts.
  match goal with H : (_ || _)%bool = true |- _ => rename H into Hclock end. keeps_step Hc.
  intros id row [Hrow|[_ Hrow]]%lookup_union_Some_raw; [by match goal with H : map_Forall (admission_ok T) _ |- _ => apply (H id row Hrow) end|].
  rewrite lookup_fmap in Hrow. destruct (identities T !! id) as [i|] eqn:Hid; [|done].
  injection Hrow as <-. assert (0 <= clock)%Z.
  { apply orb_true_iff in Hclock as [He%bool_decide_eq_true|?%Z.leb_le]; [|done].
    by rewrite He, lookup_empty in Hid. }
  split_and!; [by exists i | done..].
Qed.

Lemma keeps_seed_identity clock T T' : seed_identity clock T = Ok T' -> preserves consistent T T'.
Proof.
  unfold seed_identity. destruct (identities T !! _); [by intros [= <-]|].
  intros H. result_inv. by eapply keeps_insert_identity.
Qed.

Lemma keeps_seed_version id kind name T T' :
  kind ∈ ["artifact"; "permission_policy"] -> dotted_name_check name = true ->
  seed_version id kind name T = Ok T' -> preserves consistent T T'.
Proof.
  unfold seed_version. intros Hk Hn. destruct (schema_versions T !! id); [by intros [= <-]|].
  intros H Hc. guard_facts.
  match goal with H : negb (existsb _ _) = true |- _ => apply negb_true_iff in H; rename H into Hno end.
  assert (is_digest (sha256 name)) by (unfold is_digest, octet_length, len; by rewrite sha256_length).
  rename Hk into Hkind. keeps_step Hc.
  apply unique_insert; [done|]. intros k' row' b Hrow [= <-] [= Hk' Hn' Hv].
  exfalso. apply not_true_iff_false in Hno. apply Hno, existsb_exists. exists (k', row').
  rewrite <-list_elem_of_In. unfold versions_of. rewrite select_In, Hk', Hn', !String.eqb_refl.
  cbn [snd]. by rewrite Hv.
Qed.

Lemma migrations_keep clock T T' : rows_of clock migrations T = Ok T' -> preserves consistent T T'.
Proof.
  rewrite rows_of_migrations. unfold seed_no_artifact. intros H. result_inv.
  repeat match goal with
  | H : open_admission _ _ = Ok _ |- _ => apply keeps_open_admission in H
  | H : seed_identity _ _ = Ok _ |- _ => apply keeps_seed_identity in H
  | H : seed_version _ _ _ _ = Ok _ |- _ => apply keeps_seed_version in H; [|set_solver|done]
  end.
  intros Hc. auto.
Qed.
End migrations.

(** ** Grants and versions *)

(** Nothing but the procedures of the administrators touches a grant, or a schema
    version once it is published. *)
Record versions_grow (T T' : Tables) : Prop := {
  vg_grants : authority_grants T' = authority_grants T;
  vg_versions : schema_versions T ⊆ schema_versions T';
  vg_new : news (schema_versions T) (schema_versions T') (fun _ row => sv_status row ∈ ["published"; "active"]);
}.

#[export] Instance versions_grow_preorder : PreOrder versions_grow.
Proof.
  split; [intros T; split; [done..|by apply news_same]|].
  intros T1 T2 T3 [G1 V1 N1] [G2 V2 N2]. split; [congruence | by etrans|].
  eapply news_trans; [exact N1 | exact N2|]. intros k row row' Hrow Hrow'.
  by rewrite (lookup_weaken _ _ _ _ Hrow V2) in Hrow'; simplify_eq.
Qed.

Lemma versions_grow_same T T' :
  authority_grants T' = authority_grants T -> schema_versions T' = schema_versions T -> versions_grow T T'.
Proof. intros HG HS. split; [done | by rewrite HS | by apply news_same]. Qed.

Section versions.
Context {P : Platform} {HP : PlatformLaws P}.

Ltac same_versions := intros H; repeat (result_inv; repeat case_match); by apply versions_grow_same.

Lemma versions_insert_identity id k d s t T n T' :
  insert_identity_sql id k d s t T = Ok (n, T') -> versions_grow T T'.
Proof. unfold insert_identity_sql. same_versions. Qed.
Lemma versions_update_identity id k d s T n T' :
  update_identity_sql id k d s T = Ok (n, T') -> versions_grow T T'.
Proof. unfold update_identity_sql. same_versions. Qed.
Lemma versions_insert_binding id ns sa u T n T' :
  insert_binding_sql id ns sa u T = Ok (n, T') -> versions_grow T T'.
Proof. unfold insert_binding_sql. same_versions. Qed.
Lemma versions_set_binding_enabled id e T n T' :
  set_binding_enabled_sql id e T = Ok (n, T') -> versions_grow T T'.
Proof. unfold set_binding_enabled_sql. same_versions. Qed.
Lemma versions_revoke_instance i t T n T' : revoke_instance_sql i t T = Ok (n, T') -> versions_grow T T'.
Proof. unfold revoke_instance_sql. same_versions. Qed.
Lemma versions_revoke_instance_key i t T n T' :
  revoke_instance_key_sql i t T = Ok (n, T') -> versions_grow T T'.
Proof. unfold revoke_instance_key_sql. same_versions. Qed.
Lemma versions_registry_audit s i k a l t T n T' :
  insert_registry_audit_sql s i k a l t T = Ok (n, T') -> versions_grow T T'.
Proof. unfold insert_registry_audit_sql. same_versions. Qed.
Lemma versions_query_one_instance i T row T' :
  query_one_instance i T = Ok (row, T') -> versions_grow T T'.
Proof. by intros [-> _]%query_one_instance_Ok. Qed.
Lemma versions_insert_handshake_challenge d row T n T' :
  insert_handshake_challenge_sql d row T = Ok (n, T') -> versions_grow T T'.
Proof. unfold insert_handshake_challenge_sql. same_versions. Qed.
Lemma versions_consume_handshake_challenge d k i t T n T' :
  consume_handshake_challenge_sql d k i t T = Ok (n, T') -> versions_grow T T'.
Proof. unfold consume_handshake_challenge_sql. same_versions. Qed.
Lemma versions_insert_handshake d row T n T' :
  insert_handshake_sql d row T = Ok (n, T') -> versions_grow T T'.
Proof. unfold insert_handshake_sql. same_versions. Qed.
Lemma versions_handshake_audit row T n T' :
  insert_handshake_audit_sql row T = Ok (n, T') -> versions_grow T T'.
Proof. unfold insert_handshake_audit_sql. same_versions. Qed.

#[local] Hint Resolve versions_insert_identity versions_update_identity versions_insert_binding
  versions_set_binding_enabled versions_revoke_instance versions_revoke_instance_key
  versions_registry_audit versions_query_one_instance versions_insert_handshake_challenge
  versions_consume_handshake_challenge versions_insert_handshake versions_handshake_audit : core.

Lemma kernel_versions T T' : kernel_write T T' -> versions_grow T T'.
Proof.
  destruct 1;
    try match goal with
    | |- versions_grow (durable ?c) (durable (?m ?c).2) => refine ((_ : history versions_grow m) c)
    end;
    unfold PostgresIdentityRepository_insert, PostgresIdentityRepository_save,
      PostgresEnrollment_insert_disabled, PostgresEnrollment_set_enabled,
      PostgresInstanceRegistry_revoke, append_registry_audit, PostgresHandshake_insert_challenge,
      PostgresHandshake_complete, append_handshake_audit;
    [|db_walk; eauto ..].
  match goal with H : serving _ _ |- _ => apply serving_grows in H as [] end.
  split; try done. intros k row H1 H2.
  match goal with H : news (schema_versions _) _ _ |- _ => rewrite (proj1 (H k row H1 H2)) end. set_solver.
Qed.

Lemma migrations_versions clock T T' : rows_of clock migrations T = Ok T' -> versions_grow T T'.
Proof.
  rewrite rows_of_migrations. unfold seed_no_artifact. intros H. result_inv.
  assert (forall id kind name T T', seed_version id kind name T = Ok T' -> versions_grow T T') as Hv.
  { intros id kind name U U'. unfold seed_version. destruct (schema_versions U !! id) eqn:Hid;
      [by intros [= <-]|]. intros HU. result_inv. split; simpl; [done | by apply insert_subseteq|].
    apply news_insert. intros _. simpl. set_solver. }
  match goal with H : open_admission _ _ = Ok ?T1 |- _ =>
    apply open_admission_Ok in H as ([(i & a & s & ->) _ _ _ _ _ _] & _ & Hs & _) end.
  simpl in Hs. subst s.
  match goal with H : seed_identity _ _ = Ok _ |- _ =>
    apply seed_identity_Ok in H as ([(i' & a' & s' & ->) _ _ _ _ _ _] & _ & Hs' & _) end.
  simpl in Hs'. subst s'.
  etrans; [|by eapply Hv]. etrans; [|by eapply Hv]. by apply versions_grow_same.
Qed.
End versions.

(** ** Every database that can be reached *)

Section reachable.
Context {P : Platform} {HP : PlatformLaws P}.

Lemma empty_consistent : database_consistent empty_database.
Proof.
  constructor; [constructor; [constructor | ..] | |]; simpl;
    try apply map_Forall_empty; try apply Forall_nil_2; try apply NoDup_nil_2;
    try (intros ? ? ? ? ? H; by rewrite lookup_empty in H).
  intros id. rewrite !lookup_empty. done.
Qed.

Lemma database_step_consistent D D' : database_step D D' -> preserves database_consistent D D'.
Proof.
  intros H Hc. destruct H as [D T H | D A H | | clock D T H].
  - apply schema_keeps; [by apply kernel_keeps | apply (vg_grants _ _ (kernel_versions _ _ H)) | done].
  - destruct Hc as [Ha Hs Hu]. constructor; simpl; [|done..]. by eapply administration_keeps.
  - by eapply set_schema_status_consistent.
  - apply schema_keeps; [by eapply migrations_keep | apply (vg_grants _ _ (migrations_versions _ _ _ H))
                        | done].
Qed.

Lemma administration_versions A A' :
  administration A A' -> schema_versions (kernel_tables A') = schema_versions (kernel_tables A).
Proof.
  destruct 1 as [role id kind name clock A n K H | id ns account uid A n K H | managed A accounts K H
    | service enabled administrator reason correlation at_ A outcome A' H
    | id source action scope artifact policy destination from until administrator reason correlation at_
        A u A' H
    | id administrator reason correlation at_ A outcome A' H].
  - apply upsert_identity_Ok in H as (_ & _ & [[_ ->]|[(_ & _ & ->)|(_ & _ & _ & ->)]]); done.
  - apply upsert_binding_Ok in H as (_ & _ & [[_ ->]|(_ & _ & ->)]); done.
  - unfold disable_bindings_sql in H. by injection H as _ <-.
  - apply set_admission_Ok in H as (_ & (h & -> & _) & _). done.
  - apply create_grant_Ok in H as [[-> _]|(_ & d & a & ->)]; done.
  - apply revoke_grant_Ok in H as (row & a & _ & [[_ ->]|[_ ->]]); done.
Qed.

(** Versions that are new have no calls yet. *)
Lemma trail_grows D D' :
  status_audit D' = status_audit D ->
  schema_versions (schema_kernel D) ⊆ schema_versions (schema_kernel D') ->
  news (schema_versions (schema_kernel D)) (schema_versions (schema_kernel D'))
    (fun _ row => sv_status row ∈ ["published"; "active"]) ->
  trail_explains D -> trail_explains D'.
Proof.
  intros Ha Hv Hn [Hs Hk Ho]. constructor.
  - intros id row Hrow. unfold calls_on. rewrite Ha.
    destruct (schema_versions (schema_kernel D) !! id) as [old|] eqn:Hold.
    + rewrite (lookup_weaken _ _ _ _ Hold Hv) in Hrow. injection Hrow as <-. by apply Hs.
    + exists (sv_status row). split; [by apply (Hn id)|].
      assert (forall a, a ∉ filter (fun a => ssa_schema_version_id a = id) (status_audit D)) as Hnone.
      { intros a [<- Hin]%list_elem_of_filter. apply Hk in Hin as [? Hin]. congruence. }
      apply elem_of_nil_inv in Hnone as ->. constructor.
  - intros a. rewrite Ha. intros [row Hrow]%Hk. exists row. by eapply lookup_weaken.
  - intros a. rewrite Ha. apply Ho.
Qed.

Lemma database_step_trail D D' : database_step D D' -> preserves trail_explains D D'.
Proof.
  destruct 1 as [D T H | D A H | | clock D T H]; intros Ht.
  - apply kernel_versions in H as [_ Hv Hn]. by apply (trail_grows D).
  - apply administration_versions in H. apply (trail_grows D); unfold schema_kernel; simpl; [done | | |done].
    + by rewrite H.
    + by apply news_same.
  - by eapply set_schema_status_trail.
  - apply migrations_versions in H as [_ Hv Hn]. by apply (trail_grows D).
Qed.

Lemma empty_trail : trail_explains empty_database.
Proof. constructor; [intros id row [=] | by intros a ?%elem_of_nil ..]. Qed.

Lemma reachable_keeps (I : SchemaTables -> Prop) D :
  I empty_database -> (forall D D', database_step D D' -> preserves I D D') -> reachable D -> I D.
Proof.
  intros H0 Hs H. apply (rtc_ind_r (fun D => I D) _ H0 (fun D1 D2 _ Hstep => Hs D1 D2 Hstep) D H).
Qed.

(** C11: What the migrations declare holds of every database: whatever the kernel and
    the administrators do after the first start, in any order, every CHECK holds of
    every row, every column that is UNIQUE has different values, and every reference
    leads to a row - although no statement looks at more than its own rows. *)
Theorem reachable_databases_are_consistent D : reachable D -> database_consistent D.
Proof. apply reachable_keeps; [apply empty_consistent | apply database_step_consistent]. Qed.

(** C28: The status of a schema version is always explained: it was published, or seeded
    as active, and the calls on it in the audit, one after the other, lead to the status
    that is stored, each by a change that may be made or by none. No call is about a
    version that does not exist, and none is on record as turned down, although the
    audit has outcomes for that. *)
Theorem schema_status_is_explained D : reachable D -> trail_explains D.
Proof. apply reachable_keeps; [apply empty_trail | apply database_step_trail]. Qed.
End reachable.

(** ** Rows that can be read *)

(** The reading of a stored row does not fail. *)
Definition reads {A E} (r : Result E A) : Prop := exists a, r = Ok a.

Section readable.
Context {P : Platform} {HP : PlatformLaws P}.

(** What no operation of the kernel fails on, whatever is stored *)
Record readable (T : Tables) : Prop := {
  readable_admission id row : admission T !! id = Some row ->
    reads (admission_from_row (uuid_print id, row));
  readable_versions id row : schema_versions T !! id = Some row -> reads (schema_record_from_row (id, row));
  readable_subscriptions id row : subscriptions T !! id = Some row -> reads (subscription_from_row (id, row));
  readable_routes id row : request_routes T !! id = Some row -> reads (route_from_row (id, row));
  readable_claims id row : work_claims T !! id = Some row -> reads (claim_from_row (id, row));
  readable_handshakes digest row : handshakes T !! digest = Some row ->
    reads (handshake_from_row (digest, row));
  (* the CHECK counts characters and trims spaces, [Scope::new] counts bytes and trims
     any white space *)
  readable_grants id row scope : authority_grants T !! id = Some row -> Scope_new (gr_scope row) = Ok scope ->
    reads (grant_from_row (id, row));
}.

(** The CHECK on dotted names accepts no name that the kernel does not. *)
Lemma checked_names value : dotted_name_check value = true ->
  is_valid_action_name value = true /\ is_valid_schema_name value = true.
Proof.
  unfold dotted_name_check. rewrite !andb_true_iff, !bool_decide_eq_true. intros [[[Hl Hh] _] Hs].
  assert (forallb is_valid_action_segment (split_char "." value) = true) as Hseg
    by (destruct (split_char "." value) as [|? [|? ?]]; done).
  assert (chars_count value = len value) as Hlen.
  { apply segments_bytes in Hseg. apply chars_count_graphic. eapply all_bytes_mono; [|exact Hseg].
    intros c Hc. by apply name_byte_facts. }
  assert (is_empty value = false) as He by (destruct value; [unfold len in Hlen; simpl in *; lia | done]).
  change is_valid_schema_name with is_valid_action_name. split; [|]; unfold is_valid_action_name;
    rewrite He, (proj2 (Z.ltb_ge _ _)) by (unfold MAX_ACTION_NAME_LENGTH; lia); simpl;
    destruct (split_char "." value) as [|? [|? ?]]; try done; simpl in Hseg; by rewrite <-andb_assoc.
Qed.

Lemma checked_event_type value : event_type_check value = true -> EventType_new value = Ok (MkEventType value).
Proof.
  unfold event_type_check. rewrite !andb_true_iff, !bool_decide_eq_true. intros [[[Hl Hh] _] Hseg].
  assert (all_bytes is_graphic value = true) as Hg.
  { apply segments_bytes in Hseg. eapply all_bytes_mono; [|exact Hseg]. intros c Hc. by apply name_byte_facts. }
  unfold EventType_new. rewrite trim_graphic by done. change valid_event_segment with is_valid_action_segment.
  rewrite Hseg, (proj2 (Z.ltb_ge _ _)) by (unfold MAX_EVENT_TYPE_LENGTH; lia).
  destruct value; [unfold chars_count in Hl; simpl in Hl; lia | done].
Qed.

(** An id that is printed reads back, and the tests of a constructor are the CHECKs. *)
Ltac reads_row :=
  unfold ActorId_from_str, SchemaVersionId_from_str, SubscriptionId_from_str, RouteId_from_str,
    RequestId_from_str, ClaimId_from_str, InstanceId_from_str, KeyId_from_str, GrantId_from_str;
  rewrite ?uuid_parse_print; cbn [mbind result_bind result_map_err];
  repeat match goal with
  | |- context [(?a <? ?b)%Z] => rewrite (proj2 (Z.ltb_ge a b)) by lia
  | |- context [(?a <=? ?b)%Z] => rewrite (proj2 (Z.leb_gt a b)) by lia
  end;
  by eexists.

(** A word that a CHECK lists is read. *)
Ltac listed := intros H; rewrite !elem_of_cons, elem_of_nil in H; destruct_or! H; subst; by eexists.

Lemma listed_kind k : k ∈ ["artifact"; "permission_policy"] -> reads (schema_kind_from_sql k).
Proof. listed. Qed.
Lemma listed_status s : s ∈ ["published"; "active"; "suspended"; "superseded"; "retired"] ->
  reads (schema_status_from_sql s).
Proof. listed. Qed.
Lemma listed_claim_status s : s ∈ ["active"; "completed"; "released"; "expired"] -> reads (status_from_sql s).
Proof. listed. Qed.

Lemma digest_array d : is_digest d -> to_array 32 d = Some d.
Proof. unfold is_digest, octet_length, len, to_array. intros H. rewrite bool_decide_true; [done | lia]. Qed.

Lemma consistent_readable T : consistent T -> readable T.
Proof.
  intros Hc. constructor.
  - intros id row (_ & ? & ?)%(c_admission _ Hc id row).
    unfold admission_from_row, CommunicationAdmission_restore. reads_row.
  - intros id row (Hk & [_ Hn]%checked_names & ? & _ & Hd & _ & ? & Hs)%(c_versions _ Hc id row).
    apply listed_kind in Hk as [kind Hk]. apply listed_status in Hs as [status Hs].
    apply digest_array in Hd. unfold to_array in Hd.
    unfold schema_record_from_row, SchemaVersion_restore, SchemaName_new. rewrite Hk, Hs, Hd, Hn.
    destruct (sv_predecessor_id row); reads_row.
  - intros id row (_ & He%checked_event_type & ? & Hd & Hm)%(c_subscriptions _ Hc id row).
    unfold subscription_from_row, Subscription_restore. rewrite He, Hm.
    destruct (sub_disabled_at row); simpl in Hd; reads_row.
  - intros id row (_ & _ & _ & ?)%(c_routes _ Hc id row).
    unfold route_from_row, parse_actor_id, Route_restore. reads_row.
  - intros id row (_ & _ & _ & Hr)%(c_claims _ Hc id row). unfold work_claim_row_check in Hr. guard_facts.
    match goal with H : wc_status row ∈ _ |- _ => apply listed_claim_status in H as [status Hs] end.
    unfold claim_from_row, WorkClaim_restore. rewrite Hs. reads_row.
  - intros d row ((? & Hi%(c_handshake_challenges _ Hc d))  & _ & _ & ? & ?)%(c_handshakes _ Hc d row).
    unfold handshake_from_row, InstanceHandshake_restore. rewrite digest_array by apply Hi. reads_row.
  - intros id row scope (_ & [Ha _]%checked_names & _ & _ & ? & Hu & _)%(c_grants _ Hc id row) Hs.
    unfold grant_from_row, ActionName_new, Grant_restore. rewrite Hs, Ha.
    destruct (gr_destination_service_id row), (gr_valid_until row); simpl in Hu; reads_row.
Qed.
(** ** Reads *)

(** When the database does not fail, the computation succeeds. *)
Definition answers {E A} (T : Tables) (m : Db Tables E A) : Prop := forall ns, reads (m (MkConn T T [] ns)).1.

Lemma answers_row {E A R} (hc : string -> E) hq (f : Tables -> option R) (g : R -> Result E A) T :
  (forall row, f T = Some row -> reads (g row)) ->
  answers T (connection hc;;
    row ← query hq f;
    match row with None => mret None | Some row => a ← lift (g row); mret (Some a) end).
Proof.
  intros Hg ns. db_run. destruct (f T) as [row|] eqn:Hf; [|by eexists].
  destruct (Hg row eq_refl) as [a Ha]. db_run. rewrite Ha. by eexists.
Qed.

Lemma collect_reads {E A R} (g : R -> Result E A) rows :
  (forall row, row ∈ rows -> reads (g row)) -> reads (collect g rows).
Proof.
  induction rows as [|row rows IH]; intros Hg; [by eexists|]. simpl.
  destruct (Hg row) as [a ->]; [left|]. destruct IH as [l ->]; [|by eexists]. intros r Hr. apply Hg. by right.
Qed.

Lemma answers_rows {E A R} (hc : string -> E) hq (f : Tables -> list R) (g : R -> Result E A) T :
  (forall row, row ∈ f T -> reads (g row)) ->
  answers T (connection hc;; rows ← query hq f; lift (collect g rows)).
Proof. intros Hg ns. db_run. by apply collect_reads. Qed.

Lemma answers_list `{Countable K} {V E A} (hc : string -> E) hq (table : Tables -> gmap K V) le where_
  (g : K * V -> Result E A) T :
  (forall k row, table T !! k = Some row -> reads (g (k, row))) ->
  answers T (connection hc;; rows ← query hq (fun T => order_by le (select where_ (table T)));
             lift (collect g rows)).
Proof.
  intros Hg. apply answers_rows. intros [k row] [Hrow _]%order_by_In%select_In. by apply Hg.
Qed.

Lemma matching_scope facts text now id row :
  Scope_new text = Ok (facts_scope facts) ->
  grant_matches facts now id row = true -> exists scope, Scope_new (gr_scope row) = Ok scope.
Proof.
  unfold grant_matches. rewrite !andb_true_iff, orb_true_iff, !String.eqb_eq.
  intros Hs [[[[_ [Hw|Hw]] _] _] _]; rewrite Hw; [by eexists|].
  assert (Scope_as_str (facts_scope facts) = text) as ->; [|by eexists].
  unfold Scope_new in Hs. destruct (_ || _) in Hs; [done|]. by injection Hs as <-.
Qed.

(** C27: The tables are never in a state that a read trips over: in every database that
    can be reached, whatever the kernel looks up of admissions, schema versions,
    subscriptions, routes, claims and handshakes (at a time that is not negative), it
    gets an answer, unless the database itself fails; and so it does when it looks up
    the grants for facts whose scope [Scope::new] has made. A grant can be stored whose
    scope [Scope::new] turns down, the CHECK being weaker; it is not among the rows of
    such a lookup. *)
Theorem reachable_reads_answer D : reachable D ->
  let T := schema_kernel D in
  (forall id, answers T (PostgresAdmissionRepository_find id)) /\
  (forall kind name version, answers T (PostgresAuthority_find kind name version)) /\
  (forall facts text now, Scope_new text = Ok (facts_scope facts) ->
     answers T (PostgresAuthority_matching_grants facts now)) /\
  (forall service active, answers T (list_subscriptions service active)) /\
  (forall event, answers T (PostgresSubscription_find_active_by_event_type event)) /\
  (forall id, answers T (PostgresRoute_find id)) /\
  (forall id, answers T (PostgresRoute_list_for_request id)) /\
  (forall service, answers T (PostgresRoute_list_for_destination service)) /\
  (forall id, answers T (PostgresWorkClaim_find id)) /\
  (forall kernel target now, (0 <= now)%Z -> answers T (PostgresHandshake_find_fresh kernel target now)).
Proof.
  intros H T.
  assert (consistent T) as [R1 R2 R3 R4 R5 R6 R7]%consistent_readable.
  { apply ac_kernel, dc_admin. revert H. apply reachable_keeps; [apply empty_consistent|].
    apply database_step_consistent. }
  split_and!; intros.
  - apply answers_row. unfold find_admission_sql. intros row (r & Hr & [= <-])%bind_Some. by apply R1.
  - apply answers_row. intros [k row] [Hr _]%head_Some_elem_of%select_In. by apply R2.
  - apply answers_rows. intros [k row] [Hr Hm]%select_In. eapply matching_scope in Hm as [scope Hs]; [|done].
    by eapply R7.
  - by apply (answers_list _ _ subscriptions).
  - by apply (answers_list _ _ subscriptions).
  - apply answers_row. intros row (r & Hr & ->)%fmap_Some. by apply R4.
  - by apply (answers_list _ _ request_routes).
  - by apply (answers_list _ _ request_routes).
  - intros ns. unfold PostgresWorkClaim_find, lock_claim_sql. db_run.
    destruct (work_claims T !! _) as [row|] eqn:Hr; [|by eexists].
    destruct (R5 _ row Hr) as [claim Hc]. cbn [fmap option_fmap option_map optional_claim]. rewrite Hc. by eexists.
  - unfold PostgresHandshake_find_fresh. rewrite (proj2 (Z.ltb_ge _ _)) by done.
    apply answers_row. intros [k row] [[Hr _]%select_In _]%latest_Some. by apply R6.
Qed.
End readable.
