(* ===== verification/Programs.v ===== *)
(** * Programs: what the programs of the repository do is made of the steps of [Consistency]

    The kernel process from its start on, the registrar and the reconciler of
    handshakes write to the database by [database_step] alone. With that, what holds of
    every database that is [reachable] holds of every database that these programs and
    the procedures of administrators leave behind. *)

From S2P Require Import Prelude Text Platform Process Database Schema Identity InstanceKeys.
From S2P Require Import InstanceRegistry RequestNames Handshakes Enrollment TokenReviewer HttpParsing HttpDto.
From S2P Require Import PolicyClient Wiring Http HttpHistory Administration SchemaStatus Startup.
From S2P Require Import Registrar Constraints Deployment Serving Consistency.

Section programs.
Context {P : Platform} {HP : PlatformLaws P}.

(** ** Paths of steps *)

(** The tables of administrators with the audit that no program reads or writes *)
Definition database (audit : list StatusAuditRow) (A : AdminTables) : SchemaTables := MkSchemaTables A audit.

Definition path (audit : list StatusAuditRow) (A A' : AdminTables) : Prop :=
  rtc database_step (database audit A) (database audit A').

#[local] Instance path_preorder audit : PreOrder (path audit).
Proof. unfold path. split; [by intros A | intros A1 A2 A3 H H'; by etrans]. Qed.

Lemma administration_path audit A A' : rtc administration A A' -> path audit A A'.
Proof.
  induction 1 as [|A1 A2 A3 H _ IH]; [reflexivity|]. etrans; [|exact IH].
  apply rtc_once. by apply (step_administration (database audit A1)).
Qed.

Lemma kernel_path audit A T T' : rtc kernel_write T T' ->
  path audit (with_kernel_tables T A) (with_kernel_tables T' A).
Proof.
  induction 1 as [|T1 T2 T3 H _ IH]; [reflexivity|]. etrans; [|exact IH].
  apply rtc_once. by apply (step_kernel (database audit (with_kernel_tables T1 A))).
Qed.

(** ** The registrar *)

Lemma admission_each_path id enabled administrator clock correlation more A outcome A' :
  set_admission_each id enabled administrator clock correlation more A = Ok (outcome, A') ->
  rtc administration A A'.
Proof.
  revert correlation A. induction more as [|next more IH]; intros correlation A; cbn [set_admission_each];
    intros H; result_inv;
    match goal with H : set_admission _ _ _ _ _ _ _ = Ok _ |- _ => apply administer_admission in H end.
  - by apply rtc_once.
  - eapply rtc_l; [done | by eapply IH].
Qed.

Lemma grants_path service administrator grants :
  history (rtc administration) (reconcile_grants service administrator grants).
Proof.
  induction grants as [|grant grants IH]; simpl; db_walk; try exact IH.
  - unfold count_grants in *. by result_inv.
  - unfold create_service_grant in *. result_inv. apply rtc_once. by eapply administer_grant.
Qed.

Lemma on_kernel_path {A} (f : Tables -> Result PostgresError (A * Tables)) T a T' :
  (forall K, f (kernel_tables T) = Ok (a, K) -> administration T (with_kernel_tables K T)) ->
  on_kernel f T = Ok (a, T') -> rtc administration T T'.
Proof. intros Hf (K & H & ->)%on_kernel_Ok. by apply rtc_once, Hf. Qed.

Lemma reconcile_service_path role extra resolver administrator service :
  history (rtc administration) (reconcile_service role extra resolver administrator service).
Proof.
  unfold reconcile_service, reconcile_identity, reconcile_binding, reconcile_communication.
  db_walk; try apply grants_path; try (apply draw_uuids_history; apply _).
  - unfold upsert_identity in *. result_inv. eapply on_kernel_path; [|eassumption].
    intros K. by eapply administer_identity.
  - unfold upsert_binding in *. result_inv. eapply on_kernel_path; [|eassumption].
    intros K. by eapply administer_binding.
  - unfold reconcile_admission in *. result_inv. by eapply admission_each_path.
Qed.

Lemma reconcile_path role extra resolver administrator manifest :
  history (rtc administration) (reconcile role extra resolver administrator manifest).
Proof.
  unfold reconcile. generalize (@nil (string * list string)).
  induction (manifest_services manifest) as [|service services IH]; intros changes; simpl; db_walk;
    first [apply reconcile_service_path | apply IH].
Qed.

Lemma prune_path manifest administrator : history (rtc administration) (prune manifest administrator).
Proof.
  unfold prune. db_walk.
  - eapply on_kernel_path; [|eassumption]. intros K. by eapply administer_disable.
  - by simplify_eq.
  - match goal with |- history _ (prune_grants _ _ ?l) => generalize l end. intros live.
    induction live as [|[id row] live IH]; simpl; db_walk; try exact IH.
    unfold revoke_by_text in *. result_inv. apply rtc_once. by eapply administer_revoke.
Qed.

Lemma registrar_path Value value_get value_as_str from_str role extra env :
  history (rtc administration) (run Value value_get value_as_str from_str role extra env).
Proof.
  unfold run, client_connect. db_walk; try apply reconcile_path; try apply prune_path.
  apply (history_quiet _ (fun _ => True)), quiet_transaction. done.
Qed.

(** ** The reconciler of handshakes *)

(** With a transport that writes to the database by steps of the kernel, if at all *)
Lemma handshakes_path kernel transport now :
  (forall endpoint challenge, history (rtc kernel_write) (transport_exchange transport endpoint challenge)) ->
  history (rtc kernel_write) (HandshakeReconciler_reconcile
    (MkHandshakeReconciler Tables kernel PostgresSubscribedInstanceDiscovery PostgresHandshakeRepository
       transport) now).
Proof.
  intros Ht.
  assert (forall i, history (rtc kernel_write) (HandshakeReconciler_reconcile_instance
    (MkHandshakeReconciler Tables kernel PostgresSubscribedInstanceDiscovery PostgresHandshakeRepository
       transport) i now)) as Hi.
  { intros i. unfold HandshakeReconciler_reconcile_instance, SignedHandshakeChallenge_issue. simpl.
    db_walk; eauto.
    - unfold PostgresHandshake_find_fresh. db_walk.
    - intros c. apply rtc_once, write_handshake_challenge.
    - intros c. apply rtc_once, write_handshake. }
  unfold HandshakeReconciler_reconcile. simpl.
  unfold PostgresDiscovery_eligible_subscribed_instances. db_walk.
  induction a as [|i l IH]; simpl; db_walk; eauto.
Qed.

(** ** The kernel process *)

Section kernel.
Context {J : Serde} (EJ : EvaluateCodec) {Client PostgresConfig : Type}
  (postgres_config_from_str : string -> Result PostgresError PostgresConfig)
  (env : Process Client) (bind : string -> Result string (Incoming Client)) (audit : list StatusAuditRow).

Definition cluster_path (C C' : Cluster) : Prop := path audit (cluster_tables C) (cluster_tables C').

#[local] Instance cluster_path_preorder : PreOrder cluster_path.
Proof. unfold cluster_path. split; [by intros C | intros C1 C2 C3 H H'; by etrans]. Qed.

Lemma startup_path : history cluster_path (Application_from_env postgres_config_from_str env).
Proof.
  unfold Application_from_env, Application_start, draw_credential, Database_migrate. db_walk.
  - apply (history_quiet _ (fun _ => True)), connect_quiet.
  - apply (history_quiet _ (fun _ => True)), quiet_Database_connection.
  - result_inv. match goal with H : run_migrations _ _ _ = Ok _ |- _ => rewrite run_migrations_rows in H end.
    result_inv. apply rtc_once.
    match goal with H : rows_of ?clock _ _ = Ok ?K |- _ =>
      exact (step_migrate clock (database audit _) K H) end.
Qed.

(** What the process leaves: the tables that the connections of its pool see, and the
    others as the start left them *)
Lemma main_path c result c2 :
  main EJ postgres_config_from_str env bind c = Some (result, c2) ->
  path audit (cluster_tables (durable c)) (with_kernel_tables (durable c2)
    (cluster_tables (durable (Application_from_env postgres_config_from_str env c).2))).
Proof.
  intros H. pose proof (startup_path c) as Hstart. unfold main in H.
  destruct (Application_from_env postgres_config_from_str env c) as [[application|error] c1] eqn:Happ;
    simpl in Hstart; (etrans; [exact Hstart|]); simpl; rewrite <-(with_same_kernel (cluster_tables (durable c1))) at 1.
  - destruct (start_Ok _ _ _ _ _ Happ) as (_ & _ & _ & credential & _ & _ & _ & ->).
    unfold serve in H. destruct (bind _) as [incoming|error]; [|by injection H as _ <-].
    destruct (serve_incoming_served EJ env credential incoming (kernel_connections c1))
      as (responses & c3 & Hserve & _ & _ & Hs).
    rewrite Hserve in H. injection H as _ <-. apply kernel_path.
    eapply rtc_subrel; [|exact Hs]. apply write_serving.
  - by injection H as _ <-.
Qed.
End kernel.

(** ** Deployments *)

(** One thing that happens to the database of a deployment: a run of a program, with
    whatever around it and stopped wherever a fault stops it, or a call of an
    administrator's procedure. *)
Inductive deployment_step : SchemaTables -> SchemaTables -> Prop :=
| kernel_runs (J : Serde) EJ Client PostgresConfig
    (postgres_config_from_str : string -> Result PostgresError PostgresConfig) (env : Process Client)
    bind D c result c2 :
    cluster_tables (durable c) = admin_tables D ->
    main EJ postgres_config_from_str env bind c = Some (result, c2) ->
    deployment_step D (database (status_audit D) (with_kernel_tables (durable c2)
      (cluster_tables (durable (Application_from_env postgres_config_from_str env c).2))))
| registrar_runs Value value_get value_as_str from_str role extra env D c :
    durable c = admin_tables D ->
    deployment_step D (database (status_audit D)
      (durable (run Value value_get value_as_str from_str role extra env c).2))
| handshakes_run kernel transport now D c :
    (forall endpoint challenge,
       history (rtc kernel_write) (transport_exchange transport endpoint challenge)) ->
    durable c = schema_kernel D ->
    deployment_step D (with_schema_kernel (durable (HandshakeReconciler_reconcile
      (MkHandshakeReconciler Tables kernel PostgresSubscribedInstanceDiscovery
         PostgresHandshakeRepository transport) now c).2) D)
| administrator_calls D A : administration (admin_tables D) A ->
    deployment_step D (database (status_audit D) A)
| administrator_sets_status id status administrator reason correlation at_ D answer D' :
    set_schema_status id status administrator reason correlation at_ D = Ok (answer, D') ->
    deployment_step D D'.

Lemma database_same D : database (status_audit D) (admin_tables D) = D.
Proof. by destruct D. Qed.

Lemma path_from D A' : path (status_audit D) (admin_tables D) A' -> rtc database_step D (database (status_audit D) A').
Proof. unfold path. by rewrite database_same. Qed.

(** C12: The steps of the database are all that the programs do to it. A run of the kernel
    process from its start through every connection it serves, a run of the registrar and
    one of the reconciler of handshakes, whatever their configuration and input and
    whatever fails on the way, is a sequence of the operations, statements and migrations
    that [database_step] lists, and so are the procedures of administrators. *)
Theorem programs_refine_steps D D' : deployment_step D D' -> rtc database_step D D'.
Proof.
  destruct 1 as [J EJ Client PostgresConfig parse env bind D c result c2 Hc Hrun
    | Value value_get value_as_str from_str role extra env D c Hc
    | kernel transport now D c Ht Hc | D A H | id status administrator reason correlation at_ D answer D' H].
  - apply path_from. rewrite <-Hc. by eapply main_path.
  - apply path_from. rewrite <-Hc. apply administration_path, registrar_path.
  - rewrite <-(database_same D) at 1. rewrite <-(with_same_kernel (admin_tables D)) at 1.
    apply kernel_path. fold (schema_kernel D). rewrite <-Hc. by apply handshakes_path.
  - apply path_from, administration_path. by apply rtc_once.
  - apply rtc_once. by eapply step_status.
Qed.
End programs.
