(* ===== verification/Witnesses.v ===== *)
(** * Witnesses: the theorems at concrete inputs

    One small world: a source service (10) with a live instance (30) and its key
    (31), a worker service (20) with an instance (40) and a subscription (50), a
    policy evaluator (99), and the reserved schema versions. Operations run on it
    by evaluation with the concrete [Reference.platform]; each witness applies a
    theorem to such a run. *)

From S2P Require Import Prelude Text Platform Database Schema Identity InstanceKeys.
From S2P Require Import InstanceRegistry ServiceRequests ReplayProtection Admission RequestGate.
From S2P Require Import RequestNames Authority PostgresAuthority Subscriptions Requests.
From S2P Require Import WorkClaims.

#[local] Existing Instance Reference.platform.
#[local] Existing Instance Reference.laws.

(** The value of a run that succeeds by evaluation *)
Lemma ran {S E A} (r : Result E A * Conn S) : is_ok r.1 = true -> exists a, r = (Ok a, r.2).
Proof. destruct r as [[a|e] c]; [by exists a | done]. Qed.

Lemma failed {S E A} (r : Result E A * Conn S) e : r.1 = Err e -> r = (Err e, r.2).
Proof. destruct r as [a c]. simpl. by intros ->. Qed.

Definition source : ActorId := MkActorId (uuid_of_N 10).
Definition worker : ActorId := MkActorId (uuid_of_N 20).
Definition evaluator_id : ActorId := MkActorId (uuid_of_N 99).
Definition source_instance : InstanceId := MkInstanceId (uuid_of_N 30).
Definition worker_instance : InstanceId := MkInstanceId (uuid_of_N 40).

Definition credential : InstanceCredential :=
  InstanceCredential_generate source "a seed" source_instance (MkKeyId (uuid_of_N 31)).

Definition base_tables : Tables :=
  with_identities
    (<[uuid_of_N 10 := MkIdentityRow "service" "source" "active"]>
     (<[uuid_of_N 20 := MkIdentityRow "service" "worker" "active"]>
      (<[uuid_of_N 99 := MkIdentityRow "service" "evaluator" "active"]> ∅)))
  (with_schema_versions
    (<[uuid_of_N 1 := MkSchemaVersionRow "artifact" "kernel.none" 1 (uuid_of_N 10)
                        (sha256 "none") None 0 "published"]>
     (<[uuid_of_N 2 := MkSchemaVersionRow "permission_policy" "kernel.none" 1 (uuid_of_N 10)
                         (sha256 "none") None 0 "published"]> ∅))
  (with_admission (<[uuid_of_N 10 := MkAdmissionRow true 4 0]> ∅)
  (with_service_instances
    (<[uuid_of_N 40 := MkInstanceRow (uuid_of_N 20) "https://worker" 0 1000 1 None]> ∅)
   no_tables))).

(** The source's instance registered at time 100 *)
Definition registration :=
  InstanceRegistryService_register_verified PostgresInstanceRegistry LeasePolicy_default
    (credential_public_key credential) "https://source" 100 (start base_tables [] []).
Definition world : Tables := durable registration.2.

Definition parts : Result ServiceRequestAuthenticationError ServiceRequestParts :=
  ServiceRequestParts_new "POST" "kernel.local" "/v1/requests" "application/json" "{}" (uuid_of_N 77).
Definition signed : Result ServiceRequestAuthenticationError SignedServiceRequest :=
  parts ← parts; SignedServiceRequest_sign parts credential 110 130 "nonce-0123456789abcdef".

Definition the {E A} (r : Result E A) : is_ok r = true -> A :=
  match r with Ok a => fun _ => a | Err _ => fun H => False_rect A (Bool.diff_false_true H) end.

Lemma the_Ok {E A} (r : Result E A) (H : is_ok r = true) : r = Ok (the r H).
Proof. by destruct r. Qed.

Definition request : SignedServiceRequest := the signed eq_refl.
#[local] Notation gate_run :=
  (ServiceRequestGate_admit (kernel_gate LeasePolicy_default) request 112 (start world [] [])).

(** ** Signed requests and the gate *)

Definition resolver : InstanceRegistryService Tables :=
  MkInstanceRegistryService _ PostgresInstanceRegistry LeasePolicy_default.
#[local] Notation verification :=
  (ServiceRequestVerifier_verify resolver request 112 (start world [] [])).

Lemma verify_only_authentic_witness :
  exists v i, verification = (Ok v, verification.2) /\
    authentic (instance_public_key i) request 112 v.
Proof.
  destruct (ran verification) as [v Hv]; [by vm_compute|].
  destruct (verify_only_authentic resolver request 112 (start world [] []) v verification.2) as (i & _ & _ & H);
    [split; by vm_compute | exact Hv |].
  exists v, i. split; [exact Hv | exact H].
Defined.

#[local] Notation found :=
  (find_eligible resolver (public_instance_id (credential_public_key credential)) 112 (start world [] [])).

Lemma verify_accepts_signed_witness : is_ok verification.1 = true.
Proof.
  destruct (ran found) as [i Hi]; [by vm_compute|].
  assert (instance_public_key i = credential_public_key credential) as Hkey.
  { assert (option_map instance_public_key (match found.1 with Ok i => Some i | Err _ => None end)
            = Some (credential_public_key credential)) as H by (vm_compute; reflexivity).
    rewrite Hi in H. simpl in H. by injection H. }
  assert (SignedServiceRequest_sign (the parts eq_refl) credential 110 130 "nonce-0123456789abcdef"
    = Ok request) as Hsign by (vm_compute; reflexivity).
  assert (validate_signature_time 110 130 112 = Ok tt) as Htime by (vm_compute; reflexivity).
  assert (in_i64 110 /\ in_i64 130) as [H1 H2] by (repeat split; by vm_compute).
  pose proof (verify_accepts_signed resolver credential (the parts eq_refl) 110 130
    "nonce-0123456789abcdef" request 112 (start world [] []) i found.2
    eq_refl H1 H2 Hsign Htime Hi Hkey) as H.
  exact (f_equal (fun r => is_ok r.1) H).
Defined.

Lemma parts_are_wf : parts_wf (signed_parts request).
Proof.
  exists "POST", "kernel.local", "/v1/requests", "application/json", "{}", (uuid_of_N 77).
  vm_compute. reflexivity.
Qed.

Lemma signature_base_binds_request_witness :
  signed_parts request = signed_parts request \/
  sha256_collision (parts_body (signed_parts request)) (parts_body (signed_parts request)).
Proof.
  destruct (signature_base_binds_request request request "p" "p") as [(H & _)|H];
    [exact parts_are_wf | exact parts_are_wf | by vm_compute | by vm_compute | reflexivity | by left | by right].
Defined.

Lemma request_fingerprint_binds_content_witness :
  signed_service_id request = signed_service_id request \/
  sha256_collision (fingerprint_text request) (fingerprint_text request) \/
  sha256_collision (parts_body (signed_parts request)) (parts_body (signed_parts request)).
Proof.
  destruct (request_fingerprint_binds_content request request) as [(H & _)|H];
    [exact parts_are_wf | exact parts_are_wf | by vm_compute | by vm_compute | reflexivity | by left | by right].
Defined.

Lemma gate_admits_only_witness :
  exists a adm, gate_run = (Ok a, gate_run.2) /\
    admission (durable gate_run.2) !! uuid_of_N 10 = Some adm /\ adm_communication_enabled adm = true.
Proof.
  destruct (ran gate_run) as [a Ha]; [by vm_compute|].
  destruct (gate_admits_only LeasePolicy_default request 112 (start world [] []) a gate_run.2)
    as (i & row & key_id & key & adm & [Hrow _ _ _ _] & _ & _ & _ & Hadm & Hen & _);
    [split; by vm_compute | exact Ha |].
  assert (option_map si_service_id (service_instances (durable (start world [] []))
    !! InstanceId_as_uuid (signed_instance_id request)) = Some (uuid_of_N 10)) as H by (vm_compute; reflexivity).
  rewrite Hrow in H. cbn [option_map] in H. injection H as H. rewrite H in Hadm.
  exists a, adm. split; [exact Ha | split; [exact Hadm | exact Hen]].
Defined.

(** Too late: the signature has expired and the gate changes nothing. *)
#[local] Notation late_run :=
  (ServiceRequestGate_admit (kernel_gate LeasePolicy_default) request 150 (start world [] [])).

Lemma gate_rejections_witness :
  late_run.1 = Err (GateError_Signature Authentication_NotFresh) /\
  durable late_run.2 = durable (start world [] []).
Proof.
  assert (late_run.1 = Err (GateError_Signature Authentication_NotFresh)) as H by (vm_compute; reflexivity).
  split; [exact H|].
  exact (gate_rejections LeasePolicy_default request 150 (start world [] [])
    (GateError_Signature Authentication_NotFresh) late_run.2 (failed _ _ H)).
Defined.

(** ** Replay protection *)

Definition reservation : ReplayReservation :=
  MkReplayReservation source source_instance (MkKeyId (uuid_of_N 31)) (uuid_of_N 77)
    (sha256 "nonce") (sha256 "content") 110 130 112.

#[local] Notation reserve_run T := (PostgresReplayProtection_reserve reservation (start T [] [])).

Definition replay_twice : list (ReplayReservation * Result ReplayProtectionError ReplayDisposition) :=
  [(reservation, (reserve_run world).1);
   (reservation, (reserve_run (durable (reserve_run world).2)).1)].

Lemma replay_twice_runs :
  exists T', replay_run world replay_twice T'.
Proof.
  eexists. eapply (replay_run_reserve world [] []); [apply surjective_pairing|].
  eapply (replay_run_reserve _ [] []); [apply surjective_pairing|]. apply replay_run_nil.
Qed.

Lemma nonce_accepted_once_witness :
  accepted_nonces replay_twice = [nonce_key reservation] /\ NoDup (accepted_nonces replay_twice).
Proof.
  split; [vm_compute; reflexivity|].
  destruct replay_twice_runs as [T' H]. apply (nonce_accepted_once world replay_twice T' H).
Defined.

Lemma request_id_bound_once_witness :
  (reserve_run world).1 = Ok ReplayDisposition_Fresh /\
  reservation_request_fingerprint reservation = reservation_request_fingerprint reservation.
Proof.
  assert ((reserve_run world).1 = Ok ReplayDisposition_Fresh) as H by (vm_compute; reflexivity).
  split; [exact H|]. destruct replay_twice_runs as [T' Hrun].
  apply (request_id_bound_once world replay_twice T' reservation ReplayDisposition_Fresh
    reservation ReplayDisposition_Fresh Hrun); [..|reflexivity];
    unfold replay_twice; rewrite H; apply list_elem_of_here.
Defined.

Lemma reserve_refines_witness :
  replay_outcome world reservation = Ok ReplayDisposition_Fresh /\
  reserve_run world = (replay_outcome world reservation, start (replay_effect world reservation) [] []).
Proof.
  split; [vm_compute; reflexivity|]. apply (reserve_refines world reservation []).
  split; try (by vm_compute); by eexists; vm_compute.
Defined.

(** ** Leases *)

#[local] Notation renewal :=
  (InstanceRegistryService_renew PostgresInstanceRegistry LeasePolicy_default source_instance 1 120
    (start world [] [])).

Lemma renew_compare_and_swap_witness :
  exists i, renewal = (Ok i, renewal.2) /\ instance_lease_revision i = 2%Z.
Proof.
  destruct (ran renewal) as [i Hi]; [by vm_compute|]. exists i. split; [exact Hi|].
  by destruct (renew_compare_and_swap LeasePolicy_default source_instance 1 120 (start world [] []) i renewal.2 Hi)
    as (row & _ & _ & _ & _ & _ & -> & _).
Defined.

(** ** Authority *)

Definition refs : SchemaVersionRefs := no_artifact_schema_versions.
Definition facts : PolicyFacts :=
  PolicyFacts_for_request_acceptance source (MkActionName "demo.do") (MkScope "all") refs.
Definition granted_world : Tables :=
  with_authority_grants
    (<[uuid_of_N 60 := MkGrantRow (uuid_of_N 10) "demo.do" "*" (uuid_of_N 1) (uuid_of_N 2) None 0 None None]> ∅)
    world.
Definition evaluator : PolicyEvaluator := fun _ grants =>
  match grants with
  | [] => Ok (MkPolicyEvaluation Verdict_Deny (MkPolicyBundleVersion "v1"))
  | _ => Ok (MkPolicyEvaluation Verdict_Allow (MkPolicyBundleVersion "v1"))
  end.

#[local] Notation matching :=
  (PostgresAuthority_matching_grants facts 112 (start granted_world [] [])).
#[local] Notation authorization :=
  (AuthorityService_authorize (postgres_authority evaluator evaluator_id) facts 112
     (start granted_world [] [5%N])).

Lemma matching_grants_are_permitting_witness :
  exists grants, matching = (Ok grants, matching.2) /\ durable matching.2 = durable (start granted_world [] []).
Proof.
  destruct (ran matching) as [grants H]; [vm_compute; reflexivity|]. exists grants. split; [exact H|].
  exact (proj1 (matching_grants_are_permitting facts 112 (start granted_world [] []) grants matching.2 H)).
Defined.

Lemma authorize_fails_closed_witness :
  exists d, authorization = (Ok d, authorization.2) /\ AuthorityDecision_is_allowed d = true /\
    authority_decisions (durable authorization.2) !! DecisionId_as_uuid (decision_id d) =
      Some (decision_row d).
Proof.
  assert (match authorization.1 with Ok d => AuthorityDecision_is_allowed d | Err _ => false end = true)
    as Hallow by (vm_compute; reflexivity).
  destruct (ran authorization) as [d H]; [vm_compute; reflexivity|]. exists d.
  split; [exact H|]. split; [rewrite H in Hallow; exact Hallow|].
  exact (proj1 (proj2 (authorize_fails_closed evaluator evaluator_id facts 112
    (start granted_world [] [5%N]) d authorization.2 H))).
Defined.

Definition schema : SchemaName := MkSchemaName "demo.schema".
Definition digest : ContentDigest := MkContentDigest (sha256 "content").
#[local] Notation publication :=
  (SchemaService_publish PostgresSchemaRepository SchemaKind_Artifact schema source digest 5
     (start world [] [6%N])).

Lemma publish_next_version_witness :
  exists r, publication = (Ok r, publication.2) /\ schema_owner (record_version r) = source.
Proof.
  destruct (ran publication) as [r H]; [vm_compute; reflexivity|]. exists r. split; [exact H|].
  exact (proj1 (proj2 (proj2 (publish_next_version SchemaKind_Artifact schema source digest 5
    (start world [] [6%N]) r publication.2 H)))).
Defined.

Definition schema_world : Tables :=
  with_schema_versions (<[uuid_of_N 6 := MkSchemaVersionRow "artifact" "demo.schema" 1 (uuid_of_N 10)
                            (sha256 "content") None 5 "published"]> ∅) world.

Lemma publish_conflict_is_repository_error_witness :
  exists c', SchemaService_publish PostgresSchemaRepository SchemaKind_Artifact schema worker digest 7
      (start schema_world [] []) =
    (Err (AuthorityError_Repository
       "db error: schema name demo.schema is owned by a different service"), c').
Proof.
  destruct (publish_conflict_is_repository_error SchemaKind_Artifact schema worker digest 7 schema_world []
    (uuid_of_N 6) (MkSchemaVersionRow "artifact" "demo.schema" 1 (uuid_of_N 10) (sha256 "content") None 5
                     "published")) as (c' & H & _).
  - lia.
  - vm_compute. reflexivity.
  - intros Heq. apply (f_equal uuid_value) in Heq. vm_compute in Heq. discriminate Heq.
  - exists c'. exact H.
Defined.

(** ** Subscriptions *)

Definition subscribed_world : Tables :=
  with_subscriptions
    (<[uuid_of_N 50 := MkSubscriptionRow (uuid_of_N 20) "demo.do" "inclusive" 10 None]> ∅) world.

Lemma disable_hides_foreign_subscription_witness :
  SubscriptionService_disable PostgresSubscriptionRepository source (MkSubscriptionId (uuid_of_N 50)) 60
    (start subscribed_world [] []) =
  (Err (SubscriptionError_NotFound (MkSubscriptionId (uuid_of_N 50))), start subscribed_world [] []).
Proof.
  refine (proj1 (disable_hides_foreign_subscription source (MkSubscriptionId (uuid_of_N 50)) 60
    subscribed_world [] (MkSubscriptionRow (uuid_of_N 20) "demo.do" "inclusive" 10 None) _ _ _)).
  - lia.
  - reflexivity.
  - intros Heq. apply (f_equal uuid_value) in Heq. vm_compute in Heq. discriminate Heq.
Defined.

Lemma action_is_event_type_witness : EventType_new "demo.do" = Ok (MkEventType "demo.do").
Proof. apply (action_is_event_type "demo.do" (MkActionName "demo.do")). vm_compute. reflexivity. Defined.

(** ** Requests and routes *)

Definition accepted : Request := MkRequest (MkRequestId (uuid_of_N 70)) source (MkActionName "demo.do")
  (MkScope "all") refs.

Lemma accepted_is_wf : request_wf accepted.
Proof. split; vm_compute; reflexivity. Qed.

Lemma accepted_fingerprint_length :
  String.length (RequestFingerprint_as_bytes (Request_fingerprint accepted)) = 32.
Proof. vm_compute. reflexivity. Qed.

Lemma no_requests_wf T : accepted_requests T = ∅ -> accepted_wf T.
Proof. intros HT s i row. rewrite HT. by rewrite lookup_empty. Qed.

Lemma subscribed_world_facts :
  accepted_wf subscribed_world /\ known_source subscribed_world accepted /\
  known_schemas subscribed_world accepted.
Proof.
  split; [apply no_requests_wf; vm_compute; reflexivity|].
  split; [|split]; eexists; vm_compute; reflexivity.
Qed.

Lemma fingerprint_binds_content_witness :
  request_source_service accepted = source \/
  sha256_collision (Request_fingerprint_input accepted) (Request_fingerprint_input accepted).
Proof.
  destruct (fingerprint_binds_content accepted accepted accepted_is_wf accepted_is_wf eq_refl)
    as [[H _]|H]; [left; reflexivity | right; exact H].
Defined.

#[local] Notation acceptance fs :=
  (RequestService_accept PostgresRequestRepository accepted (Request_fingerprint accepted)
     (start subscribed_world fs [200%N])).

Lemma accept_contract_witness :
  exists T', acceptance [] =
    (Ok (RequestAcceptance_Accepted
           (MkAcceptedRequest accepted (Request_fingerprint accepted) (clock_of [200%N]))),
     start T' [] (tl [200%N])).
Proof.
  destruct subscribed_world_facts as (Hwf & Hs & Hv).
  pose proof (accept_contract accepted (Request_fingerprint accepted) subscribed_world [200%N] Hwf
    accepted_is_wf accepted_fingerprint_length) as H.
  assert (stored_request subscribed_world (request_source_service accepted) (request_id accepted) = None)
    as Hnone by (vm_compute; reflexivity).
  cbv zeta in H. rewrite Hnone in H. destruct H as (_ & _ & H).
  destruct (H Hs Hv) as (T' & Hrun & _). exists T'. exact Hrun.
Defined.

(** The commit of the first attempt is acknowledged to nobody. *)
Definition lost : list Fault := [Proceed; Proceed; Proceed; Proceed; AckLost "connection closed"].

Lemma acceptance_retry_is_safe_witness :
  is_ok (acceptance lost).1 = false /\
  exists answer T2,
    RequestService_accept PostgresRequestRepository accepted (Request_fingerprint accepted)
      (start (durable (acceptance lost).2) [] []) = (Ok answer, start T2 [] (tl [])).
Proof.
  split; [vm_compute; reflexivity|]. destruct subscribed_world_facts as (Hwf & Hs & Hv).
  destruct (acceptance_retry_is_safe accepted (Request_fingerprint accepted) subscribed_world lost [200%N] []
    Hwf accepted_is_wf accepted_fingerprint_length Hs Hv) as (a & T2 & H & _); [vm_compute; reflexivity|].
  exists a, T2. exact H.
Defined.

Definition accepted_world : Tables := durable (acceptance []).2.
Definition subscription : SubscriptionId := MkSubscriptionId (uuid_of_N 50).

#[local] Notation materialization T source ns :=
  (RouteService_materialize PostgresRouteRepository source (MkRequestId (uuid_of_N 70)) subscription worker
     210 (start T [] ns)).

Lemma no_routes_wf T : request_routes T = ∅ -> routes_wf T.
Proof. intros HT. split; intros i row; rewrite HT; by rewrite lookup_empty. Qed.

Lemma materialize_is_idempotent_witness :
  exists route, materialization accepted_world source [80%N] =
      (Ok route, (materialization accepted_world source [80%N]).2) /\
    RouteService_materialize PostgresRouteRepository worker (MkRequestId (uuid_of_N 70)) subscription source
      220 (start (durable (materialization accepted_world source [80%N]).2) [] [81%N]) =
      (Ok route, start (durable (materialization accepted_world source [80%N]).2) [] (tl [81%N])).
Proof.
  destruct (ran (materialization accepted_world source [80%N])) as [route H]; [vm_compute; reflexivity|].
  exists route. split; [exact H|].
  refine (materialize_is_idempotent source (MkRequestId (uuid_of_N 70)) subscription worker 210
    accepted_world [] [80%N] route _ worker source 220 [81%N] _ _ H).
  - apply no_routes_wf. vm_compute. reflexivity.
  - lia.
Defined.

(** The source's route, with the world of the work claims around it *)
Definition routed_world : Tables :=
  with_request_routes
    (<[uuid_of_N 80 := MkRouteRow (uuid_of_N 10) (uuid_of_N 70) (uuid_of_N 50) (uuid_of_N 20) 210]> ∅)
    world.

Lemma routed_world_wf : routes_wf routed_world.
Proof.
  split.
  - intros i r i' r'. simpl. intros [<- <-]%lookup_singleton_Some [<- <-]%lookup_singleton_Some. done.
  - intros i r. simpl. intros [<- <-]%lookup_singleton_Some. done.
Qed.

Lemma materialize_ignores_source_witness :
  exists route, materialization routed_world worker [82%N] = (Ok route, start routed_world [] (tl [82%N])) /\
    route_source_service route = source.
Proof.
  destruct (materialize_ignores_source source worker (MkRequestId (uuid_of_N 70)) subscription worker 210
    routed_world [82%N] (uuid_of_N 80)
    (MkRouteRow (uuid_of_N 10) (uuid_of_N 70) (uuid_of_N 50) (uuid_of_N 20) 210))
    as (route & H & Hs & _); [exact routed_world_wf | lia | vm_compute; reflexivity | reflexivity
      | reflexivity | reflexivity | | exists route; split; [exact H | exact Hs]].
  intros Heq. apply (f_equal (fun a => uuid_value (ActorId_as_uuid a))) in Heq. discriminate Heq.
Defined.

(** ** Work claims *)

Definition route : RouteId := MkRouteId (uuid_of_N 80).

#[local] Notation claiming T lease now ns :=
  (WorkClaimService_claim PostgresWorkClaimRepository route worker worker_instance lease now (start T [] ns)).

Lemma routed_world_claims : claims_wf routed_world.
Proof. apply no_claims_wf. vm_compute. reflexivity. Qed.

(** Claimed at 300 until 400, and again at 500 *)
Definition claimed_world : Tables := durable (claiming routed_world 400 300 [90%N]).2.
Definition reclaimed_world : Tables := durable (claiming claimed_world 600 500 [91%N]).2.

Lemma claimed_world_reached : rtc claim_op routed_world claimed_world.
Proof. apply rtc_once, (op_claim route worker worker_instance 400 300 [] [90%N]). Qed.

Lemma claimed_world_claims : claims_wf claimed_world.
Proof. apply (claim_ops_step _ _ claimed_world_reached), routed_world_claims. Qed.

Definition first_row : WorkClaimRow :=
  MkWorkClaimRow (uuid_of_N 80) (uuid_of_N 20) (uuid_of_N 40) 1 "active" 300 400.

Lemma claimed_world_row : work_claims claimed_world !! uuid_of_N 90 = Some first_row.
Proof. vm_compute. reflexivity. Qed.

Lemma claims_stay_consistent_witness :
  (1 <= wc_fencing_token first_row)%Z.
Proof.
  refine (proj1 (claims_stay_consistent routed_world claimed_world (uuid_of_N 90) first_row (uuid_of_N 90)
    first_row _ claimed_world_reached claimed_world_row claimed_world_row eq_refl)).
  vm_compute. reflexivity.
Defined.

Lemma claim_refines_witness :
  exists T', claiming routed_world 400 300 [90%N] =
      (Ok (MkWorkClaim (MkClaimId (uuid_of_N 90)) route worker worker_instance 1
             WorkClaimStatus_Active 300 400), start T' [] []) /\
    route_state T' (uuid_of_N 80) = Held (uuid_of_N 90) 1 400.
Proof.
  pose proof (claim_refines routed_world route worker worker_instance 400 300 [90%N] routed_world_claims) as H.
  assert (route_state routed_world (RouteId_as_uuid route) = Free 0) as Hs by (vm_compute; reflexivity).
  cbv zeta in H. rewrite Hs in H. destruct H as (T' & H & Hst & _).
  - lia.
  - vm_compute. reflexivity.
  - eexists. vm_compute. reflexivity.
  - eexists. vm_compute. reflexivity.
  - vm_compute. reflexivity.
  - vm_compute. reflexivity.
  - exists T'. split; [exact H | exact Hst].
Defined.

Lemma live_claim_excludes_witness :
  refused (WorkClaimService_claim PostgresWorkClaimRepository route worker worker_instance 500 399)
    (start claimed_world [] [91%N]).
Proof.
  refine (live_claim_excludes (uuid_of_N 90) first_row route worker worker_instance 500 399
    (start claimed_world [] [91%N]) claimed_world_claims claimed_world_row eq_refl eq_refl _).
  simpl. lia.
Defined.

Lemma fencing_tokens_increase_witness :
  exists c1 c2, claiming routed_world 400 300 [90%N] = (Ok c1, (claiming routed_world 400 300 [90%N]).2) /\
    claiming claimed_world 600 500 [91%N] = (Ok c2, (claiming claimed_world 600 500 [91%N]).2) /\
    (claim_fencing_token c1 < claim_fencing_token c2)%Z.
Proof.
  destruct (ran (claiming routed_world 400 300 [90%N])) as [c1 H1]; [vm_compute; reflexivity|].
  destruct (ran (claiming claimed_world 600 500 [91%N])) as [c2 H2]; [vm_compute; reflexivity|].
  exists c1, c2. split; [exact H1|]. split; [exact H2|].
  refine (fencing_tokens_increase route worker worker_instance 400 300 (start routed_world [] [90%N]) c1 _
    worker worker_instance 600 500 (start claimed_world [] [91%N]) c2 _ routed_world_claims H1 _ H2).
  apply rtc_refl.
Defined.

Lemma stale_holder_is_fenced_witness :
  exists c1, claiming routed_world 400 300 [90%N] = (Ok c1, (claiming routed_world 400 300 [90%N]).2) /\
    refused (WorkClaimService_complete PostgresWorkClaimRepository (claim_id c1) 1 510)
      (start reclaimed_world [] []).
Proof.
  destruct (ran (claiming routed_world 400 300 [90%N])) as [c1 H1]; [vm_compute; reflexivity|].
  destruct (ran (claiming claimed_world 600 500 [91%N])) as [c2 H2]; [vm_compute; reflexivity|].
  exists c1. split; [exact H1|].
  refine (proj2 (proj2 (stale_holder_is_fenced route worker worker_instance 400 300
    (start routed_world [] [90%N]) c1 _ worker worker_instance 600 500 (start claimed_world [] [91%N]) c2 _
    reclaimed_world 1 700 510 [] [] routed_world_claims H1 _ H2 _)));
    apply rtc_refl.
Defined.

#[local] Notation completing :=
  (WorkClaimService_complete PostgresWorkClaimRepository (MkClaimId (uuid_of_N 90)) 1 350
     (start claimed_world [] [])).

Lemma completion_is_permanent_witness :
  exists claim, completing = (Ok claim, completing.2) /\ claim_status claim = WorkClaimStatus_Completed /\
    refused (WorkClaimService_claim PostgresWorkClaimRepository (claim_route_id claim) worker
               worker_instance 9999 9000) (start (durable completing.2) [] [91%N]).
Proof.
  destruct (ran completing) as [claim H]; [vm_compute; reflexivity|]. exists claim. split; [exact H|].
  refine (completion_is_permanent (MkClaimId (uuid_of_N 90)) 1 350 (start claimed_world [] []) claim _
    (durable completing.2) worker worker_instance 9999 9000 [] [91%N] claimed_world_claims H _).
  apply rtc_refl.
Defined.

Lemma claimed_world_held : route_state claimed_world (uuid_of_N 80) = Held (uuid_of_N 90) 1 400.
Proof. vm_compute. reflexivity. Qed.

Lemma holder_operations_witness :
  exists claim T', WorkClaimService_renew PostgresWorkClaimRepository (MkClaimId (uuid_of_N 90)) 1 450 350
      (start claimed_world [] []) = (Ok claim, start T' [] []) /\
    route_state T' (uuid_of_N 80) = Held (uuid_of_N 90) 1 450.
Proof.
  destruct (holder_operations claimed_world (uuid_of_N 80) (uuid_of_N 90) 1 400 450 350 [] claimed_world_claims
    claimed_world_held) as ((claim & T' & H & _ & _ & Hs & _) & _); [lia | lia|].
  exists claim, T'. split; [exact H | exact Hs].
Defined.

Lemma renewal_must_extend_witness :
  WorkClaimService_renew PostgresWorkClaimRepository (MkClaimId (uuid_of_N 90)) 1 400 350
    (start claimed_world [] []) =
  (Err (WorkClaimError_Repository "db error: work claim renewal must extend the lease"),
   start claimed_world [] []).
Proof.
  refine (renewal_must_extend claimed_world (uuid_of_N 80) (uuid_of_N 90) 1 400 400 350 []
    claimed_world_claims claimed_world_held _ _); lia.
Defined.
