(* ===== verification/BoundaryWitnesses.v ===== *)
(** * BoundaryWitnesses: the theorems of the boundary at concrete inputs

    The world of [Witnesses] with a kernel instance (5), a workload bound to the
    source, and concrete clients and codecs: handshakes, enrollment, reading
    requests, and the endpoints, run by evaluation. *)

From S2P Require Import Prelude Text Platform Database Schema Identity InstanceKeys.
From S2P Require Import InstanceRegistry ServiceRequests ReplayProtection Admission RequestGate.
From S2P Require Import RequestNames Authority PostgresAuthority Subscriptions Requests.
From S2P Require Import WorkClaims Handshakes Enrollment HttpText HttpParsing HttpWire HttpDto.
From S2P Require Import PolicyClient Wiring Http HttpHistory HttpSafety HttpServices HttpLiveness Witnesses.

#[local] Existing Instance Reference.platform.
#[local] Existing Instance Reference.laws.

(** ** Handshakes *)

Definition kernel_credential : InstanceCredential :=
  InstanceCredential_generate (MkActorId (uuid_of_N 4)) "kernel seed" (MkInstanceId (uuid_of_N 5))
    (MkKeyId (uuid_of_N 6)).

Definition target_instance : RegisteredInstance := the registration.1 eq_refl.

Definition reconciler : HandshakeReconciler Tables :=
  MkHandshakeReconciler Tables kernel_credential PostgresSubscribedInstanceDiscovery
    PostgresHandshakeRepository (honest_transport credential 125).

#[local] Notation handshaking :=
  (HandshakeReconciler_reconcile_instance reconciler target_instance 120 (start world [] [7%N])).

Definition the_handshake : option InstanceHandshake :=
  match handshaking.1 with Ok (HandshakeAttemptOutcome_Verified h) => Some h | _ => None end.

Lemma handshake_ran : exists h, the_handshake = Some h /\
  handshaking = (Ok (HandshakeAttemptOutcome_Verified h), handshaking.2).
Proof.
  assert (is_Some the_handshake) as [h Hh] by (by vm_compute; eexists).
  exists h. split; [exact Hh|]. unfold the_handshake in Hh.
  destruct handshaking as [[[]|] c]; simpl in *; try done. by injection Hh as ->.
Qed.

Lemma verified_handshake_is_proven_witness :
  exists h hc, the_handshake = Some h /\
    handshakes (durable handshaking.2) !! handshake_challenge_digest h = Some (handshake_row h) /\
    handshake_challenges (durable handshaking.2) !! handshake_challenge_digest h = Some hc /\
    hc_consumed_at hc = Some (handshake_verified_at h).
Proof.
  destruct handshake_ran as (h & Hh & Hrun).
  pose proof (verified_handshake_is_proven kernel_credential PostgresSubscribedInstanceDiscovery
    (honest_transport credential 125) target_instance 120 (start world [] [7%N]) h handshaking.2 Hrun) as H.
  cbv zeta in H.
  destruct H as (ch & ex & c1 & c2 & _ & _ & _ & _ & _ & _ & _ & _ & _ & -> & Hrow & hc & Hhc & Hc).
  eexists _, hc. split; [exact Hh|]. split; [exact Hrow|]. split; [exact Hhc | exact Hc].
Defined.

Definition challenge : SignedHandshakeChallenge :=
  issued_challenge kernel_credential target_instance 120 (be_bytes 32 7%N).
Definition challenged_world : Tables :=
  with_handshake_challenges
    (<[SignedHandshakeChallenge_digest challenge := challenge_row (HandshakeChallengeRecord_from challenge)]> ∅)
    world.
Definition handshake : InstanceHandshake :=
  MkInstanceHandshake (SignedHandshakeChallenge_digest challenge) (MkInstanceId (uuid_of_N 5))
    source_instance (MkKeyId (uuid_of_N 31)) 125 (125 + HANDSHAKE_LIFETIME_SECONDS).

#[local] Notation completion :=
  (PostgresHandshake_complete handshake (start challenged_world [] [])).

Lemma challenge_completes_once_witness :
  is_ok completion.1 = true /\
  refused (PostgresHandshake_complete handshake) (start (durable completion.2) [] []).
Proof.
  assert (is_ok completion.1 = true) as H by (vm_compute; reflexivity).
  split; [exact H|]. destruct (ran completion H) as [u Hrun].
  refine (challenge_completes_once handshake (start challenged_world [] []) u completion.2
    (durable completion.2) handshake [] [] Hrun _ eq_refl).
  reflexivity.
Defined.

(** The handshake stored, its challenge consumed *)
Definition verified_world : Tables :=
  with_handshakes (<[handshake_challenge_digest handshake := handshake_row handshake]> ∅)
  (with_handshake_challenges
    (<[handshake_challenge_digest handshake :=
         MkHandshakeChallengeRow (uuid_of_N 5) (uuid_of_N 30) (uuid_of_N 31) 120
           (120 + CHALLENGE_LIFETIME_SECONDS) (Some 125%Z)]> ∅) world).

Lemma digest_length : String.length (handshake_challenge_digest handshake) = 32.
Proof. vm_compute. reflexivity. Qed.

Lemma verified_world_wf : handshakes_wf verified_world.
Proof.
  pose proof digest_length as Hl. revert Hl. unfold verified_world.
  generalize (handshake_challenge_digest handshake). intros digest Hl d hs. simpl.
  intros [<- <-]%lookup_singleton_Some. eexists. split; [apply lookup_insert_eq|]. simpl.
  split_and!; try done; by vm_compute.
Qed.

Lemma require_fresh_decides_witness :
  exists h, HandshakeReconciler_require_fresh reconciler source_instance 130 (start verified_world [] []) =
      (Ok h, start verified_world [] []) /\ InstanceHandshake_is_fresh_at h 130 = true.
Proof.
  destruct (require_fresh_decides reconciler source_instance 130 verified_world [] eq_refl verified_world_wf)
    as [(h & H & _ & _ & _ & Hf & _)|[_ H]]; [lia | |].
  - exists h. split; [exact H | exact Hf].
  - exfalso. apply (H (handshake_challenge_digest handshake) (handshake_row handshake)).
    + apply lookup_insert_eq.
    + split; [reflexivity|]. split; [reflexivity|]. split; vm_compute; [discriminate | reflexivity].
Defined.

Lemma no_handshakes_wf T : handshakes T = ∅ -> handshakes_wf T.
Proof. intros HT d hs. rewrite HT. by rewrite lookup_empty. Qed.

Lemma honest_instance_completes_witness :
  exists h c', handshaking = (Ok (HandshakeAttemptOutcome_Verified h), c') /\
    handshake_expires_at h = (125 + HANDSHAKE_LIFETIME_SECONDS)%Z.
Proof.
  destruct (honest_instance_completes kernel_credential PostgresSubscribedInstanceDiscovery credential
    target_instance 120 125 world [7%N]) as (h & c' & H & He & _).
  - reflexivity.
  - vm_compute. reflexivity.
  - vm_compute. reflexivity.
  - lia.
  - vm_compute. reflexivity.
  - split; vm_compute; discriminate.
  - split; vm_compute; discriminate.
  - apply no_handshakes_wf. vm_compute. reflexivity.
  - eexists. vm_compute. reflexivity.
  - eexists. vm_compute. reflexivity.
  - intros d hs Hd. exfalso. assert (handshakes world = ∅) as He by (vm_compute; reflexivity).
    rewrite He, lookup_empty in Hd. discriminate Hd.
  - vm_compute. reflexivity.
  - exists h, c'. split; [exact H|]. rewrite He. vm_compute. reflexivity.
Defined.

(** The source itself subscribes, too. *)
Definition mutual_world : Tables :=
  with_subscriptions
    (<[uuid_of_N 51 := MkSubscriptionRow (uuid_of_N 10) "demo.done" "inclusive" 10 None]> ∅) world.

#[local] Notation discovery :=
  (PostgresDiscovery_eligible_subscribed_instances 120 (start mutual_world [] [])).

Lemma discovery_is_exact_witness :
  exists l, discovery = (Ok l, discovery.2) /\ length l = 1 /\
    forall i, i ∈ l -> RegisteredInstance_is_eligible_at i 120 = true.
Proof.
  assert (is_ok discovery.1 = true) as Hok by (vm_compute; reflexivity).
  destruct (ran discovery Hok) as [l H]. exists l. split; [exact H|]. split.
  - assert (match discovery.1 with Ok l => length l | Err _ => 0 end = 1) as Hl by (vm_compute; reflexivity).
    rewrite H in Hl. exact Hl.
  - exact (proj2 (proj2 (discovery_is_exact 120 (start mutual_world [] []) l discovery.2 H))).
Defined.

(** ** Enrollment *)

Definition workload : VerifiedWorkload :=
  MkVerifiedWorkload "apps" "source" "sa-uid" "source-0" "pod-uid" [ENROLLMENT_AUDIENCE].
Definition bound_world : Tables :=
  with_enrollment_bindings (<[uuid_of_N 10 := MkBindingRow "apps" "source" "sa-uid" true]> ∅) world.
Definition new_credential : InstanceCredential :=
  InstanceCredential_generate source "another seed" (MkInstanceId (uuid_of_N 32)) (MkKeyId (uuid_of_N 33)).
Definition enrollment_service : EnrollmentService Tables :=
  MkEnrollmentService Tables (constant_reviewer workload) PostgresEnrollmentBindingRepository
    PostgresInstanceRegistry LeasePolicy_default.

#[local] Notation issuing :=
  (EnrollmentService_issue_challenge_for_workload enrollment_service "token" "pod-uid" 200
     (start bound_world [] [8%N])).

Lemma challenge_only_for_bound_workload_witness :
  exists ch binding, issuing = (Ok (source, ch), issuing.2) /\
    seb_enabled binding = true /\ seb_service_account_uid binding = "sa-uid".
Proof.
  assert (is_ok issuing.1 = true) as Hok by (vm_compute; reflexivity).
  destruct (ran issuing Hok) as [[s ch] H].
  assert (s = source) as ->.
  { assert (match issuing.1 with Ok (s, _) => Some s | Err _ => None end = Some source) as Hs
      by (vm_compute; reflexivity).
    rewrite H in Hs. simpl in Hs. injection Hs as Hs. exact Hs. }
  destruct (challenge_only_for_bound_workload (constant_reviewer workload) LeasePolicy_default
    PostgresInstanceRegistry "token" "pod-uid" 200 (start bound_world [] [8%N]) source ch issuing.2 H)
    as (w & c1 & binding & Hw & _ & _ & _ & He & _ & _ & Hu & _).
  exists ch, binding. split; [exact H|]. split; [exact He|]. rewrite Hu. injection Hw as <- _. reflexivity.
Defined.

Definition enrollment_token : EnrollmentChallenge :=
  MkEnrollmentChallenge (be_bytes CHALLENGE_LENGTH 8%N).
Definition issued_world : Tables :=
  with_enrollment_challenges
    (<[sha256 (EnrollmentChallenge_as_bytes enrollment_token) :=
         MkEnrollmentChallengeRow (uuid_of_N 10) (200 + ENROLLMENT_CHALLENGE_LIFETIME_SECONDS) None]> ∅)
    bound_world.
Definition enrollment : EnrollmentRequest :=
  the (EnrollmentRequest_sign new_credential enrollment_token "https://source-2" "pod-uid" "token") eq_refl.

#[local] Notation enrolling :=
  (EnrollmentService_authenticate_and_register enrollment_service enrollment 210
     (start issued_world [] [])).

Lemma enrollment_ran : exists i, enrolling = (Ok i, enrolling.2).
Proof. apply ran. vm_compute. reflexivity. Qed.

Lemma enrollment_is_authorized_witness :
  exists i, enrolling = (Ok i, enrolling.2) /\
    instance_lease_expires_at i = (210 + lease_duration_seconds LeasePolicy_default)%Z.
Proof.
  destruct enrollment_ran as [i H]. exists i. split; [exact H|].
  pose proof (enrollment_is_authorized (constant_reviewer workload) LeasePolicy_default enrollment 210
    (start issued_world [] []) i enrolling.2 H) as Ha. cbv zeta in Ha.
  destruct Ha as (_ & _ & _ & _ & Hl & _). exact Hl.
Defined.

Lemma enrollment_challenge_used_once_witness :
  is_ok enrolling.1 = true /\
  refused (EnrollmentService_authenticate_and_register enrollment_service enrollment 220)
    (start (durable enrolling.2) [] []).
Proof.
  destruct enrollment_ran as [i H]. split; [rewrite H; reflexivity|].
  refine (enrollment_challenge_used_once (constant_reviewer workload) LeasePolicy_default enrollment 210
    (start issued_world [] []) i enrolling.2 (constant_reviewer workload) LeasePolicy_default enrollment 220
    (durable enrolling.2) [] [] H eq_refl _ _).
  - reflexivity.
  - intros token audience c. reflexivity.
Defined.

Lemma bindings_of_source :
  bindings_of_workload "apps" "source" "sa-uid" bound_world =
  [(uuid_of_N 10, MkBindingRow "apps" "source" "sa-uid" true)].
Proof. vm_compute. reflexivity. Qed.

Lemma enrollment_works_witness :
  exists request T1 T2,
    EnrollmentRequest_sign new_credential enrollment_token "https://source-2" "pod-uid" "token" = Ok request /\
    EnrollmentService_authenticate_and_register enrollment_service request 210 (start T1 [] []) =
      (Ok (MkRegisteredInstance (credential_public_key new_credential) "https://source-2" 210
             (210 + lease_duration_seconds LeasePolicy_default) 1 None), MkConn T2 T2 [] []).
Proof.
  destruct (enrollment_works workload LeasePolicy_default new_credential "https://source-2" "token" 200 210
    bound_world [8%N]) as (T1 & T2 & request & _ & Hs & Hr);
    [.. | exists request, T1, T2; split; [exact Hs | exact Hr]].
  - apply list_elem_of_here.
  - split; [exact bindings_of_source | vm_compute; reflexivity].
  - reflexivity.
  - vm_compute. reflexivity.
  - repeat split; vm_compute; reflexivity.
  - eexists. vm_compute. reflexivity.
  - vm_compute. reflexivity.
  - split; [|split; [|split]]; vm_compute; (reflexivity || discriminate).
  - vm_compute. reflexivity.
  - vm_compute. reflexivity.
  - split; vm_compute; (reflexivity || discriminate).
  - vm_compute. reflexivity.
  - split; vm_compute; (reflexivity || discriminate).
  - lia.
  - vm_compute. reflexivity.
  - split; vm_compute; discriminate.
  - vm_compute. reflexivity.
  - split; vm_compute; discriminate.
Defined.

(** ** Requests on the wire *)

(** The signed request of [Witnesses], in two portions *)
Definition wire : bytes := wire_request request.
Definition stream : Stream := [Data (str_take 40 wire); Data (str_drop 40 wire)].

Lemma stream_delivers : delivers stream wire.
Proof.
  split; [|vm_compute; reflexivity].
  repeat constructor; eexists; (split; [reflexivity | vm_compute; discriminate]).
Qed.

#[local] Notation reading := (read_request stream).

Lemma read_request_terminates_witness :
  exists r stream', read_request_fuel (header_fuel + 1) body_fuel stream = Some (r, stream').
Proof.
  destruct (read_request_terminates (header_fuel + 1) body_fuel stream) as (r & stream' & H & _);
    [lia | lia | exists r, stream'; exact H].
Defined.

Lemma read_request_bounds_witness :
  exists parsed stream', reading = Some (Ok parsed, stream') /\
    parsed_path parsed = "/v1/requests" /\ (len (parsed_body parsed) <= MAX_ENROLLMENT_BODY_BYTES)%Z.
Proof.
  destruct reading as [[[parsed|e] stream']|] eqn:H; [|exfalso..].
  2-3: assert (match reading with Some (Ok _, _) => true | _ => false end = true) as Hok
    by (vm_compute; reflexivity); rewrite H in Hok; discriminate Hok.
  exists parsed, stream'. split; [reflexivity|]. split.
  - assert (match reading with Some (Ok p, _) => parsed_path p | _ => EmptyString end = "/v1/requests")
      as Hp by (vm_compute; reflexivity). rewrite H in Hp. exact Hp.
  - exact (proj1 (proj2 (read_request_bounds stream parsed stream' H))).
Defined.

Lemma wire_clear : clear_of_limit wire.
Proof.
  intros p Hp. left. assert (find_header_end wire = Some (String.length (wire_head request))) as H
    by (vm_compute; reflexivity).
  rewrite H in Hp. injection Hp as <-. vm_compute. discriminate.
Qed.

Lemma read_request_is_parse_witness : exists stream', reading = Some (parse_request wire, stream').
Proof. exact (read_request_is_parse stream wire stream_delivers wire_clear). Defined.

Lemma request_parts : SignedServiceRequest_sign (signed_parts request) credential 110 130
  "nonce-0123456789abcdef" = Ok request.
Proof. vm_compute. reflexivity. Qed.

Lemma signed_request_arrives_witness :
  exists parsed stream' governed, reading = Some (Ok parsed, stream') /\
    ParsedRequest_as_governed parsed = Some governed /\
    GovernedHttpRequest_into_signed governed = Ok request.
Proof.
  destruct (signed_request_arrives (signed_parts request) credential 110 130 "nonce-0123456789abcdef"
    request stream parts_are_wf request_parts) as (parsed & stream' & governed & H1 & H2 & H3 & _);
    [vm_compute; discriminate | vm_compute; discriminate | vm_compute; discriminate
     | exact stream_delivers | exists parsed, stream', governed; split; [exact H1 | split; [exact H2 | exact H3]]].
Defined.

(** ** The remote evaluator *)

Definition evaluate_codec : EvaluateCodec :=
  MkEvaluateCodec (fun _ => Ok "body")
    (fun body => if String.eqb body "allow" then Ok (MkEvaluateResponse "allow" "v1") else Err "unreadable").
(** A client whose values are unit and that is always answered the same *)
Definition client : InfernalClient :=
  MkInfernalClient unit unit unit unit (Ok tt) (fun _ => Ok tt) (fun _ _ _ _ => Ok tt)
    (fun _ _ _ _ _ _ => Ok tt) (fun _ _ _ _ _ _ => Ok tt) (fun _ _ => Ok (200%Z, "allow")).
Definition draws : EvaluationDraws := MkEvaluationDraws (uuid_of_N 1) (Ok "nonce") 112.

Lemma evaluate_only_answered_witness :
  exists evaluation answer,
    HttpPolicyEvaluator_evaluate evaluate_codec client (MkHttpPolicyEvaluator client tt kernel_credential "policy")
      draws facts [] = Ok evaluation /\
    evaluate_verdict answer = "allow" /\ evaluation_verdict evaluation = Verdict_Allow.
Proof.
  destruct (HttpPolicyEvaluator_evaluate evaluate_codec client
    (MkHttpPolicyEvaluator client tt kernel_credential "policy") draws facts []) as [evaluation|e] eqn:H;
    [|vm_compute in H; discriminate H].
  destruct (evaluate_only_answered evaluate_codec client
    (MkHttpPolicyEvaluator client tt kernel_credential "policy") draws facts [] evaluation H)
    as (signed & status & body & answer & _ & Hsend & _ & Hbody & Hallow & _).
  exists evaluation, answer. split; [reflexivity|].
  injection Hsend as <- <-. injection Hbody as <-. split; [reflexivity | apply Hallow; reflexivity].
Defined.

(** ** The endpoints *)

(** A codec for one submission; responses have fixed bodies. *)
Definition serde : Serde := {|
  serde_to_string _ := Some "{}";
  from_slice_create_subscription _ := None;
  from_slice_submit_request body :=
    if String.eqb body "{}"
    then Some (MkSubmitRequestRequest "demo.do" "all" (uuid_print (uuid_of_N 1)) (uuid_print (uuid_of_N 2)))
    else None;
  from_slice_publish_schema _ := None;
  from_slice_claim _ := None;
  from_slice_renew _ := None;
  from_slice_fenced_action _ := None;
  from_slice_instance_renewal _ := None;
  from_slice_workload_challenge _ := None;
  from_slice_enrollment_submission _ := None |}.
#[local] Existing Instance serde.

Definition environment : Environment :=
  MkEnvironment (fun _ => None) (fun _ => None) (Err EnrollmentError_TokenRejected) draws.

Definition source_key : InstancePublicKey := credential_public_key credential.

Lemma source_in_good_standing : in_good_standing world source_key 112.
Proof.
  constructor.
  - assert (match find_instance_sql (InstanceId_as_uuid (public_instance_id source_key)) world with
      | Some d => match instance_from_row d with
          | Ok i => bool_decide (instance_public_key i = source_key) && RegisteredInstance_is_eligible_at i 112
          | Err _ => false end
      | None => false end = true) as H by (vm_compute; reflexivity).
    destruct (find_instance_sql _ world) as [d|] eqn:Hd; [|discriminate H].
    destruct (instance_from_row d) as [i|] eqn:Hi; [|discriminate H].
    apply andb_true_iff in H as [Hk%bool_decide_eq_true He]. by exists d, i.
  - eexists. vm_compute. reflexivity.
  - eexists. vm_compute. reflexivity.
  - eexists. vm_compute. reflexivity.
  - exists (MkAdmissionRow true 4 0). split; [vm_compute; reflexivity|]. split; [reflexivity|]. simpl. lia.
Qed.

#[local] Notation verified :=
  (verified_as source_key (signed_parts request) 110 130 "nonce-0123456789abcdef" request).

Lemma honest_request_is_served_witness :
  exists parsed stream', reading = Some (Ok parsed, stream') /\
    dispatch evaluate_codec client environment parsed (Application_new kernel_credential)
      (start world [] [112%N]) =
    dispatch_admitted evaluate_codec client environment parsed (Application_new kernel_credential) verified
      (start (replay_effect world (reservation_for verified 112)) [] []).
Proof.
  assert (Z.min (Z.of_N (hd 0%N [112%N] mod 2 ^ 64)) i64_max = 112%Z) as Hnow by (vm_compute; reflexivity).
  pose proof (honest_request_is_served evaluate_codec client environment kernel_credential world [112%N]
    credential (signed_parts request) 110 130 "nonce-0123456789abcdef" request stream ReplayDisposition_Fresh)
    as H.
  cbv zeta in H. rewrite Hnow in H. apply H; clear H.
  - reflexivity.
  - exact parts_are_wf.
  - split; vm_compute; discriminate.
  - split; vm_compute; discriminate.
  - exact request_parts.
  - vm_compute. reflexivity.
  - vm_compute. reflexivity.
  - vm_compute. discriminate.
  - vm_compute. discriminate.
  - exact stream_delivers.
  - vm_compute. reflexivity.
  - exact source_in_good_standing.
  - vm_compute. reflexivity.
Defined.

Definition honest_parsed : ParsedRequest :=
  match reading with Some (Ok parsed, _) => parsed | _ => parsed_request "GET" "/" no_headers "" end.

#[local] Notation honest_run :=
  (dispatch_governed evaluate_codec client environment honest_parsed (Application_new kernel_credential)
     (start world [] [112%N])).


Definition submission : ParsedRequest :=
  parsed_request "POST" "/v1/requests"
    (MkHeaders None None (Some "application/json") None None None None None None) "{}".

#[local] Notation kernel_router :=
  (MkSubscriptionRouter _ PostgresSubscriptionRepository PostgresRouteRepository).
#[local] Notation submitting :=
  (submit_request submission source (MkRequestId (uuid_of_N 77)) PostgresRequestRepository
     (postgres_authority evaluator evaluator_id) kernel_router (start granted_world [] [112%N; 5%N; 6%N])).

Lemma submissions_are_authorized_witness :
  exists row decision,
    accepted_requests (durable submitting.2) !! (uuid_of_N 10, uuid_of_N 77) = Some row /\
    authority_decisions (durable submitting.2) !! DecisionId_as_uuid (decision_id decision) =
      Some (decision_row decision) /\
    ActionName_as_str (facts_action (decision_facts decision)) = ar_action row.
Proof.
  assert (is_Some (accepted_requests (durable submitting.2) !! (uuid_of_N 10, uuid_of_N 77))) as [row Hrow]
    by (eexists; vm_compute; reflexivity).
  pose proof (submissions_are_authorized source evaluator evaluator_id submission (MkRequestId (uuid_of_N 77))
    (start granted_world [] [112%N; 5%N; 6%N]) (uuid_of_N 10, uuid_of_N 77) row) as H.
  destruct submitting as [r c'] eqn:Hrun. simpl in Hrow.
  destruct H as (_ & decision & grants & evaluation & _ & Hd & _ & _ & Ha & _);
    [vm_compute; reflexivity | exact Hrow |].
  exists row, decision. split; [exact Hrow|]. split; [exact Hd | exact Ha].
Defined.

#[local] Notation listing now :=
  (EligibleRouteQuery_eligible_for
     (MkEligibleRouteQuery PostgresRouteRepository PostgresWorkClaimRepository) worker now
     (start claimed_world [] [])).

(** The route of the claimed world: not listed while it is held, listed after. *)
Lemma eligible_routes_are_claimable_witness :
  exists l, listing 450 = (Ok l, start claimed_world [] []) /\ length l = 1 /\
    listing 350 = (Ok [], start claimed_world [] []).
Proof.
  assert (routes_wf claimed_world) as Hr.
  { destruct routed_world_wf as [Hu Hc]. split.
    - intros i r i' r' Hi Hi'. exact (Hu i r i' r' Hi Hi').
    - intros i r Hi. exact (Hc i r Hi). }
  pose proof (eligible_routes_are_claimable worker claimed_world [] 450 Hr claimed_world_claims) as H1.
  pose proof (eligible_routes_are_claimable worker claimed_world [] 350 Hr claimed_world_claims) as H2.
  eexists. split; [apply H1; lia|]. split; [vm_compute; reflexivity|].
  rewrite H2 by lia. f_equal.
Defined.

Definition subscribed_request : RequestId := MkRequestId (uuid_of_N 70).
#[local] Notation routing_run :=
  (SubscriptionRouter_routes kernel_router source subscribed_request (MkActionName "demo.do") 210%Z
     (start accepted_world [] [80%N])).

Lemma routing_reaches_subscribers_witness :
  exists routes rid rrow, routing_run = (Ok routes, routing_run.2) /\
    request_routes (durable routing_run.2) !! rid = Some rrow /\ rr_subscription_id rrow = uuid_of_N 50.
Proof.
  assert (is_ok routing_run.1 = true) as Hok by (vm_compute; reflexivity).
  destruct (ran routing_run Hok) as [routes H].
  destruct (routing_reaches_subscribers source subscribed_request 210 "demo.do" (MkActionName "demo.do")
    (start accepted_world [] [80%N]) routes routing_run.2) as [Hall _];
    [apply no_routes_wf; vm_compute; reflexivity | vm_compute; reflexivity | exact H |].
  destruct (Hall (uuid_of_N 50) (MkSubscriptionRow (uuid_of_N 20) "demo.do" "inclusive" 10 None)
    eq_refl eq_refl eq_refl) as (rid & rrow & Hr & _ & _ & Hs).
  exists routes, rid, rrow. split; [exact H|]. split; [exact Hr | exact Hs].
Defined.

Lemma routed_request_only_for_destination_witness :
  find_routed_request (uuid_print (uuid_of_N 80)) source PostgresRouteRepository PostgresRequestRepository
    (start routed_world [] []) =
  (Ok (json_error "404 Not Found" error_claim_not_found), start routed_world [] []).
Proof.
  apply (proj2 (routed_request_only_for_destination source)); [exact routed_world_wf|].
  intros row. simpl. intros [_ <-]%lookup_singleton_Some. intros Heq.
  apply (f_equal uuid_value) in Heq. discriminate Heq.
Defined.
