(* ===== verification/RegistrarWitnesses.v ===== *)
(** * RegistrarWitnesses: the registrar's theorems at concrete inputs

    A database with the reserved schema versions only, and one service with a
    binding and a grant. *)

From S2P Require Import Prelude Text Platform Process Database Schema Identity RequestNames Authority.
From S2P Require Import PostgresAuthority Enrollment Administration Registrar Reconciliation Witnesses.

#[local] Existing Instance Reference.platform.
#[local] Existing Instance Reference.laws.

Definition courier_id : Uuid := uuid_of_N 10.
Definition courier_grant : GrantSpec := MkGrantSpec "subscription.create" "*".

Definition courier (spelling : string) : ServiceSpec :=
  MkServiceSpec spelling "service" "courier" (Some "apps") (Some "courier") true [courier_grant].
Definition courier_manifest (spelling : string) : Manifest := MkManifest [courier spelling].

Definition printed : string := uuid_print courier_id.
(** PostgreSQL reads a uuid without its hyphens. *)
Definition unhyphenated : string := Reference.print_hex 32 10.

Definition cluster : ServiceAccountResolver := MkServiceAccountResolver (fun _ _ => Ok "uid-1").

Definition sentinel (kind : string) : SchemaVersionRow :=
  MkSchemaVersionRow kind "kernel.none" 1 courier_id (sha256 "none") None 0 "published".
Definition empty_world : AdminTables := MkAdminTables
  (with_schema_versions
    (<[uuid_of_N 1 := sentinel "artifact"]> (<[uuid_of_N 2 := sentinel "permission_policy"]> ∅)) no_tables)
  ∅ [] [].

Definition first_draws : list N := [100; 101; 102; 103; 104; 105; 106; 107]%N.
Definition first_conn : Conn AdminTables := start empty_world [] first_draws.
Definition first_run (spelling : string) :=
  reconcile owner_role 1 cluster "ops" (courier_manifest spelling) first_conn.

Lemma one_id spelling : NoDup (ids (manifest_services (courier_manifest spelling))).
Proof. apply NoDup_singleton. Qed.

Lemma first_draws_new n : n ∈ supply first_conn -> new_to (durable first_conn) n.
Proof. intros _. split; [by intros h ?%elem_of_nil | apply lookup_empty]. Qed.

Lemma courier_listed spelling : courier spelling ∈ manifest_services (courier_manifest spelling).
Proof. left. Qed.

Lemma reconcile_establishes_witness : exists changes id,
  first_run printed = (Ok changes, (first_run printed).2) /\ names (courier printed) id /\
  in_place cluster (supply first_conn) (courier printed) id (kernel_tables (durable (first_run printed).2)).
Proof.
  destruct (ran (first_run printed)) as [changes H]; [by vm_compute|].
  destruct (reconcile_establishes owner_role 1 cluster "ops" (courier_manifest printed) first_conn changes
    (first_run printed).2 (one_id _) first_draws_new H) as [_ Hin].
  destruct (Hin _ (courier_listed _)) as (id & Hid & Hp). exists changes, id. exact (conj H (conj Hid Hp)).
Defined.

(** *** The second run *)

Definition suits_ok (T : AdminTables) (n : N) : bool :=
  forallb (fun h => negb (bool_decide (ah_correlation_id h = uuid_of_N n))) (admission_history T)
  && bool_decide (map_Forall (fun _ row => adm_updated_at row <= clock_reading n)%Z
                    (admission (kernel_tables T)))
  && bool_decide (map_Forall (fun _ row => gr_valid_until row = None) (authority_grants (kernel_tables T))).

Lemma suits_ok_suits T n : suits_ok T n = true -> suits T n.
Proof.
  unfold suits_ok. rewrite !andb_true_iff, !bool_decide_eq_true. intros [[Hh Ha] Hg]. constructor.
  - intros h Hin%list_elem_of_In. rewrite forallb_forall in Hh. specialize (Hh h Hin).
    by apply negb_true_iff, bool_decide_eq_false in Hh.
  - intros id row Hrow. exact (Ha id row Hrow).
  - intros id row until Hrow. by rewrite (Hg id row Hrow).
Qed.

Definition second_draws : list N := [200; 201; 202; 203; 204]%N.

Lemma second_draws_suit : forallb (suits_ok (durable (first_run printed).2)) second_draws = true.
Proof. by vm_compute. Qed.

Lemma reconcile_is_idempotent_witness : exists changes T' ns,
  reconcile owner_role 1 cluster "ops" (courier_manifest printed)
    (start (durable (first_run printed).2) [] second_draws) = (Ok changes, MkConn T' T' [] ns) /\
  kernel_tables T' = kernel_tables (durable (first_run printed).2).
Proof.
  destruct (ran (first_run printed)) as [changes H]; [by vm_compute|].
  destruct (reconcile_is_idempotent owner_role 1 cluster "ops" (courier_manifest printed) first_conn changes
    (first_run printed).2 second_draws (one_id _) first_draws_new H) as (ch & T' & ns & Hr & _ & Hk & _).
  - intros n Hn%list_elem_of_In. apply suits_ok_suits.
    exact (proj1 (forallb_forall _ _) second_draws_suit n Hn).
  - vm_compute. lia.
  - exists ch, T', ns. exact (conj Hr Hk).
Defined.

(** *** Pruning *)

Definition pruning (spelling : string) (manifest : Manifest) :=
  prune manifest "ops" (first_run spelling).2.

Lemma prune_withdraws_witness : exists removed,
  pruning printed (MkManifest []) = (Ok removed, (pruning printed (MkManifest [])).2) /\
  removed <> [] /\
  forall id row, authority_grants (kernel_tables (durable (pruning printed (MkManifest [])).2)) !! id =
    Some row -> gr_revoked_at row = None -> grant_listed (MkManifest []) row.
Proof.
  assert (match (pruning printed (MkManifest [])).1 with Ok (_ :: _) => true | _ => false end = true)
    as Hsome by (by vm_compute).
  destruct (ran (pruning printed (MkManifest []))) as [removed H]; [by vm_compute|].
  exists removed. split; [exact H|]. rewrite H in Hsome. split; [by intros ->|].
  exact (proj1 (proj2 (proj2 (prune_withdraws (MkManifest []) "ops" (first_run printed).2 removed _ H)))).
Defined.

Lemma prune_compares_spelling_witness :
  names (courier unhyphenated) courier_id /\
  (forall row, enrollment_bindings (kernel_tables
      (durable (pruning unhyphenated (courier_manifest unhyphenated)).2)) !! courier_id = Some row ->
    seb_enabled row = false).
Proof.
  assert (names (courier unhyphenated) courier_id) as Hid by (vm_compute; reflexivity).
  destruct (ran (first_run unhyphenated)) as [changes H]; [by vm_compute|].
  destruct (ran (pruning unhyphenated (courier_manifest unhyphenated))) as [removed Hp]; [by vm_compute|].
  split; [exact Hid|].
  apply (prune_compares_spelling owner_role 1 cluster "ops" (courier_manifest unhyphenated) first_conn
    changes (first_run unhyphenated).2 removed _ (courier unhyphenated) courier_id (one_id _)
    first_draws_new H Hp (courier_listed _) Hid).
  intros other ->%list_elem_of_singleton. vm_compute. discriminate.
Defined.

(** *** The role *)

Definition known_world : AdminTables := MkAdminTables
  (with_identities (<[courier_id := MkIdentityRow "service" "old name" "active"]> ∅)
   (with_admission (<[courier_id := MkAdmissionRow false 0 0]> ∅) (kernel_tables empty_world))) ∅ [] [].
Definition known_conn : Conn AdminTables := start known_world [] first_draws.
Definition known_run :=
  reconcile infernal_registrar 0 cluster "ops" (courier_manifest printed) known_conn.

Lemma registrar_role_registers_nobody_witness :
  is_Some (identities (kernel_tables (durable known_conn)) !! courier_id) /\
  is_ok (reconcile infernal_registrar 0 cluster "ops" (courier_manifest printed) first_conn).1 = false.
Proof.
  destruct (ran known_run) as [changes H]; [by vm_compute|]. split; [|by vm_compute].
  exact (registrar_role_registers_nobody 0 cluster "ops" (courier_manifest printed) known_conn changes _
    (courier printed) courier_id H (courier_listed _) (uuid_parse_print courier_id)).
Defined.

(** *** A grant for another artifact *)

Definition other_grant : GrantRow :=
  MkGrantRow courier_id "subscription.create" "*" (uuid_of_N 7) (uuid_of_N 8) None 0 None None.
Definition granted_world : AdminTables := MkAdminTables
  (with_authority_grants (<[uuid_of_N 50 := other_grant]> ∅) (kernel_tables known_world)) ∅ [] [].
Definition granted_conn : Conn AdminTables := start granted_world [] first_draws.
Definition granted_run :=
  reconcile infernal_registrar 0 cluster "ops" (courier_manifest printed) granted_conn.

Definition subscribing : PolicyFacts :=
  MkPolicyFacts (MkActorId courier_id) (MkActionName "subscription.create") (MkScope "*")
    (MkSchemaVersionRefs (MkSchemaVersionId (uuid_of_N 1)) (MkSchemaVersionId (uuid_of_N 2))) None.

Lemma granted_covered : covered (courier printed) courier_id granted_world.
Proof.
  intros grant ->%list_elem_of_singleton. exists (uuid_of_N 50), other_grant.
  split; [apply lookup_insert_eq|]. intros now. by apply grant_live_intro.
Qed.

Lemma reconcile_counts_any_version_witness : exists changes,
  granted_run = (Ok changes, granted_run.2) /\
  PostgresAuthority_matching_grants subscribing 112%Z
    (start (kernel_tables (durable granted_run.2)) [] []) =
    (Ok [], start (kernel_tables (durable granted_run.2)) [] []).
Proof.
  destruct (ran granted_run) as [changes H]; [by vm_compute|]. exists changes. split; [exact H|].
  apply (reconcile_counts_any_version infernal_registrar 0 cluster "ops" (courier_manifest printed)
    granted_conn changes _ (courier printed) courier_id subscribing 112%Z [] (one_id _) H
    (courier_listed _) (uuid_parse_print courier_id) granted_covered eq_refl).
  intros gid row Hrow _. change (({[uuid_of_N 50 := other_grant]} : gmap Uuid GrantRow) !! gid = Some row) in Hrow.
  apply lookup_singleton_Some in Hrow as [_ <-]. vm_compute. discriminate.
Defined.

(** *** A whole run *)

Definition process_environment : Process (HttpClient unit) := MkProcess
  (fun name => if String.eqb name "DATABASE_URL" then Some "postgres://db"
               else if String.eqb name "REGISTRAR_MANIFEST" then Some "manifest.json"
               else if String.eqb name "REGISTRAR_PRUNE" then Some "true" else None)
  (fun _ => Ok printed) (fun _ => Ok "") (fun pem => Ok pem)
  (fun _ => Ok (fun _ _ => Ok (MkApiResponse 200 "200 OK" (Ok tt)))).

Definition whole_run :=
  run unit (fun v _ => Some v) (fun _ => Some "uid-1") (fun text => Ok (courier_manifest text))
    owner_role 1 process_environment first_conn.

Lemma registrar_stays_in_role_witness :
  is_ok whole_run.1 = true /\ in_role empty_world (durable whole_run.2).
Proof.
  split; [by vm_compute|].
  exact (registrar_stays_in_role unit (fun v _ => Some v) (fun _ => Some "uid-1")
    (fun text => Ok (courier_manifest text)) owner_role 1 process_environment first_conn).
Defined.
