(* ===== verification/DeploymentWitnesses.v ===== *)
(** * DeploymentWitnesses: startup and deployment at concrete inputs

    A new database, a configured process, and the cluster's answers for one pod. *)

From S2P Require Import Prelude Text Platform Process Database Schema Identity InstanceKeys.
From S2P Require Import InstanceRegistry RequestNames Authority PostgresAuthority Enrollment.
From S2P Require Import TokenReviewer PolicyClient Wiring HttpDto HttpParsing Http Administration.
From S2P Require Import Startup Registrar Reconciliation Deployment Witnesses BoundaryWitnesses.
From S2P Require Import RegistrarWitnesses.

#[local] Existing Instance Reference.platform.
#[local] Existing Instance Reference.laws.

(** ** Startup *)

Definition kernel_process : Process unit := MkProcess
  (fun name => if String.eqb name "DATABASE_URL" then Some "postgres://db"
               else if String.eqb name "INFERNAL_LAW_SERVICE_ID" then Some (uuid_print (uuid_of_N 90))
               else None)
  (fun _ => Ok "reviewer-token") (fun _ => Ok "") (fun pem => Ok pem) (fun _ => Ok tt).

Definition parse_config (url : string) : Result PostgresError string := Ok url.

Definition new_cluster : Cluster :=
  MkCluster (MkAdminTables no_tables ∅ [] []) ∅ (<["vector" := "0.7.0"]> ∅).

Definition startup : Result WiringError Application * Conn Cluster :=
  Application_from_env parse_config kernel_process (start new_cluster [] [5; 6; 7; 8]%N).

Lemma startup_prepares_database_witness : exists app,
  startup = (Ok app, startup.2) /\ migrated (durable startup.2).
Proof.
  destruct (ran startup) as [app H]; [by vm_compute|]. exists app. split; [exact H|].
  apply (proj2 (startup_prepares_database parse_config kernel_process (start new_cluster [] [5; 6; 7; 8]%N))
    app). unfold startup in H. rewrite H. reflexivity.
Defined.

Lemma kernel_configured : configured parse_config kernel_process (MkActorId (uuid_of_N 90)).
Proof.
  split.
  - exists (uuid_print (uuid_of_N 90)). split; [reflexivity|]. unfold ActorId_from_str.
    by rewrite uuid_parse_print.
  - by exists "postgres://db", "postgres://db".
Qed.

Lemma restart_changes_nothing_witness : exists app C' ns,
  Application_from_env parse_config kernel_process (start new_cluster [] [5; 6]%N) =
    (Ok app, MkConn C' C' [] ns) /\ migrated C' /\
  exists app2 ns2,
    Application_from_env parse_config kernel_process (start C' [] [9]%N) = (Ok app2, MkConn C' C' [] ns2).
Proof.
  destruct (restart_changes_nothing parse_config kernel_process (MkActorId (uuid_of_N 90)) new_cluster
    [5; 6]%N kernel_configured) as (app & C' & ns & Hrun & Hm & _ & Hagain);
    [by exists "0.7.0" | by right|].
  exists app, C', ns. split; [exact Hrun|]. split; [exact Hm | exact (Hagain [9]%N)].
Defined.

(** ** A deployed service is authorized *)

Definition evaluator_service : ServiceSpec :=
  MkServiceSpec (uuid_print (uuid_of_N 99)) "service" "evaluator" None None false [].
Definition deployed_manifest : Manifest := MkManifest [courier printed; evaluator_service].
Definition deployment_draws : list N := [101; 102; 103; 104; 105; 106; 107; 108; 109; 110; 111]%N.

Definition deployment : Result RegistrarError (list (string * list string)) * Conn AdminTables :=
  reconcile owner_role 1 cluster "ops" deployed_manifest
    (start (cluster_tables (durable startup.2)) [] deployment_draws).

Definition allowing : PolicyFacts -> list Grant -> Result AuthorityError PolicyEvaluation :=
  fun _ _ => Ok (MkPolicyEvaluation Verdict_Allow (MkPolicyBundleVersion "bundle-1")).

Lemma started_without_history :
  admission_history (cluster_tables (durable startup.2)) = [] /\
  authority_grants (kernel_tables (cluster_tables (durable startup.2))) = ∅.
Proof. by vm_compute. Qed.

Lemma nothing_listed {A} (Q : A -> Prop) x : x ∈ [] -> Q x.
Proof. intros []%elem_of_nil. Qed.

Lemma deployed_ids : NoDup (ids (manifest_services deployed_manifest)).
Proof.
  apply NoDup_cons. split; [|apply NoDup_singleton].
  intros Heq%list_elem_of_singleton. vm_compute in Heq. discriminate Heq.
Qed.

Lemma deployed_action_is_authorized_witness : exists decision T3,
  AuthorityService_authorize (postgres_authority allowing (MkActorId (uuid_of_N 99)))
    (plain_facts courier_id (MkActionName "subscription.create") (MkScope "*")) 300%Z
    (start (kernel_tables (durable deployment.2)) [] [120]%N) = (Ok decision, MkConn T3 T3 [] []) /\
  AuthorityDecision_is_allowed decision = true.
Proof.
  destruct (ran startup) as [app Hstart]; [by vm_compute|].
  destruct (ran deployment) as [changes Hrun]; [by vm_compute|].
  destruct (deployed_action_is_authorized parse_config kernel_process (start new_cluster [] [5; 6; 7; 8]%N)
    app startup.2 owner_role 1 cluster "ops" deployed_manifest [] deployment_draws changes deployment.2
    (courier printed) courier_id courier_grant (MkActionName "subscription.create") (MkScope "*")
    allowing (MkActorId (uuid_of_N 99)) 300%Z 120%N [] Hstart deployed_ids) as (d & T3 & H1 & H2 & _).
  - intros n _. destruct started_without_history as [Hh Hg]. split.
    + rewrite Hh. exact (nothing_listed _).
    + rewrite Hg. apply lookup_empty.
  - exact Hrun.
  - left.
  - apply uuid_parse_print.
  - left.
  - split; vm_compute; reflexivity.
  - intros gid row. rewrite (proj2 started_without_history), lookup_empty. discriminate.
  - reflexivity.
  - left. reflexivity.
  - constructor; vm_compute; reflexivity.
  - intros grants _. by eexists.
  - eexists. vm_compute. reflexivity.
  - vm_compute. reflexivity.
  - lia.
  - exists d, T3. exact (conj H1 H2).
Defined.

(** ** A deployed service is challenged *)

Definition courier_status : TokenReviewStatus := MkTokenReviewStatus true [ENROLLMENT_AUDIENCE]
  (Some (MkTokenReviewUser "system:serviceaccount:apps:courier" "uid-1"
    (<["authentication.kubernetes.io/pod-name" := ["courier-0"]]>
     (<["authentication.kubernetes.io/pod-uid" := ["pod-1"]]> ∅)))).

Definition api (status : TokenReviewStatus) (_ : unit) (_ _ : string) (request : TokenReviewRequest) :
  Result string (ApiResponse TokenReviewResponse) :=
  Ok (MkApiResponse 201 "201 Created" (Ok (MkTokenReviewResponse (Some status)))).

Definition reviewer : KubernetesTokenReviewer := MkKubernetesTokenReviewer tt
  "https://kubernetes.default.svc/apis/authentication.k8s.io/v1/tokenreviews" "reviewer-token".

Lemma deployed_service_is_challenged_witness : exists T',
  EnrollmentService_issue_challenge_for_workload
    (MkEnrollmentService Tables (kubernetes_reviewer (api courier_status) reviewer)
       PostgresEnrollmentBindingRepository PostgresInstanceRegistry LeasePolicy_default)
    "a token" "pod-1" 400%Z (start (kernel_tables (durable (first_run printed).2)) [] [130]%N) =
  (Ok (MkActorId courier_id, MkEnrollmentChallenge (be_bytes CHALLENGE_LENGTH 130%N)),
   MkConn T' T' [] []).
Proof.
  destruct (ran (first_run printed)) as [changes Hrun]; [by vm_compute|].
  destruct (deployed_service_is_challenged (api courier_status) reviewer owner_role 1 cluster "ops"
    (courier_manifest printed) first_conn changes (first_run printed).2 LeasePolicy_default
    (courier printed) courier_id "apps" "courier" "uid-1" "courier-0" "pod-1" [ENROLLMENT_AUDIENCE]
    "a token" 400%Z [130]%N (one_id _) first_draws_new) as (T' & H & _).
  - intros a b ra rb Ha. simpl in Ha. by rewrite lookup_empty in Ha.
  - exact Hrun.
  - apply courier_listed.
  - apply uuid_parse_print.
  - reflexivity.
  - reflexivity.
  - reflexivity.
  - vm_compute. reflexivity.
  - vm_compute. reflexivity.
  - left.
  - vm_compute. reflexivity.
  - lia.
  - vm_compute. split; discriminate.
  - exists T'. exact H.
Defined.

(** ** Enrollment at the boundary *)

Definition source_status : TokenReviewStatus := MkTokenReviewStatus true [ENROLLMENT_AUDIENCE]
  (Some (MkTokenReviewUser "system:serviceaccount:apps:source" "sa-uid"
    (<["authentication.kubernetes.io/pod-name" := ["source-0"]]>
     (<["authentication.kubernetes.io/pod-uid" := ["pod-uid"]]> ∅)))).

(** A codec for the one submission *)
Definition enrolling_serde : Serde := {|
  serde_to_string _ := Some "{}";
  from_slice_create_subscription _ := None;
  from_slice_submit_request _ := None;
  from_slice_publish_schema _ := None;
  from_slice_claim _ := None;
  from_slice_renew _ := None;
  from_slice_fenced_action _ := None;
  from_slice_instance_renewal _ := None;
  from_slice_workload_challenge _ := None;
  from_slice_enrollment_submission body :=
    if String.eqb body "{}" then Some (EnrollmentSubmissionRequest_from_domain enrollment) else None |}.

Definition enrolling_request : ParsedRequest :=
  parsed_request "POST" "/v1/enrollments"
    (MkHeaders None None (Some "application/json") None None None None None None) "{}".

Definition enrolling_at_boundary : Result Response Response * Conn Tables :=
  dispatch_enrollment (J := enrolling_serde) (kernel_environment (api source_status) kernel_process draws)
    enrolling_request (Application_new kernel_credential) (start issued_world [] [210]%N).

Lemma http_enrollment_is_confirmed_witness :
  service_instances (durable enrolling_at_boundary.2) <> service_instances issued_world /\
  exists reviewer enrollment w namespace account uid pod,
    parse_enrollment_request (J := enrolling_serde) (parsed_content_type enrolling_request)
      (parsed_body enrolling_request) = Ok enrollment /\
    confirmed (api source_status) reviewer (enrollment_workload_token enrollment) ENROLLMENT_AUDIENCE w
      namespace account uid pod.
Proof.
  assert (service_instances (durable enrolling_at_boundary.2) <> service_instances issued_world) as Hne.
  { assert (size (service_instances (durable enrolling_at_boundary.2)) =
      S (size (service_instances issued_world))) as Hsize by (vm_compute; reflexivity).
    intros Heq. exact (n_Sn _ (eq_trans (f_equal size (eq_sym Heq)) Hsize)). }
  split; [exact Hne|].
  destruct (http_enrollment_is_confirmed (J := enrolling_serde) (api source_status) kernel_process draws
    enrolling_request kernel_credential (start issued_world [] [210]%N))
    as [Hsame|(R & e & w & ns & account & uid & pod & _ & He & _ & Hc & _)].
  - destruct (Hne Hsame).
  - exists R, e, w, ns, account, uid, pod. exact (conj He Hc).
Defined.
