(* ===== verification/ServingWitnesses.v ===== *)
(** * ServingWitnesses: a serving kernel at concrete inputs

    A request that is submitted, routed and claimed in the world of [Witnesses] with
    one subscriber, and a process that is started and asked for its health. *)

From S2P Require Import Prelude Text Platform Process Database Schema Identity InstanceKeys.
From S2P Require Import InstanceRegistry RequestNames Authority PostgresAuthority Subscriptions Requests.
From S2P Require Import WorkClaims HttpParsing HttpDto PolicyClient Wiring Http HttpHistory.
From S2P Require Import HttpResponses Administration Startup Deployment Serving.
From S2P Require Import Witnesses BoundaryWitnesses DeploymentWitnesses.

#[local] Existing Instance Reference.platform.
#[local] Existing Instance Reference.laws.
#[local] Existing Instance serde.

Definition subscribed_world : Tables :=
  with_subscriptions
    (<[uuid_of_N 50 := MkSubscriptionRow (uuid_of_N 20) "demo.do" "inclusive" 10 None]> ∅) granted_world.

(** The endpoint draws the time, the decision's id, the server clock and the route's id. *)
Definition submitted : Result Response Response * Conn Tables :=
  submit_request submission source (MkRequestId (uuid_of_N 77)) PostgresRequestRepository
    (postgres_authority evaluator evaluator_id)
    (MkSubscriptionRouter _ PostgresSubscriptionRepository PostgresRouteRepository)
    (start subscribed_world [] [112; 5; 6; 81]%N).

Definition claimed : Result WorkClaimError WorkClaim * Conn Tables :=
  WorkClaimService_claim PostgresWorkClaimRepository (MkRouteId (uuid_of_N 81)) worker worker_instance
    400 200 (start (durable submitted.2) [] [90]%N).

Lemma claimed_is_served : rtc serving subscribed_world (durable claimed.2).
Proof.
  transitivity (durable submitted.2).
  - apply (submit_request_history (rtc serving) source source_instance (fun _ _ => True) evaluator evaluator_id submission
      (MkRequestId (uuid_of_N 77)) (start subscribed_world [] [112; 5; 6; 81]%N)).
  - apply (caller_claim (R := rtc serving) (service := worker) (instance := worker_instance)
      (presented := fun _ _ => True)
      (MkRouteId (uuid_of_N 81)) 400 200 (start (durable submitted.2) [] [90]%N)).
Qed.

Lemma claimed_work_was_allowed_witness : exists claim route row,
  work_claims (durable claimed.2) !! uuid_of_N 90 = Some claim /\
  accepted_requests (durable claimed.2) !! (rr_source_service_id route, rr_request_id route) = Some row /\
  request_allowed (durable claimed.2) (rr_source_service_id route, rr_request_id route) row.
Proof.
  assert (is_Some (work_claims (durable claimed.2) !! uuid_of_N 90)) as [claim Hclaim]
    by (eexists; vm_compute; reflexivity).
  destruct (claimed_work_was_allowed subscribed_world (durable claimed.2) (uuid_of_N 90) claim
    claimed_is_served) as (route & row & _ & Hrow & Ha);
    [vm_compute; reflexivity | vm_compute; reflexivity | vm_compute; reflexivity | exact Hclaim |].
  exists claim, route, row. exact (conj Hclaim (conj Hrow Ha)).
Defined.

Lemma alternating_threads_keep_bounds_witness : exists row,
  accepted_requests (durable claimed.2) !! (uuid_of_N 10, uuid_of_N 77) = Some row /\
  request_allowed (durable claimed.2) (uuid_of_N 10, uuid_of_N 77) row.
Proof.
  assert (is_Some (accepted_requests (durable claimed.2) !! (uuid_of_N 10, uuid_of_N 77))) as [row Hrow]
    by (eexists; vm_compute; reflexivity).
  destruct (alternating_threads_keep_bounds subscribed_world (durable claimed.2) claimed_is_served)
    as (_ & _ & _ & _ & _ & Hnew & _).
  exists row. split; [exact Hrow|]. apply Hnew; [exact Hrow | vm_compute; reflexivity].
Defined.

(** A started process answers a probe of its liveness, after a failed connection. *)
Definition probe : Stream :=
  [Data ("GET /health/live HTTP/1.1" +:+ crlf +:+ "Host: kernel" +:+ crlf +:+ crlf)].
Definition around : Surroundings unit := MkSurroundings client (api courier_status) draws.
Definition listener (address : string) : Result string (Incoming unit) :=
  if String.eqb address "0.0.0.0:8080" then Ok [Err "connection reset"; Ok (probe, around)]
  else Err "address not available".

Definition process_run :=
  main evaluate_codec parse_config kernel_process listener
    (start new_cluster [] [5; 6; 7; 8]%N).

