(* ===== verification/ConsistencyWitnesses.v ===== *)
(** * ConsistencyWitnesses: a database that is reached, at concrete inputs

    A first start, an administrator who registers a service, a schema version that is
    suspended and activated again, and a kernel that serves before and after. *)

From S2P Require Import Prelude Text Platform Process Database Schema Identity RequestNames Authority.
From S2P Require Import PostgresAuthority PolicyClient Wiring Http Administration SchemaStatus.
From S2P Require Import Startup Registrar Constraints Deployment Serving StatusBlind Consistency Programs.
From S2P Require Import Witnesses BoundaryWitnesses DeploymentWitnesses ServingWitnesses.

#[local] Existing Instance Reference.platform.
#[local] Existing Instance Reference.laws.
#[local] Existing Instance serde.

Definition ok_tables {A} (r : Result PostgresError (A * SchemaTables)) : SchemaTables :=
  match r with Ok (_, D) => D | Err _ => empty_database end.

Definition migrated_tables : SchemaTables :=
  match rows_of 100 migrations no_tables with
  | Ok T => with_schema_kernel T empty_database
  | Err _ => empty_database
  end.

Definition registered_tables : SchemaTables :=
  match upsert_identity_sql owner_role (uuid_of_N 20) "service" "courier" 110 (schema_kernel migrated_tables) with
  | Ok (_, K) => with_schema_kernel K migrated_tables
  | Err _ => empty_database
  end.

(** The no-artifact schema version, that the migrations seed *)
Definition seeded_version : Uuid := uuid_of_N 1.

Definition suspended_tables : SchemaTables :=
  ok_tables (set_schema_status seeded_version "suspended" "ops" "incident" (uuid_of_N 301) 120 registered_tables).
Definition reactivated_tables : SchemaTables :=
  ok_tables (set_schema_status seeded_version "active" " ops " "resolved" (uuid_of_N 302) 130 suspended_tables).

Lemma suspended_reachable : reachable suspended_tables.
Proof.
  eapply rtc_l; [apply (step_migrate 100 empty_database (schema_kernel migrated_tables)); by vm_compute|].
  eapply rtc_l.
  { apply (step_administration (with_schema_kernel (schema_kernel migrated_tables) empty_database)).
    apply (administer_identity owner_role (uuid_of_N 20) "service" "courier" 110 _ 1
             (schema_kernel registered_tables)). by vm_compute. }
  apply rtc_once.
  apply (step_status seeded_version "suspended" "ops" "incident" (uuid_of_N 301) 120 _
           ("suspended", 120, "changed")%Z). by vm_compute.
Qed.

Lemma reactivated_reachable : reachable reactivated_tables.
Proof.
  eapply rtc_r; [apply suspended_reachable|].
  apply (step_status seeded_version "active" " ops " "resolved" (uuid_of_N 302) 130 _
           ("active", 130, "changed")%Z). by vm_compute.
Qed.

Lemma reachable_databases_are_consistent_witness : exists row,
  schema_versions (schema_kernel reactivated_tables) !! seeded_version = Some row /\
  schema_version_ok (schema_kernel reactivated_tables) seeded_version row.
Proof.
  assert (is_Some (schema_versions (schema_kernel reactivated_tables) !! seeded_version)) as [row Hrow]
    by (eexists; vm_compute; reflexivity).
  exists row. split; [exact Hrow|].
  exact (c_versions _ (ac_kernel _ (dc_admin _
    (reachable_databases_are_consistent _ reactivated_reachable))) seeded_version row Hrow).
Defined.

Lemma schema_status_is_explained_witness :
  length (calls_on seeded_version reactivated_tables) = 2 /\
  exists first, first ∈ ["published"; "active"] /\
    leads_to first (calls_on seeded_version reactivated_tables) "active".
Proof.
  split; [by vm_compute|].
  assert (exists row, schema_versions (schema_kernel reactivated_tables) !! seeded_version = Some row /\
    sv_status row = "active") as (row & Hrow & Hs) by (eexists; split; vm_compute; reflexivity).
  destruct (trail_status _ (schema_status_is_explained _ reactivated_reachable) seeded_version row Hrow)
    as (first & Hf & Hl).
  rewrite Hs in Hl. exact (ex_intro _ first (conj Hf Hl)).
Defined.

Lemma reachable_reads_answer_witness :
  reads (PostgresAuthority_find SchemaKind_Artifact (MkSchemaName "kernel.no-artifact") 1
    (start (schema_kernel suspended_tables) [] [])).1.
Proof.
  destruct (reachable_reads_answer _ suspended_reachable) as (_ & H & _). apply H.
Defined.

(** A grant whose scope is a tab: an administrator can store it, and no lookup for facts
    with a scope that [Scope::new] made would be able to read it. *)
Definition tab_scope : string := String (Ascii.ascii_of_nat 9) EmptyString.

Definition tab_granted : Result PostgresError (unit * AdminTables) :=
  create_grant (uuid_of_N 401) (uuid_of_N 20) "demo.do" tab_scope seeded_version (uuid_of_N 2) None 0 None
    "ops" "tab" (uuid_of_N 303) 140 (admin_tables registered_tables).

Theorem unreadable_grant_is_stored : exists A row,
  administration (admin_tables registered_tables) A /\
  authority_grants (kernel_tables A) !! uuid_of_N 401 = Some row /\
  is_ok (grant_from_row (uuid_of_N 401, row)) = false.
Proof.
  assert (exists A, tab_granted = Ok (tt, A)) as [A Hg].
  { unfold tab_granted. eexists. vm_compute. reflexivity. }
  assert (authority_grants (kernel_tables A) !! uuid_of_N 401 = Some (MkGrantRow (uuid_of_N 20) "demo.do"
    tab_scope seeded_version (uuid_of_N 2) None 0 None None)) as Hrow.
  { apply create_grant_Ok in Hg as [[-> (existing & He & _)]|(_ & d & a & ->)];
      [by vm_compute in He | apply lookup_insert_eq]. }
  eexists A, _. split; [by eapply administer_grant|]. split; [exact Hrow|]. by vm_compute.
Qed.

(** A failed attempt to connect and a probe *)
Lemma schema_status_changes_no_answer_witness : exists responses c c',
  serve_incoming evaluate_codec kernel_process (Application_new credential)
    [Err "connection reset"; Ok (probe, around)] (start (schema_kernel registered_tables) [] [5; 6]%N) =
    Some (responses, c) /\
  serve_incoming evaluate_codec kernel_process (Application_new credential)
    [Err "connection reset"; Ok (probe, around)] (start (schema_kernel suspended_tables) [] [5; 6]%N) =
    Some (responses, c') /\
  indistinguishable (durable c) (durable c').
Proof.
  apply (schema_status_changes_no_answer evaluate_codec kernel_process credential
    seeded_version "suspended" "ops" "incident" (uuid_of_N 301) 120 registered_tables
    ("suspended", 120, "changed")%Z suspended_tables).
  by vm_compute.
Defined.

(** A process that is started on the empty database and asked for its health *)
Definition served_tables : SchemaTables :=
  match process_run with
  | Some (_, c2) => database [] (with_kernel_tables (durable c2) (cluster_tables (durable startup.2)))
  | None => empty_database
  end.

Lemma process_ran : exists result c2, process_run = Some (result, c2).
Proof.
  assert (match process_run with Some _ => true | None => false end = true) as H by (vm_compute; reflexivity).
  destruct process_run as [[result c2]|]; [by exists result, c2 | discriminate H].
Qed.

Lemma programs_refine_steps_witness :
  rtc database_step empty_database served_tables /\
  is_Some (schema_versions (schema_kernel served_tables) !! seeded_version).
Proof.
  split; [|eexists; vm_compute; reflexivity].
  apply programs_refine_steps. unfold served_tables.
  destruct process_ran as (result & c2 & Hrun). rewrite Hrun.
  exact (kernel_runs serde evaluate_codec unit _ parse_config kernel_process
    listener empty_database (start new_cluster [] [5; 6; 7; 8]%N) result c2 eq_refl Hrun).
Defined.
